(* ===== verification/_CoqProject ===== *)
-Q . S2P
Prelude.v
Text.v
Order.v
BuildState.v
Sql.v
Schema.v
Lists.v
Units.v
WorkerConfig.v
WorkerSettings.v
Version.v
Satisfy.v
Resolve.v
BuildStatus.v
Invariant.v
Fixtures.v
BuildEnqueue.v
WorkerJobs.v
Claim.v
Leases.v
Registry.v
Effects.v
Completion.v
CompletionSpec.v
Dependents.v
Cancel.v
PkgFile.v
PkgDb.v
RepoFiles.v
RepoStage.v
Repository.v
Publish.v
FirstBuilds.v
Enrol.v
ConfigSync.v
PkgCache.v
PkgPool.v
CacheDb.v
System.v
Life.v
Schedule.v
ServerSettings.v
JobDescriptor.v
Reaper.v
Gate.v
