(* ===== verification/Prelude.v ===== *)
(** * A model of AURCache

    (header to be completed) *)
From stdpp Require Export prelude gmap strings list sorting.
From Stdlib Require Export ZArith.

(** ** Results

    A Rust [Result<T, E>] is a sum with the error on the left, so that the
    computation reads left to right with [?] as [bind]. *)
Inductive result (E A : Type) : Type :=
| Ok (a : A)
| Err (e : E).
Global Arguments Ok {_ _} _.
Global Arguments Err {_ _} _.

#[export] Instance result_ret {E} : MRet (result E) := fun A a => Ok a.
#[export] Instance result_bind {E} : MBind (result E) := fun A B f r =>
  match r with Ok a => f a | Err e => Err e end.

#[export] Instance result_fmap {E} : FMap (result E) := fun A B f r =>
  match r with Ok a => Ok (f a) | Err e => Err e end.

Definition is_ok {E A} (r : result E A) : bool :=
  match r with Ok _ => true | Err _ => false end.

Global Instance result_eq_dec `{EqDecision E, EqDecision A} : EqDecision (result E A).
Proof. solve_decision. Defined.

(** [iter.map(f).collect::<Result<Vec<_>, _>>()]: the first error wins. *)
Fixpoint collect_results {E A B} (f : A -> result E B) (l : list A) : result E (list B) :=
  match l with
  | [] => Ok []
  | x :: l => y ← f x; ys ← collect_results f l; Ok (y :: ys)
  end.

Lemma collect_results_ok {E A B} (f : A -> result E B) (g : A -> B) (l : list A) :
  (forall x, x ∈ l -> f x = Ok (g x)) -> collect_results f l = Ok (g <$> l).
Proof.
  induction l as [|x l IH]; intros Hf; simpl; [done|].
  rewrite (Hf x) by apply list_elem_of_here. simpl. rewrite IH; [done|].
  intros y Hy. by apply Hf, list_elem_of_further.
Qed.

(** ** Options *)

(** [Option::is_some_and] and [Option::is_none_or]. *)
Definition is_some_and {A} (p : A -> bool) (o : option A) : bool :=
  match o with Some a => p a | None => false end.

Definition is_none_or {A} (p : A -> bool) (o : option A) : bool :=
  match o with Some a => p a | None => true end.

(** [Option::filter]. *)
Definition option_filter {A} (p : A -> bool) (o : option A) : option A :=
  match o with Some a => if p a then Some a else None | None => None end.

Lemma option_filter_Some {A} (p : A -> bool) o a :
  option_filter p o = Some a <-> o = Some a /\ p a = true.
Proof.
  destruct o as [b|]; simpl; [|by split; [|intros [? _]]].
  destruct (p b) eqn:Hb; split; try done; [by intros [= ->]|by intros [[= ->] ?]|].
  intros [[= ->] ?]. congruence.
Qed.

Lemma is_some_and_true {A} (p : A -> bool) o :
  is_some_and p o = true <-> exists a, o = Some a /\ p a = true.
Proof. destruct o; naive_solver. Qed.

(** ** Lists *)

(** [iter.take_while(p)]. *)
Fixpoint take_while {A} (p : A -> bool) (l : list A) : list A :=
  match l with
  | [] => []
  | x :: l => if p x then x :: take_while p l else []
  end.

Lemma take_while_prefix {A} (p : A -> bool) l : take_while p l `prefix_of` l.
Proof.
  induction l as [|x l IH]; simpl; [apply prefix_nil|].
  destruct (p x); [by apply prefix_cons|apply prefix_nil].
Qed.

Lemma take_while_all {A} (p : A -> bool) l : Forall (fun x => p x = true) (take_while p l).
Proof. induction l as [|x l IH]; simpl; [done|]. destruct (p x) eqn:?; auto. Qed.

Lemma length_take_while_le {A} (p : A -> bool) l : length (take_while p l) <= length l.
Proof. apply prefix_length, take_while_prefix. Qed.

Lemma take_while_full {A} (p : A -> bool) l :
  length l <= length (take_while p l) <-> Forall (fun x => p x = true) l.
Proof.
  induction l as [|x l IH]; simpl; [split; [done|lia]|]. rewrite Forall_cons.
  destruct (p x); simpl; [|split; [lia|by intros [? _]]]. rewrite <- IH. split; [|lia].
  intros. split; [done|lia].
Qed.

(** [slice.iter().min_by_key(key)]: the first of the least elements. *)
Fixpoint min_by_key {A} (key : A -> nat) (l : list A) : option A :=
  match l with
  | [] => None
  | x :: l =>
      match min_by_key key l with
      | None => Some x
      | Some y => if decide (key x <= key y) then Some x else Some y
      end
  end.

Section min_by_key.
Context {A : Type} (key : A -> nat).

Lemma min_by_key_elem l x : min_by_key key l = Some x -> x ∈ l.
Proof.
  revert x; induction l as [|y l IH]; intros x; simpl; [done|].
  destruct (min_by_key key l); repeat case_decide; intros; simplify_eq; set_solver.
Qed.

Lemma min_by_key_le l x y :
  min_by_key key l = Some x -> y ∈ l -> key x <= key y.
Proof.
  revert x; induction l as [|z l IH]; intros x; simpl; [done|].
  rewrite elem_of_cons. destruct (min_by_key key l) as [w|] eqn:Hm.
  - specialize (IH _ eq_refl). case_decide; intros ? [->|Hy]; simplify_eq; try lia.
    all: specialize (IH Hy); lia.
  - intros [= ->] [->|Hy]; [done|]. destruct l; [set_solver|]. simpl in Hm.
    destruct (min_by_key key l); repeat case_decide; done.
Qed.

Lemma min_by_key_None l : min_by_key key l = None <-> l = [].
Proof.
  split; [|by intros ->]. destruct l; simpl; [done|].
  destruct (min_by_key key l); repeat case_decide; done.
Qed.
End min_by_key.

Lemma Forall_filter_of {A} (P Q : A -> Prop) `{!forall x, Decision (P x)} (l : list A) :
  Forall Q l -> Forall Q (filter P l).
Proof. rewrite !Forall_forall. setoid_rewrite list_elem_of_filter. naive_solver. Qed.

Lemma filter_nil_iff {A} (P : A -> Prop) `{!forall x, Decision (P x)} (l : list A) :
  filter P l = [] <-> forall x, x ∈ l -> ~ P x.
Proof.
  split.
  - intros Hf x Hx HP. apply (not_elem_of_nil (A := A) x). rewrite <- Hf.
    by apply list_elem_of_filter.
  - intros Hn. destruct (filter P l) as [|y k] eqn:Hf; [done|].
    assert (y ∈ filter P l) as [HP Hy]%list_elem_of_filter by (rewrite Hf; left).
    by destruct (Hn y Hy).
Qed.

Lemma head_filter_elem {A} (P : A -> Prop) `{!forall x, Decision (P x)} l x :
  head (filter P l) = Some x -> x ∈ l /\ P x.
Proof.
  destruct (filter P l) as [|y m] eqn:Hf; [done|]. intros [= ->].
  assert (x ∈ filter P l) as Hx by (rewrite Hf; left). by apply list_elem_of_filter in Hx as [??].
Qed.

Lemma head_filter_None {A} (P : A -> Prop) `{!forall x, Decision (P x)} l :
  head (filter P l) = None -> forall x, x ∈ l -> ~ P x.
Proof. intros Hh x. apply (proj1 (filter_nil_iff P l)). by destruct (filter P l). Qed.

Lemma filter_ext_elem {A} (P Q : A -> Prop) `{!forall x, Decision (P x)}
    `{!forall x, Decision (Q x)} (l : list A) :
  (forall x, x ∈ l -> P x <-> Q x) -> filter P l = filter Q l.
Proof.
  induction l as [|x l IH]; intros Hl; [done|]. rewrite !filter_cons.
  rewrite IH by (intros y Hy; apply Hl; by right).
  specialize (Hl x (list_elem_of_here x l)). repeat case_decide; tauto.
Qed.

Lemma NoDup_fmap_inj_elem {A B} (f : A -> B) (l : list A) x y :
  NoDup (f <$> l) -> x ∈ l -> y ∈ l -> f x = f y -> x = y.
Proof.
  induction l as [|z l IH]; csimpl; [by intros _ ?%not_elem_of_nil|].
  rewrite NoDup_cons, !elem_of_cons. intros [Hz Hl] [->|Hx] [->|Hy] Heq; try done.
  - destruct Hz. rewrite Heq. by apply list_elem_of_fmap_2.
  - destruct Hz. rewrite <- Heq. by apply list_elem_of_fmap_2.
  - by apply IH.
Qed.

Lemma filter_all {A} (P : A -> Prop) `{!forall x, Decision (P x)} (l : list A) :
  (forall x, x ∈ l -> P x) -> filter P l = l.
Proof.
  induction l as [|x l IH]; intros Hl; [done|]. rewrite filter_cons, decide_True.
  - f_equal. apply IH. intros y Hy. apply Hl. by right.
  - apply Hl. left.
Qed.

(** Two sorted permutations are one list: sorting forgets the input order. *)
Lemma merge_sort_perm {A} (R : relation A)
    `{!forall x y, Decision (R x y), !Transitive R, !Total R, !AntiSymm (=) R} (l k : list A) :
  l ≡ₚ k -> merge_sort R l = merge_sort R k.
Proof.
  intros Hp. apply (Sorted_unique R); [apply Sorted_merge_sort, _..|].
  by rewrite !(merge_sort_Permutation R).
Qed.

(** ** Maps *)

(** A map built by folding insertions, later entries overwriting earlier
    ones: what [iter.collect::<HashMap<_, _>>()] builds. *)
Definition collect_map `{Countable K} {A} (l : list (K * A)) : gmap K A :=
  foldl (fun m '(k, a) => <[k := a]> m) ∅ l.

Lemma collect_map_lookup_gen `{Countable K} {A} (l : list (K * A)) (m : gmap K A) k a :
  NoDup l.*1 -> (forall j, j ∈ l.*1 -> m !! j = None) ->
  foldl (fun m '(k, a) => <[k := a]> m) m l !! k = Some a <-> (k, a) ∈ l \/ m !! k = Some a.
Proof.
  revert m; induction l as [|[j c] l IH]; intros m; csimpl.
  - intros _ _. rewrite elem_of_nil. tauto.
  - rewrite NoDup_cons. intros [Hj Hl] Hm. rewrite IH; [|done|].
    + rewrite elem_of_cons, lookup_insert. case_decide as Hk; [subst|].
      * split; [intros [?|[= ->]]; auto|]. intros [[[= ->]|?]|Hsome]; auto.
        rewrite Hm in Hsome; [done|by left].
      * split; [intros [?|?]; auto|]. intros [[[= -> ->]|?]|?]; auto. by destruct Hk.
    + intros i Hi. rewrite lookup_insert_ne; [apply Hm; by right|]. by intros ->.
Qed.

(** With distinct keys, the map holds exactly the entries. *)
Lemma collect_map_lookup `{Countable K} {A} (l : list (K * A)) k a :
  NoDup l.*1 -> collect_map l !! k = Some a <-> (k, a) ∈ l.
Proof.
  intros Hl. unfold collect_map. rewrite collect_map_lookup_gen; [|done|done].
  rewrite lookup_empty. intuition discriminate.
Qed.

Lemma collect_map_elem `{Countable K} {A} (l : list (K * A)) k a :
  collect_map l !! k = Some a -> (k, a) ∈ l.
Proof.
  unfold collect_map. intros Hk.
  cut ((k, a) ∈ l \/ (∅ : gmap K A) !! k = Some a); [intros [?|?]; done|].
  revert Hk. generalize (∅ : gmap K A) as m.
  induction l as [|[j c] l IH]; intros m Hk; simpl in *; [by right|].
  apply IH in Hk as [Hk|Hk]; [left; by right|]. rewrite lookup_insert in Hk.
  case_decide; simplify_eq; [left; left|by right].
Qed.

Lemma collect_map_is_Some `{Countable K} {A} (l : list (K * A)) k :
  k ∈ l.*1 -> is_Some (collect_map l !! k).
Proof.
  unfold collect_map. generalize (∅ : gmap K A) as m.
  assert (forall (m : gmap K A), is_Some (m !! k) \/ k ∈ l.*1 ->
    is_Some (foldl (fun m '(k, a) => <[k := a]> m) m l !! k)) as Hl; [|eauto].
  induction l as [|[j c] l IH]; intros m; csimpl.
  - intros [?|[]%elem_of_nil]; done.
  - intros Hk. apply IH. rewrite elem_of_cons in Hk. rewrite lookup_insert. case_decide; [by left|].
    destruct Hk as [?|[->|?]]; [by left|done|by right].
Qed.

(** [map.entry(k).or_default().insert(x)] on a map of sets. *)
Definition entry_insert `{Countable K, Countable X} (k : K) (x : X) (m : gmap K (gset X)) :
    gmap K (gset X) :=
  <[k := {[x]} ∪ default ∅ (m !! k)]> m.

Lemma lookup_entry_insert `{Countable K, Countable X} (k j : K) (x : X) (m : gmap K (gset X)) :
  entry_insert k x m !! j =
    if decide (k = j) then Some ({[x]} ∪ default ∅ (m !! j)) else m !! j.
Proof. unfold entry_insert. rewrite lookup_insert. case_decide; by subst. Qed.

(** A list is what satisfies [P] and what does not. *)
Lemma filter_split {A} (P : A -> Prop) `{!forall x, Decision (P x)} l :
  l ≡ₚ filter P l ++ filter (fun x => ~ P x) l.
Proof.
  induction l as [|x l IH]; [done|]. rewrite !filter_cons. destruct (decide (P x)) as [Hx|Hx].
  - rewrite decide_False by tauto. by constructor.
  - rewrite decide_True by done. by rewrite <- Permutation_middle, <- IH.
Qed.

(** ** Integers at their width *)

Definition i32_max : Z := 2147483647.
Definition i32_min : Z := -2147483648.
Definition i64_max : Z := 9223372036854775807.
Definition i64_min : Z := -9223372036854775808.
Definition u64_max : Z := 18446744073709551615.

(** [i32::try_from(n).unwrap_or(i32::MAX)] for a non-negative [n]. *)
Definition i32_saturating (n : Z) : Z :=
  if decide (i32_min <= n <= i32_max)%Z then n else i32_max.

(** ** Automation *)

(** Case analysis on what the source branches on, to closed goals. *)
Ltac crush_match :=
  repeat first [case_match | case_decide | progress simplify_eq/=]; try done; try lia.

Create HintDb aurcache.
#[export] Hint Resolve min_by_key_elem : aurcache.
