(* ===== verification/Text.v ===== *)
(** * Strings as the source uses them

    [str::trim], [str::split], [split_once], [strip_prefix], [strip_suffix],
    [find], [lines] and [join] of the standard library, on strings of bytes.
    White space is the ASCII white space; a Unicode space is an ordinary
    character here. *)
From S2P Require Import Prelude.
From Stdlib Require Import Ascii.

Open Scope string_scope.

Global Arguments String.append !_ _ / : simpl nomatch.

Definition is_space (c : ascii) : bool :=
  match N_of_ascii c with
  | 9 | 10 | 11 | 12 | 13 | 32 => true
  | _ => false
  end%N.

Fixpoint trim_start (s : string) : string :=
  match s with
  | "" => ""
  | String c s' => if is_space c then trim_start s' else s
  end.

Fixpoint trim_end (s : string) : string :=
  match s with
  | "" => ""
  | String c s' =>
      match trim_end s' with
      | "" => if is_space c then "" else String c ""
      | t => String c t
      end
  end.

Definition trim (s : string) : string := trim_end (trim_start s).

Definition is_empty (s : string) : bool := match s with "" => true | _ => false end.

(** [s.split(d)]: always at least one piece. *)
Fixpoint split (d : ascii) (s : string) : list string :=
  match s with
  | "" => [""]
  | String c s' =>
      if decide (c = d) then "" :: split d s'
      else match split d s' with
           | w :: ws => String c w :: ws
           | [] => [String c ""]
           end
  end.

(** [l.join(sep)] *)
Fixpoint join (sep : string) (l : list string) : string :=
  match l with
  | [] => ""
  | [w] => w
  | w :: l => w +:+ sep +:+ join sep l
  end.

(** [s.split_once(d)] *)
Fixpoint split_once (d : ascii) (s : string) : option (string * string) :=
  match s with
  | "" => None
  | String c s' =>
      if decide (c = d) then Some ("", s')
      else '(a, b) ← split_once d s'; Some (String c a, b)
  end.

(** [s.find(pred)], as the two halves it cuts the string into. *)
Fixpoint cut_at (p : ascii -> bool) (s : string) : option (string * string) :=
  match s with
  | "" => None
  | String c s' =>
      if p c then Some ("", s) else '(a, b) ← cut_at p s'; Some (String c a, b)
  end.

Fixpoint strip_prefix (p s : string) : option string :=
  match p, s with
  | "", _ => Some s
  | String a p', String b s' => if decide (a = b) then strip_prefix p' s' else None
  | _, _ => None
  end.

Definition starts_with (p s : string) : bool :=
  match strip_prefix p s with Some _ => true | None => false end.

(** [s.strip_suffix(suf)]: the prefix that [suf] completes to [s]. *)
Fixpoint strip_suffix (suf s : string) : option string :=
  if decide (s = suf) then Some ""
  else match s with
       | "" => None
       | String c s' => String c <$> strip_suffix suf s'
       end.

Definition ends_with (suf s : string) : bool :=
  match strip_suffix suf s with Some _ => true | None => false end.

(** [s.rsplit_once(p)] of a [p] that is not empty: cut at its last occurrence. *)
Fixpoint rsplit_once (p s : string) : option (string * string) :=
  match s with
  | "" => None
  | String c s' =>
      match rsplit_once p s' with
      | Some (a, b) => Some (String c a, b)
      | None => (fun b => ("", b)) <$> strip_prefix p s
      end
  end.

Fixpoint contains_char (d : ascii) (s : string) : bool :=
  match s with
  | "" => false
  | String c s' => if decide (c = d) then true else contains_char d s'
  end.

(** [s.contains(needle)] *)
Fixpoint contains_str (needle s : string) : bool :=
  starts_with needle s ||
  match s with "" => false | String _ s' => contains_str needle s' end.

(** A line feed, and the carriage return a line may end with. *)
Definition line_feed : ascii := ascii_of_nat 10.
Definition carriage_return : string := String (ascii_of_nat 13) "".

(** [Vec::pop] of an empty last piece. *)
Fixpoint drop_last_empty (l : list string) : list string :=
  match l with
  | [] => []
  | [w] => if is_empty w then [] else [w]
  | w :: l => w :: drop_last_empty l
  end.

(** [s.lines()] *)
Definition strip_cr (line : string) : string := default line (strip_suffix carriage_return line).
Definition lines (s : string) : list string :=
  strip_cr <$> drop_last_empty (split line_feed s).

(** [c.to_ascii_lowercase()] and [c.to_ascii_uppercase()]. *)
Definition lower_char (c : ascii) : ascii :=
  let n := N_of_ascii c in
  if decide (65 <= n <= 90)%N then ascii_of_N (n + 32) else c.
Definition upper_char (c : ascii) : ascii :=
  let n := N_of_ascii c in
  if decide (97 <= n <= 122)%N then ascii_of_N (n - 32) else c.
Fixpoint map_chars (f : ascii -> ascii) (s : string) : string :=
  match s with "" => "" | String c s => String (f c) (map_chars f s) end.
Definition to_lowercase : string -> string := map_chars lower_char.
Definition to_uppercase : string -> string := map_chars upper_char.

(** [str::split_whitespace] *)
Fixpoint split_whitespace (s : string) : list string :=
  match s with
  | "" => []
  | String c s' =>
      let ws := split_whitespace s' in
      if is_space c then ws
      else
        match s' with
        | "" => [String c ""]
        | String d _ =>
            if is_space d then String c "" :: ws
            else match ws with w :: ws => String c w :: ws | [] => [String c ""] end
        end
  end.

(** A decimal digit's value. *)
Definition digit_value (c : ascii) : option Z :=
  let n := Z.of_N (N_of_ascii c) in
  if decide (48 <= n <= 57)%Z then Some (n - 48)%Z else None.

(** The digits of [s] after [acc], as long as the number is at most [max]. *)
Fixpoint parse_digits (max acc : Z) (s : string) : option Z :=
  match s with
  | "" => Some acc
  | String c s =>
      d ← digit_value c;
      let acc := (10 * acc + d)%Z in
      if decide (acc <= max)%Z then parse_digits max acc s else None
  end.

(** [s.parse::<uN>()] of an unsigned type whose greatest value is [max]: digits,
    a [+] before them allowed, no overflow. *)
Definition parse_uint (max : Z) (s : string) : option Z :=
  let digits := default s (strip_prefix "+" s) in
  if is_empty digits then None else parse_digits max 0 digits.

(** ** Lemmas *)

Lemma append_nil_r s : s +:+ "" = s.
Proof. induction s as [|c s IH]; simpl; congruence. Qed.

Lemma append_assoc a b c : (a +:+ b) +:+ c = a +:+ (b +:+ c).
Proof. induction a as [|x a IH]; simpl; congruence. Qed.

Lemma trim_end_spec s :
  trim_end s = "" \/ exists t c, trim_end s = t +:+ String c "" /\ is_space c = false.
Proof.
  induction s as [|c s IH]; simpl; [by left|].
  destruct (trim_end s) as [|x t] eqn:Ht.
  - destruct (is_space c) eqn:Hc; [by left|]. right. by exists "", c.
  - destruct IH as [|(u & y & -> & Hy)]; [done|]. right. by exists (String c u), y.
Qed.

Lemma trim_end_idem s : trim_end (trim_end s) = trim_end s.
Proof.
  induction s as [|c s IH]; simpl; [done|].
  destruct (trim_end s) as [|x t] eqn:Ht.
  - destruct (is_space c) eqn:Hc; simpl; by rewrite ?Hc.
  - transitivity (match trim_end (String x t) with
                  | "" => if is_space c then "" else String c ""
                  | u => String c u
                  end); [done|]. by rewrite IH.
Qed.

Lemma trim_start_cons s c t : trim_start s = String c t -> is_space c = false.
Proof.
  induction s as [|x s IH]; simpl; [done|]. destruct (is_space x) eqn:?; [auto|congruence].
Qed.

Lemma trim_start_nospace c t : is_space c = false -> trim_start (String c t) = String c t.
Proof. simpl. by intros ->. Qed.

Lemma trim_idem s : trim (trim s) = trim s.
Proof.
  unfold trim. destruct (trim_start s) as [|c t] eqn:Hs; [done|].
  pose proof (trim_start_cons s c t Hs) as Hc.
  assert (exists u, trim_end (String c t) = String c u) as [u Hu].
  { simpl. destruct (trim_end t); [rewrite Hc|]; eauto. }
  rewrite Hu, (trim_start_nospace c u Hc), <- Hu. apply trim_end_idem.
Qed.

(** Surrounding space does not change what a trimmed reader sees. *)
Lemma trim_space_l s : trim (String " " s) = trim s.
Proof. done. Qed.

Lemma split_ne_nil d s : split d s <> [].
Proof. destruct s as [|c s]; simpl; [done|]. case_decide; [done|]. by destruct (split d s). Qed.

Lemma split_no_delim d s : contains_char d s = false -> split d s = [s].
Proof.
  induction s as [|c s IH]; simpl; [done|]. case_decide; [done|]. intros Hs. by rewrite IH.
Qed.

Lemma split_app d a s :
  contains_char d a = false -> split d (a +:+ String d s) = a :: split d s.
Proof.
  induction a as [|c a IH]; simpl.
  - by rewrite decide_True.
  - case_decide; [done|]. intros Ha. by rewrite IH.
Qed.

(** Splitting what was joined gives the pieces back. *)
Lemma split_join d l :
  l <> [] -> Forall (fun w => contains_char d w = false) l ->
  split d (join (String d "") l) = l.
Proof.
  induction l as [|w l IH]; intros Hne Hl; [done|].
  apply Forall_cons in Hl as [Hw Hl]. destruct l as [|v l]; simpl.
  - by apply split_no_delim.
  - rewrite split_app by done. f_equal. by apply IH.
Qed.

Lemma join_split d s : join (String d "") (split d s) = s.
Proof.
  induction s as [|c s IH]; simpl; [done|]. case_decide as Hc.
  - subst. destruct (split d s) eqn:Hs; [by destruct (split_ne_nil d s)|].
    simpl in *. by rewrite IH.
  - destruct (split d s) as [|w ws] eqn:Hs; [by destruct (split_ne_nil d s)|].
    destruct ws; simpl in *; by rewrite <- IH.
Qed.

Lemma contains_char_app d a b :
  contains_char d (a +:+ b) = contains_char d a || contains_char d b.
Proof. induction a as [|c a IH]; simpl; [done|]. case_decide; auto. Qed.

Lemma split_once_spec d s a b :
  split_once d s = Some (a, b) <-> s = a +:+ String d b /\ contains_char d a = false.
Proof.
  revert a b; induction s as [|c s IH]; intros a b; simpl.
  - split; [done|]. intros [H _]. by destruct a.
  - case_decide as Hc; subst.
    + split; [by intros [= <- <-]|]. intros [H Ha]. destruct a as [|x a]; simpl in *.
      * by injection H as ->.
      * injection H as <- ->. by rewrite decide_True in Ha.
    + destruct (split_once d s) as [[a' b']|] eqn:Hs; simpl.
      * pose proof (proj1 (IH a' b') eq_refl) as [-> Ha']. split.
        -- intros [= <- <-]. split; [done|]. simpl. by rewrite decide_False.
        -- intros [H Ha]. destruct a as [|x a]; simpl in *; [by injection H as ->|].
           injection H as <- H. rewrite decide_False in Ha by done.
           assert (Some (a', b') = Some (a, b)) as [= -> ->] by (by apply IH). done.
      * split; [done|]. intros [H Ha]. destruct a as [|x a]; simpl in *.
        -- by injection H as ->.
        -- injection H as <- H. rewrite decide_False in Ha by done.
           assert (None = Some (a, b)) by (by apply IH). done.
Qed.

Lemma split_once_None d s : split_once d s = None <-> contains_char d s = false.
Proof.
  induction s as [|c s IH]; simpl; [done|]. case_decide; [done|].
  rewrite <- IH. by destruct (split_once d s) as [[??]|].
Qed.

Lemma strip_prefix_spec p s r : strip_prefix p s = Some r <-> s = p +:+ r.
Proof.
  revert s; induction p as [|a p IH]; intros s; simpl; [naive_solver|].
  destruct s as [|b s]; [done|]. case_decide as Hab; subst.
  - rewrite IH. naive_solver.
  - split; [done|]. by intros [= ->].
Qed.

Lemma strip_suffix_spec suf s r : strip_suffix suf s = Some r -> s = r +:+ suf.
Proof.
  revert r; induction s as [|c s IH]; intros r; simpl.
  - case_decide; [|done]. by intros [= <-].
  - case_decide as H; [by intros [= <-]|].
    destruct (strip_suffix suf s) as [r'|] eqn:?; [|done]. simpl. intros [= <-].
    simpl. by rewrite (IH r' eq_refl).
Qed.

Lemma cut_at_spec p s a b : cut_at p s = Some (a, b) -> s = a +:+ b /\ exists c t, b = String c t /\ p c = true.
Proof.
  revert a b; induction s as [|c s IH]; intros a b; simpl; [done|].
  destruct (p c) eqn:Hp; [intros [= <- <-]; eauto|].
  destruct (cut_at p s) as [[a' b']|] eqn:?; [|done]. simpl. intros [= <- <-].
  destruct (IH a' b' eq_refl) as [-> ?]. eauto.
Qed.

Lemma rsplit_once_spec p s a b : rsplit_once p s = Some (a, b) -> s = a +:+ p +:+ b.
Proof.
  revert a; induction s as [|c s IH]; intros a; [done|].
  change (rsplit_once p (String c s)) with
    (match rsplit_once p s with
     | Some (a, b) => Some (String c a, b)
     | None => (fun b => ("", b)) <$> strip_prefix p (String c s)
     end).
  destruct (rsplit_once p s) as [[x y]|].
  - intros [= <- <-]. simpl. f_equal. by apply IH.
  - destruct (strip_prefix p (String c s)) as [r|] eqn:Hr; [|done].
    intros [= <- <-]. by apply strip_prefix_spec in Hr.
Qed.

(** Cut where [p] stands, when it stands nowhere later. *)
Lemma rsplit_once_app c p a b :
  rsplit_once (String c p) (p +:+ b) = None ->
  rsplit_once (String c p) (a +:+ String c p +:+ b) = Some (a, b).
Proof.
  intros Hb. induction a as [|x a IH].
  - change ("" +:+ String c p +:+ b) with (String c (p +:+ b)). cbn [rsplit_once].
    rewrite Hb. assert (strip_prefix (String c p) (String c (p +:+ b)) = Some b) as ->; [|done].
    by apply strip_prefix_spec.
  - change (String x a +:+ String c p +:+ b) with (String x (a +:+ String c p +:+ b)).
    cbn [rsplit_once]. by rewrite IH.
Qed.

(** What begins with a character [s] lacks does not stand in [s]. *)
Lemma rsplit_once_None c p s : contains_char c s = false -> rsplit_once (String c p) s = None.
Proof.
  induction s as [|x s IH]; intros Hs; [done|]. cbn [rsplit_once contains_char] in *.
  case_decide as Hx; [done|]. rewrite IH by done. cbn [strip_prefix].
  rewrite decide_False; [done|congruence].
Qed.

Lemma split_pieces d s : Forall (fun w => contains_char d w = false) (split d s).
Proof.
  induction s as [|c s IH]; simpl; [by repeat constructor|].
  case_decide as Hc; [by constructor|].
  destruct (split d s) as [|w ws]; inversion IH; subst; repeat constructor; simpl; try done.
  all: by rewrite decide_False.
Qed.

Lemma join_app sep l m :
  l <> [] -> m <> [] -> join sep (l ++ m)%list = join sep l +:+ sep +:+ join sep m.
Proof.
  intros Hl Hm. induction l as [|x l IH]; [done|]. destruct l as [|y l].
  - simpl. by destruct m.
  - change (join sep ((x :: y :: l) ++ m)%list) with (x +:+ sep +:+ join sep ((y :: l) ++ m)%list).
    rewrite IH by done. change (join sep (x :: y :: l)) with (x +:+ sep +:+ join sep (y :: l)).
    by rewrite !append_assoc.
Qed.

Lemma strip_suffix_app suf r : strip_suffix suf (r +:+ suf) = Some r.
Proof.
  induction r as [|c r IH].
  - destruct suf; cbn [strip_suffix String.append]; by rewrite decide_True.
  - cbn [strip_suffix String.append]. rewrite decide_False; [by rewrite IH|].
    intros Heq%(f_equal String.length). revert Heq. simpl.
    assert (forall a b, String.length (a +:+ b) = String.length a + String.length b) as Hlen
      by (intros a b; induction a; simpl; congruence).
    rewrite Hlen. lia.
Qed.

(** ** Trimming keeps lines lines *)

Lemma trim_start_suffix s : exists a, s = a +:+ trim_start s.
Proof.
  induction s as [|c s [a IH]]; [by exists ""|]. cbn [trim_start].
  destruct (is_space c); [|by exists ""]. exists (String c a). simpl. by f_equal.
Qed.

Lemma trim_end_prefix s : exists b, s = trim_end s +:+ b.
Proof.
  induction s as [|c s [b IH]]; [by exists ""|]. cbn [trim_end].
  destruct (trim_end s) as [|x t] eqn:Ht.
  - destruct (is_space c); [by exists (String c s)|]. by exists s.
  - exists b. change (String c s = String c (String x t +:+ b)). by rewrite <- IH.
Qed.

Lemma contains_char_trim d s : contains_char d s = false -> contains_char d (trim s) = false.
Proof.
  intros Hs. unfold trim. destruct (trim_start_suffix s) as [a Ha].
  destruct (trim_end_prefix (trim_start s)) as [b Hb]. rewrite Ha in Hs.
  rewrite contains_char_app in Hs. apply orb_false_iff in Hs as [_ Hs]. rewrite Hb in Hs.
  rewrite contains_char_app in Hs. by apply orb_false_iff in Hs as [Hs _].
Qed.

Lemma contains_char_strip_cr d s : contains_char d s = false -> contains_char d (strip_cr s) = false.
Proof.
  intros Hs. unfold strip_cr. destruct (strip_suffix _ s) as [r|] eqn:Hr; [|done].
  apply strip_suffix_spec in Hr as ->. rewrite contains_char_app in Hs.
  by apply orb_false_iff in Hs as [Hs _].
Qed.

Lemma append_last_inj a b c d :
  a +:+ String c "" = b +:+ String d "" -> c = d.
Proof.
  revert b; induction a as [|x a IH]; intros [|y b] Heq; simpl in *.
  - congruence.
  - injection Heq as -> Heq. by destruct b.
  - injection Heq as <- Heq. by destruct a.
  - injection Heq as -> Heq. by eapply IH.
Qed.

Lemma strip_cr_trim s : strip_cr (trim s) = trim s.
Proof.
  unfold strip_cr. destruct (strip_suffix _ (trim s)) as [r|] eqn:Hr; [|done].
  apply strip_suffix_spec in Hr. unfold trim in *.
  destruct (trim_end_spec (trim_start s)) as [H0|(t & c & Ht & Hc)].
  - rewrite H0 in Hr. by destruct r.
  - rewrite Ht in Hr. apply append_last_inj in Hr as ->. done.
Qed.

Lemma lines_no_feed s : Forall (fun l => contains_char line_feed l = false) (lines s).
Proof.
  unfold lines. rewrite Forall_fmap.
  assert (forall l, Forall (fun w => contains_char line_feed w = false) l ->
    Forall (fun w => contains_char line_feed w = false) (drop_last_empty l)) as Hd.
  { induction 1 as [|w l Hw Hl IH]; [done|]. destruct l; simpl in *; [destruct (is_empty w)|];
      repeat constructor; done. }
  eapply Forall_impl; [apply Hd, split_pieces|]. intros w. apply contains_char_strip_cr.
Qed.

(** ** Numbers *)

Lemma parse_digits_bound max acc s v : (0 <= acc <= max)%Z -> parse_digits max acc s = Some v -> (0 <= v <= max)%Z.
Proof.
  revert acc. induction s as [|c s IH]; intros acc Hacc; simpl; [intros [= <-]; lia|].
  destruct (digit_value c) as [d|] eqn:Hd; [|done]. simpl. case_decide; [|done].
  apply IH. unfold digit_value in Hd. case_decide; [|done]. injection Hd as <-. lia.
Qed.

Lemma parse_uint_bound max s v : (0 <= max)%Z -> parse_uint max s = Some v -> (0 <= v <= max)%Z.
Proof.
  intros Hm. unfold parse_uint. destruct (is_empty _); [done|]. apply parse_digits_bound. lia.
Qed.

Lemma length_append a b : String.length (a +:+ b) = String.length a + String.length b.
Proof. induction a as [|c a IH]; simpl; congruence. Qed.
