(* ===== verification/Order.v ===== *)
(** * Orderings

    Rust's [Ord] as the code uses it: [Ordering::then_with], [Reverse], a derived
    comparison of fields in order, and [min_by] and [sort_by] over such a
    comparison. *)
From S2P Require Import Prelude.
From Stdlib Require Import String Ascii.
Open Scope string_scope.

(** [Ordering::then_with], and what [#[derive(Ord)]] chains. *)
Definition then_with (c d : comparison) : comparison := match c with Eq => d | _ => c end.

(** [Iterator::min_by]: the first of the least elements. *)
Fixpoint min_by {A} (cmp : A -> A -> comparison) (l : list A) : option A :=
  match l with
  | [] => None
  | x :: l =>
      match min_by cmp l with
      | None => Some x
      | Some y => match cmp x y with Gt => Some y | _ => Some x end
      end
  end.

(** [slice::sort_by], which is stable. *)
Fixpoint sort_insert {A} (cmp : A -> A -> comparison) (x : A) (l : list A) : list A :=
  match l with
  | [] => [x]
  | y :: l => match cmp x y with Gt => y :: sort_insert cmp x l | _ => x :: y :: l end
  end.

Fixpoint sort_by {A} (cmp : A -> A -> comparison) (l : list A) : list A :=
  match l with
  | [] => []
  | x :: l => sort_insert cmp x (sort_by cmp l)
  end.

(** What Rust asks of an [Ord]: a total preorder, written with [comparison]. *)
Class TotalCmp {A} (cmp : A -> A -> comparison) : Prop := {
  cmp_opp x y : cmp y x = CompOpp (cmp x y);
  cmp_trans x y z : cmp x y <> Gt -> cmp y z <> Gt -> cmp x z <> Gt
}.
Global Arguments cmp_opp {_} cmp {_} x y.
Global Arguments cmp_trans {_} cmp {_} x y z.

Section total.
Context {A : Type} (cmp : A -> A -> comparison) `{!TotalCmp cmp}.

Lemma cmp_refl x : cmp x x = Eq.
Proof. pose proof (cmp_opp cmp x x) as H. by destruct (cmp x x). Qed.

Lemma cmp_gt x y : cmp x y = Gt -> cmp y x <> Gt.
Proof. rewrite (cmp_opp cmp x y). by intros ->. Qed.

(** Elements that compare [Eq] compare alike with everything. *)
Lemma cmp_eq_l x y z : cmp x y = Eq -> cmp x z = cmp y z.
Proof.
  intros He. pose proof (cmp_opp cmp x y) as Ho. rewrite He in Ho. simpl in Ho.
  pose proof (cmp_opp cmp x z) as Hx. pose proof (cmp_opp cmp y z) as Hy.
  pose proof (cmp_trans cmp x y z) as H1. pose proof (cmp_trans cmp y x z) as H2.
  pose proof (cmp_trans cmp z x y) as H3. pose proof (cmp_trans cmp z y x) as H4.
  rewrite He in H1, H3. rewrite Ho in H2, H4.
  destruct (cmp x z), (cmp y z), (cmp z x), (cmp z y); simpl in *; try done;
    exfalso; first [by apply H1 | by apply H2 | by apply H3 | by apply H4].
Qed.

Lemma cmp_eq_r x y z : cmp y z = Eq -> cmp x y = cmp x z.
Proof. intros He. by rewrite (cmp_opp cmp y x), (cmp_opp cmp z x), (cmp_eq_l y z x He). Qed.

Lemma min_by_None l : min_by cmp l = None <-> l = [].
Proof.
  destruct l as [|x l]; simpl; [done|]. split; [|done].
  destruct (min_by cmp l) as [y|]; [by destruct (cmp x y)|done].
Qed.

Lemma min_by_elem l x : min_by cmp l = Some x -> x ∈ l.
Proof.
  revert x. induction l as [|y l IH]; intros x; simpl; [done|].
  destruct (min_by cmp l) as [z|]; [destruct (cmp y z)|]; intros [= <-]; set_solver.
Qed.

Lemma min_by_least l x : min_by cmp l = Some x -> Forall (fun y => cmp x y <> Gt) l.
Proof using Type*.
  revert x. induction l as [|y l IH]; intros x; simpl; [done|].
  destruct (min_by cmp l) as [z|] eqn:Hz.
  - specialize (IH _ eq_refl).
    destruct (cmp y z) eqn:Hyz; intros [= <-]; constructor; rewrite ?cmp_refl; try done;
      try (by apply cmp_gt); eapply Forall_impl; try exact IH; intros w Hw;
      apply (cmp_trans cmp y z w); congruence.
  - intros [= <-]. apply min_by_None in Hz as ->. repeat constructor. by rewrite cmp_refl.
Qed.

Lemma min_by_best l x y : min_by cmp l = Some x -> y ∈ l -> cmp x y <> Gt.
Proof using Type*. intros Hx%min_by_least. rewrite Forall_forall in Hx. apply Hx. Qed.

(** The least element does not depend on the order of the list, up to the elements
    the comparison cannot tell apart. *)
Lemma min_by_perm l k x y :
  (forall z, z ∈ l <-> z ∈ k) -> min_by cmp l = Some x -> min_by cmp k = Some y -> cmp x y = Eq.
Proof using Type*.
  intros Hlk Hx Hy.
  pose proof (min_by_best _ _ _ Hx (proj2 (Hlk y) (min_by_elem _ _ Hy))) as H1.
  pose proof (min_by_best _ _ _ Hy (proj1 (Hlk x) (min_by_elem _ _ Hx))) as H2.
  rewrite (cmp_opp cmp x y) in H2. by destruct (cmp x y).
Qed.

Lemma head_sort_by l : head (sort_by cmp l) = min_by cmp l.
Proof using cmp A.
  clear TotalCmp0. assert (forall x k, head (sort_insert cmp x k) =
    Some match head k with None => x | Some y => match cmp x y with Gt => y | _ => x end end) as Hi.
  { intros x [|y k]; simpl; [done|]. by destruct (cmp x y). }
  induction l as [|x l IH]; simpl; [done|]. rewrite Hi, IH.
  destruct (min_by cmp l) as [y|]; [by destruct (cmp x y)|done].
Qed.

Lemma sort_insert_perm x l : sort_insert cmp x l ≡ₚ x :: l.
Proof using cmp A.
  clear TotalCmp0. induction l as [|y l IH]; simpl; [done|]. destruct (cmp x y); [done|done|].
  rewrite IH. constructor.
Qed.

Lemma sort_by_perm l : sort_by cmp l ≡ₚ l.
Proof using cmp A.
  clear TotalCmp0. induction l as [|x l IH]; simpl; [done|]. by rewrite sort_insert_perm, IH.
Qed.

Lemma sort_insert_sorted x l :
  StronglySorted (fun a b => cmp a b <> Gt) l -> StronglySorted (fun a b => cmp a b <> Gt) (sort_insert cmp x l).
Proof using Type*.
  induction 1 as [|y l Hl IH Hy]; simpl; [repeat constructor|].
  destruct (cmp x y) eqn:Hc.
  3: { constructor; [done|]. rewrite sort_insert_perm. constructor; [by apply cmp_gt|done]. }
  all: constructor; [by constructor|]; constructor; [congruence|];
    eapply Forall_impl; [exact Hy|]; intros z Hz; apply (cmp_trans cmp x y z); congruence.
Qed.

Lemma sort_by_sorted l : StronglySorted (fun a b => cmp a b <> Gt) (sort_by cmp l).
Proof using Type*. induction l; simpl; [constructor|by apply sort_insert_sorted]. Qed.
End total.

(** ** The comparisons the code builds *)

#[export] Instance total_opp {A} (cmp : A -> A -> comparison) `{!TotalCmp cmp} :
  TotalCmp (fun x y => cmp y x).
Proof. split; [intros; apply (cmp_opp cmp)|]. intros x y z ? ?. by apply (cmp_trans cmp z y x). Qed.

#[export] Instance total_on {A B} (f : A -> B) (cmp : B -> B -> comparison) `{!TotalCmp cmp} :
  TotalCmp (fun x y => cmp (f x) (f y)).
Proof. split; [intros; apply (cmp_opp cmp)|]. intros x y z. apply (cmp_trans cmp). Qed.

#[export] Instance total_then {A} (c d : A -> A -> comparison) `{!TotalCmp c, !TotalCmp d} :
  TotalCmp (fun x y => then_with (c x y) (d x y)).
Proof.
  split.
  - intros x y. rewrite (cmp_opp c x y), (cmp_opp d x y). by destruct (c x y).
  - intros x y z. destruct (c x y) eqn:Hxy; simpl; [| |done].
    + rewrite (cmp_eq_l c x y z Hxy). destruct (c y z); simpl; [apply (cmp_trans d)|done|done].
    + intros _. destruct (c y z) eqn:Hyz; simpl; [| |done]; intros _.
      * by rewrite <- (cmp_eq_r c x y z Hyz), Hxy.
      * destruct (c x z) eqn:Hxz; simpl; [|done|].
        -- pose proof (cmp_eq_l c x z y Hxz) as He. by rewrite Hxy, (cmp_opp c y z), Hyz in He.
        -- by destruct (cmp_trans c x y z); rewrite ?Hxy, ?Hyz.
Qed.

#[export] Instance total_Z : TotalCmp Z.compare.
Proof.
  split; [intros; apply Z.compare_antisym|]. intros x y z. rewrite !Z.compare_gt_iff. lia.
Qed.

(** [bool]'s order: [false] first. *)
Definition bool_cmp (x y : bool) : comparison :=
  match x, y with false, true => Lt | true, false => Gt | _, _ => Eq end.

#[export] Instance total_bool : TotalCmp bool_cmp.
Proof. split; [by intros [] []|by intros [] [] []]. Qed.

(** [str]'s order is by bytes. *)
Definition str_cmp : string -> string -> comparison := String.compare.

(** A [BTreeMap<String, _>] iterates in the order of its keys. *)
Definition by_key {A} (m : gmap string A) : list (string * A) :=
  sort_by (fun a b => str_cmp a.1 b.1) (map_to_list m).

Lemma by_key_perm {A} (m : gmap string A) : by_key m ≡ₚ map_to_list m.
Proof. apply sort_by_perm. Qed.

Lemma elem_of_by_key {A} (m : gmap string A) k v : (k, v) ∈ by_key m <-> m !! k = Some v.
Proof. rewrite by_key_perm. apply elem_of_map_to_list. Qed.

Lemma by_key_nodup {A} (m : gmap string A) : NoDup (by_key m).*1.
Proof. rewrite by_key_perm. apply NoDup_fst_map_to_list. Qed.

#[export] Instance total_str : TotalCmp str_cmp.
Proof.
  split; [intros; unfold str_cmp; by rewrite String.compare_antisym|].
  intros x. unfold str_cmp. induction x as [|a x IH]; intros [|b y] [|c z]; simpl; try done.
  unfold Ascii.compare.
  destruct (N.compare_spec (N_of_ascii a) (N_of_ascii b)),
    (N.compare_spec (N_of_ascii b) (N_of_ascii c)),
    (N.compare_spec (N_of_ascii a) (N_of_ascii c)); try done; try lia. apply IH.
Qed.

Lemma str_cmp_eq x y : str_cmp x y = Eq <-> x = y.
Proof. split; [apply String.compare_eq_iff|intros ->; apply (cmp_refl str_cmp)]. Qed.
