(* ===== verification/BuildState.v ===== *)
(** * Build states, triggers and end reasons

    [backend/aurcache-common/src/build_state.rs]: the three enums the [builds]
    and [packages] columns hold, their [i32] wire form, the keys a person
    types for a state, and the predicates the queue decides by. *)
From S2P Require Import Prelude.

Inductive BuildState :=
| Active
| Successful
| Failed
| Enqueued
| WaitingForDeps
| Publishing.

Inductive BuildTrigger :=
| User
| AutoUpdate
| TimeoutRetry.

Inductive EndReason :=
| Canceled
| LeaseExpired
| MaxDuration
| Dropped
| WorkerRevoked
| Interrupted.

#[export] Instance BuildState_eq_dec : EqDecision BuildState.
Proof. solve_decision. Defined.
#[export] Instance BuildTrigger_eq_dec : EqDecision BuildTrigger.
Proof. solve_decision. Defined.
#[export] Instance EndReason_eq_dec : EqDecision EndReason.
Proof. solve_decision. Defined.

(** A type written as an [i32]: what [as_integer!] gives each of the three. *)
Class AsInteger (A : Type) := {
  as_i32 : A -> Z;
  from_i32 : Z -> option A
}.

(** The contract [as_integer!] relies on: reading a written value gives it
    back, and nothing but a written value is read. *)
Class AsIntegerLaws (A : Type) `{AsInteger A} := {
  from_as_i32 (a : A) : from_i32 (as_i32 a) = Some a;
  as_from_i32 (z : Z) (a : A) : from_i32 z = Some a -> as_i32 a = z
}.

(** [Deserialize] of such a type: an unknown number is an error naming it. *)
Definition deserialize `{AsInteger A} (value : Z) : result Z A :=
  match from_i32 value with Some a => Ok a | None => Err value end.

Definition state_as_i32 (s : BuildState) : Z :=
  match s with
  | Active => 0
  | Successful => 1
  | Failed => 2
  | Enqueued => 3
  | WaitingForDeps => 4
  | Publishing => 5
  end.

Definition state_from_i32 (value : Z) : option BuildState :=
  match value with
  | 0 => Some Active
  | 1 => Some Successful
  | 2 => Some Failed
  | 3 => Some Enqueued
  | 4 => Some WaitingForDeps
  | 5 => Some Publishing
  | _ => None
  end%Z.

Definition trigger_as_i32 (t : BuildTrigger) : Z :=
  match t with User => 0 | AutoUpdate => 1 | TimeoutRetry => 2 end.

Definition trigger_from_i32 (value : Z) : option BuildTrigger :=
  match value with
  | 0 => Some User
  | 1 => Some AutoUpdate
  | 2 => Some TimeoutRetry
  | _ => None
  end%Z.

Definition reason_as_i32 (r : EndReason) : Z :=
  match r with
  | Canceled => 0
  | LeaseExpired => 1
  | MaxDuration => 2
  | Dropped => 3
  | WorkerRevoked => 4
  | Interrupted => 5
  end.

Definition reason_from_i32 (value : Z) : option EndReason :=
  match value with
  | 0 => Some Canceled
  | 1 => Some LeaseExpired
  | 2 => Some MaxDuration
  | 3 => Some Dropped
  | 4 => Some WorkerRevoked
  | 5 => Some Interrupted
  | _ => None
  end%Z.

#[export] Instance BuildState_integer : AsInteger BuildState :=
  {| as_i32 := state_as_i32; from_i32 := state_from_i32 |}.
#[export] Instance BuildTrigger_integer : AsInteger BuildTrigger :=
  {| as_i32 := trigger_as_i32; from_i32 := trigger_from_i32 |}.
#[export] Instance EndReason_integer : AsInteger EndReason :=
  {| as_i32 := reason_as_i32; from_i32 := reason_from_i32 |}.

(** [BuildState::IN_PROGRESS] and [BuildState::ALL]. *)
Definition IN_PROGRESS : list BuildState := [Active; Enqueued; WaitingForDeps; Publishing].

Definition ALL : list BuildState :=
  [Active; Successful; Failed; Enqueued; WaitingForDeps; Publishing].

Definition is_in_progress (s : BuildState) : bool :=
  match s with
  | Active | Enqueued | WaitingForDeps | Publishing => true
  | Successful | Failed => false
  end.

Definition key (s : BuildState) : string :=
  match s with
  | Active => "active"
  | Successful => "successful"
  | Failed => "failed"
  | Enqueued => "enqueued"
  | WaitingForDeps => "waiting-for-deps"
  | Publishing => "publishing"
  end.

Definition label (s : BuildState) : string :=
  match s with
  | Active => "building"
  | Successful => "successful"
  | Failed => "failed"
  | Enqueued => "enqueued"
  | WaitingForDeps => "waiting for deps"
  | Publishing => "publishing"
  end.

(** [Self::ALL.into_iter().find(|state| state.key() == key)]. *)
Definition from_key (k : string) : option BuildState :=
  snd <$> list_find (fun s => key s = k) ALL.

Definition spends_retry (r : EndReason) : bool :=
  match r with
  | LeaseExpired | MaxDuration | Dropped | Interrupted => true
  | Canceled | WorkerRevoked => false
  end.

Definition explanation (r : EndReason) : string :=
  match r with
  | Canceled => "cancelled by an operator"
  | LeaseExpired => "its worker stopped heartbeating"
  | MaxDuration => "it exceeded its maximum duration"
  | Dropped => "its worker stopped reporting it"
  | WorkerRevoked => "its worker was revoked"
  | Interrupted => "its worker could not finish it"
  end.

(** ** Lemmas *)

Ltac case_small_Z z :=
  destruct z as [|p|p]; [| |]; try done;
  do 3 (try destruct p as [p|p|]); try done.

#[export] Instance BuildState_integer_laws : AsIntegerLaws BuildState.
Proof.
  split; [by intros []|]. intros z a; simpl; unfold state_from_i32.
  case_small_Z z; intros; by simplify_eq.
Qed.

#[export] Instance BuildTrigger_integer_laws : AsIntegerLaws BuildTrigger.
Proof.
  split; [by intros []|]. intros z a; simpl; unfold trigger_from_i32.
  case_small_Z z; intros; by simplify_eq.
Qed.

#[export] Instance EndReason_integer_laws : AsIntegerLaws EndReason.
Proof.
  split; [by intros []|]. intros z a; simpl; unfold reason_from_i32.
  case_small_Z z; intros; by simplify_eq.
Qed.

Section wire.
Context `{AsIntegerLaws A}.

Lemma as_i32_inj (a b : A) : as_i32 a = as_i32 b -> a = b.
Proof.
  intros Hab. apply (inj Some). rewrite <- (from_as_i32 a), Hab. apply from_as_i32.
Qed.

(** The wire form is exact: a value travels as its number, and a number is
    accepted only when it is some value's. *)
Lemma deserialize_spec (z : Z) (a : A) : deserialize z = Ok a <-> z = as_i32 a.
Proof.
  unfold deserialize. split.
  - destruct (from_i32 z) eqn:Hz; intros; simplify_eq. symmetry. by apply as_from_i32.
  - intros ->. by rewrite from_as_i32.
Qed.
End wire.

Lemma elem_of_IN_PROGRESS s : s ∈ IN_PROGRESS <-> is_in_progress s = true.
Proof. unfold IN_PROGRESS. destruct s; simpl; set_solver. Qed.

Lemma elem_of_ALL s : s ∈ ALL.
Proof. unfold ALL. destruct s; set_solver. Qed.

Lemma NoDup_ALL : NoDup ALL.
Proof. by apply (bool_decide_unpack _). Qed.

Lemma key_inj s t : key s = key t -> s = t.
Proof. by destruct s, t. Qed.
