(* ===== verification/Sql.v ===== *)
(** * Statements, faults and transactions

    What the helpers under [backend/aurcache-db/src/helpers] use of a database
    connection: a statement that may fail, sequencing with [?], and
    [begin]/[commit]/[rollback] (a [sea_orm::DatabaseTransaction] that is
    dropped without a commit is rolled back). The connection's own failures are
    explicit: a session is given the number of statements the connection will
    still answer ([None]: all of them), so a theorem about every session covers
    a failure at any point. *)
From S2P Require Import Prelude.

(** [sea_orm::DbErr], as far as the helpers tell errors apart. *)
Inductive DbErr :=
| Connection
| Constraint
| Custom (msg : string).

#[export] Instance DbErr_eq_dec : EqDecision DbErr.
Proof. solve_decision. Defined.

(** [impl From<DbErr> for E]: what [?] converts with. *)
Class FromDbErr (E : Type) := from_db_err : DbErr -> E.
#[export] Instance DbErr_from : FromDbErr DbErr := fun e => e.

(** How a transaction's closure ends: committed, rolled back in so many words,
    or returned from with the transaction dropped. *)
Inductive ending (A : Type) :=
| EndCommit (a : A)
| EndRollback (a : A)
| EndDrop (a : A).
Global Arguments EndCommit {_} _.
Global Arguments EndRollback {_} _.
Global Arguments EndDrop {_} _.

Section session.
Context {D : Type}.

Record outcome (E A : Type) := Outcome {
  o_result : result E A;
  o_left : option nat;
  o_db : D
}.
Global Arguments Outcome {_ _} _ _ _.
Global Arguments o_result {_ _} _.
Global Arguments o_left {_ _} _.
Global Arguments o_db {_ _} _.

Definition Sql (E A : Type) : Type := option nat -> D -> outcome E A.

Definition sql_ret {E A} (a : A) : Sql E A := fun left d => Outcome (Ok a) left d.

Definition sql_bind {E A B} (f : A -> Sql E B) (m : Sql E A) : Sql E B :=
  fun left d =>
    let o := m left d in
    match o_result o with
    | Ok a => f a (o_left o) (o_db o)
    | Err e => Outcome (Err e) (o_left o) (o_db o)
    end.

Definition sql_fail {E A} (e : E) : Sql E A := fun left d => Outcome (Err e) left d.

(** One statement: answered when the connection still answers, and then
    either applied whole or refused whole. *)
Definition statement {A} (f : D -> result DbErr (A * D)) : Sql DbErr A :=
  fun left d =>
    match left with
    | Some 0 => Outcome (Err Connection) left d
    | _ =>
        match f d with
        | Ok (a, d') => Outcome (Ok a) (pred <$> left) d'
        | Err e => Outcome (Err e) (pred <$> left) d
        end
    end.

Definition query {A} (q : D -> A) : Sql DbErr A := statement (fun d => Ok (q d, d)).

(** [?] on a [Result<_, DbErr>] in a function whose error is [E]. *)
Definition lift {E A} `{FromDbErr E} (m : Sql DbErr A) : Sql E A :=
  fun left d =>
    let o := m left d in
    match o_result o with
    | Ok a => Outcome (Ok a) (o_left o) (o_db o)
    | Err e => Outcome (Err (from_db_err e)) (o_left o) (o_db o)
    end.

(** A domain decision taken without the database. *)
Definition from_result {E A} (r : result E A) : Sql E A :=
  fun left d => Outcome r left d.

(** [txn = db.begin(); ...; txn.commit()]. Any error, a rollback and a drop
    all leave the database as it was at the [begin]. *)
Definition transaction {A} (body : Sql DbErr (ending A)) : Sql DbErr A :=
  fun left d =>
    let b := query (fun _ => tt) left d in
    match o_result b with
    | Err e => Outcome (Err e) (o_left b) d
    | Ok _ =>
        let o := body (o_left b) d in
        match o_result o with
        | Err e => Outcome (Err e) (o_left o) d
        | Ok (EndCommit a) =>
            let c := query (fun _ => tt) (o_left o) d in
            match o_result c with
            | Ok _ => Outcome (Ok a) (o_left c) (o_db o)
            | Err e => Outcome (Err e) (o_left c) d
            end
        | Ok (EndRollback a) =>
            let c := query (fun _ => tt) (o_left o) d in
            match o_result c with
            | Ok _ => Outcome (Ok a) (o_left c) d
            | Err e => Outcome (Err e) (o_left c) d
            end
        | Ok (EndDrop a) => Outcome (Ok a) (o_left o) d
        end
    end.

(** A run over a connection that answers everything. *)
Definition run {E A} (m : Sql E A) (d : D) : result E A * D :=
  let o := m None d in (o_result o, o_db o).

(** ** Laws *)

(** [m] only ever fails by letting a failure through: what it returns when
    the connection holds is what it returns when it might not have. *)
Class Transparent {E A} (m : Sql E A) :=
  transparent left d a :
    o_result (m left d) = Ok a ->
    m None d = Outcome (Ok a) None (o_db (m left d)).

(** Whatever the connection does, [m] keeps [I]. *)
Class Preserves {E A} (I : D -> Prop) (m : Sql E A) :=
  preserves left d : I d -> I (o_db (m left d)).

#[export] Instance ret_transparent {E A} (a : A) : Transparent (E := E) (sql_ret a).
Proof. by intros left d b [= ->]. Qed.

#[export] Instance fail_transparent {E A} (e : E) : Transparent (A := A) (sql_fail e).
Proof. by intros left d b ?. Qed.

#[export] Instance from_result_transparent {E A} (r : result E A) :
  Transparent (from_result r).
Proof. intros left d b Hr. unfold from_result in *. simpl in *. by rewrite Hr. Qed.

#[export] Instance statement_transparent {A} (f : D -> result DbErr (A * D)) :
  Transparent (statement f).
Proof.
  intros [[|n]|] d a; unfold statement; simpl; try done;
    destruct (f d) as [[??]|]; simpl; intros; by simplify_eq.
Qed.

#[export] Instance query_transparent {A} (q : D -> A) : Transparent (query q).
Proof. apply statement_transparent. Qed.

#[export] Instance bind_transparent {E A B} (f : A -> Sql E B) (m : Sql E A) :
  Transparent m -> (forall a, Transparent (f a)) -> Transparent (sql_bind f m).
Proof.
  intros Hm Hf left d b. unfold sql_bind.
  destruct (o_result (m left d)) as [a|e] eqn:Hr; simpl; [|done]. intros Hb.
  rewrite (Hm left d a Hr). simpl. by rewrite (Hf a _ _ b Hb).
Qed.

#[export] Instance lift_transparent {E A} `{FromDbErr E} (m : Sql DbErr A) :
  Transparent m -> Transparent (lift m).
Proof.
  intros Hm left d a. unfold lift. destruct (o_result (m left d)) as [b|e] eqn:Hr; [|done].
  intros [= ->]. by rewrite (Hm left d a Hr).
Qed.

#[export] Instance transaction_transparent {A} (body : Sql DbErr (ending A)) :
  Transparent body -> Transparent (transaction body).
Proof.
  intros Hb left d a. unfold transaction, query, statement. simpl.
  destruct left as [[|n]|]; simpl; try done;
  match goal with |- context [o_result (body ?l d)] =>
    destruct (o_result (body l d)) as [[b|b|b]|] eqn:Hr; simpl; try done;
    rewrite (Hb _ _ _ Hr); simpl;
    destruct (o_left (body l d)) as [[|?]|]; simpl; try done; intros; by simplify_eq
  end.
Qed.

(** A transaction that reports an error changed nothing, wherever it broke. *)
Lemma transaction_atomic {A} (body : Sql DbErr (ending A)) left d e :
  o_result (transaction body left d) = Err e -> o_db (transaction body left d) = d.
Proof.
  unfold transaction. destruct (o_result (query _ _ _)); [|done].
  destruct (o_result (body _ d)) as [[b|b|b]|]; simpl; try done;
    by destruct (o_result (query _ _ _)).
Qed.

Section preserves.
Context (I : D -> Prop).

#[export] Instance ret_preserves {E A} (a : A) : Preserves (E := E) I (sql_ret a).
Proof. by intros left d ?. Qed.

#[export] Instance fail_preserves {E A} (e : E) : Preserves (A := A) I (sql_fail e).
Proof. by intros left d ?. Qed.

#[export] Instance from_result_preserves {E A} (r : result E A) :
  Preserves I (from_result r).
Proof. by intros left d ?. Qed.

Lemma statement_preserves {A} (f : D -> result DbErr (A * D)) :
  (forall d a d', I d -> f d = Ok (a, d') -> I d') -> Preserves I (statement f).
Proof.
  intros Hf [[|n]|] d Hd; unfold statement; simpl; try done;
    destruct (f d) as [[a d']|] eqn:?; simpl; eauto.
Qed.

#[export] Instance query_preserves {A} (q : D -> A) : Preserves I (query q).
Proof. apply statement_preserves. by intros d a d' ? [= _ <-]. Qed.

#[export] Instance bind_preserves {E A B} (f : A -> Sql E B) (m : Sql E A) :
  Preserves I m -> (forall a, Preserves I (f a)) -> Preserves I (sql_bind f m).
Proof.
  intros Hm Hf left d Hd. unfold sql_bind. specialize (Hm left d Hd).
  destruct (o_result (m left d)); simpl; [by apply Hf|done].
Qed.

#[export] Instance lift_preserves {E A} `{FromDbErr E} (m : Sql DbErr A) :
  Preserves I m -> Preserves I (lift m).
Proof.
  intros Hm left d Hd. specialize (Hm left d Hd). unfold lift.
  by destruct (o_result (m left d)).
Qed.

(** Only what a transaction commits is ever seen, and it commits only what
    its body computed over a connection that held. *)
Lemma transaction_preserves {A} (body : Sql DbErr (ending A)) :
  Transparent body ->
  (forall d a d', I d -> run body d = (Ok (EndCommit a), d') -> I d') ->
  Preserves I (transaction body).
Proof.
  intros Ht Hb left d Hd. unfold transaction.
  destruct (o_result (query _ _ _)); [|done].
  destruct (o_result (body _ d)) as [[b|b|b]|] eqn:Hr; simpl; try done.
  all: destruct (o_result (query _ _ _)); simpl; try done.
  apply (Hb d b); [done|]. unfold run. by rewrite (Ht _ _ _ Hr).
Qed.

Lemma transaction_preserves_all {A} (body : Sql DbErr (ending A)) :
  Preserves I body -> Preserves I (transaction body).
Proof.
  intros Hb left d Hd. unfold transaction.
  destruct (o_result (query _ _ _)); [|done]. pose proof (Hb (o_left (query (fun _ => tt) left d)) d Hd).
  destruct (o_result (body _ d)) as [[b|b|b]|] eqn:Hr; simpl; try done.
  all: by destruct (o_result (query _ _ _)).
Qed.
End preserves.

(** ** Runs *)

Lemma run_ret {E A} (a : A) d : run (sql_ret (E := E) a) d = (Ok a, d).
Proof. done. Qed.

Lemma run_fail {E A} (e : E) d : run (sql_fail (A := A) e) d = (Err e, d).
Proof. done. Qed.

Lemma run_from_result {E A} (r : result E A) d : run (from_result r) d = (r, d).
Proof. done. Qed.

Lemma run_query {A} (q : D -> A) d : run (query q) d = (Ok (q d), d).
Proof. done. Qed.

Lemma run_statement {A} (f : D -> result DbErr (A * D)) d :
  run (statement f) d =
    match f d with Ok (a, d') => (Ok a, d') | Err e => (Err e, d) end.
Proof. unfold run, statement. by destruct (f d) as [[??]|]. Qed.

(** A connection that answers everything keeps answering. *)
Class Steady {E A} (m : Sql E A) := steady d : o_left (m None d) = None.

#[export] Instance ret_steady {E A} (a : A) : Steady (E := E) (sql_ret a).
Proof. done. Qed.
#[export] Instance fail_steady {E A} (e : E) : Steady (A := A) (sql_fail e).
Proof. done. Qed.
#[export] Instance from_result_steady {E A} (r : result E A) : Steady (from_result r).
Proof. done. Qed.
#[export] Instance statement_steady {A} (f : D -> result DbErr (A * D)) : Steady (statement f).
Proof. intros d. unfold statement. by destruct (f d) as [[??]|]. Qed.
#[export] Instance query_steady {A} (q : D -> A) : Steady (query q).
Proof. done. Qed.
#[export] Instance bind_steady {E A B} (f : A -> Sql E B) (m : Sql E A) :
  Steady m -> (forall a, Steady (f a)) -> Steady (sql_bind f m).
Proof.
  intros Hm Hf d. unfold sql_bind.
  destruct (o_result (m None d)); simpl; rewrite ?(Hm d); [apply Hf|done].
Qed.
#[export] Instance lift_steady {E A} `{FromDbErr E} (m : Sql DbErr A) :
  Steady m -> Steady (lift m).
Proof. intros Hm d. unfold lift. specialize (Hm d). by destruct (o_result (m None d)). Qed.
#[export] Instance transaction_steady {A} (body : Sql DbErr (ending A)) :
  Steady body -> Steady (transaction body).
Proof.
  intros Hm d. unfold transaction. simpl. specialize (Hm d).
  destruct (o_result (body None d)) as [[b|b|b]|]; simpl; rewrite ?Hm; done.
Qed.

(** Any session of an atomic program is the run over a connection that holds,
or reports an error and changes nothing. *)
Class Atomic {A} (m : Sql DbErr A) :=
  atomic left d :
    (exists e, o_result (m left d) = Err e /\ o_db (m left d) = d) \/
    (exists a, o_result (m left d) = Ok a /\ run m d = (Ok a, o_db (m left d))).

#[export] Instance transaction_session {A} (body : Sql DbErr (ending A)) :
  Transparent body -> Atomic (transaction body).
Proof.
  intros Ht left d. destruct (o_result (transaction body left d)) as [a|e] eqn:Hr.
  - right. exists a. split; [done|]. unfold run.
    by rewrite (transaction_transparent body Ht left d a Hr).
  - left. exists e. split; [done|]. by eapply transaction_atomic.
Qed.

(** When the run is known, so is every session. *)
Lemma atomic_run {A} (m : Sql DbErr A) `{!Atomic m} left d a d' :
  run m d = (Ok a, d') ->
  (exists e, o_result (m left d) = Err e /\ o_db (m left d) = d) \/
  (o_result (m left d) = Ok a /\ o_db (m left d) = d').
Proof.
  intros Hrun. destruct (atomic left d) as [?|(b & Hb & Hr)]; [by left|right].
  rewrite Hrun in Hr. injection Hr as -> ->. done.
Qed.

Lemma run_bind {E A B} (f : A -> Sql E B) (m : Sql E A) `{!Steady m} d :
  run (sql_bind f m) d =
    match run m d with (Ok a, d') => run (f a) d' | (Err e, d') => (Err e, d') end.
Proof.
  unfold run, sql_bind. pose proof (steady (m := m) d) as Hs.
  destruct (o_result (m None d)); simpl; by rewrite ?Hs.
Qed.

Lemma run_lift {E A} `{FromDbErr E} (m : Sql DbErr A) d :
  run (lift m) d =
    match run m d with (Ok a, d') => (Ok a, d') | (Err e, d') => (Err (from_db_err e), d') end.
Proof. unfold run, lift. by destruct (o_result (m None d)). Qed.

Lemma run_transaction {A} (body : Sql DbErr (ending A)) `{!Steady body} d :
  run (transaction body) d =
    match run body d with
    | (Ok (EndCommit a), d') => (Ok a, d')
    | (Ok (EndRollback a | EndDrop a), _) => (Ok a, d)
    | (Err e, _) => (Err e, d)
    end.
Proof.
  unfold run, transaction. simpl. pose proof (steady (m := body) d) as Hs.
  destruct (o_result (body None d)) as [[b|b|b]|]; simpl; by rewrite ?Hs.
Qed.
End session.

Global Arguments Sql : clear implicits.
Global Arguments outcome : clear implicits.

#[export] Instance sql_mret {D E} : MRet (Sql D E) := fun A a => sql_ret a.
#[export] Instance sql_mbind {D E} : MBind (Sql D E) := fun A B f m => sql_bind f m.

Section loops.
Context {D E A B : Type}.

(** [for x in l { body(x)? }] *)
Fixpoint for_each (body : A -> Sql D E unit) (l : list A) : Sql D E unit :=
  match l with
  | [] => mret tt
  | x :: l => _ ← body x; for_each body l
  end.

(** [for x in l { acc.extend(f(x)?) }], and [acc.push] with one element. *)
Fixpoint for_collect (f : A -> Sql D E (list B)) (l : list A) : Sql D E (list B) :=
  match l with
  | [] => mret []
  | x :: l => y ← f x; ys ← for_collect f l; mret (y ++ ys)
  end.

#[export] Instance for_each_transparent (body : A -> Sql D E unit) l :
  (forall x, Transparent (body x)) -> Transparent (for_each body l).
Proof. intros ?. induction l; simpl; apply _. Qed.
#[export] Instance for_each_steady (body : A -> Sql D E unit) l :
  (forall x, Steady (body x)) -> Steady (for_each body l).
Proof. intros ?. induction l; simpl; apply _. Qed.
#[export] Instance for_each_preserves I (body : A -> Sql D E unit) l :
  (forall x, Preserves I (body x)) -> Preserves I (for_each body l).
Proof. intros ?. induction l; simpl; apply _. Qed.
#[export] Instance for_collect_transparent (f : A -> Sql D E (list B)) l :
  (forall x, Transparent (f x)) -> Transparent (for_collect f l).
Proof. intros ?. induction l; simpl; apply _. Qed.
#[export] Instance for_collect_steady (f : A -> Sql D E (list B)) l :
  (forall x, Steady (f x)) -> Steady (for_collect f l).
Proof. intros ?. induction l; simpl; apply _. Qed.
#[export] Instance for_collect_preserves I (f : A -> Sql D E (list B)) l :
  (forall x, Preserves I (f x)) -> Preserves I (for_collect f l).
Proof. intros ?. induction l; simpl; apply _. Qed.
End loops.

(** ** Sessions as triples

    What a program run over any connection guarantees: it only moves the
    database along [R], and what it answers satisfies [Q] where it stopped. *)
Section triples.
Context {D : Type} (R : relation D) `{!PreOrder R}.

Definition triple {E A} (P : D -> Prop) (m : Sql D E A) (Q : A -> D -> Prop) : Prop :=
  forall left d, P d -> R d (o_db (m left d)) /\
    forall a, o_result (m left d) = Ok a -> Q a (o_db (m left d)).

(** A precondition that survives whatever else moves along [R]. *)
Definition stable (P : D -> Prop) : Prop := forall d d', R d d' -> P d -> P d'.

Lemma triple_ret {E A} (P : D -> Prop) (a : A) (Q : A -> D -> Prop) :
  (forall d, P d -> Q a d) -> triple (E := E) P (mret a) Q.
Proof. intros HQ left d Hd. split; [done|]. intros b [= <-]. by apply HQ. Qed.

Lemma triple_from_result {E A} (P : D -> Prop) (r : result E A) (Q : A -> D -> Prop) :
  (forall d a, P d -> r = Ok a -> Q a d) -> triple P (from_result r) Q.
Proof. intros HQ left d Hd. split; [done|]. intros a Ha. by apply HQ. Qed.

Lemma triple_query {A} (P : D -> Prop) (q : D -> A) (Q : A -> D -> Prop) :
  (forall d, P d -> Q (q d) d) -> triple P (query q) Q.
Proof.
  intros HQ [[|n]|] d Hd; unfold query, statement; simpl; split; try done;
    intros a [= <-]; by apply HQ.
Qed.

Lemma triple_statement {A} (P : D -> Prop)
    (f : D -> result DbErr (A * D)) (Q : A -> D -> Prop) :
  (forall d a d', P d -> f d = Ok (a, d') -> R d d' /\ Q a d') ->
  triple P (statement f) Q.
Proof.
  intros Hf [[|n]|] d Hd; unfold statement; simpl.
  - split; [done|]. by intros a.
  - destruct (f d) as [[a d']|e] eqn:Hfd; simpl.
    + destruct (Hf d a d' Hd Hfd). split; [done|]. by intros ? [= <-].
    + split; [done|]. by intros a.
  - destruct (f d) as [[a d']|e] eqn:Hfd; simpl.
    + destruct (Hf d a d' Hd Hfd). split; [done|]. by intros ? [= <-].
    + split; [done|]. by intros a.
Qed.

Lemma triple_bind {E A B} (P : D -> Prop) (m : Sql D E A) (f : A -> Sql D E B) Q S :
  triple P m Q -> (forall a, triple (Q a) (f a) S) -> triple P (mbind f m) S.
Proof.
  intros Hm Hf left d Hd. destruct (Hm left d Hd) as [Hr Hq].
  unfold mbind, sql_mbind, sql_bind. destruct (o_result (m left d)) as [a|e]; simpl; [|done].
  destruct (Hf a (o_left (m left d)) _ (Hq a eq_refl)) as [Hr' Hs].
  split; [by etrans|done].
Qed.

Lemma triple_lift {E A} `{FromDbErr E} (P : D -> Prop) (m : Sql D DbErr A) Q :
  triple P m Q -> triple (E := E) P (lift m) Q.
Proof.
  intros Hm left d Hd. destruct (Hm left d Hd) as [Hr Hq]. unfold lift.
  destruct (o_result (m left d)) as [a|e]; simpl; [|done].
  split; [done|]. intros b [= <-]. by apply Hq.
Qed.

Lemma triple_conseq {E A} (P P' : D -> Prop) (m : Sql D E A) (Q Q' : A -> D -> Prop) :
  triple P' m Q' -> (forall d, P d -> P' d) -> (forall a d, Q' a d -> Q a d) -> triple P m Q.
Proof.
  intros Hm HP HQ left d Hd. destruct (Hm left d (HP d Hd)) as [Hr Hq]. split; [done|].
  intros a Ha. by apply HQ, Hq.
Qed.

(** A stable fact known before is known after. *)
Lemma triple_frame {E A} (F P : D -> Prop) (m : Sql D E A) Q :
  stable F -> triple P m Q -> triple (fun d => F d /\ P d) m (fun a d => F d /\ Q a d).
Proof.
  intros HF Hm left d [Hf Hd]. destruct (Hm left d Hd) as [Hr Hq]. split; [done|].
  intros a Ha. split; [by eapply HF|by apply Hq].
Qed.

(** One transaction: what it commits is what its run computes. *)
Lemma triple_atomic {A} (P : D -> Prop) (m : Sql D DbErr A) `{!Atomic m} Q :
  (forall d a d', P d -> run m d = (Ok a, d') -> R d d' /\ Q a d') -> triple P m Q.
Proof.
  intros Hrun left d Hd. destruct (atomic (m := m) left d) as [(e & -> & ->)|(a & -> & Hr)].
  - split; [done|]. by intros a.
  - destruct (Hrun d a _ Hd Hr) as [HR HQ]. split; [done|]. by intros b [= <-].
Qed.

Lemma triple_for_collect {E A B} (P : D -> Prop) (f : A -> Sql D E (list B)) (l : list A)
    (Q : D -> Prop) :
  stable Q -> (forall x, x ∈ l -> triple (fun d => P d /\ Q d) (f x) (fun _ d => P d)) ->
  triple (fun d => P d /\ Q d) (for_collect f l) (fun _ d => P d /\ Q d).
Proof.
  intros HQ. induction l as [|x l IH]; intros Hf; cbn [for_collect].
  - by apply triple_ret.
  - apply (triple_bind _ _ _ (fun _ d => P d /\ Q d)).
    + intros left d [Hp Hq]. destruct (Hf x (list_elem_of_here _ _) left d (conj Hp Hq)) as [Hr Hpost].
      split; [done|]. intros a Ha. split; [by apply (Hpost a)|by eapply HQ].
    + intros y. apply (triple_bind _ _ _ (fun _ d => P d /\ Q d)).
      * apply IH. intros z Hz. apply Hf. by right.
      * intros ys. by apply triple_ret.
Qed.

Lemma triple_for_each {E A} (P : D -> Prop) (f : A -> Sql D E unit) (l : list A) (Q : D -> Prop) :
  stable Q -> (forall x, x ∈ l -> triple (fun d => P d /\ Q d) (f x) (fun _ d => P d)) ->
  triple (fun d => P d /\ Q d) (for_each f l) (fun _ d => P d /\ Q d).
Proof.
  intros HQ. induction l as [|x l IH]; intros Hf; cbn [for_each].
  - by apply triple_ret.
  - apply (triple_bind _ _ _ (fun _ d => P d /\ Q d)).
    + intros left d [Hp Hq]. destruct (Hf x (list_elem_of_here _ _) left d (conj Hp Hq)) as [Hr Hpost].
      split; [done|]. intros a Ha. split; [by apply (Hpost a)|by eapply HQ].
    + intros []. apply IH. intros z Hz. apply Hf. by right.
Qed.
End triples.

(** [sql_class]: prove [Transparent], [Steady] or [Preserves] of a program by
    its structure, splitting on whatever it branches on. *)
Ltac sql_class :=
  repeat first
    [ progress intros
    | apply _
    | match goal with
      | |- Transparent (match ?x with _ => _ end) => destruct x
      | |- Steady (match ?x with _ => _ end) => destruct x
      | |- Preserves _ (match ?x with _ => _ end) => destruct x
      | |- Atomic (transaction _) => apply transaction_session
      | |- Transparent (mbind _ _) => apply bind_transparent
      | |- Steady (mbind _ _) => apply bind_steady
      | |- Preserves _ (mbind _ _) => apply bind_preserves
      | |- Transparent (sql_bind _ _) => apply bind_transparent
      | |- Steady (sql_bind _ _) => apply bind_steady
      | |- Preserves _ (sql_bind _ _) => apply bind_preserves
      | |- Transparent (transaction _) => apply transaction_transparent
      | |- Steady (transaction _) => apply transaction_steady
      | |- Transparent (for_each _ _) => apply for_each_transparent
      | |- Transparent (for_collect _ _) => apply for_collect_transparent
      | |- Steady (for_each _ _) => apply for_each_steady
      | |- Steady (for_collect _ _) => apply for_collect_steady
      | |- Preserves _ (for_each _ _) => apply for_each_preserves
      | |- Preserves _ (for_collect _ _) => apply for_collect_preserves
      end ].
