(* ===== verification/Schema.v ===== *)
(** * Tables, rows and indexes

    The entities of [backend/aurcache-db/src] ([builds.rs], [packages.rs],
    [workers.rs], [dependencies.rs], [files.rs]) as records, the platforms and
    source descriptions they hold, and the constraints the migration
    [m20261008_000000_from_0_5/schema.rs] puts on them. A table is the list of
    its rows in storage order; a statement with no [ORDER BY] answers in that
    order, and no theorem depends on which order that is. *)
From S2P Require Import Prelude BuildState Sql.

(** ** [pacman-mirrors/src/platforms.rs] *)
Module Platform.
Inductive Platform := X86_64 | Aarch64 | Armv7h.

#[export] Instance Platform_eq_dec : EqDecision Platform.
Proof. solve_decision. Defined.

(* Platform::ALL *)
Definition ALL : list Platform := [X86_64; Aarch64; Armv7h].

Definition as_str (p : Platform) : string :=
  match p with
  | X86_64 => "x86_64"
  | Aarch64 => "aarch64"
  | Armv7h => "armv7h"
  end.

(** [FromStr]; the error carries the rejected name. *)
Definition from_str (s : string) : result string Platform :=
  if decide (s = "x86_64") then Ok X86_64
  else if decide (s = "aarch64") then Ok Aarch64
  else if decide (s = "armv7h") then Ok Armv7h
  else Err s.

Lemma from_str_spec s p : from_str s = Ok p <-> s = as_str p.
Proof.
  unfold from_str. split.
  - repeat case_decide; intros; by simplify_eq.
  - intros ->. by destruct p.
Qed.

Lemma as_str_inj p q : as_str p = as_str q -> p = q.
Proof. by destruct p, q. Qed.
End Platform.
Export (hints) Platform.
Abbreviation Platform := Platform.Platform.

(** ** [aurcache-common/src/source.rs] *)
Record GitSourceSpec := {
  url : string;
  git_ref : string;
  subfolder : string
}.

Inductive SourceData :=
| Aur (name : string)
| Git (spec : GitSourceSpec)
| Upload (archive : list Z).

#[export] Instance GitSourceSpec_eq_dec : EqDecision GitSourceSpec.
Proof. solve_decision. Defined.
#[export] Instance SourceData_eq_dec : EqDecision SourceData.
Proof. solve_decision. Defined.

(** ** [aurcache-common/src/api/worker.rs] *)
Inductive ApprovalStatus := Approved | Revoked | Pending.

#[export] Instance ApprovalStatus_eq_dec : EqDecision ApprovalStatus.
Proof. solve_decision. Defined.

Definition approval_as_str (s : ApprovalStatus) : string :=
  match s with
  | Pending => "pending"
  | Approved => "approved"
  | Revoked => "revoked"
  end.

Definition can_build (s : ApprovalStatus) : bool :=
  match s with Approved => true | _ => false end.

(** ** The entities *)

(** [aurcache-db/src/builds.rs] *)
Module builds.
(* fields in the entity's order *)
Record Model := mk {
  id : Z;
  pkg_id : Z;
  number : Z;
  status : BuildState;
  start_time : option Z;
  end_time : option Z;
  platform : Platform;
  version : string;
  size : option Z;
  peak_memory : option Z;
  disk_chroot : option Z;
  disk_workdir : option Z;
  disk_sources : option Z;
  disk_build_tree : option Z;
  worker_id : option Z;
  lease_expires_at : option Z;
  trigger : BuildTrigger;
  end_reason : option EndReason;
  vcs_sources : option (gmap string string);
  kept_path : option string;
  kept_until : option Z;
  kept_tree : option string
}.

#[export] Instance Model_eq_dec : EqDecision Model.
Proof. solve_decision. Defined.

(** A column and the value an [UPDATE] gives it. *)
Inductive col_expr :=
| Set_status (v : BuildState)
| Set_start_time (v : option Z)
| Set_end_time (v : option Z)
| Set_version (v : string)
| Set_size (v : option Z)
| Set_peak_memory (v : option Z)
| Set_disk_chroot (v : option Z)
| Set_disk_workdir (v : option Z)
| Set_disk_sources (v : option Z)
| Set_disk_build_tree (v : option Z)
| Set_worker_id (v : option Z)
| Set_lease_expires_at (v : option Z)
| Set_end_reason (v : option EndReason)
| Set_vcs_sources (v : option (gmap string string))
| Set_kept_path (v : option string)
| Set_kept_until (v : option Z)
| Set_kept_tree (v : option string).

Definition set (c : col_expr) (m : Model) : Model :=
  match c with
  | Set_status v =>
      mk (id m) (pkg_id m) (number m) v (start_time m) (end_time m) (platform m) (version m) (size m) (peak_memory m) (disk_chroot m) (disk_workdir m) (disk_sources m) (disk_build_tree m) (worker_id m) (lease_expires_at m) (trigger m) (end_reason m) (vcs_sources m) (kept_path m) (kept_until m) (kept_tree m)
  | Set_start_time v =>
      mk (id m) (pkg_id m) (number m) (status m) v (end_time m) (platform m) (version m) (size m) (peak_memory m) (disk_chroot m) (disk_workdir m) (disk_sources m) (disk_build_tree m) (worker_id m) (lease_expires_at m) (trigger m) (end_reason m) (vcs_sources m) (kept_path m) (kept_until m) (kept_tree m)
  | Set_end_time v =>
      mk (id m) (pkg_id m) (number m) (status m) (start_time m) v (platform m) (version m) (size m) (peak_memory m) (disk_chroot m) (disk_workdir m) (disk_sources m) (disk_build_tree m) (worker_id m) (lease_expires_at m) (trigger m) (end_reason m) (vcs_sources m) (kept_path m) (kept_until m) (kept_tree m)
  | Set_version v =>
      mk (id m) (pkg_id m) (number m) (status m) (start_time m) (end_time m) (platform m) v (size m) (peak_memory m) (disk_chroot m) (disk_workdir m) (disk_sources m) (disk_build_tree m) (worker_id m) (lease_expires_at m) (trigger m) (end_reason m) (vcs_sources m) (kept_path m) (kept_until m) (kept_tree m)
  | Set_size v =>
      mk (id m) (pkg_id m) (number m) (status m) (start_time m) (end_time m) (platform m) (version m) v (peak_memory m) (disk_chroot m) (disk_workdir m) (disk_sources m) (disk_build_tree m) (worker_id m) (lease_expires_at m) (trigger m) (end_reason m) (vcs_sources m) (kept_path m) (kept_until m) (kept_tree m)
  | Set_peak_memory v =>
      mk (id m) (pkg_id m) (number m) (status m) (start_time m) (end_time m) (platform m) (version m) (size m) v (disk_chroot m) (disk_workdir m) (disk_sources m) (disk_build_tree m) (worker_id m) (lease_expires_at m) (trigger m) (end_reason m) (vcs_sources m) (kept_path m) (kept_until m) (kept_tree m)
  | Set_disk_chroot v =>
      mk (id m) (pkg_id m) (number m) (status m) (start_time m) (end_time m) (platform m) (version m) (size m) (peak_memory m) v (disk_workdir m) (disk_sources m) (disk_build_tree m) (worker_id m) (lease_expires_at m) (trigger m) (end_reason m) (vcs_sources m) (kept_path m) (kept_until m) (kept_tree m)
  | Set_disk_workdir v =>
      mk (id m) (pkg_id m) (number m) (status m) (start_time m) (end_time m) (platform m) (version m) (size m) (peak_memory m) (disk_chroot m) v (disk_sources m) (disk_build_tree m) (worker_id m) (lease_expires_at m) (trigger m) (end_reason m) (vcs_sources m) (kept_path m) (kept_until m) (kept_tree m)
  | Set_disk_sources v =>
      mk (id m) (pkg_id m) (number m) (status m) (start_time m) (end_time m) (platform m) (version m) (size m) (peak_memory m) (disk_chroot m) (disk_workdir m) v (disk_build_tree m) (worker_id m) (lease_expires_at m) (trigger m) (end_reason m) (vcs_sources m) (kept_path m) (kept_until m) (kept_tree m)
  | Set_disk_build_tree v =>
      mk (id m) (pkg_id m) (number m) (status m) (start_time m) (end_time m) (platform m) (version m) (size m) (peak_memory m) (disk_chroot m) (disk_workdir m) (disk_sources m) v (worker_id m) (lease_expires_at m) (trigger m) (end_reason m) (vcs_sources m) (kept_path m) (kept_until m) (kept_tree m)
  | Set_worker_id v =>
      mk (id m) (pkg_id m) (number m) (status m) (start_time m) (end_time m) (platform m) (version m) (size m) (peak_memory m) (disk_chroot m) (disk_workdir m) (disk_sources m) (disk_build_tree m) v (lease_expires_at m) (trigger m) (end_reason m) (vcs_sources m) (kept_path m) (kept_until m) (kept_tree m)
  | Set_lease_expires_at v =>
      mk (id m) (pkg_id m) (number m) (status m) (start_time m) (end_time m) (platform m) (version m) (size m) (peak_memory m) (disk_chroot m) (disk_workdir m) (disk_sources m) (disk_build_tree m) (worker_id m) v (trigger m) (end_reason m) (vcs_sources m) (kept_path m) (kept_until m) (kept_tree m)
  | Set_end_reason v =>
      mk (id m) (pkg_id m) (number m) (status m) (start_time m) (end_time m) (platform m) (version m) (size m) (peak_memory m) (disk_chroot m) (disk_workdir m) (disk_sources m) (disk_build_tree m) (worker_id m) (lease_expires_at m) (trigger m) v (vcs_sources m) (kept_path m) (kept_until m) (kept_tree m)
  | Set_vcs_sources v =>
      mk (id m) (pkg_id m) (number m) (status m) (start_time m) (end_time m) (platform m) (version m) (size m) (peak_memory m) (disk_chroot m) (disk_workdir m) (disk_sources m) (disk_build_tree m) (worker_id m) (lease_expires_at m) (trigger m) (end_reason m) v (kept_path m) (kept_until m) (kept_tree m)
  | Set_kept_path v =>
      mk (id m) (pkg_id m) (number m) (status m) (start_time m) (end_time m) (platform m) (version m) (size m) (peak_memory m) (disk_chroot m) (disk_workdir m) (disk_sources m) (disk_build_tree m) (worker_id m) (lease_expires_at m) (trigger m) (end_reason m) (vcs_sources m) v (kept_until m) (kept_tree m)
  | Set_kept_until v =>
      mk (id m) (pkg_id m) (number m) (status m) (start_time m) (end_time m) (platform m) (version m) (size m) (peak_memory m) (disk_chroot m) (disk_workdir m) (disk_sources m) (disk_build_tree m) (worker_id m) (lease_expires_at m) (trigger m) (end_reason m) (vcs_sources m) (kept_path m) v (kept_tree m)
  | Set_kept_tree v =>
      mk (id m) (pkg_id m) (number m) (status m) (start_time m) (end_time m) (platform m) (version m) (size m) (peak_memory m) (disk_chroot m) (disk_workdir m) (disk_sources m) (disk_build_tree m) (worker_id m) (lease_expires_at m) (trigger m) (end_reason m) (vcs_sources m) (kept_path m) (kept_until m) v
  end.

Definition assign (cols : list col_expr) (m : Model) : Model := foldl (fun m c => set c m) m cols.
End builds.

(** [aurcache-db/src/packages.rs]; [platforms] is [NULL] on a row older than the column's default *)
Module packages.
(* fields in the entity's order *)
Record Model := mk {
  id : Z;
  name : string;
  status : BuildState;
  out_of_date : bool;
  upstream_version : option string;
  build_flags : list string;
  platforms : option (list Platform);
  source_data : SourceData;
  directly_requested : bool;
  split_packages : option (list string);
  provides : option (list string);
  patch : option string;
  source_description : option string;
  source_maintainer : option string;
  source_project_url : option string;
  source_licenses : option (list string);
  source_first_submitted : option Z;
  source_last_modified : option Z;
  aur_flagged_outdated : option bool;
  aur_missing : option bool
}.

#[export] Instance Model_eq_dec : EqDecision Model.
Proof. solve_decision. Defined.

(** A column and the value an [UPDATE] gives it. *)
Inductive col_expr :=
| Set_status (v : BuildState)
| Set_out_of_date (v : bool)
| Set_upstream_version (v : option string)
| Set_platforms (v : option (list Platform))
| Set_directly_requested (v : bool).

Definition set (c : col_expr) (m : Model) : Model :=
  match c with
  | Set_status v =>
      mk (id m) (name m) v (out_of_date m) (upstream_version m) (build_flags m) (platforms m) (source_data m) (directly_requested m) (split_packages m) (provides m) (patch m) (source_description m) (source_maintainer m) (source_project_url m) (source_licenses m) (source_first_submitted m) (source_last_modified m) (aur_flagged_outdated m) (aur_missing m)
  | Set_out_of_date v =>
      mk (id m) (name m) (status m) v (upstream_version m) (build_flags m) (platforms m) (source_data m) (directly_requested m) (split_packages m) (provides m) (patch m) (source_description m) (source_maintainer m) (source_project_url m) (source_licenses m) (source_first_submitted m) (source_last_modified m) (aur_flagged_outdated m) (aur_missing m)
  | Set_upstream_version v =>
      mk (id m) (name m) (status m) (out_of_date m) v (build_flags m) (platforms m) (source_data m) (directly_requested m) (split_packages m) (provides m) (patch m) (source_description m) (source_maintainer m) (source_project_url m) (source_licenses m) (source_first_submitted m) (source_last_modified m) (aur_flagged_outdated m) (aur_missing m)
  | Set_platforms v =>
      mk (id m) (name m) (status m) (out_of_date m) (upstream_version m) (build_flags m) v (source_data m) (directly_requested m) (split_packages m) (provides m) (patch m) (source_description m) (source_maintainer m) (source_project_url m) (source_licenses m) (source_first_submitted m) (source_last_modified m) (aur_flagged_outdated m) (aur_missing m)
  | Set_directly_requested v =>
      mk (id m) (name m) (status m) (out_of_date m) (upstream_version m) (build_flags m) (platforms m) (source_data m) v (split_packages m) (provides m) (patch m) (source_description m) (source_maintainer m) (source_project_url m) (source_licenses m) (source_first_submitted m) (source_last_modified m) (aur_flagged_outdated m) (aur_missing m)
  end.

Definition assign (cols : list col_expr) (m : Model) : Model := foldl (fun m c => set c m) m cols.
End packages.

(** [aurcache-db/src/workers.rs] *)
Module workers.
(* fields in the entity's order *)
Record Model := mk {
  id : Z;
  name : string;
  status : ApprovalStatus;
  cert_fingerprint : string;
  signed_cert : option string;
  not_after : option Z;
  arches : list string;
  last_seen : option Z;
  version : option string;
  kind : option string;
  package_affinity : list string;
  priority : Z;
  concurrency : Z;
  settings_declaration : string;
  effective_config : option string;
  paused : bool;
  embedded : bool
}.

#[export] Instance Model_eq_dec : EqDecision Model.
Proof. solve_decision. Defined.

(** A column and the value an [UPDATE] gives it. *)
Inductive col_expr :=
| Set_name (v : string)
| Set_status (v : ApprovalStatus)
| Set_cert_fingerprint (v : string)
| Set_signed_cert (v : option string)
| Set_not_after (v : option Z)
| Set_arches (v : list string)
| Set_last_seen (v : option Z)
| Set_version (v : option string)
| Set_kind (v : option string)
| Set_package_affinity (v : list string)
| Set_priority (v : Z)
| Set_concurrency (v : Z)
| Set_settings_declaration (v : string)
| Set_effective_config (v : option string)
| Set_paused (v : bool)
| Set_embedded (v : bool).

Definition set (c : col_expr) (m : Model) : Model :=
  match c with
  | Set_name v =>
      mk (id m) v (status m) (cert_fingerprint m) (signed_cert m) (not_after m) (arches m) (last_seen m) (version m) (kind m) (package_affinity m) (priority m) (concurrency m) (settings_declaration m) (effective_config m) (paused m) (embedded m)
  | Set_status v =>
      mk (id m) (name m) v (cert_fingerprint m) (signed_cert m) (not_after m) (arches m) (last_seen m) (version m) (kind m) (package_affinity m) (priority m) (concurrency m) (settings_declaration m) (effective_config m) (paused m) (embedded m)
  | Set_cert_fingerprint v =>
      mk (id m) (name m) (status m) v (signed_cert m) (not_after m) (arches m) (last_seen m) (version m) (kind m) (package_affinity m) (priority m) (concurrency m) (settings_declaration m) (effective_config m) (paused m) (embedded m)
  | Set_signed_cert v =>
      mk (id m) (name m) (status m) (cert_fingerprint m) v (not_after m) (arches m) (last_seen m) (version m) (kind m) (package_affinity m) (priority m) (concurrency m) (settings_declaration m) (effective_config m) (paused m) (embedded m)
  | Set_not_after v =>
      mk (id m) (name m) (status m) (cert_fingerprint m) (signed_cert m) v (arches m) (last_seen m) (version m) (kind m) (package_affinity m) (priority m) (concurrency m) (settings_declaration m) (effective_config m) (paused m) (embedded m)
  | Set_arches v =>
      mk (id m) (name m) (status m) (cert_fingerprint m) (signed_cert m) (not_after m) v (last_seen m) (version m) (kind m) (package_affinity m) (priority m) (concurrency m) (settings_declaration m) (effective_config m) (paused m) (embedded m)
  | Set_last_seen v =>
      mk (id m) (name m) (status m) (cert_fingerprint m) (signed_cert m) (not_after m) (arches m) v (version m) (kind m) (package_affinity m) (priority m) (concurrency m) (settings_declaration m) (effective_config m) (paused m) (embedded m)
  | Set_version v =>
      mk (id m) (name m) (status m) (cert_fingerprint m) (signed_cert m) (not_after m) (arches m) (last_seen m) v (kind m) (package_affinity m) (priority m) (concurrency m) (settings_declaration m) (effective_config m) (paused m) (embedded m)
  | Set_kind v =>
      mk (id m) (name m) (status m) (cert_fingerprint m) (signed_cert m) (not_after m) (arches m) (last_seen m) (version m) v (package_affinity m) (priority m) (concurrency m) (settings_declaration m) (effective_config m) (paused m) (embedded m)
  | Set_package_affinity v =>
      mk (id m) (name m) (status m) (cert_fingerprint m) (signed_cert m) (not_after m) (arches m) (last_seen m) (version m) (kind m) v (priority m) (concurrency m) (settings_declaration m) (effective_config m) (paused m) (embedded m)
  | Set_priority v =>
      mk (id m) (name m) (status m) (cert_fingerprint m) (signed_cert m) (not_after m) (arches m) (last_seen m) (version m) (kind m) (package_affinity m) v (concurrency m) (settings_declaration m) (effective_config m) (paused m) (embedded m)
  | Set_concurrency v =>
      mk (id m) (name m) (status m) (cert_fingerprint m) (signed_cert m) (not_after m) (arches m) (last_seen m) (version m) (kind m) (package_affinity m) (priority m) v (settings_declaration m) (effective_config m) (paused m) (embedded m)
  | Set_settings_declaration v =>
      mk (id m) (name m) (status m) (cert_fingerprint m) (signed_cert m) (not_after m) (arches m) (last_seen m) (version m) (kind m) (package_affinity m) (priority m) (concurrency m) v (effective_config m) (paused m) (embedded m)
  | Set_effective_config v =>
      mk (id m) (name m) (status m) (cert_fingerprint m) (signed_cert m) (not_after m) (arches m) (last_seen m) (version m) (kind m) (package_affinity m) (priority m) (concurrency m) (settings_declaration m) v (paused m) (embedded m)
  | Set_paused v =>
      mk (id m) (name m) (status m) (cert_fingerprint m) (signed_cert m) (not_after m) (arches m) (last_seen m) (version m) (kind m) (package_affinity m) (priority m) (concurrency m) (settings_declaration m) (effective_config m) v (embedded m)
  | Set_embedded v =>
      mk (id m) (name m) (status m) (cert_fingerprint m) (signed_cert m) (not_after m) (arches m) (last_seen m) (version m) (kind m) (package_affinity m) (priority m) (concurrency m) (settings_declaration m) (effective_config m) (paused m) v
  end.

Definition assign (cols : list col_expr) (m : Model) : Model := foldl (fun m c => set c m) m cols.
End workers.

(** [aurcache-db/src/dependencies.rs] *)
Module dependencies.
(* fields in the entity's order *)
Record Model := mk {
  id : Z;
  dependent_id : Z;
  dependee_id : Z;
  version_constraint : string
}.

#[export] Instance Model_eq_dec : EqDecision Model.
Proof. solve_decision. Defined.

(** A column and the value an [UPDATE] gives it. *)
Inductive col_expr :=
| Set_dependee_id (v : Z)
| Set_version_constraint (v : string).

Definition set (c : col_expr) (m : Model) : Model :=
  match c with
  | Set_dependee_id v =>
      mk (id m) (dependent_id m) v (version_constraint m)
  | Set_version_constraint v =>
      mk (id m) (dependent_id m) (dependee_id m) v
  end.

Definition assign (cols : list col_expr) (m : Model) : Model := foldl (fun m c => set c m) m cols.
End dependencies.

(** [aurcache-db/src/files.rs] *)
Module files.
(* fields in the entity's order *)
Record Model := mk {
  filename : string;
  id : Z;
  platform : Platform;
  package_id : Z;
  size : option Z
}.

#[export] Instance Model_eq_dec : EqDecision Model.
Proof. solve_decision. Defined.

(** A column and the value an [UPDATE] gives it. *)
Inductive col_expr :=
| Set_package_id (v : Z)
| Set_size (v : option Z).

Definition set (c : col_expr) (m : Model) : Model :=
  match c with
  | Set_package_id v =>
      mk (filename m) (id m) (platform m) v (size m)
  | Set_size v =>
      mk (filename m) (id m) (platform m) (package_id m) v
  end.

Definition assign (cols : list col_expr) (m : Model) : Model := foldl (fun m c => set c m) m cols.
End files.
Export (hints) builds packages workers dependencies files.

(** [aurcache-db/src/worker_settings.rs] *)
Module worker_settings.
(* fields in the entity's order *)
Record Model := mk {
  id : Z;
  worker_id : Z;
  key : string;
  value : string
}.
#[export] Instance Model_eq_dec : EqDecision Model.
Proof. solve_decision. Defined.
End worker_settings.

(** [aurcache-db/src/settings.rs] *)
Module settings.
(* fields in the entity's order *)
Record Model := mk {
  id : Z;
  key : string;
  value : option string;
  pkg_id : Z
}.
#[export] Instance Model_eq_dec : EqDecision Model.
Proof. solve_decision. Defined.

Definition GLOBAL : Z := -1.
Definition scope (pkg_id : option Z) : Z := match pkg_id with Some id => id | None => GLOBAL end.
End settings.

Module package_vcs_sources.
(* fields in the entity's order *)
Record Model := mk {
  id : Z;
  package_id : Z;
  source_url : string;
  last_commit : string;
  updated_at : Z
}.
End package_vcs_sources.
Export (hints) worker_settings settings.

(** ** The database

    [next_build_id], [next_file_id] and their like are the tables' [AUTOINCREMENT]
    counters: an id is never given out twice. *)
Record database := Database {
  t_builds : list builds.Model;
  t_packages : list packages.Model;
  t_workers : list workers.Model;
  t_dependencies : list dependencies.Model;
  t_files : list files.Model;
  next_build_id : Z;
  next_file_id : Z;
  t_worker_settings : list worker_settings.Model;
  t_settings : list settings.Model;
  next_worker_id : Z;
  next_worker_setting_id : Z;
  next_setting_id : Z;
  t_vcs_sources : list package_vcs_sources.Model
}.

Definition with_builds (l : list builds.Model) (d : database) : database :=
  Database l (t_packages d) (t_workers d) (t_dependencies d) (t_files d)
    (next_build_id d) (next_file_id d) (t_worker_settings d) (t_settings d)
    (next_worker_id d) (next_worker_setting_id d)
    (next_setting_id d) (t_vcs_sources d).
Definition with_packages (l : list packages.Model) (d : database) : database :=
  Database (t_builds d) l (t_workers d) (t_dependencies d) (t_files d)
    (next_build_id d) (next_file_id d) (t_worker_settings d) (t_settings d)
    (next_worker_id d) (next_worker_setting_id d)
    (next_setting_id d) (t_vcs_sources d).
Definition with_workers (l : list workers.Model) (d : database) : database :=
  Database (t_builds d) (t_packages d) l (t_dependencies d) (t_files d)
    (next_build_id d) (next_file_id d) (t_worker_settings d) (t_settings d)
    (next_worker_id d) (next_worker_setting_id d)
    (next_setting_id d) (t_vcs_sources d).
Definition with_files (l : list files.Model) (d : database) : database :=
  Database (t_builds d) (t_packages d) (t_workers d) (t_dependencies d) l
    (next_build_id d) (next_file_id d) (t_worker_settings d) (t_settings d)
    (next_worker_id d) (next_worker_setting_id d)
    (next_setting_id d) (t_vcs_sources d).

Definition with_worker_settings (l : list worker_settings.Model) (next : Z) (d : database) : database :=
  Database (t_builds d) (t_packages d) (t_workers d) (t_dependencies d) (t_files d)
    (next_build_id d) (next_file_id d) l (t_settings d) (next_worker_id d) next
    (next_setting_id d) (t_vcs_sources d).
Definition with_settings (l : list settings.Model) (next : Z) (d : database) : database :=
  Database (t_builds d) (t_packages d) (t_workers d) (t_dependencies d) (t_files d)
    (next_build_id d) (next_file_id d) (t_worker_settings d) l
    (next_worker_id d) (next_worker_setting_id d)
    next (t_vcs_sources d).

Definition with_dependencies (l : list dependencies.Model) (d : database) : database :=
  Database (t_builds d) (t_packages d) (t_workers d) l (t_files d)
    (next_build_id d) (next_file_id d) (t_worker_settings d) (t_settings d)
    (next_worker_id d) (next_worker_setting_id d) (next_setting_id d) (t_vcs_sources d).
Definition with_vcs_sources (l : list package_vcs_sources.Model) (d : database) : database :=
  Database (t_builds d) (t_packages d) (t_workers d) (t_dependencies d) (t_files d)
    (next_build_id d) (next_file_id d) (t_worker_settings d) (t_settings d)
    (next_worker_id d) (next_worker_setting_id d) (next_setting_id d) l.

Abbreviation DB := (Sql database DbErr).

Definition in_progress (b : builds.Model) : Prop := builds.status b ∈ IN_PROGRESS.
#[export] Instance in_progress_dec b : Decision (in_progress b).
Proof. unfold in_progress. apply _. Defined.

(** The key of [idx_builds_pkg_number]. *)
Definition number_key (b : builds.Model) : Z * Z := (builds.pkg_id b, builds.number b).
(** The key of [idx_builds_pending_pkg_platform], a partial index. *)
Definition slot_key (b : builds.Model) : Z * Platform := (builds.pkg_id b, builds.platform b).

(** What the [builds] table's primary key and unique indexes require. *)
Record builds_indexes (l : list builds.Model) : Prop := {
  ids_unique : NoDup (builds.id <$> l);
  numbers_unique : NoDup (number_key <$> l);
  pending_unique : NoDup (slot_key <$> filter in_progress l)
}.

#[export] Instance builds_indexes_dec l : Decision (builds_indexes l).
Proof.
  destruct (decide (NoDup (builds.id <$> l) /\ NoDup (number_key <$> l) /\
                    NoDup (slot_key <$> filter in_progress l))) as [H|H].
  - left. by destruct H as (?&?&?).
  - right. intros [???]. by apply H.
Defined.

(** Every build belongs to a package ([REFERENCES packages (id)]). *)
Definition builds_owned (d : database) : Prop :=
  Forall (fun b => builds.pkg_id b ∈ (packages.id <$> t_packages d)) (t_builds d).

(** ** Statements on [builds] and [packages] *)

(** [Builds::find().filter(..).all(db)] *)
Definition find_builds (P : builds.Model -> Prop) `{!forall b, Decision (P b)} :
    DB (list builds.Model) :=
  query (fun d => filter P (t_builds d)).

(** [Builds::find_by_id(id).one(db)], and [.one(db)] of a filtered [SELECT]. *)
Definition find_build_where (P : builds.Model -> Prop) `{!forall b, Decision (P b)} :
    DB (option builds.Model) :=
  query (fun d => head (filter P (t_builds d))).

Definition find_build_by_id (id : Z) : DB (option builds.Model) :=
  find_build_where (fun b => builds.id b = id).

Definition find_package_by_id (id : Z) : DB (option packages.Model) :=
  query (fun d => head (filter (fun p => packages.id p = id) (t_packages d))).

(** The rows an [UPDATE ... SET cols WHERE P] leaves. *)
Definition updated (cols : list builds.col_expr) (P : builds.Model -> Prop)
    `{!forall b, Decision (P b)} (l : list builds.Model) : list builds.Model :=
  (fun b => if decide (P b) then builds.assign cols b else b) <$> l.

(** [Builds::update_many().col_expr(..).filter(..).exec(db)], answering
    [rows_affected]; an update the indexes refuse is an error. *)
Definition update_builds (cols : list builds.col_expr) (P : builds.Model -> Prop)
    `{!forall b, Decision (P b)} : DB nat :=
  statement (fun d =>
    let l := updated cols P (t_builds d) in
    if decide (builds_indexes l)
    then Ok (length (filter P (t_builds d)), with_builds l d)
    else Err Constraint).

(** The rows an [UPDATE] of [packages] leaves. *)
Definition updated_packages (cols : list packages.col_expr) (P : packages.Model -> Prop)
    `{!forall p, Decision (P p)} (l : list packages.Model) : list packages.Model :=
  (fun p => if decide (P p) then packages.assign cols p else p) <$> l.

Definition update_packages (cols : list packages.col_expr) (P : packages.Model -> Prop)
    `{!forall p, Decision (P p)} : DB nat :=
  statement (fun d =>
    Ok (length (filter P (t_packages d)),
        with_packages (updated_packages cols P (t_packages d)) d)).

(** [Builds::delete_by_id(id).exec(db)] *)
Definition delete_build_row (id : Z) : DB nat :=
  statement (fun d =>
    Ok (length (filter (fun b => builds.id b = id) (t_builds d)),
        with_builds (filter (fun b => builds.id b <> id) (t_builds d)) d)).

(** ** Lemmas *)

Lemma elem_of_updated cols P `{!forall b, Decision (P b)} l b :
  b ∈ updated cols P l <->
  exists a, a ∈ l /\ b = if decide (P a) then builds.assign cols a else a.
Proof.
  unfold updated. rewrite list_elem_of_fmap. split; intros (a & ? & ?); exists a; auto.
Qed.

(** An assignment never changes what the indexes key a row by. *)
Lemma assign_keys cols b :
  builds.id (builds.assign cols b) = builds.id b /\
  number_key (builds.assign cols b) = number_key b /\
  slot_key (builds.assign cols b) = slot_key b.
Proof.
  unfold builds.assign. revert b.
  induction cols as [|c cols IH]; intros b; simpl; [done|].
  destruct (IH (builds.set c b)) as (->&->&->). by destruct c.
Qed.

Lemma assign_id cols b : builds.id (builds.assign cols b) = builds.id b.
Proof. apply assign_keys. Qed.

Lemma fmap_updated {K} (f : builds.Model -> K) cols P `{!forall b, Decision (P b)} l :
  (forall b, f (builds.assign cols b) = f b) -> f <$> updated cols P l = f <$> l.
Proof.
  intros Hf. unfold updated. rewrite <- list_fmap_compose. apply list_fmap_ext.
  intros _ b _. simpl. case_decide; auto.
Qed.

Lemma updated_ids cols P `{!forall b, Decision (P b)} l :
  builds.id <$> updated cols P l = builds.id <$> l.
Proof. apply fmap_updated. intros b. apply assign_keys. Qed.

(** Rows that move from in progress to in progress, or out of it, cannot
    collide: the pending index shrinks. *)
Lemma updated_indexes cols P `{!forall b, Decision (P b)} l :
  (forall b, b ∈ l -> P b -> in_progress (builds.assign cols b) -> in_progress b) ->
  builds_indexes l -> builds_indexes (updated cols P l).
Proof.
  intros Hin [Hids Hnum Hpend]. split.
  - by rewrite updated_ids.
  - rewrite fmap_updated; [done|]. intros b. apply assign_keys.
  - clear Hids Hnum. revert Hin Hpend. unfold updated.
    induction l as [|b l IH]; intros Hin; csimpl; [done|].
    rewrite !filter_cons. intros Hnd.
    assert (NoDup (slot_key <$> filter in_progress l)) as Hl.
    { revert Hnd. case_decide; csimpl; [rewrite NoDup_cons|]; tauto. }
    assert (forall b, b ∈ l -> P b -> in_progress (builds.assign cols b) -> in_progress b)
      as Hin' by (intros; apply Hin; [by right|done..]).
    specialize (IH Hin' Hl).
    destruct (decide (in_progress (if decide (P b) then _ else _))) as [Hp|]; [|done].
    assert (in_progress b) as Hb.
    { case_decide; [|done]. apply Hin; [by left|done..]. }
    rewrite decide_True in Hnd by done. csimpl. csimpl in Hnd.
    apply NoDup_cons in Hnd as [Hfresh _]. apply NoDup_cons. split; [|done].
    assert (slot_key (if decide (P b) then builds.assign cols b else b) = slot_key b) as ->
      by (case_decide; [apply assign_keys|done]).
    intros Hi. apply Hfresh.
    apply list_elem_of_fmap in Hi as (c & -> & Hc).
    apply list_elem_of_filter in Hc as [Hc1 Hc2].
    apply list_elem_of_fmap in Hc2 as (a & -> & Ha).
    apply list_elem_of_fmap. exists a. split.
    + case_decide; [apply assign_keys|done].
    + apply list_elem_of_filter. split; [|done].
      destruct (decide (P a)); [by apply Hin'|done].
Qed.

(** Under a unique id, finding by id is membership. *)
Lemma head_filter_id (l : list builds.Model) b :
  NoDup (builds.id <$> l) -> b ∈ l ->
  filter (fun a => builds.id a = builds.id b) l = [b].
Proof.
  induction l as [|a l IH]; csimpl; [by intros _ ?%not_elem_of_nil|].
  rewrite NoDup_cons, elem_of_cons. intros [Ha Hl] [->|Hb]; rewrite filter_cons.
  - rewrite decide_True by done. f_equal. apply filter_nil_iff. intros c Hc Heq.
    apply Ha. rewrite <- Heq. by apply list_elem_of_fmap_2.
  - rewrite decide_False; [by apply IH|]. intros Heq. apply Ha. rewrite Heq.
    by apply list_elem_of_fmap_2.
Qed.

Lemma ids_inj (l : list builds.Model) a b :
  NoDup (builds.id <$> l) -> a ∈ l -> b ∈ l -> builds.id a = builds.id b -> a = b.
Proof.
  intros Hnd Ha Hb Heq. pose proof (head_filter_id l b Hnd Hb) as Hf.
  assert (a ∈ filter (fun a => builds.id a = builds.id b) l) as Hin
    by by apply list_elem_of_filter.
  rewrite Hf in Hin. by apply list_elem_of_singleton in Hin.
Qed.

Lemma run_update_builds cols P `{!forall b, Decision (P b)} d :
  builds_indexes (updated cols P (t_builds d)) ->
  run (update_builds cols P) d =
    (Ok (length (filter P (t_builds d))), with_builds (updated cols P (t_builds d)) d).
Proof.
  intros Hok. unfold update_builds. rewrite run_statement. by rewrite decide_True.
Qed.

Lemma run_update_packages cols P `{!forall p, Decision (P p)} d :
  run (update_packages cols P) d =
    (Ok (length (filter P (t_packages d))),
     with_packages (updated_packages cols P (t_packages d)) d).
Proof. unfold update_packages. by rewrite run_statement. Qed.

#[export] Instance find_builds_transparent P `{!forall b, Decision (P b)} :
  Transparent (find_builds P) := query_transparent _.
#[export] Instance find_build_where_transparent P `{!forall b, Decision (P b)} :
  Transparent (find_build_where P) := query_transparent _.
#[export] Instance find_build_by_id_transparent id :
  Transparent (find_build_by_id id) := query_transparent _.
#[export] Instance find_package_by_id_transparent id :
  Transparent (find_package_by_id id) := query_transparent _.
#[export] Instance update_builds_transparent cols P `{!forall b, Decision (P b)} :
  Transparent (update_builds cols P) := statement_transparent _.
#[export] Instance update_packages_transparent cols P `{!forall b, Decision (P b)} :
  Transparent (update_packages cols P) := statement_transparent _.
#[export] Instance delete_build_row_transparent id :
  Transparent (delete_build_row id) := statement_transparent _.
#[export] Instance find_builds_steady P `{!forall b, Decision (P b)} :
  Steady (find_builds P) := query_steady _.
#[export] Instance find_build_where_steady P `{!forall b, Decision (P b)} :
  Steady (find_build_where P) := query_steady _.
#[export] Instance find_build_by_id_steady id :
  Steady (find_build_by_id id) := query_steady _.
#[export] Instance find_package_by_id_steady id :
  Steady (find_package_by_id id) := query_steady _.
#[export] Instance update_builds_steady cols P `{!forall b, Decision (P b)} :
  Steady (update_builds cols P) := statement_steady _.
#[export] Instance update_packages_steady cols P `{!forall b, Decision (P b)} :
  Steady (update_packages cols P) := statement_steady _.
#[export] Instance delete_build_row_steady id :
  Steady (delete_build_row id) := statement_steady _.
