(* ===== verification/Lists.v ===== *)
(** * The delimited list columns

    [backend/aurcache-db/src/lists.rs]: the columns holding a list as one
    joined string. Each type is the list its reader yields; the writer is the
    type's [Display], the reader its [FromStr], and [DelimitedCodec] states
    that the reader undoes the writer on every value the type can hold. The
    JSON columns ([JsonList], [VcsCommits]) are read by [serde_json], which is
    a parameter here. *)
From S2P Require Import Prelude Text Schema.
From Stdlib Require Import Ascii.
Open Scope string_scope.

(** [fn split]: the entries of a delimited string, trimmed, empties dropped. *)
Definition split_entries (value : string) (delimiter : ascii) : list string :=
  filter (fun entry => entry <> "") (trim <$> split delimiter value).

(** [$name::new] of [delimited_list!]. *)
Definition new_list (entries : list string) : list string :=
  filter (fun entry => entry <> "") (trim <$> entries).

(** What a value of such a type holds: entries that are trimmed and not empty. *)
Definition normal_entry (entry : string) : Prop := entry <> "" /\ trim entry = entry.
#[export] Instance normal_entry_dec e : Decision (normal_entry e).
Proof. unfold normal_entry. apply _. Defined.

(** One invocation of [delimited_list!]: its delimiter and its joiner. *)
Class Delimited := {
  delimiter : ascii;
  joiner : string
}.

(** [impl fmt::Display for $name] *)
Definition display `{Delimited} (l : list string) : string := join joiner l.

(** [impl FromStr for $name] *)
Definition from_str `{Delimited} (value : string) : list string :=
  new_list (split_entries value delimiter).

(** The three invocations. *)
Definition BuildFlags : Delimited := {| delimiter := ";"; joiner := ";" |}.
Definition WorkerList : Delimited := {| delimiter := ","; joiner := "," |}.
Definition Licenses : Delimited := {| delimiter := ","; joiner := ", " |}.

(** A joiner the reader can undo: the delimiter, then space it trims away. *)
Class DelimitedLaws `{Delimited} : Prop :=
  joiner_delimits : exists pad, joiner = String delimiter pad /\
    contains_char delimiter pad = false /\ forall s, trim (pad +:+ s) = trim s.

(** ** [Platforms] *)

#[local] Instance platform_le_dec p q : Decision (String.le (Platform.as_str p) (Platform.as_str q)).
Proof. apply _. Defined.

Definition platform_le (p q : Platform) : Prop :=
  String.le (Platform.as_str p) (Platform.as_str q).
#[export] Instance platform_le_decision p q : Decision (platform_le p q).
Proof. unfold platform_le. apply _. Defined.

(** [Vec::dedup]: consecutive repeats removed. *)
Fixpoint dedup `{EqDecision A} (l : list A) : list A :=
  match l with
  | x :: (y :: _) as l' => if decide (x = y) then dedup l' else x :: dedup l'
  | l => l
  end.

Module Platforms.
(** [sort_by_key(Platform::as_str)], then [dedup]. *)
Definition new (platforms : list Platform) : list Platform :=
  dedup (merge_sort platform_le platforms).

Definition contains (l : list Platform) (platform : Platform) : bool :=
  bool_decide (platform ∈ l).

Definition names (l : list Platform) : list string := Platform.as_str <$> l.

Definition display (l : list Platform) : string := join ";" (names l).

(** Unknown names are dropped. *)
Definition from_str (value : string) : list Platform :=
  new (omap (fun name => match Platform.from_str name with Ok p => Some p | Err _ => None end)
            (split_entries value ";")).
End Platforms.

(** ** The JSON columns *)
Class SerdeJson (A : Type) := {
  to_json : A -> string;
  of_json : string -> option A
}.

(** [JsonList] and [VcsCommits]: unreadable JSON reads as empty. *)
Definition json_from_str `{SerdeJson A} (empty : A) (value : string) : A :=
  default empty (of_json value).

Definition JsonList_entries (l : option (list string)) : list string := default [] l.

(** ** Lemmas *)

Lemma new_list_normal entries : Forall normal_entry (new_list entries).
Proof.
  unfold new_list. apply Forall_forall. intros e [He Hin]%list_elem_of_filter.
  split; [done|]. apply list_elem_of_fmap in Hin as (x & -> & _). apply trim_idem.
Qed.

Lemma new_list_id entries : Forall normal_entry entries -> new_list entries = entries.
Proof.
  unfold new_list. induction 1 as [|e l [He Ht] _ IH]; [done|].
  csimpl. rewrite Ht, filter_cons, decide_True, IH; done.
Qed.

Section delimited.
Context `{DelimitedLaws}.

Lemma split_display l :
  Forall normal_entry l -> Forall (fun e => contains_char delimiter e = false) l ->
  split_entries (display l) delimiter = l.
Proof.
  unfold split_entries, display. destruct joiner_delimits as (pad & -> & Hpad & Htrim).
  intros Hn Hd. destruct l as [|w l]; [done|].
  enough (forall pre, trim (pre +:+ w) = w -> contains_char delimiter pre = false ->
    filter (fun e => e <> "") (trim <$> split delimiter
      (pre +:+ join (String delimiter pad) (w :: l))) = w :: l) as Hgen.
  { apply (Hgen ""); [|done]. by apply Forall_cons in Hn as [[??] _]. }
  revert w Hn Hd. induction l as [|v l IH]; intros w Hn Hd pre Hpre Hc;
    apply Forall_cons in Hn as [[Hw1 Hw2] Hn]; apply Forall_cons in Hd as [Hw3 Hd];
    cbn [join].
  - rewrite split_no_delim by (by rewrite contains_char_app, Hc, Hw3).
    csimpl. by rewrite Hpre, filter_cons, decide_True.
  - rewrite <- append_assoc. simpl. rewrite split_app by (by rewrite contains_char_app, Hc, Hw3).
    csimpl. rewrite Hpre, filter_cons, decide_True by done. f_equal.
    pose proof Hn as Hn'. apply Forall_cons in Hn' as [[Hv1 Hv2] _].
    apply IH; [done..| |done]. by rewrite Htrim.
Qed.

Lemma from_str_display l :
  Forall normal_entry l -> Forall (fun e => contains_char delimiter e = false) l ->
  from_str (display l) = l.
Proof. intros Hn Hd. unfold from_str. by rewrite split_display, new_list_id. Qed.
End delimited.

#[export] Instance BuildFlags_laws : DelimitedLaws (H := BuildFlags).
Proof. by exists "". Qed.
#[export] Instance WorkerList_laws : DelimitedLaws (H := WorkerList).
Proof. by exists "". Qed.
#[export] Instance Licenses_laws : DelimitedLaws (H := Licenses).
Proof. exists " ". repeat split. Qed.

#[export] Instance platform_le_trans : Transitive platform_le.
Proof. intros p q r. unfold platform_le. by etrans. Qed.
#[export] Instance platform_le_total : Total platform_le.
Proof. intros p q. unfold platform_le. apply (total String.le). Qed.
#[export] Instance platform_le_antisymm : AntiSymm (=) platform_le.
Proof. intros p q Hp Hq. apply Platform.as_str_inj, (anti_symm String.le); done. Qed.

Lemma elem_of_dedup `{EqDecision A} (l : list A) x : x ∈ dedup l <-> x ∈ l.
Proof.
  induction l as [|y l IH]; [done|]. destruct l as [|z l]; [done|].
  change (dedup (y :: z :: l)) with (if decide (y = z) then dedup (z :: l) else y :: dedup (z :: l)).
  case_decide; subst; rewrite !elem_of_cons, ?IH, !elem_of_cons; tauto.
Qed.

Lemma head_dedup `{EqDecision A} (l : list A) : head (dedup l) = head l.
Proof.
  induction l as [|y l IH]; [done|]. destruct l as [|z l]; [done|].
  change (dedup (y :: z :: l)) with (if decide (y = z) then dedup (z :: l) else y :: dedup (z :: l)).
  case_decide; subst; [|done]. by rewrite IH.
Qed.

Lemma Sorted_dedup `{EqDecision A} (R : relation A) (l : list A) : Sorted R l -> Sorted R (dedup l).
Proof.
  induction l as [|y l IH]; [done|]. intros Hs. destruct l as [|z l]; [done|].
  change (dedup (y :: z :: l)) with (if decide (y = z) then dedup (z :: l) else y :: dedup (z :: l)).
  apply Sorted_inv in Hs as [Hs Hh]. case_decide; [auto|]. constructor; [auto|].
  pose proof (head_dedup (z :: l)) as Hd. destruct (dedup (z :: l)); [done|].
  simpl in Hd. injection Hd as ->. by inversion Hh; constructor.
Qed.

Lemma NoDup_dedup `{EqDecision A} (R : relation A) `{!Transitive R, !AntiSymm (=) R} (l : list A) :
  Sorted R l -> NoDup (dedup l).
Proof.
  induction l as [|y l IH]; [constructor|]. intros Hs. destruct l as [|z l]; [apply NoDup_singleton|].
  change (dedup (y :: z :: l)) with (if decide (y = z) then dedup (z :: l) else y :: dedup (z :: l)).
  pose proof (Sorted_StronglySorted R _ Hs) as Hss.
  apply StronglySorted_inv in Hss as [_ Hy].
  apply Sorted_inv in Hs as [Hs _]. case_decide as Hyz; [auto|].
  apply NoDup_cons; split; [|auto]. rewrite elem_of_dedup. intros Hin.
  apply Sorted_StronglySorted in Hs; [|done]. apply StronglySorted_inv in Hs as [_ Hz].
  apply elem_of_cons in Hin as [|Hin]; [done|]. apply Hyz.
  apply (anti_symm R); [by apply Forall_cons in Hy as [? _]|].
  by apply (proj1 (Forall_forall _ _) Hz).
Qed.

Lemma dedup_NoDup `{EqDecision A} (l : list A) : NoDup l -> dedup l = l.
Proof.
  induction l as [|y l IH]; [done|]. rewrite NoDup_cons. intros [Hy Hl].
  destruct l as [|z l]; [done|].
  change (dedup (y :: z :: l)) with (if decide (y = z) then dedup (z :: l) else y :: dedup (z :: l)).
  rewrite decide_False, IH; [done..|]. intros ->. apply Hy. by left.
Qed.

(** What [Platforms::new] builds: sorted by name, without repeats. *)
Definition platforms_normal (l : list Platform) : Prop := Sorted platform_le l /\ NoDup l.

Lemma Platforms_new_normal l : platforms_normal (Platforms.new l).
Proof.
  unfold Platforms.new. pose proof (Sorted_merge_sort platform_le l) as Hs.
  split; [by apply Sorted_dedup|by apply (NoDup_dedup platform_le)].
Qed.

Lemma elem_of_Platforms_new l p : p ∈ Platforms.new l <-> p ∈ l.
Proof. unfold Platforms.new. by rewrite elem_of_dedup, (merge_sort_Permutation platform_le). Qed.

Lemma Platforms_new_id l : platforms_normal l -> Platforms.new l = l.
Proof.
  intros [Hs Hn]. unfold Platforms.new.
  assert (merge_sort platform_le l = l) as ->; [|by apply dedup_NoDup].
  apply (Sorted_unique platform_le); [apply Sorted_merge_sort, _|done|apply merge_sort_Permutation].
Qed.

Lemma Platforms_names_entries l :
  split_entries (Platforms.display l) ";" = Platforms.names l.
Proof.
  apply (split_display (H := BuildFlags)).
  - apply Forall_fmap, Forall_forall. intros [] _; by split.
  - apply Forall_fmap, Forall_forall. by intros [].
Qed.

Lemma Platforms_omap_names l :
  omap (fun name => match Platform.from_str name with Ok p => Some p | Err _ => None end)
    (Platforms.names l) = l.
Proof. induction l as [|p l IH]; csimpl; [done|]. rewrite IH. by destruct p. Qed.
