(* ===== verification/Units.v ===== *)
(** * Sizes and durations

    [backend/aurcache-common/src/units.rs]: reading a size or a duration the way
    people write one, and showing a number as the shortest text that reads back to
    it. Arithmetic is [u64]'s, checked. *)
From stdpp Require Import pretty.
From Stdlib Require Import Ascii.
From S2P Require Import Prelude Text.
#[local] Open Scope string_scope.
#[local] Open Scope Z_scope.
#[local] Open Scope list_scope.

(** [checked_add] and [checked_mul], of what they would give. *)
Definition checked (n : Z) : option Z := if decide (n <= u64_max) then Some n else None.

Definition is_digit (c : ascii) : bool := bool_decide (is_Some (digit_value c)).
Definition is_alphabetic (c : ascii) : bool :=
  let n := N_of_ascii (lower_char c) in bool_decide (97 <= n <= 122)%N.

(** [s.split_at(s.find(|c| !p(c)).unwrap_or(s.len()))]: the longest prefix of [p]s. *)
Definition span (p : ascii -> bool) (s : string) : string * string :=
  default (s, "") (cut_at (fun c => negb (p c)) s).

(** ** Sizes *)

Definition size_base (rest : string) : option Z :=
  if decide (rest ∈ [""; "ib"]) then Some 1024 else if decide (rest = "b") then Some 1000 else None.

Definition size_exponent (letter : ascii) : option Z :=
  if decide (letter = "k"%char) then Some 1
  else if decide (letter = "m"%char) then Some 2
  else if decide (letter = "g"%char) then Some 3
  else if decide (letter = "t"%char) then Some 4
  else None.

(** What a number of a unit comes to. *)
Definition size_of (number : Z) (unit : string) : option Z :=
  match unit with
  | "" => Some number
  | String letter rest =>
      if decide (letter = "b"%char /\ rest = "") then Some number
      else
        exponent ← size_exponent letter;
        base ← size_base rest;
        checked (number * base ^ exponent)
  end.

Definition parse_size (raw : string) : option Z :=
  let s := trim raw in
  let '(number, unit) := span is_digit s in
  number ← parse_uint u64_max number;
  size_of number (to_lowercase (trim_start unit)).

(** [UNITS.iter().find(..)], and the text either way. *)
Definition shortest (units : list (ascii * Z)) (n : Z) : string :=
  match filter (fun u => n <> 0 /\ n mod u.2 = 0) units with
  | (letter, unit) :: _ => pretty (n / unit) +:+ String letter ""
  | [] => pretty n
  end.

Definition size_units : list (ascii * Z) :=
  [("T"%char, 2 ^ 40); ("G"%char, 2 ^ 30); ("M"%char, 2 ^ 20); ("K"%char, 2 ^ 10)].

Definition format_size (bytes : Z) : string := shortest size_units bytes.

(** ** Durations *)

Definition unit_seconds (unit : string) : option Z :=
  if decide (unit ∈ ["s"; "sec"; "secs"; "second"; "seconds"]) then Some 1
  else if decide (unit ∈ ["m"; "min"; "mins"; "minute"; "minutes"]) then Some 60
  else if decide (unit ∈ ["h"; "hr"; "hrs"; "hour"; "hours"]) then Some 3600
  else if decide (unit ∈ ["d"; "day"; "days"]) then Some 86400
  else if decide (unit ∈ ["w"; "week"; "weeks"]) then Some 604800
  else None.

(** One turn of the loop: the new total and what is left. *)
Definition duration_term (rest : string) (total : Z) : option (Z * string) :=
  let '(number, after) := span is_digit rest in
  number ← parse_uint u64_max number;
  let '(unit, after) := span is_alphabetic (trim_start after) in
  seconds ← unit_seconds (to_lowercase unit);
  product ← checked (number * seconds);
  total ← checked (total + product);
  Some (total, trim_start after).

(** The loop. Every turn takes a character at least, so a fuel beyond the length of
    the text is never spent. *)
Fixpoint duration_terms (fuel : nat) (rest : string) (total : Z) (terms : nat) : option Z :=
  match fuel with
  | O => None
  | S fuel =>
      if is_empty rest then (if decide (0 < terms)%nat then Some total else None)
      else '(total, rest) ← duration_term rest total; duration_terms fuel rest total (S terms)
  end.

Definition parse_duration (raw : string) : option Z :=
  let s := trim raw in
  match parse_uint u64_max s with
  | Some seconds => Some seconds
  | None => duration_terms (S (String.length s)) s 0 0
  end.

Definition duration_units : list (ascii * Z) :=
  [("w"%char, 604800); ("d"%char, 86400); ("h"%char, 3600); ("m"%char, 60)].

Definition format_duration (seconds : Z) : string := shortest duration_units seconds.

Example size_examples :
  parse_size "450G" = Some (450 * 2 ^ 30) /\ parse_size " 20 GB" = Some 20000000000 /\
  parse_size "1.5G" = None /\ parse_size "18014398509481984K" = None /\ format_size 21474836480 = "20G".
Proof. vm_compute. done. Qed.
Example duration_examples :
  parse_duration "1h30m" = Some 5400 /\ parse_duration "30 days" = Some 2592000 /\
  parse_duration "1h30" = None /\ parse_duration "" = None /\ format_duration 5400 = "90m".
Proof. vm_compute. done. Qed.

(** ** Text made of one kind of character *)

Fixpoint all_chars (p : ascii -> bool) (s : string) : bool :=
  match s with "" => true | String c s => p c && all_chars p s end.

Lemma all_chars_app p a b : all_chars p (a +:+ b) = all_chars p a && all_chars p b.
Proof. induction a as [|c a IH]; simpl; [done|]. by rewrite IH, andb_assoc. Qed.

Lemma all_chars_impl (p q : ascii -> bool) s :
  (forall c, p c = true -> q c = true) -> all_chars p s = true -> all_chars q s = true.
Proof.
  intros Hpq. induction s as [|c s IH]; simpl; [done|]. rewrite !andb_true_iff.
  intros [Hc Hs]. auto.
Qed.

Lemma span_app p a b :
  all_chars p a = true -> match b with "" => True | String c _ => p c = false end ->
  span p (a +:+ b) = (a, b).
Proof.
  intros Ha Hb. unfold span.
  assert (cut_at (fun c => negb (p c)) (a +:+ b) =
    match b with "" => None | _ => Some (a, b) end) as Hcut.
  { induction a as [|c a IH]; simpl in *.
    - destruct b as [|c b]; simpl; [done|]. by rewrite Hb.
    - apply andb_true_iff in Ha as [-> Ha]. simpl. rewrite (IH Ha). by destruct b. }
  rewrite Hcut. destruct b; [by rewrite append_nil_r|done].
Qed.

Definition not_space (c : ascii) : bool := negb (is_space c).

Lemma trim_start_solid s : all_chars not_space s = true -> trim_start s = s.
Proof.
  destruct s as [|c s]; simpl; [done|]. unfold not_space. destruct (is_space c); [done|done].
Qed.

Lemma trim_end_solid s : all_chars not_space s = true -> trim_end s = s.
Proof.
  induction s as [|c s IH]; simpl; [done|]. rewrite andb_true_iff. intros [Hc Hs].
  rewrite (IH Hs). destruct s; [|done]. unfold not_space in Hc. by destruct (is_space c).
Qed.

Lemma trim_solid s : all_chars not_space s = true -> trim s = s.
Proof. intros Hs. unfold trim. rewrite trim_start_solid by done. by apply trim_end_solid. Qed.

Lemma digit_solid c : is_digit c = true -> not_space c = true.
Proof.
  unfold is_digit, digit_value, not_space, is_space. intros Hd%bool_decide_eq_true.
  destruct Hd as [v Hv]. case_decide as Hr; [|done]. clear Hv.
  destruct (N_of_ascii c) as [|p] eqn:Hp; [done|].
  by repeat (destruct p as [p|p|]; try done; try (exfalso; lia)).
Qed.

(** ** Numbers read back *)

Lemma digit_value_char (x : N) : (x < 10)%N -> digit_value (pretty_N_char x) = Some (Z.of_N x).
Proof.
  intros Hx. assert (x = 0 \/ x = 1 \/ x = 2 \/ x = 3 \/ x = 4 \/ x = 5 \/ x = 6 \/ x = 7 \/
    x = 8 \/ x = 9)%N as Hc by lia.
  by repeat destruct Hc as [-> |Hc]; [..|subst].
Qed.

Lemma parse_digits_go max (x : N) s :
  Z.of_N x <= max -> parse_digits max 0 (pretty_N_go x s) = parse_digits max (Z.of_N x) s.
Proof.
  revert s. induction (N.lt_wf_0 x) as [x _ IH]. intros s Hx.
  destruct (decide (0 < x)%N) as [Hpos|Hpos].
  2:{ assert (x = 0%N) as -> by lia. by rewrite pretty_N_go_0. }
  rewrite pretty_N_go_step by done.
  assert (x `div` 10 <= x)%N by (apply N.Div0.div_le_upper_bound; lia).
  rewrite IH; [|by apply N.div_lt|lia]. cbn [parse_digits].
  rewrite digit_value_char by (by apply N.mod_lt). cbn [mbind option_bind].
  assert (10 * Z.of_N (x `div` 10) + Z.of_N (x `mod` 10) = Z.of_N x) as ->.
  { pose proof (N.div_mod' x 10). lia. }
  by rewrite decide_True.
Qed.

Lemma all_digits_go (x : N) s : all_chars is_digit s = true -> all_chars is_digit (pretty_N_go x s) = true.
Proof.
  revert s. induction (N.lt_wf_0 x) as [x _ IH]. intros s Hs.
  destruct (decide (0 < x)%N) as [Hpos|Hpos].
  2:{ assert (x = 0%N) as -> by lia. by rewrite pretty_N_go_0. }
  rewrite pretty_N_go_step by done. apply IH; [by apply N.div_lt|]. simpl.
  unfold is_digit at 1. rewrite digit_value_char by (by apply N.mod_lt). done.
Qed.

Lemma pretty_nonempty (x : N) s : s <> "" -> pretty_N_go x s <> "".
Proof.
  revert s. induction (N.lt_wf_0 x) as [x _ IH]. intros s Hs.
  destruct (decide (0 < x)%N) as [Hpos|Hpos].
  2:{ assert (x = 0%N) as -> by lia. by rewrite pretty_N_go_0. }
  rewrite pretty_N_go_step by done. by apply IH; [apply N.div_lt|].
Qed.

(** A [u64] in decimal: digits, at least one, and its value when read. *)
Lemma pretty_reads (n max : Z) :
  0 <= n <= max -> all_chars is_digit (pretty n) = true /\ pretty n <> "" /\
  parse_uint max (pretty n) = Some n.
Proof.
  intros Hn. assert (pretty n = pretty (Z.to_N n)) as -> by (destruct n as [|p|p]; [done|done|lia]).
  remember (Z.to_N n) as x eqn:Hx. assert (n = Z.of_N x) as -> by lia. clear Hx.
  unfold pretty, pretty_N. case_decide as Hz.
  { subst x. split_and!; [done..|]. unfold parse_uint. simpl. rewrite decide_True; [done|lia]. }
  assert (all_chars is_digit (pretty_N_go x "") = true) as Hd by by apply all_digits_go.
  assert (pretty_N_go x "" <> "") as Hne.
  { rewrite pretty_N_go_step by lia. by apply pretty_nonempty. }
  split_and!; [done..|]. unfold parse_uint.
  assert (strip_prefix "+" (pretty_N_go x "") = None) as ->.
  { destruct (pretty_N_go x "") as [|c s]; [done|]. simpl.
    destruct (decide ("+"%char = c)) as [<-|]; [|done]. vm_compute in Hd. discriminate Hd. }
  cbn [default from_option id]. rewrite parse_digits_go by lia.
  by destruct (pretty_N_go x "").
Qed.

(** ** Round trips *)

Lemma shortest_spec units n :
  (exists letter unit, (letter, unit) ∈ units /\ n <> 0 /\ n mod unit = 0 /\
     shortest units n = pretty (n / unit) +:+ String letter "") \/
  shortest units n = pretty n.
Proof.
  unfold shortest. destruct (filter _ units) as [|[letter unit] l] eqn:Hf; [by right|]. left.
  assert ((letter, unit) ∈ filter (fun u => n <> 0 /\ n mod u.2 = 0) units)
    as [[Hn Hm] Hin]%list_elem_of_filter by (rewrite Hf; left).
  by exists letter, unit.
Qed.

(** A number and a unit that is no digit and no space: what either reader cuts it
    into. *)
Lemma number_unit m letter :
  0 <= m <= u64_max -> is_digit letter = false -> not_space letter = true ->
  trim (pretty m +:+ String letter "") = pretty m +:+ String letter "" /\
  span is_digit (pretty m +:+ String letter "") = (pretty m, String letter "") /\
  parse_uint u64_max (pretty m) = Some m.
Proof.
  intros Hm Hd Hs. destruct (pretty_reads m u64_max Hm) as (Hall & _ & Hp). split_and!; [| |done].
  - apply trim_solid. rewrite all_chars_app. simpl. rewrite Hs.
    by rewrite (all_chars_impl _ _ _ digit_solid Hall).
  - by apply span_app.
Qed.

Lemma div_range n unit : 0 <= n <= u64_max -> 0 < unit -> 0 <= n / unit <= u64_max.
Proof.
  intros Hn Hu. split; [apply Z.div_pos; lia|].
  pose proof (Z.div_le_upper_bound n unit n Hu). nia.
Qed.

Lemma parse_size_plain n : 0 <= n <= u64_max -> parse_size (pretty n) = Some n.
Proof.
  intros Hn. destruct (pretty_reads n u64_max Hn) as (Hall & _ & Hp). unfold parse_size.
  rewrite trim_solid by (by apply (all_chars_impl _ _ _ digit_solid)).
  assert (span is_digit (pretty n) = (pretty n, "")) as ->
    by (rewrite <- (append_nil_r (pretty n)) at 1; by apply span_app).
  by rewrite Hp.
Qed.

(** What a unit's letter must be for its text to read back. *)
Definition letter_ok (u : ascii * Z) : Prop :=
  is_digit u.1 = false /\ not_space u.1 = true /\ is_alphabetic u.1 = true /\ 0 < u.2.

Lemma letters_ok : Forall letter_ok (size_units ++ duration_units).
Proof. apply (bool_decide_unpack _). vm_compute. exact I. Qed.

Lemma size_units_read : Forall (fun u => forall m,
  size_of m (to_lowercase (trim_start (String u.1 ""))) = checked (m * u.2)) size_units.
Proof. repeat constructor. Qed.

Lemma duration_units_read : Forall (fun u =>
  unit_seconds (to_lowercase (String u.1 "")) = Some u.2) duration_units.
Proof. repeat constructor. Qed.

Lemma checked_back n unit :
  0 <= n <= u64_max -> 0 < unit -> n mod unit = 0 -> checked (n / unit * unit) = Some n.
Proof.
  intros Hn Hu Hm. assert (n / unit * unit = n) as -> by (pose proof (Z.div_mod n unit); lia).
  unfold checked. by rewrite decide_True by lia.
Qed.

Lemma parse_size_unit n letter unit :
  0 <= n <= u64_max -> (letter, unit) ∈ size_units -> n mod unit = 0 ->
  parse_size (pretty (n / unit) +:+ String letter "") = Some n.
Proof.
  intros Hn Hu Hm.
  destruct (proj1 (Forall_forall _ _) letters_ok (letter, unit)) as (Hd & Hsp & _ & Hpos);
    [apply elem_of_app; by left|]. cbn [fst snd] in *.
  destruct (number_unit (n / unit) letter (div_range n unit Hn Hpos) Hd Hsp) as (Ht & Hs & Hp).
  unfold parse_size. rewrite Ht, Hs, Hp. cbn [mbind option_bind].
  rewrite (proj1 (Forall_forall _ _) size_units_read _ Hu). by apply checked_back.
Qed.

(** The fuel of the loop is enough, whatever it is beyond the text's length. *)
Lemma span_length p s : (String.length (span p s).1 + String.length (span p s).2 = String.length s)%nat.
Proof.
  unfold span. destruct (cut_at _ s) as [[a b]|] eqn:Hc; simpl; [|lia].
  apply cut_at_spec in Hc as [-> _]. by rewrite length_append.
Qed.

Lemma trim_start_length s : (String.length (trim_start s) <= String.length s)%nat.
Proof. induction s as [|c s IH]; simpl; [done|]. destruct (is_space c); simpl; lia. Qed.

Lemma duration_term_shorter rest total total' rest' :
  duration_term rest total = Some (total', rest') ->
  (String.length rest' < String.length rest)%nat.
Proof.
  unfold duration_term. pose proof (span_length is_digit rest) as H1.
  destruct (span is_digit rest) as [number after]. cbn [fst snd] in H1.
  destruct (parse_uint u64_max number) as [m|] eqn:Hm; [|done]. cbn [mbind option_bind].
  pose proof (span_length is_alphabetic (trim_start after)) as H2.
  destruct (span is_alphabetic (trim_start after)) as [unit after']. cbn [fst snd] in H2.
  destruct (unit_seconds _) as [secs|]; [|done]. cbn [mbind option_bind].
  destruct (checked (m * secs)) as [pr|]; [|done]. cbn [mbind option_bind].
  destruct (checked (total + pr)) as [t|]; [|done]. cbn [mbind option_bind]. intros [= _ <-].
  pose proof (trim_start_length after). pose proof (trim_start_length after').
  assert (0 < String.length number)%nat; [|lia]. destruct number; [done|simpl; lia].
Qed.

Lemma duration_terms_fuel f1 f2 rest total terms :
  (String.length rest < f1)%nat -> (String.length rest < f2)%nat ->
  duration_terms f1 rest total terms = duration_terms f2 rest total terms.
Proof.
  revert f2 rest total terms; induction f1 as [|f1 IH]; intros f2 rest total terms H1 H2; [lia|].
  destruct f2 as [|f2]; [lia|]. cbn [duration_terms]. destruct (is_empty rest); [done|].
  destruct (duration_term rest total) as [[t r]|] eqn:Ht; [|done]. cbn [mbind option_bind].
  apply duration_term_shorter in Ht. apply IH; lia.
Qed.

Lemma parse_uint_unit max (m : string) letter :
  all_chars is_digit m = true -> is_digit letter = false -> m <> "" ->
  parse_uint max (m +:+ String letter "") = None.
Proof.
  intros Hall Hl Hne. unfold parse_uint.
  assert (strip_prefix "+" (m +:+ String letter "") = None) as ->.
  { destruct m as [|c m]; [done|]. simpl.
    destruct (decide ("+"%char = c)) as [<-|]; [|done]. vm_compute in Hall. discriminate Hall. }
  cbn [default from_option id]. destruct (is_empty _); [done|].
  assert (forall acc, parse_digits max acc (m +:+ String letter "") = None) as Hn; [|apply Hn].
  clear Hne. induction m as [|c m IH]; intros acc; cbn [String.append parse_digits].
  - unfold is_digit in Hl. apply bool_decide_eq_false in Hl.
    destruct (digit_value letter); [by destruct Hl|done].
  - cbn [all_chars] in Hall. apply andb_true_iff in Hall as [_ Hall].
    destruct (digit_value c); [|done]. cbn [mbind option_bind]. case_decide; [|done]. by apply IH.
Qed.

Lemma parse_duration_unit n letter unit :
  0 <= n <= u64_max -> (letter, unit) ∈ duration_units -> n mod unit = 0 ->
  parse_duration (pretty (n / unit) +:+ String letter "") = Some n.
Proof.
  intros Hn Hu Hm.
  destruct (proj1 (Forall_forall _ _) letters_ok (letter, unit)) as (Hd & Hsp & Hal & Hpos);
    [apply elem_of_app; by right|]. cbn [fst snd] in *.
  pose proof (div_range n unit Hn Hpos) as Hr.
  destruct (number_unit (n / unit) letter Hr Hd Hsp) as (Ht & Hs & Hp).
  destruct (pretty_reads (n / unit) u64_max Hr) as (Hall & Hne & _).
  unfold parse_duration. rewrite Ht, parse_uint_unit by done.
  cbn [duration_terms].
  assert (is_empty (pretty (n / unit) +:+ String letter "") = false) as ->
    by (by destruct (pretty (n / unit))).
  unfold duration_term. rewrite Hs, Hp. cbn [mbind option_bind].
  assert (trim_start (String letter "") = String letter "") as ->
    by (apply trim_start_solid; simpl; by rewrite Hsp).
  assert (span is_alphabetic (String letter "") = (String letter "", "")) as ->
    by (apply (span_app is_alphabetic (String letter "") ""); [simpl; by rewrite Hal|done]).
  pose proof (proj1 (Forall_forall _ _) duration_units_read _ Hu) as Hread. cbn [fst snd] in Hread.
  rewrite Hread. cbn [mbind option_bind].
  rewrite checked_back by done. cbn [mbind option_bind]. unfold checked. rewrite decide_True by lia.
  cbn [mbind option_bind]. destruct (String.length _) eqn:Hlen; [|done].
  rewrite length_append in Hlen. simpl in Hlen. lia.
Qed.

Lemma parse_size_bound raw m : parse_size raw = Some m -> 0 <= m <= u64_max.
Proof.
  unfold parse_size. destruct (span is_digit (trim raw)) as [number unit].
  destruct (parse_uint u64_max number) as [k|] eqn:Hk; [|done]. cbn [mbind option_bind].
  apply parse_uint_bound in Hk; [|done]. unfold size_of.
  destruct (to_lowercase _) as [|letter rest]; [by intros [= <-]|].
  case_decide; [by intros [= <-]|].
  assert (forall e, size_exponent letter = Some e -> 0 <= e) as He
    by (intros e; unfold size_exponent; repeat case_decide; intros [= <-]; lia).
  destruct (size_exponent letter) as [e|]; [|done]. cbn [mbind option_bind].
  assert (forall b, size_base rest = Some b -> 0 <= b) as Hb
    by (intros b; unfold size_base; repeat case_decide; intros [= <-]; lia).
  destruct (size_base rest) as [b|]; [|done]. cbn [mbind option_bind]. unfold checked.
  case_decide; [|done]. intros [= <-]. specialize (Hb b eq_refl).
  pose proof (Z.pow_nonneg b e Hb). nia.
Qed.

(** A size shown is the size read: every byte count up to the greatest [u64] is
    written as a text that reads back to exactly it, and no text reads as a size
    beyond a [u64]. *)
Theorem size_round_trip n :
  0 <= n <= u64_max ->
  parse_size (format_size n) = Some n /\
  forall raw m, parse_size raw = Some m -> 0 <= m <= u64_max.
Proof.
  intros Hn. split; [|apply parse_size_bound]. unfold format_size.
  destruct (shortest_spec size_units n) as [(letter & unit & Hu & _ & Hm & ->)| ->].
  - by apply parse_size_unit.
  - by apply parse_size_plain.
Qed.

(** A duration shown is the duration read, and reading one always ends: the loop's
    fuel is never spent. *)
Theorem duration_round_trip n :
  0 <= n <= u64_max ->
  parse_duration (format_duration n) = Some n /\ forall fuel rest total terms, (String.length rest < fuel)%nat ->
    duration_terms fuel rest total terms = duration_terms (S (String.length rest)) rest total terms.
Proof.
  intros Hn. split; [|intros; apply duration_terms_fuel; lia]. unfold format_duration.
  destruct (shortest_spec duration_units n) as [(letter & unit & Hu & _ & Hm & ->)| ->].
  - by apply parse_duration_unit.
  - destruct (pretty_reads n u64_max Hn) as (Hall & _ & Hp). unfold parse_duration.
    rewrite trim_solid by (by apply (all_chars_impl _ _ _ digit_solid)). by rewrite Hp.
Qed.

Lemma size_round_trip_witness :
  0 <= 21474836480 <= u64_max /\ parse_size (format_size 21474836480) = Some 21474836480.
Proof.
  assert (0 <= 21474836480 <= u64_max) as H by (unfold u64_max; lia).
  split; [exact H|]. destruct (size_round_trip 21474836480 H) as [Hr _]. exact Hr.
Defined.

Lemma duration_round_trip_witness :
  0 <= 5400 <= u64_max /\ parse_duration (format_duration 5400) = Some 5400.
Proof.
  assert (0 <= 5400 <= u64_max) as H by (unfold u64_max; lia).
  split; [exact H|]. destruct (duration_round_trip 5400 H) as [Hr _]. exact Hr.
Defined.
