(* ===== verification/WorkerConfig.v ===== *)
(** * What a worker can be configured with

    [backend/aurcache-common/src/worker_config.rs]: the settings a worker declares,
    the check of a value against its declaration, and what changed between two
    reports. A refusal is the reason for one, without its sentence; [f64] is a
    parameter. *)
From S2P Require Import Prelude Text Order Units.
From Stdlib Require Import Ascii.
Open Scope string_scope.
Open Scope list_scope.

(** [f64]: reading one, and its partial order. *)
Class Float64 := {
  f64 : Type;
  f64_from_str : string -> option f64;
  is_finite : f64 -> bool;
  f64_lt : f64 -> f64 -> bool
}.

(** [s.parse::<i64>()]: an optional sign, digits, no overflow. *)
Definition parse_i64 (s : string) : option Z :=
  match strip_prefix "-" s with
  | Some digits =>
      if is_empty digits then None
      else Z.opp <$> parse_digits (- i64_min) 0 digits
  | None => parse_uint i64_max s
  end.

Section kinds.
Context `{Float64}.

Inductive ValueKind :=
| Integer (min max : option Z)
| Float (min max : option f64)
| Bool
| Size
| Duration
| Choice (options : list string)
| Text
| List
| Unknown.

(** Why a value is refused. *)
Inductive Refusal :=
| NotWhole
| NotNumber
| NotFinite
| BelowMinimum
| AboveMaximum
| NotBool
| NotSize
| NotDuration
| NotChoice
| UnknownKey
| SavedEmpty.

Definition check_bounds {T} (lt : T -> T -> bool) (value : T) (min max : option T) : result Refusal () :=
  if is_some_and (fun min => lt value min) min then Err BelowMinimum
  else if is_some_and (fun max => lt max value) max then Err AboveMaximum
  else Ok tt.

(** [ValueKind::validate] *)
Definition validate (kind : ValueKind) (raw : string) : result Refusal () :=
  let raw := trim raw in
  match kind with
  | Integer min max =>
      match parse_i64 raw with
      | Some value => check_bounds Z.ltb value min max
      | None => Err NotWhole
      end
  | Float min max =>
      match f64_from_str raw with
      | Some value => if is_finite value then check_bounds f64_lt value min max else Err NotFinite
      | None => Err NotNumber
      end
  | Bool => if decide (raw = "true" \/ raw = "false") then Ok tt else Err NotBool
  | Size => match parse_size raw with Some _ => Ok tt | None => Err NotSize end
  | Duration => match parse_duration raw with Some _ => Ok tt | None => Err NotDuration end
  | Choice options => if decide (raw ∈ options) then Ok tt else Err NotChoice
  | Text | List | Unknown => Ok tt
  end.

Inductive Applies := NextJob | NextLoop | Immediately.

Record SettingDecl := mkSettingDecl {
  decl_key : string;
  decl_kind : ValueKind;
  decl_description : string;
  decl_category : string;
  decl_default : option string;
  decl_env_var : option string;
  decl_applies : Applies
}.

Definition validate_value (declared : list SettingDecl) (key value : string) : result Refusal () :=
  match head (filter (fun decl => decl_key decl = key) declared) with
  | None => Err UnknownKey
  | Some decl => validate (decl_kind decl) value
  end.

(** One turn of [checked_changes]: what the value is stored as. *)
Definition checked_value (declared : list SettingDecl) (key : string) (value : option string)
  : result Refusal (option string) :=
  match value with
  | None => Ok None
  | Some raw =>
      let value := trim raw in
      if is_empty value then Err SavedEmpty
      else _ ← validate_value declared key value; Ok (Some value)
  end.

Definition check_one (declared : list SettingDecl)
    (acc : list (string * Refusal) * gmap string (option string)) (change : string * option string)
  : list (string * Refusal) * gmap string (option string) :=
  let '(refused, checked) := acc in
  match checked_value declared change.1 change.2 with
  | Err problem => (refused ++ [(change.1, problem)], checked)
  | Ok value => (refused, <[change.1 := value]> checked)
  end.

(** [checked_changes]: the changes are a [BTreeMap]; the refusals come back as a
    list, in the order of the keys, where the code joins them into one text. *)
Definition checked_changes (declared : list SettingDecl) (changes : gmap string (option string))
  : result (list (string * Refusal)) (gmap string (option string)) :=
  let '(refused, checked) := foldl (check_one declared) ([], ∅) (by_key changes) in
  if decide (refused = []) then Ok checked else Err refused.

(** ** What a worker runs *)

Inductive EffectiveSource := Env | Server | EnvDefault | Default.
Inductive SettingStatus := Applied | Overridden | Unsupported | Rejected.

Record EffectiveSetting := mkEffectiveSetting {
  es_value : option string;
  es_source : EffectiveSource;
  es_status : SettingStatus;
  es_reason : option string
}.

Record EffectiveConfig := mkEffectiveConfig {
  received_revision : option string;
  ec_settings : gmap string EffectiveSetting
}.

#[export] Instance SettingStatus_eq_dec : EqDecision SettingStatus.
Proof. solve_decision. Defined.
#[export] Instance EffectiveSource_eq_dec : EqDecision EffectiveSource.
Proof. solve_decision. Defined.
#[export] Instance EffectiveSetting_eq_dec : EqDecision EffectiveSetting.
Proof. solve_decision. Defined.
#[export] Instance EffectiveConfig_eq_dec : EqDecision EffectiveConfig.
Proof. solve_decision. Defined.
#[export] Instance Refusal_eq_dec : EqDecision Refusal.
Proof. solve_decision. Defined.

Definition same_standing (now then_ : option EffectiveSetting) : Prop :=
  match now, then_ with
  | Some now, Some then_ => es_value now = es_value then_ /\ es_status now = es_status then_
  | _, _ => False
  end.
#[export] Instance same_standing_dec now then_ : Decision (same_standing now then_).
Proof. destruct now, then_; simpl; apply _. Defined.

(** [EffectiveConfig::changed_since]: the names, in order ([BTreeSet]). *)
Definition changed_since (now before : EffectiveConfig) : list string :=
  filter (fun name => ~ same_standing (ec_settings now !! name) (ec_settings before !! name))
    (sort_by str_cmp (elements (dom (ec_settings now) ∪ dom (ec_settings before)))).

(** ** Lemmas *)

Lemma foldl_check declared l refused checked :
  NoDup l.*1 -> (forall k, k ∈ l.*1 -> checked !! k = None) ->
  (foldl (check_one declared) (refused, checked) l).1 =
    refused ++ omap (fun c => match checked_value declared c.1 c.2 with
                              | Err e => Some (c.1, e) | Ok _ => None end) l /\
  forall k v, (foldl (check_one declared) (refused, checked) l).2 !! k = Some v <->
    checked !! k = Some v \/ exists raw, (k, raw) ∈ l /\ checked_value declared k raw = Ok v.
Proof.
  revert refused checked. induction l as [|[j raw] l IH]; intros refused checked Hnd Hfresh; csimpl.
  { rewrite app_nil_r. split; [done|]. intros k v. split; [by left|].
    intros [?|(raw & []%elem_of_nil & _)]; done. }
  apply NoDup_cons in Hnd as [Hj Hnd]. csimpl in *.
  destruct (checked_value declared j raw) as [v0|e] eqn:Hv.
  - destruct (IH refused (<[j := v0]> checked) Hnd) as [IHr IHc].
    { intros k Hk. rewrite lookup_insert_ne by (by intros ->). apply Hfresh. by right. }
    split; [done|]. intros k v. rewrite IHc. setoid_rewrite elem_of_cons. split.
    + intros [Hk|(r & Hr & Hc)]; [|right; eauto]. rewrite lookup_insert in Hk.
      case_decide; simplify_eq; [right; eauto|by left].
    + intros [Hk|(r & [[= -> ->]|Hr] & Hc)].
      * left. rewrite lookup_insert_ne; [done|]. intros ->. rewrite Hfresh in Hk by left. done.
      * left. rewrite Hv in Hc. simplify_eq. by rewrite lookup_insert_eq.
      * right. eauto.
  - destruct (IH (refused ++ [(j, e)]) checked Hnd) as [IHr IHc].
    { intros k Hk. apply Hfresh. by right. }
    split; [by rewrite IHr, <- app_assoc|]. intros k v. rewrite IHc. setoid_rewrite elem_of_cons.
    split; [intros [?|(r & ? & ?)]; eauto|].
    intros [?|(r & [[= -> ->]|?] & Hc)]; [by left|congruence|eauto].
Qed.

Lemma checked_changes_fold declared changes :
  (foldl (check_one declared) ([], ∅) (by_key changes)).1 =
    omap (fun c => match checked_value declared c.1 c.2 with
                   | Err e => Some (c.1, e) | Ok _ => None end) (by_key changes) /\
  forall k v, (foldl (check_one declared) ([], ∅) (by_key changes)).2 !! k = Some v <->
    exists raw, changes !! k = Some raw /\ checked_value declared k raw = Ok v.
Proof.
  destruct (foldl_check declared (by_key changes) [] ∅) as [Hr Hc].
  - apply by_key_nodup.
  - intros k _. apply lookup_empty.
  - split; [exact Hr|]. intros k v. rewrite Hc, lookup_empty.
    setoid_rewrite elem_of_by_key. naive_solver.
Qed.

(** A save is taken whole or refused whole: [Ok] says that every change is in the
    result, trimmed and of its declared kind; [Err] lists exactly what was refused. *)
Lemma checked_changes_spec declared changes :
  match checked_changes declared changes with
  | Ok checked =>
      (forall k v, checked !! k = Some v <->
         exists raw, changes !! k = Some raw /\ checked_value declared k raw = Ok v) /\
      dom checked = dom changes
  | Err refused =>
      refused <> [] /\
      forall k e, (k, e) ∈ refused <->
        exists raw, changes !! k = Some raw /\ checked_value declared k raw = Err e
  end.
Proof.
  destruct (checked_changes_fold declared changes) as [Hr Hc]. unfold checked_changes.
  destruct (foldl _ _ _) as [refused checked]. simpl in *.
  assert (forall k e, (k, e) ∈ refused <->
    exists raw, changes !! k = Some raw /\ checked_value declared k raw = Err e) as Hrs.
  { intros k e. rewrite Hr, list_elem_of_omap. split.
    - intros ([j raw] & Hin & He). simpl in He. destruct (checked_value declared j raw) eqn:Hv; [done|].
      simplify_eq. exists raw. split; [by apply elem_of_by_key|done].
    - intros (raw & Hk & He). exists (k, raw). split; [by apply elem_of_by_key|]. simpl. by rewrite He. }
  destruct (decide (refused = [])) as [Hnil|Hne]; [|done]. split; [done|].
  apply set_eq. intros k. rewrite !elem_of_dom. split.
  - intros [v Hv]. apply Hc in Hv as (raw & -> & _). by eexists.
  - intros [raw Hraw]. destruct (checked_value declared k raw) as [v|e] eqn:Hv.
    + exists v. apply Hc. eauto.
    + exfalso. assert ((k, e) ∈ refused) as Hin by (apply Hrs; eauto).
      rewrite Hnil in Hin. by apply elem_of_nil in Hin.
Qed.

(** What is stored is trimmed and valid. *)
Lemma checked_value_ok declared k raw v :
  checked_value declared k raw = Ok v ->
  match raw, v with
  | None, None => True
  | Some raw, Some v => v = trim raw /\ v <> "" /\ validate_value declared k v = Ok tt
  | _, _ => False
  end.
Proof.
  unfold checked_value. destruct raw as [raw|]; [|by intros [= <-]].
  destruct (is_empty (trim raw)) eqn:He; [done|].
  destruct (validate_value declared k (trim raw)) as [[]|] eqn:Hv; [|done].
  intros [= <-]. split_and!; [done| |done]. by intros Ht; rewrite Ht in He.
Qed.

Lemma parse_i64_bound s v : parse_i64 s = Some v -> (i64_min <= v <= i64_max)%Z.
Proof.
  unfold parse_i64. destruct (strip_prefix "-" s) as [t|].
  - destruct (is_empty t); [done|]. destruct (parse_digits _ _ _) as [u|] eqn:Hu; [|done].
    intros [= <-]. apply parse_digits_bound in Hu; unfold i64_min, i64_max in *; lia.
  - intros Hu%parse_uint_bound; unfold i64_min, i64_max in *; lia.
Qed.

Lemma elem_of_changed_since now before name :
  name ∈ changed_since now before <->
  (is_Some (ec_settings now !! name) \/ is_Some (ec_settings before !! name)) /\
  ~ same_standing (ec_settings now !! name) (ec_settings before !! name).
Proof.
  unfold changed_since. rewrite list_elem_of_filter, (sort_by_perm str_cmp), elem_of_elements, elem_of_union, !elem_of_dom.
  tauto.
Qed.

(** A report that comes back the same changed nothing. *)
Lemma changed_since_refl c : changed_since c c = [].
Proof.
  apply elem_of_nil_inv. intros name [[[e He]|[e He]] Hn]%elem_of_changed_since; rewrite He in Hn; by destruct Hn.
Qed.
End kinds.

(** For the concrete runs: floats read as whole numbers. *)
Definition demo_floats : Float64 := {|
  f64 := Z;
  f64_from_str := parse_i64;
  is_finite _ := true;
  f64_lt := Z.ltb
|}.
