(* ===== verification/WorkerSettings.v ===== *)
(** * The settings a worker declares and runs

    [backend/aurcache-worker-core/src/settings.rs]: a setting's value is the pin of
    the worker's environment, else what the server sets, else the environment's
    default, else the built-in one; what cannot be used is reported, never silently
    dropped. Floats are a parameter ([Float64]); the sentences a reason is shown with
    are too. *)
From stdpp Require Import pretty.
From Stdlib Require Import Ascii.
From S2P Require Import Prelude Text Order Units WorkerConfig.
Open Scope string_scope.
Open Scope list_scope.

(** ** [config.rs] *)

(** [env_opt], of what [std::env::var] answers. *)
Definition env_opt (env : string -> option string) (key : string) : option string :=
  option_filter (fun v => negb (is_empty v)) (trim <$> env key).

(** [parse_list]: split at commas and spaces. *)
Definition parse_list (raw : string) : list string :=
  filter (fun s => s <> "") (trim <$> (split "," raw ≫= split " ")).

(** ** What a worker's code declares *)

Section settings.
Context `{Float64}.

Inductive Builtin :=
| Unset
| SizeDefault (bytes : Z)
| DurationDefault (seconds : Z)
| IntegerDefault (value : Z)
| TextDefault (value : string).

Definition as_written (d : Builtin) : option string :=
  match d with
  | Unset => None
  | SizeDefault bytes => Some (format_size bytes)
  | DurationDefault seconds => Some (format_duration seconds)
  | IntegerDefault value => Some (pretty value)
  | TextDefault value => Some value
  end.

Record SettingSpec := mkSettingSpec {
  spec_key : string;
  spec_env_var : string;
  spec_kind : ValueKind;
  spec_description : string;
  spec_category : string;
  spec_applies : Applies;
  spec_default : Builtin
}.

(** Why a setting runs what it runs, where that needs saying. *)
Inductive Reason :=
| PinnedHere (server env_var : string)
| ServerRefused (why : Refusal)
| VariableIgnored (var : string) (why : Refusal)
| DefaultShadowed (var : string)
| HostRefused (why : string)
| NotAccepted (key : string).

(** The sentence a reason is reported with. *)
Context (sentence : Reason -> string).

Record Resolution := mkResolution {
  r_value : option string;
  r_source : EffectiveSource;
  r_status : SettingStatus;
  r_reason : option Reason
}.

Record Entry := mkEntry {
  e_spec : SettingSpec;
  e_current : Resolution;
  e_from_env : Resolution;
  e_pin : option string;
  e_fallback : option string
}.

Record WorkerSettings := mkWorkerSettings {
  ws_entries : list Entry;
  ws_revision : option string;
  ws_unsupported : list string
}.
Definition no_settings : WorkerSettings := mkWorkerSettings [] None [].

(** ** Resolving against the environment *)

Definition DEFAULT_SUFFIX : string := "_DEFAULT".

(** The candidates tried in turn: the value chosen, if one is usable, and the first
    refusal. *)
Fixpoint choose (kind : ValueKind) (candidates : list (option string * EffectiveSource * string))
    (rejected : option Reason) : option (string * EffectiveSource) * option Reason :=
  match candidates with
  | [] => (None, rejected)
  | (None, _, _) :: candidates => choose kind candidates rejected
  | (Some raw, source, var) :: candidates =>
      match validate kind (trim raw) with
      | Ok _ => (Some (trim raw, source), rejected)
      | Err why =>
          choose kind candidates
            (match rejected with Some r => Some r | None => Some (VariableIgnored var why) end)
      end
  end.

Definition resolve (env : string -> option string) (spec : SettingSpec) : Entry :=
  let default_var := spec_env_var spec +:+ DEFAULT_SUFFIX in
  let pin := env_opt env (spec_env_var spec) in
  let env_default := env_opt env default_var in
  let '(chosen, rejected) :=
    choose (spec_kind spec) [(pin, Env, spec_env_var spec); (env_default, EnvDefault, default_var)] None in
  let fallback :=
    match trim <$> option_filter (fun raw => is_ok (validate (spec_kind spec) (trim raw))) env_default with
    | Some raw => Some raw
    | None => as_written (spec_default spec)
    end in
  let pin_value :=
    fst <$> option_filter (fun c => bool_decide (c.2 = Env)) chosen in
  let '(value, source) :=
    match chosen with
    | Some (value, source) => (Some value, source)
    | None => (as_written (spec_default spec), Default)
    end in
  let shadowed :=
    if decide (is_Some pin /\ is_Some env_default /\ source = Env)
    then Some (DefaultShadowed default_var) else None in
  let status := match rejected with Some _ => Rejected | None => Applied end in
  let resolved :=
    mkResolution value source status (match rejected with Some r => Some r | None => shadowed end) in
  mkEntry spec resolved resolved pin_value fallback.

Definition extended (env : string -> option string) (ws : WorkerSettings) (specs : list SettingSpec)
  : WorkerSettings :=
  mkWorkerSettings (ws_entries ws ++ (resolve env <$> specs)) (ws_revision ws) (ws_unsupported ws).

Definition from_env (env : string -> option string) (specs : list SettingSpec) : WorkerSettings :=
  extended env no_settings specs.

(** ** Layering the server's values *)

Definition layered (settings : gmap string string) (entry : Entry) : Resolution :=
  match e_pin entry, settings !! spec_key (e_spec entry) with
  | Some _, Some server =>
      let env := e_from_env entry in
      mkResolution (r_value env) (r_source env) Overridden
        (Some (PinnedHere server (spec_env_var (e_spec entry))))
  | Some _, None | None, None => e_from_env entry
  | None, Some server =>
      match validate (spec_kind (e_spec entry)) server with
      | Ok _ =>
          mkResolution (Some (trim server)) Server (r_status (e_from_env entry)) (r_reason (e_from_env entry))
      | Err why =>
          let current := e_current entry in
          mkResolution (r_value current) (r_source current) Rejected (Some (ServerRefused why))
      end
  end.

Definition with_current (current : Resolution) (entry : Entry) : Entry :=
  mkEntry (e_spec entry) current (e_from_env entry) (e_pin entry) (e_fallback entry).

Definition declares (ws : WorkerSettings) (key : string) : Prop :=
  key ∈ (fun e => spec_key (e_spec e)) <$> ws_entries ws.
#[export] Instance declares_dec ws key : Decision (declares ws key).
Proof. unfold declares. apply _. Defined.

(** A [ConfigSnapshot] is a revision and the values set on the server. *)
Record ConfigSnapshot := mkSnapshot {
  cs_revision : string;
  cs_settings : gmap string string
}.

Definition with_snapshot (ws : WorkerSettings) (snapshot : ConfigSnapshot) : WorkerSettings :=
  mkWorkerSettings
    ((fun entry => with_current (layered (cs_settings snapshot) entry) entry) <$> ws_entries ws)
    (Some (cs_revision snapshot))
    (filter (fun key => ~ declares ws key) (by_key (cs_settings snapshot)).*1).

Definition find_entry (ws : WorkerSettings) (key : string) : option Entry :=
  head (filter (fun entry => spec_key (e_spec entry) = key) (ws_entries ws)).

(** [refused]: what the executor could not use keeps what [previous] was running. *)
Definition refused (ws : WorkerSettings) (refusals : gmap string string) (previous : WorkerSettings)
  : WorkerSettings :=
  mkWorkerSettings
    ((fun entry =>
        match refusals !! spec_key (e_spec entry) with
        | None => entry
        | Some why =>
            let before :=
              match find_entry previous (spec_key (e_spec entry)) with
              | Some old => e_current old
              | None => e_from_env entry
              end in
            with_current (mkResolution (r_value before) (r_source before) Rejected (Some (HostRefused why))) entry
        end) <$> ws_entries ws)
    (ws_revision ws) (ws_unsupported ws).

(** ** Reading *)

Definition source (ws : WorkerSettings) (key : string) : option EffectiveSource :=
  (fun entry => r_source (e_current entry)) <$> find_entry ws key.
Definition raw (ws : WorkerSettings) (key : string) : option string :=
  find_entry ws key ≫= fun entry => r_value (e_current entry).
Definition size_setting (ws : WorkerSettings) (key : string) : option Z := raw ws key ≫= parse_size.
Definition duration_setting (ws : WorkerSettings) (key : string) : option Z := raw ws key ≫= parse_duration.
Definition integer_setting (ws : WorkerSettings) (key : string) : option Z := raw ws key ≫= parse_i64.
Definition float_setting (ws : WorkerSettings) (key : string) : option f64 := raw ws key ≫= f64_from_str.
Definition list_setting (ws : WorkerSettings) (key : string) : list string :=
  default [] (parse_list <$> raw ws key).

(** ** Reporting *)

Definition declare_entry (entry : Entry) : SettingDecl :=
  let spec := e_spec entry in
  mkSettingDecl (spec_key spec) (spec_kind spec) (spec_description spec) (spec_category spec)
    (e_fallback entry) (Some (spec_env_var spec)) (spec_applies spec).
Definition declare (ws : WorkerSettings) : list SettingDecl := declare_entry <$> ws_entries ws.

Definition shown (r : Resolution) : EffectiveSetting :=
  mkEffectiveSetting (r_value r) (r_source r) (r_status r) (sentence <$> r_reason r).
Definition not_accepted (key : string) : EffectiveSetting :=
  mkEffectiveSetting None Server Unsupported (Some (sentence (NotAccepted key))).

Definition effective (ws : WorkerSettings) : EffectiveConfig :=
  mkEffectiveConfig (ws_revision ws)
    (collect_map (((fun entry => (spec_key (e_spec entry), shown (e_current entry))) <$> ws_entries ws) ++
                  ((fun key => (key, not_accepted key)) <$> ws_unsupported ws))).

(** ** [protocol_settings] and [check_table] *)

Definition DEFAULT_CONCURRENCY : Z := 1.
Definition DEFAULT_POLL_INTERVAL : Z := 10.
Definition DEFAULT_BUILD_TIMEOUT : Z := 3 * 60 * 60.

Definition protocol_settings : list SettingSpec :=
  [mkSettingSpec "concurrency" "WORKER_CONCURRENCY" (Integer (Some 1%Z) None)
     "How many builds this worker runs at once. Each build is already parallel, so raising this multiplies compiler processes, chroot copies and cache pressure together."
     "Scheduling" Immediately (IntegerDefault DEFAULT_CONCURRENCY);
   mkSettingSpec "priority" "WORKER_PRIORITY" (Integer None None)
     "Scheduling preference; higher wins. A worker holds back only while a strictly higher-priority one could take the job."
     "Scheduling" Immediately (IntegerDefault 0);
   mkSettingSpec "packages" "WORKER_PACKAGES" List
     "Exact pkgbase names this worker is provisioned for. A package named by any approved worker may only be built by workers that name it, so this restricts the package as much as it reserves the worker."
     "Scheduling" Immediately Unset;
   mkSettingSpec "poll_interval" "WORKER_POLL_INTERVAL" Duration
     "How long to wait before asking for work again when the queue is empty."
     "Scheduling" NextLoop (DurationDefault DEFAULT_POLL_INTERVAL);
   mkSettingSpec "build_timeout" "WORKER_BUILD_TIMEOUT" Duration
     "How long a single build may run before the worker kills it, unless the package's job timeout on the server is shorter. 0 leaves it to that."
     "Build limits" NextJob (DurationDefault DEFAULT_BUILD_TIMEOUT)].

(** What [check_table] does not panic on. *)
Definition table_ok (specs : list SettingSpec) : Prop :=
  Forall (fun spec => match as_written (spec_default spec) with
                      | Some written => validate (spec_kind spec) written = Ok tt
                      | None => True
                      end) specs /\
  NoDup (spec_key <$> specs) /\ NoDup (spec_env_var <$> specs).

(** ** [CoreTunables::from_settings] *)

Record CoreTunables := mkTunables {
  ct_packages : list string;
  ct_priority : Z;
  ct_concurrency : Z;
  ct_poll_interval : Z;
  ct_build_timeout : option Z
}.

Definition from_settings (settings : WorkerSettings) : CoreTunables :=
  mkTunables
    (list_setting settings "packages")
    (let priority := default 0%Z (integer_setting settings "priority") in
     if decide (i32_min <= priority <= i32_max)%Z then priority else 0)
    (Z.max 1
      (let concurrency := default DEFAULT_CONCURRENCY (integer_setting settings "concurrency") in
       if (0 <=? concurrency)%Z then concurrency else 1))
    (default DEFAULT_POLL_INTERVAL (duration_setting settings "poll_interval"))
    (option_filter (fun limit => negb (limit =? 0)%Z)
      (Some (default DEFAULT_BUILD_TIMEOUT (duration_setting settings "build_timeout")))).

(** ** Which value a setting has *)

(** A value a kind accepts, as it is stored. *)
Definition fits (kind : ValueKind) (v : string) : Prop := validate kind v = Ok tt /\ trim v = v.

Definition spec_ok (spec : SettingSpec) : Prop :=
  forall written, as_written (spec_default spec) = Some written -> fits (spec_kind spec) written.

(** What a variable gives, where it is set and usable. *)
Definition usable (env : string -> option string) (kind : ValueKind) (var : string) : option string :=
  option_filter (fun v => is_ok (validate kind v)) (env_opt env var).

Definition first_of {A} (o o' : option A) : option A := match o with Some a => Some a | None => o' end.

Lemma validate_trim kind v : validate kind (trim v) = validate kind v.
Proof. unfold validate. by rewrite trim_idem. Qed.

Lemma env_opt_trim env key v : env_opt env key = Some v -> trim v = v.
Proof.
  unfold env_opt, option_filter. destruct (env key) as [w|]; [|done]. simpl.
  destruct (negb (is_empty (trim w))); [|done]. intros [= <-]. apply trim_idem.
Qed.

Lemma usable_fits env kind var v : usable env kind var = Some v -> fits kind v.
Proof.
  unfold usable, option_filter. destruct (env_opt env var) as [w|] eqn:Hw; [|done].
  destruct (validate kind w) as [[]|] eqn:Hv; [|done]. intros [= <-].
  split; [done|by eapply env_opt_trim].
Qed.

Definition default_of (env : string -> option string) (spec : SettingSpec) : option string :=
  first_of (usable env (spec_kind spec) (spec_env_var spec +:+ DEFAULT_SUFFIX)) (as_written (spec_default spec)).

(** A setting resolves to its pin, else the environment's default, else the built-in
    one; what is not usable counts as not set. *)
Lemma resolve_spec env spec :
  let e := resolve env spec in
  let pin := usable env (spec_kind spec) (spec_env_var spec) in
  e_spec e = spec /\ e_current e = e_from_env e /\ e_pin e = pin /\
  e_fallback e = default_of env spec /\
  r_value (e_from_env e) = first_of pin (default_of env spec) /\
  (r_source (e_from_env e) = Env <-> is_Some pin).
Proof.
  unfold resolve, default_of, usable. cbn [choose].
  destruct (env_opt env (spec_env_var spec)) as [p|] eqn:Hp; [apply env_opt_trim in Hp as Htp; rewrite Htp|];
    (destruct (env_opt env (spec_env_var spec +:+ DEFAULT_SUFFIX)) as [d|] eqn:Hd;
      [apply env_opt_trim in Hd as Htd; rewrite Htd|]);
    unfold option_filter; cbn [fmap option_fmap option_map]; rewrite ?Htp, ?Htd;
    repeat match goal with
    | |- context [validate (spec_kind spec) ?v] => destruct (validate (spec_kind spec) v) as [[]|]
    end; cbn; rewrite ?Htd; split_and!; try done; split; try done; try (by intros [? [=]]); try (by eexists); by intros [? ?].
Qed.

(** ** Every configuration a worker may come to run *)

(** From its environment, then by deliveries of the server's values, each of which the
    executor may refuse in part. *)
Inductive runs (env : string -> option string) (specs : list SettingSpec) : WorkerSettings -> Prop :=
| runs_start : runs env specs (from_env env specs)
| runs_delivery ws snapshot refusals :
    runs env specs ws -> runs env specs (refused (with_snapshot ws snapshot) refusals ws).

Record entry_ok (env : string -> option string) (e : Entry) : Prop := {
  eo_resolved : e_from_env e = e_from_env (resolve env (e_spec e)) /\ e_pin e = e_pin (resolve env (e_spec e)) /\
    e_fallback e = e_fallback (resolve env (e_spec e));
  eo_fits : forall v, r_value (e_current e) = Some v -> fits (spec_kind (e_spec e)) v;
  eo_unset : r_value (e_current e) = None -> as_written (spec_default (e_spec e)) = None;
  eo_pinned : forall v, e_pin e = Some v -> r_value (e_current e) = Some v /\ r_source (e_current e) = Env
}.

Lemma resolve_ok env spec : spec_ok spec -> entry_ok env (resolve env spec).
Proof.
  intros Hs. destruct (resolve_spec env spec) as (H1 & H2 & H3 & H4 & H5 & H6).
  split; rewrite ?H1, ?H2; [done| | |].
  - intros v. rewrite H5. unfold default_of, first_of.
    destruct (usable _ _ _) eqn:Hu; [intros [= <-]; by eapply usable_fits|].
    destruct (usable _ _ (_ +:+ _)) eqn:Hd; [intros [= <-]; by eapply usable_fits|apply Hs].
  - rewrite H5. unfold default_of, first_of. by repeat case_match.
  - intros v Hv. rewrite H3 in Hv. rewrite H5, Hv. split; [done|]. apply H6. by eexists.
Qed.

Lemma with_current_ok env e cur :
  entry_ok env e ->
  (forall v, r_value cur = Some v -> fits (spec_kind (e_spec e)) v) ->
  (r_value cur = None -> as_written (spec_default (e_spec e)) = None) ->
  (forall v, e_pin e = Some v -> r_value cur = Some v /\ r_source cur = Env) ->
  entry_ok env (with_current cur e).
Proof. intros [H1 H2 H3 H4]. by split. Qed.

Lemma from_env_ok env e : entry_ok env e -> spec_ok (e_spec e) -> entry_ok env (with_current (e_from_env e) e).
Proof.
  intros He Hs. destruct (resolve_ok env _ Hs) as [_ H2 H3 H4]. pose proof He as [(Hf & Hp & _) _ _ _].
  destruct (resolve_spec env (e_spec e)) as (Hsp & Hc & _). rewrite Hsp, Hc in *.
  apply with_current_ok; rewrite ?Hf; [done..|]. intros v. rewrite Hp. apply H4.
Qed.

Lemma layered_ok env settings e :
  entry_ok env e -> spec_ok (e_spec e) -> entry_ok env (with_current (layered settings e) e).
Proof.
  intros He Hs. pose proof (from_env_ok env e He Hs) as [_ F2 F3 F4]. cbn in F2, F3, F4.
  pose proof He as [_ E2 E3 E4]. unfold layered.
  destruct (e_pin e) as [p|] eqn:Hp, (settings !! spec_key (e_spec e)) as [v|];
    try (by apply with_current_ok; rewrite ?Hp).
  destruct (validate _ v) as [[]|] eqn:Hv; [|by apply with_current_ok; rewrite ?Hp].
  apply with_current_ok; rewrite ?Hp; cbn; [done| |done|done].
  intros w [= <-]. split; [by rewrite validate_trim|apply trim_idem].
Qed.

Definition all_ok (env : string -> option string) (specs : list SettingSpec) (ws : WorkerSettings) : Prop :=
  e_spec <$> ws_entries ws = specs /\ Forall (entry_ok env) (ws_entries ws).

Lemma find_entry_elem ws key e : find_entry ws key = Some e -> e ∈ ws_entries ws /\ spec_key (e_spec e) = key.
Proof. intros He%head_filter_elem. tauto. Qed.

Lemma all_ok_spec env specs ws e :
  Forall spec_ok specs -> all_ok env specs ws -> e ∈ ws_entries ws -> entry_ok env e /\ spec_ok (e_spec e).
Proof.
  intros Hs [Hm Ho] He. rewrite Forall_forall in Ho. split; [by apply Ho|].
  rewrite <- Hm, Forall_fmap, Forall_forall in Hs. by apply Hs.
Qed.

Lemma with_snapshot_ok env specs ws snapshot :
  Forall spec_ok specs -> all_ok env specs ws -> all_ok env specs (with_snapshot ws snapshot).
Proof.
  intros Hs Ho. split.
  - destruct Ho as [<- _]. cbn. by rewrite <- list_fmap_compose.
  - cbn. apply Forall_fmap, Forall_forall. intros e He. destruct (all_ok_spec _ _ _ _ Hs Ho He). by apply layered_ok.
Qed.

Lemma refused_ok env specs ws refusals previous :
  Forall spec_ok specs -> NoDup (spec_key <$> specs) ->
  all_ok env specs ws -> all_ok env specs previous -> all_ok env specs (refused ws refusals previous).
Proof.
  intros Hs Hnd Ho Hp. split.
  - destruct Ho as [<- _]. cbn. rewrite <- list_fmap_compose. apply list_fmap_ext. intros i e _. cbn.
    by destruct (refusals !! _).
  - cbn. apply Forall_fmap, Forall_forall. intros e He. destruct (all_ok_spec _ _ _ _ Hs Ho He) as [Heo Hse].
    cbn. destruct (refusals !! _) as [why|]; [|done].
    destruct (find_entry previous _) as [old|] eqn:Hf.
    + apply find_entry_elem in Hf as [Hold Hk]. destruct (all_ok_spec _ _ _ _ Hs Hp Hold) as [[(_ & Hpin & _) O2 O3 O4] _].
      assert (e_spec old = e_spec e) as Hsame.
      { destruct Ho as [Ho _], Hp as [Hp _]. apply (NoDup_fmap_inj_elem spec_key specs); [done| | |done].
        - rewrite <- Hp. by apply list_elem_of_fmap_2.
        - rewrite <- Ho. by apply list_elem_of_fmap_2. }
      rewrite Hsame in *. apply with_current_ok; cbn; [done..|]. intros v Hv. apply O4.
      destruct Heo as [(_ & Hpe & _) _ _ _]. by rewrite Hpin, <- Hpe.
    + pose proof (from_env_ok env e Heo Hse) as [_ F2 F3 F4]. by apply with_current_ok.
Qed.

Lemma runs_ok env specs ws :
  Forall spec_ok specs -> NoDup (spec_key <$> specs) -> runs env specs ws -> all_ok env specs ws.
Proof.
  intros Hs Hnd. induction 1 as [|ws snapshot refusals _ IH].
  - split; cbn.
    + rewrite <- list_fmap_compose. rewrite <- (list_fmap_id specs) at 2. apply list_fmap_ext.
      intros i spec _. cbn. by destruct (resolve_spec env spec) as [-> _].
    + apply Forall_fmap. eapply Forall_impl; [exact Hs|]. intros spec. apply resolve_ok.
  - apply refused_ok; [done..| |done]. by apply with_snapshot_ok.
Qed.

Lemma find_entry_running env specs ws spec :
  NoDup (spec_key <$> specs) -> all_ok env specs ws -> spec ∈ specs ->
  exists e, find_entry ws (spec_key spec) = Some e /\ e_spec e = spec /\ e ∈ ws_entries ws.
Proof.
  intros Hnd [Hm _] Hin. pose proof Hin as Hin'. rewrite <- Hm in Hin'.
  apply list_elem_of_fmap in Hin' as (e & -> & He).
  destruct (find_entry ws (spec_key (e_spec e))) as [e'|] eqn:Hf.
  - exists e'. apply find_entry_elem in Hf as [He' Hk]. split_and!; [done| |done].
    apply (NoDup_fmap_inj_elem spec_key specs); [done| |done|done].
    rewrite <- Hm. by apply list_elem_of_fmap_2.
  - by destruct (head_filter_None _ _ Hf e He).
Qed.

Lemma find_entry_map (f : Entry -> Entry) ws ws' key :
  (forall e, e_spec (f e) = e_spec e) -> ws_entries ws' = f <$> ws_entries ws ->
  find_entry ws' key = f <$> find_entry ws key.
Proof.
  intros Hf Hws. unfold find_entry. rewrite Hws. clear Hws. induction (ws_entries ws) as [|e l IH]; [done|].
  csimpl. rewrite !filter_cons. repeat case_decide; rewrite Hf in *; done.
Qed.

Lemma integer_bounds min max n :
  check_bounds Z.ltb n min max = Ok tt ->
  (forall m, min = Some m -> (m <= n)%Z) /\ (forall m, max = Some m -> (n <= m)%Z).
Proof.
  unfold check_bounds. destruct min as [lo|], max as [hi|]; simpl; repeat case_match; try done;
    intros _; split; intros m [= <-]; lia.
Qed.

Lemma raw_running env specs ws spec :
  Forall spec_ok specs -> NoDup (spec_key <$> specs) -> runs env specs ws -> spec ∈ specs ->
  exists e, find_entry ws (spec_key spec) = Some e /\ e_spec e = spec /\ e ∈ ws_entries ws /\
    entry_ok env e /\ raw ws (spec_key spec) = r_value (e_current e).
Proof.
  intros Hs Hnd Hr Hin. pose proof (runs_ok _ _ _ Hs Hnd Hr) as Ho.
  destruct (find_entry_running _ _ _ _ Hnd Ho Hin) as (e & Hf & He & Hel).
  exists e. split_and!; [done..| |].
  - exact (proj1 (all_ok_spec env specs ws e Hs Ho Hel)).
  - unfold raw. by rewrite Hf.
Qed.

(** What a kind promises of the value a reader gets. *)
Definition read_as (ws : WorkerSettings) (spec : SettingSpec) (v : string) : Prop :=
  match spec_kind spec with
  | Integer min max => exists n, integer_setting ws (spec_key spec) = Some n /\
      (forall m, min = Some m -> (m <= n)%Z) /\ (forall m, max = Some m -> (n <= m)%Z)
  | Float min max => exists x, float_setting ws (spec_key spec) = Some x /\ is_finite x = true /\
      check_bounds f64_lt x min max = Ok tt
  | Bool => v = "true" \/ v = "false"
  | Size => exists n, size_setting ws (spec_key spec) = Some n /\ (0 <= n <= u64_max)%Z
  | Duration => exists n, duration_setting ws (spec_key spec) = Some n
  | Choice options => v ∈ options
  | Text | List | Unknown => True
  end.

Lemma fits_read ws spec v :
  raw ws (spec_key spec) = Some v -> fits (spec_kind spec) v -> read_as ws spec v.
Proof.
  intros Hr [Hv Ht]. unfold read_as, integer_setting, float_setting, size_setting, duration_setting.
  rewrite Hr. simpl. unfold validate in Hv. rewrite Ht in Hv.
  destruct (spec_kind spec) as [min max|min max| | | |options| | |].
  - destruct (parse_i64 v) as [n|]; [|done]. exists n. split; [done|]. by apply integer_bounds.
  - destruct (f64_from_str v) as [x|]; [|done]. exists x. destruct (is_finite x); [|done]. by split_and!.
  - by destruct (decide _).
  - destruct (parse_size v) as [n|] eqn:Hn; [|done]. exists n. split; [done|]. by eapply parse_size_bound.
  - destruct (parse_duration v) as [n|]; [|done]. by exists n.
  - by destruct (decide _).
  - done.
  - done.
  - done.
Qed.

Lemma find_with_snapshot ws snapshot key :
  find_entry (with_snapshot ws snapshot) key =
  (fun e => with_current (layered (cs_settings snapshot) e) e) <$> find_entry ws key.
Proof. by apply find_entry_map. Qed.

Definition refuse_entry (refusals : gmap string string) (previous : WorkerSettings) (entry : Entry) : Entry :=
  match refusals !! spec_key (e_spec entry) with
  | None => entry
  | Some why =>
      let before := from_option e_current (e_from_env entry) (find_entry previous (spec_key (e_spec entry))) in
      with_current (mkResolution (r_value before) (r_source before) Rejected (Some (HostRefused why))) entry
  end.

Lemma find_refused ws refusals previous key :
  find_entry (refused ws refusals previous) key = refuse_entry refusals previous <$> find_entry ws key.
Proof.
  apply find_entry_map.
  - intros e. unfold refuse_entry. by case_match.
  - cbn. apply list_fmap_ext. intros i e _. unfold refuse_entry. repeat case_match; simplify_eq; done.
Qed.

(** A delivery the host refuses in part: what each setting then runs. *)
Lemma delivered_value env specs ws snapshot refusals spec :
  Forall spec_ok specs -> NoDup (spec_key <$> specs) -> runs env specs ws -> spec ∈ specs ->
  raw (refused (with_snapshot ws snapshot) refusals ws) (spec_key spec) =
  if decide (is_Some (refusals !! spec_key spec)) then raw ws (spec_key spec)
  else match usable env (spec_kind spec) (spec_env_var spec) with
       | Some pin => Some pin
       | None =>
           match cs_settings snapshot !! spec_key spec with
           | Some v => if is_ok (validate (spec_kind spec) v) then Some (trim v) else raw ws (spec_key spec)
           | None => default_of env spec
           end
       end.
Proof.
  intros Hs Hnd Hr Hin. destruct (raw_running _ _ _ _ Hs Hnd Hr Hin) as (e & Hf & <- & _ & [(Hfe & Hpe & _) _ _ _] & Hraw).
  destruct (resolve_spec env (e_spec e)) as (_ & _ & Hpin & _ & Hval & _). rewrite <- Hpe in Hpin. rewrite <- Hfe in Hval.
  rewrite Hraw. unfold raw. rewrite find_refused, find_with_snapshot, Hf. cbn. unfold refuse_entry. cbn.
  destruct (refusals !! spec_key (e_spec e)) as [why|]; cbn.
  { rewrite Hf. by rewrite decide_True by (by eexists). }
  rewrite decide_False by apply is_Some_None.
  unfold layered. rewrite <- Hpin in *. cbn in *.
  destruct (e_pin e), (cs_settings snapshot !! spec_key (e_spec e)) as [v|]; cbn in *; try done.
  by destruct (validate (spec_kind (e_spec e)) v) as [[]|].
Qed.

Lemma runs_unsupported env specs ws :
  Forall spec_ok specs -> NoDup (spec_key <$> specs) -> runs env specs ws ->
  NoDup (ws_unsupported ws) /\ forall k, k ∈ ws_unsupported ws -> ~ declares ws k.
Proof.
  intros Hs Hnd Hr. destruct Hr as [|ws snapshot refusals Hr].
  { split; [constructor|]. by intros k ?%elem_of_nil. }
  cbn. split; [apply NoDup_filter, by_key_nodup|]. intros k [Hk _]%list_elem_of_filter Hd. apply Hk.
  pose proof (runs_ok _ _ _ Hs Hnd Hr) as Ho.
  destruct (refused_ok env specs (with_snapshot ws snapshot) refusals ws) as [Hm _]; [done..|by apply with_snapshot_ok|done|].
  destruct Ho as [Hm' _]. unfold declares in *. rewrite (list_fmap_compose e_spec spec_key) in *.
  by rewrite Hm, <- Hm' in Hd.
Qed.

(** The report shows what runs, and each key that means nothing to this worker. *)
Lemma effective_lookup env specs ws :
  Forall spec_ok specs -> NoDup (spec_key <$> specs) -> runs env specs ws ->
  forall k x, ec_settings (effective ws) !! k = Some x <->
    (exists e, e ∈ ws_entries ws /\ spec_key (e_spec e) = k /\ x = shown (e_current e)) \/
    (k ∈ ws_unsupported ws /\ x = not_accepted k).
Proof.
  intros Hs Hnd Hr k x. pose proof (runs_ok _ _ _ Hs Hnd Hr) as [Hm _].
  destruct (runs_unsupported _ _ _ Hs Hnd Hr) as [Hnu Hun]. cbn.
  rewrite collect_map_lookup, elem_of_app, !list_elem_of_fmap.
  - naive_solver.
  - rewrite fmap_app, <- !list_fmap_compose. apply NoDup_app. split_and!.
    + by rewrite <- Hm, <- list_fmap_compose in Hnd.
    + intros j Hj Hj'. rewrite list_elem_of_fmap in Hj'. destruct Hj' as (j' & -> & Hj'). by apply (Hun j').
    + by rewrite list_fmap_id.
Qed.

(** What the report says of a declared setting after a delivery. *)
Lemma delivered_report env specs ws snapshot refusals spec :
  Forall spec_ok specs -> NoDup (spec_key <$> specs) -> runs env specs ws -> spec ∈ specs ->
  exists r,
    ec_settings (effective (refused (with_snapshot ws snapshot) refusals ws)) !! spec_key spec = Some (shown r) /\
    match refusals !! spec_key spec with
    | Some why => r_status r = Rejected /\ r_reason r = Some (HostRefused why)
    | None =>
        match usable env (spec_kind spec) (spec_env_var spec) with
        | Some pin => r_value r = Some pin
        | None =>
            match cs_settings snapshot !! spec_key spec with
            | Some v => validate (spec_kind spec) v = Ok tt -> r_value r = Some (trim v) /\ r_source r = Server
            | None => r_value r = default_of env spec
            end
        end
    end.
Proof.
  intros Hs Hnd Hr Hin. pose proof (runs_delivery env specs ws snapshot refusals Hr) as Hr'.
  destruct (raw_running _ _ _ _ Hs Hnd Hr Hin) as (e & Hf & <- & _ & [(Hfe & Hpe & _) _ _ _] & _).
  destruct (raw_running _ _ _ _ Hs Hnd Hr' Hin) as (e' & Hf' & He' & Hin' & _).
  exists (e_current e'). split.
  { apply (effective_lookup _ _ _ Hs Hnd Hr'). left. exists e'. by rewrite He'. }
  destruct (resolve_spec env (e_spec e)) as (_ & _ & Hpin & _ & Hval & _). rewrite <- Hpe in Hpin. rewrite <- Hfe in Hval.
  rewrite find_refused, find_with_snapshot, Hf in Hf'. cbn in Hf'. injection Hf' as <-.
  unfold refuse_entry. cbn. destruct (refusals !! spec_key (e_spec e)) as [why|]; [done|]. cbn.
  unfold layered. rewrite <- Hpin in *.
  destruct (e_pin e), (cs_settings snapshot !! spec_key (e_spec e)) as [v|]; cbn in *; try done.
  by intros ->.
Qed.

(** What a worker declares, it declares for good. *)
Lemma declare_running env specs ws :
  Forall spec_ok specs -> NoDup (spec_key <$> specs) -> runs env specs ws -> declare ws = declare (from_env env specs).
Proof.
  intros Hs Hnd Hr. pose proof (runs_ok _ _ _ Hs Hnd Hr) as [Hm Ho]. unfold declare. cbn.
  rewrite <- Hm, <- !list_fmap_compose. apply list_fmap_ext. intros i e He. cbn.
  rewrite Forall_forall in Ho. destruct (Ho e) as [(_ & _ & Hf) _ _ _]; [by eapply list_elem_of_lookup_2|].
  unfold declare_entry. rewrite Hf. by destruct (resolve_spec env (e_spec e)) as [-> _].
Qed.

(** The declaration has each setting's kind. *)
Lemma declared_kind env specs spec :
  NoDup (spec_key <$> specs) -> spec ∈ specs ->
  forall v, validate_value (declare (from_env env specs)) (spec_key spec) v = validate (spec_kind spec) v.
Proof.
  intros Hnd Hin v. unfold validate_value, declare. cbn.
  destruct (head (filter _ _)) as [d|] eqn:Hh.
  - apply head_filter_elem in Hh as [Hd Hk]. rewrite <- list_fmap_compose in Hd.
    apply list_elem_of_fmap in Hd as (spec' & -> & Hin'). cbn in Hk |- *.
    destruct (resolve_spec env spec') as [He _]. rewrite He in *.
    by rewrite (NoDup_fmap_inj_elem spec_key specs spec' spec Hnd Hin' Hin Hk).
  - destruct (head_filter_None _ _ Hh (declare_entry (resolve env spec))); cbn.
    + by apply list_elem_of_fmap_2, list_elem_of_fmap_2.
    + by destruct (resolve_spec env spec) as [-> _].
Qed.

Lemma undeclared env specs k v :
  k ∉ spec_key <$> specs -> validate_value (declare (from_env env specs)) k v = Err UnknownKey.
Proof.
  intros Hn. unfold validate_value, declare. cbn. destruct (head (filter _ _)) as [d|] eqn:Hh; [|done].
  apply head_filter_elem in Hh as [Hd <-]. rewrite <- list_fmap_compose in Hd.
  apply list_elem_of_fmap in Hd as (spec & -> & Hin). cbn in Hn. destruct (resolve_spec env spec) as [He _]. rewrite He in Hn.
  destruct Hn. by apply list_elem_of_fmap_2.
Qed.

(** What a reachable configuration answers for a declared setting. *)
Lemma reading_running env specs ws spec :
  Forall spec_ok specs -> NoDup (spec_key <$> specs) -> runs env specs ws -> spec ∈ specs ->
  match raw ws (spec_key spec) with
  | None => as_written (spec_default spec) = None
  | Some v => read_as ws spec v
  end.
Proof.
  intros Hs Hnd Hr Hin. destruct (raw_running _ _ _ _ Hs Hnd Hr Hin) as (e & _ & He & _ & [_ Hfit Hun _] & Hraw).
  rewrite He in *. destruct (raw ws (spec_key spec)) as [v|] eqn:Hv; [|auto]. apply fits_read; auto.
Qed.

(** A pin is run, whatever the server or the host says. *)
Lemma pinned_running env specs ws spec pin :
  Forall spec_ok specs -> NoDup (spec_key <$> specs) -> runs env specs ws -> spec ∈ specs ->
  usable env (spec_kind spec) (spec_env_var spec) = Some pin -> raw ws (spec_key spec) = Some pin.
Proof.
  intros Hs Hnd Hr Hin Hu. destruct (raw_running _ _ _ _ Hs Hnd Hr Hin) as (e & _ & He & _ & [(_ & Hp & _) _ _ Hpin] & Hraw).
  destruct (resolve_spec env (e_spec e)) as (_ & _ & Hpe & _). rewrite Hraw. apply Hpin. by rewrite Hp, Hpe, He.
Qed.

(** What a delivery does not put in force, the report says so of. *)
Lemma delivery_reported env specs ws snapshot refusals :
  Forall spec_ok specs -> NoDup (spec_key <$> specs) -> runs env specs ws ->
  let next := refused (with_snapshot ws snapshot) refusals ws in
  forall k v, cs_settings snapshot !! k = Some v ->
  exists x, ec_settings (effective next) !! k = Some x /\
    (es_value x = Some (trim v) /\ es_source x = Server \/ es_status x <> Applied).
Proof.
  intros Hs Hnd Hr next k v Hk. assert (runs env specs next) as Hr' by by apply runs_delivery.
  setoid_rewrite (effective_lookup _ _ _ Hs Hnd Hr').
  destruct (decide (declares ws k)) as [Hd|Hd].
  - unfold declares in Hd. apply list_elem_of_fmap in Hd as (e & -> & He).
    set (e1 := with_current (layered (cs_settings snapshot) e) e).
    exists (shown (e_current (refuse_entry refusals ws e1))). split.
    + left. exists (refuse_entry refusals ws e1). split_and!; [| |done].
      * subst next. cbn. rewrite list_elem_of_fmap. exists e1. split.
        -- unfold refuse_entry. repeat case_match; simplify_eq; done.
        -- by apply (list_elem_of_fmap_2 (fun e => with_current (layered (cs_settings snapshot) e) e)).
      * unfold refuse_entry. by case_match.
    + unfold refuse_entry, e1, layered. cbn. rewrite Hk.
      destruct (refusals !! _); [by right|]. destruct (e_pin e); [by right|].
      destruct (validate _ v); [by left|by right].
  - exists (not_accepted k). split; [|by right]. right. split; [|done].
    subst next. cbn. apply list_elem_of_filter. split; [done|].
    apply list_elem_of_fmap. exists (k, v). split; [done|]. by apply elem_of_by_key.
Qed.

(** C19. The readers of a worker's declared settings never meet a value they cannot
    read. Whatever its environment holds and whatever the server delivers, through any
    number of deliveries each refused in part by the host, the value in force of every
    declared setting is of its kind: an integer within the declared bounds, a finite
    number, a size or duration that parses, one of the choices. It has none only
    where the setting's own default is none. *)
Theorem declared_settings_always_read env specs ws spec :
  Forall spec_ok specs -> NoDup (spec_key <$> specs) -> runs env specs ws -> spec ∈ specs ->
  match raw ws (spec_key spec) with
  | None => spec_default spec = Unset
  | Some v => read_as ws spec v
  end.
Proof.
  intros Hs Hnd Hr Hin. pose proof (reading_running _ _ _ _ Hs Hnd Hr Hin) as Hread.
  destruct (raw ws (spec_key spec)); [done|]. by destruct (spec_default spec).
Qed.

(** C18. What a delivery of the server's values leaves a declared setting running: the
    usable pin of the worker's environment, whatever else is said; else, where the
    host refuses the new value, what ran before; else the server's value if it is of
    the setting's kind, and what ran before if it is not; else, the server setting
    none, the environment's default or the built-in one. And no value the server set
    is dropped in silence: each is either in force as the server's, or its key is in
    the worker's report as overridden, refused or unsupported. *)
Theorem delivery_takes_its_place env specs ws snapshot refusals :
  Forall spec_ok specs -> NoDup (spec_key <$> specs) -> runs env specs ws ->
  let next := refused (with_snapshot ws snapshot) refusals ws in
  (forall spec, spec ∈ specs ->
    raw next (spec_key spec) =
    match usable env (spec_kind spec) (spec_env_var spec) with
    | Some pin => Some pin
    | None =>
        if decide (is_Some (refusals !! spec_key spec)) then raw ws (spec_key spec)
        else match cs_settings snapshot !! spec_key spec with
             | Some v => if is_ok (validate (spec_kind spec) v) then Some (trim v) else raw ws (spec_key spec)
             | None => default_of env spec
             end
    end) /\
  forall k v, cs_settings snapshot !! k = Some v ->
    exists x, ec_settings (effective next) !! k = Some x /\
      (es_value x = Some (trim v) /\ es_source x = Server \/ es_status x <> Applied).
Proof.
  intros Hs Hnd Hr next. split; [|by apply (delivery_reported env specs)].
  intros spec Hin. subst next. rewrite (delivered_value env specs) by done.
  destruct (usable _ _ _) as [pin|] eqn:Hu; [|done].
  case_decide; [|done]. by eapply pinned_running.
Qed.

(** A protocol setting, in any table that starts with the protocol's. *)
Lemma protocol_read env more ws spec :
  Forall spec_ok (protocol_settings ++ more) -> NoDup (spec_key <$> protocol_settings ++ more) ->
  runs env (protocol_settings ++ more) ws -> spec ∈ protocol_settings -> spec_default spec <> Unset ->
  exists v, raw ws (spec_key spec) = Some v /\ read_as ws spec v.
Proof.
  intros Hs Hnd Hr Hin Hd. assert (spec ∈ protocol_settings ++ more) as Hin' by (apply elem_of_app; by left).
  pose proof (reading_running _ _ _ _ Hs Hnd Hr Hin') as Hread.
  destruct (raw ws (spec_key spec)) as [v|]; [by exists v|]. by destruct (spec_default spec).
Qed.

(** C20. What a worker schedules and times builds by is what it reports. In every
    configuration it may come to run, [CoreTunables::from_settings] takes the declared
    concurrency, at least one, the polling interval and the build timeout (none for 0)
    exactly as they are in force; none of its fallbacks and clamps is ever used, but
    for one: a priority that the declaration accepts and the report shows as in
    force, but that no [i32] holds, is scheduled as 0. *)
Theorem tunables_are_what_is_reported env more ws :
  Forall spec_ok (protocol_settings ++ more) -> NoDup (spec_key <$> protocol_settings ++ more) ->
  runs env (protocol_settings ++ more) ws ->
  exists concurrency priority poll timeout,
    integer_setting ws "concurrency" = Some concurrency /\ integer_setting ws "priority" = Some priority /\
    duration_setting ws "poll_interval" = Some poll /\ duration_setting ws "build_timeout" = Some timeout /\
    (1 <= concurrency)%Z /\
    from_settings ws =
      mkTunables (list_setting ws "packages")
        (if decide (i32_min <= priority <= i32_max)%Z then priority else 0)
        concurrency poll (if (timeout =? 0)%Z then None else Some timeout).
Proof.
  intros Hs Hnd Hr.
  destruct (protocol_read _ _ _ (mkSettingSpec "concurrency" _ _ _ _ _ (IntegerDefault _)) Hs Hnd Hr ltac:(left) ltac:(done))
    as (v1 & _ & c & Hc & Hlo & _).
  destruct (protocol_read _ _ _ (mkSettingSpec "priority" _ _ _ _ _ (IntegerDefault _)) Hs Hnd Hr ltac:(right; left) ltac:(done))
    as (v2 & _ & p & Hp & _).
  destruct (protocol_read _ _ _ (mkSettingSpec "poll_interval" _ _ _ _ _ (DurationDefault _)) Hs Hnd Hr
    ltac:(do 3 right; left) ltac:(done)) as (v3 & _ & i & Hi).
  destruct (protocol_read _ _ _ (mkSettingSpec "build_timeout" _ _ _ _ _ (DurationDefault _)) Hs Hnd Hr
    ltac:(do 4 right; left) ltac:(done)) as (v4 & _ & t & Ht).
  cbn in Hc, Hp, Hi, Ht. specialize (Hlo 1%Z eq_refl).
  exists c, p, i, t. split_and!; try done. unfold from_settings. rewrite Hc, Hp, Hi, Ht. cbn. f_equal.
  - case_match; lia.
  - by destruct (t =? 0)%Z.
Qed.
End settings.

(** ** On a concrete worker *)

Definition demo_env (var : string) : option string :=
  if decide (var = "WORKER_CONCURRENCY") then Some " 4 "
  else if decide (var = "WORKER_POLL_INTERVAL_DEFAULT") then Some "30s"
  else if decide (var = "WORKER_BUILD_TIMEOUT") then Some "forever"
  else None.

Definition demo_snapshot : ConfigSnapshot :=
  mkSnapshot "r1" (list_to_map [("concurrency", "8"); ("priority", " 3000000000"); ("poll_interval", "soon"); ("turbo", "on")]).

Definition demo_specs : list (SettingSpec (H := demo_floats)) := protocol_settings (H := demo_floats).

Definition demo_running : WorkerSettings (H := demo_floats) :=
  refused (with_snapshot (from_env demo_env demo_specs) demo_snapshot) ∅ (from_env demo_env demo_specs).

Definition demo_sentence (r : Reason) : string :=
  match r with
  | PinnedHere server env_var => env_var +:+ " pins over " +:+ server
  | ServerRefused _ => "refused"
  | VariableIgnored var _ => var +:+ " ignored"
  | DefaultShadowed var => var +:+ " is also set"
  | HostRefused why => why
  | NotAccepted key => "no setting " +:+ key
  end.

Example demo_values :
  raw demo_running "concurrency" = Some "4" /\ raw demo_running "priority" = Some "3000000000" /\
  raw demo_running "poll_interval" = Some "30s" /\ raw demo_running "build_timeout" = Some "3h" /\
  (es_status <$> ec_settings (effective demo_sentence demo_running) !! "concurrency") = Some Overridden /\
  (es_status <$> ec_settings (effective demo_sentence demo_running) !! "priority") = Some Applied /\
  (es_status <$> ec_settings (effective demo_sentence demo_running) !! "turbo") = Some Unsupported.
Proof. vm_compute. done. Qed.

Lemma demo_specs_ok : Forall spec_ok demo_specs.
Proof.
  unfold demo_specs, protocol_settings.
  repeat (apply Forall_cons_2; [intros written Hw; cbv in Hw; simplify_eq; split; vm_compute; reflexivity|]).
  apply Forall_nil_2.
Qed.

Lemma demo_specs_nodup : NoDup (spec_key <$> demo_specs).
Proof. apply (bool_decide_unpack _). vm_compute. exact I. Qed.

Lemma demo_reached : runs demo_env demo_specs demo_running.
Proof. apply runs_delivery, runs_start. Qed.

Definition demo_priority : SettingSpec (H := demo_floats) :=
  default (mkSettingSpec "" "" Text "" "" Immediately Unset) (demo_specs !! 1%nat).
Definition demo_concurrency : SettingSpec (H := demo_floats) :=
  default (mkSettingSpec "" "" Text "" "" Immediately Unset) (demo_specs !! 0%nat).

Lemma declared_settings_always_read_witness :
  raw demo_running (spec_key demo_priority) = Some "3000000000" /\ read_as demo_running demo_priority "3000000000".
Proof.
  assert (raw demo_running (spec_key demo_priority) = Some "3000000000") as Hr by (vm_compute; reflexivity).
  pose proof (declared_settings_always_read demo_env demo_specs demo_running demo_priority
    demo_specs_ok demo_specs_nodup demo_reached ltac:(right; left)) as Hread.
  rewrite Hr in Hread. split; [exact Hr|exact Hread].
Defined.

Lemma delivery_takes_its_place_witness :
  (forall k v, cs_settings demo_snapshot !! k = Some v ->
    exists x, ec_settings (effective demo_sentence demo_running) !! k = Some x /\
      (es_value x = Some (trim v) /\ es_source x = Server \/ es_status x <> Applied)) /\
  raw demo_running "concurrency" = Some "4".
Proof.
  pose proof (delivery_takes_its_place demo_sentence demo_env demo_specs (from_env demo_env demo_specs) demo_snapshot ∅
    demo_specs_ok demo_specs_nodup (runs_start _ _)) as [Hv Hr].
  split; [exact Hr|].
  exact (eq_trans (Hv demo_concurrency ltac:(left)) ltac:(vm_compute; reflexivity)).
Defined.

Lemma tunables_are_what_is_reported_witness :
  raw demo_running "priority" = Some "3000000000" /\
  from_settings demo_running = mkTunables [] 0 4 30 (Some 10800%Z).
Proof.
  split; [by vm_compute|].
  pose proof (tunables_are_what_is_reported demo_env [] demo_running demo_specs_ok demo_specs_nodup demo_reached)
    as (c & p & i & t & Hc & Hp & Hi & Ht & _ & ->).
  assert (integer_setting demo_running "concurrency" = Some 4%Z) as E1 by (vm_compute; reflexivity).
  assert (integer_setting demo_running "priority" = Some 3000000000%Z) as E2 by (vm_compute; reflexivity).
  assert (duration_setting demo_running "poll_interval" = Some 30%Z) as E3 by (vm_compute; reflexivity).
  assert (duration_setting demo_running "build_timeout" = Some 10800%Z) as E4 by (vm_compute; reflexivity).
  rewrite E1 in Hc. rewrite E2 in Hp. rewrite E3 in Hi. rewrite E4 in Ht.
  injection Hc as <-. injection Hp as <-. injection Hi as <-. injection Ht as <-. vm_compute. reflexivity.
Defined.
