(* ===== verification/Version.v ===== *)
(** * Version constraints and dependency strings

    [backend/aurcache-deps/src/version.rs] and [deps.rs]. Parsing a version
    and comparing it with one bound is [alpm_types]'s, a third-party crate: a
    parameter, [Alpm]. *)
From S2P Require Import Prelude Text.
From Stdlib Require Import Ascii.
Open Scope string_scope.

(** What the code calls of [alpm_types]: [Version::from_str],
    [VersionRequirement::from_str] and [is_satisfied_by]. *)
Class Alpm := {
  AlpmVersion : Type;
  VersionRequirement : Type;
  version_from_str : string -> option AlpmVersion;
  requirement_from_str : string -> option VersionRequirement;
  is_satisfied_by : VersionRequirement -> AlpmVersion -> bool
}.

(** One element of the comma-joined constraint. *)
Definition bound_holds `{Alpm} (version : AlpmVersion) (bound : string) : bool :=
  let bound := trim bound in
  is_empty bound ||
  is_some_and (fun requirement => is_satisfied_by requirement version)
    (requirement_from_str bound).

Definition satisfies_constraint `{Alpm} (version constraint : string) : bool :=
  let constraint := trim constraint in
  if is_empty constraint then true
  else match version_from_str version with
       | None => false
       | Some version => forallb (bound_holds version) (split "," constraint)
       end.

(** ** [deps.rs] *)
Record Dependency := mkDependency {
  dep_name : string;
  dep_constraint : string
}.

Definition unversioned (name : string) : Dependency := mkDependency name "".

Definition is_operator (c : ascii) : bool :=
  match c with "<" | ">" | "=" => true | _ => false end%char.

Definition parse_dep (dep : string) : Dependency :=
  let dep := trim dep in
  match cut_at is_operator dep with
  | Some (name, constraint) => mkDependency (trim name) (trim constraint)
  | None => unversioned dep
  end.

(** [collect_unique_strings]: each value once, in the order first seen. *)
Fixpoint collect_unique (seen : gset string) (values : list string) : list string :=
  match values with
  | [] => []
  | v :: values =>
      if decide (v ∈ seen) then collect_unique seen values
      else v :: collect_unique ({[v]} ∪ seen) values
  end.

Definition collect_unique_strings (values : list string) : list string :=
  collect_unique ∅ values.

Record PackageLists := {
  pl_depends : list string;
  pl_make_depends : list string;
  pl_name : string;
  pl_provides : list string
}.

Record PkgDeps := mkPkgDeps {
  depends : list string;
  make_depends : list string;
  pkgnames : list string;
  pd_provides : list string
}.

(** [pkg_deps]: the union over a pkgbase's packages, each entry once. *)
Definition pkg_deps {P} (packages : list P) (lists : P -> PackageLists) : PkgDeps :=
  let ls := lists <$> packages in
  mkPkgDeps (collect_unique_strings (ls ≫= pl_depends))
            (collect_unique_strings (ls ≫= pl_make_depends))
            (collect_unique_strings (pl_name <$> ls))
            (collect_unique_strings (ls ≫= pl_provides)).

(** ** Lemmas *)

Section version.
Context `{Alpm}.

Lemma satisfies_unconstrained version constraint :
  trim constraint = "" -> satisfies_constraint version constraint = true.
Proof. unfold satisfies_constraint. by intros ->. Qed.

Lemma satisfies_constrained version constraint :
  trim constraint <> "" ->
  satisfies_constraint version constraint = true <->
  exists v, version_from_str version = Some v /\
    Forall (fun b => trim b = "" \/
              exists r, requirement_from_str (trim b) = Some r /\ is_satisfied_by r v = true)
      (split "," (trim constraint)).
Proof.
  unfold satisfies_constraint. intros Hne.
  destruct (trim constraint) as [|c s] eqn:Hs; [done|]. cbn [is_empty].
  destruct (version_from_str version) as [v|]; [|split; [done|intros (?&?&_); done]].
  rewrite <- Is_true_true, forallb_True. split.
  - intros Hf. exists v. split; [done|]. eapply Forall_impl; [done|].
    intros b. unfold bound_holds. destruct (trim b) eqn:Hb; simpl; [by left|]. right.
    destruct (requirement_from_str _) as [r|]; simpl in *; [|done].
    exists r. split; [done|]. by apply Is_true_true.
  - intros (v' & [= <-] & Hf). eapply Forall_impl; [done|].
    intros b [Hb|(r & Hr & Hsat)]; unfold bound_holds; [by rewrite Hb|].
    rewrite Hr. simpl. rewrite Hsat. by destruct (is_empty (trim b)).
Qed.
End version.

Lemma collect_unique_spec seen values :
  NoDup (collect_unique seen values) /\
  forall v, v ∈ collect_unique seen values <-> v ∈ values /\ v ∉ seen.
Proof.
  revert seen; induction values as [|w values IH]; intros seen; simpl.
  - split; [constructor|]. intros v. rewrite !elem_of_nil. tauto.
  - case_decide as Hw.
    + destruct (IH seen) as [Hnd Hin]. split; [done|]. intros v. rewrite Hin, elem_of_cons.
      naive_solver.
    + destruct (IH ({[w]} ∪ seen)) as [Hnd Hin]. split.
      * apply NoDup_cons. split; [|done]. rewrite Hin. set_solver.
      * intros v. rewrite !elem_of_cons, Hin. destruct (decide (v = w)); set_solver.
Qed.
