(* ===== verification/Satisfy.v ===== *)
(** * Which tracked package satisfies a dependency name

    [backend/aurcache-deps/src/satisfy.rs], the index of claims, and
    [backend/aurcache-utils/src/package/dependency_resolution.rs], what the tracked
    packages claim. *)
From S2P Require Import Prelude Text Lists Order Version.
From Stdlib Require Import Ascii.
Open Scope string_scope.
Open Scope list_scope.

(** Ordered as declared: the most direct first. *)
Inductive MatchKind := Name | Split | Provides.

Definition kind_rank (k : MatchKind) : Z :=
  match k with Name => 0 | Split => 1 | Provides => 2 end.

Record Match := mkMatch {
  pkgbase : string;
  kind : MatchKind;
  version : option string
}.

#[export] Instance MatchKind_eq_dec : EqDecision MatchKind.
Proof. solve_decision. Defined.
#[export] Instance Match_eq_dec : EqDecision Match.
Proof. solve_decision. Defined.

(** [Match::satisfies] *)
Definition satisfies `{Alpm} (m : Match) (constraint : string) : bool :=
  match version m with
  | Some version => satisfies_constraint version constraint
  | None => is_empty (trim constraint)
  end.

(** [SatisfyIndex], the field [by_name]. *)
Notation SatisfyIndex := (gmap string (list Match)).

(** [by_name.entry(name).or_default().push(..)] *)
Definition insert_match (name : string) (m : Match) (index : SatisfyIndex) : SatisfyIndex :=
  <[name := default [] (index !! name) ++ [m]]> index.

(** A [provides] entry: a bare name, or [name=version]. *)
Definition split_provide (provide : string) : string * option string :=
  match split_once "=" provide with
  | Some (provided, version) => (trim provided, Some (trim version))
  | None => (trim provide, None)
  end.

Definition insert_provide (pkgbase : string) (wanted : gset string)
    (index : SatisfyIndex) (provide : string) : SatisfyIndex :=
  let '(provided, provided_version) := split_provide provide in
  if decide (provided ∈ wanted)
  then insert_match provided (mkMatch pkgbase Provides provided_version) index
  else index.

Definition insert_package (name pkgbase : string) (version : option string)
    (provides : list string) (wanted : gset string) (index : SatisfyIndex) : SatisfyIndex :=
  let index :=
    if decide (name ∈ wanted) then
      insert_match name (mkMatch pkgbase (if decide (name = pkgbase) then Name else Split) version) index
    else index in
  foldl (insert_provide pkgbase wanted) index provides.

Definition match_cmp (left right : Match) : comparison :=
  then_with (Z.compare (kind_rank (kind left)) (kind_rank (kind right)))
            (str_cmp (pkgbase left) (pkgbase right)).

Definition best_match (index : SatisfyIndex) (name : string) (accept : Match -> bool) : option Match :=
  candidates ← index !! name;
  min_by match_cmp (filter (fun candidate => accept candidate = true) candidates).

(** ** The tracked packages *)

Record PackageCandidate := mkCandidate {
  name : string;
  split_packages : option (list string);
  provides : option (list string)
}.

(** One turn of [TrackedPackages::index]. *)
Definition insert_candidate (wanted : gset string) (index : SatisfyIndex)
    (candidate : PackageCandidate) : SatisfyIndex :=
  let index :=
    insert_package (name candidate) (name candidate) None
      (JsonList_entries (provides candidate)) wanted index in
  foldl (fun index split => insert_package split (name candidate) None [] wanted index)
    index (JsonList_entries (split_packages candidate)).

Definition index (candidates planned : list PackageCandidate) (wanted : gset string) : SatisfyIndex :=
  foldl (insert_candidate wanted) ∅ (candidates ++ planned).

(** ** What a package claims *)

(** [candidate] claims the name [n] with the match [m]: it carries the name, it splits
    into it, or one of its [provides] names it. *)
Inductive claims (candidate : PackageCandidate) : string -> Match -> Prop :=
| claims_name : claims candidate (name candidate) (mkMatch (name candidate) Name None)
| claims_provide p n v :
    p ∈ JsonList_entries (provides candidate) -> split_provide p = (n, v) ->
    claims candidate n (mkMatch (name candidate) Provides v)
| claims_split s :
    s ∈ JsonList_entries (split_packages candidate) ->
    claims candidate s (mkMatch (name candidate) (if decide (s = name candidate) then Name else Split) None).

#[export] Instance total_match : TotalCmp match_cmp.
Proof.
  apply (total_then (fun l r => Z.compare (kind_rank (kind l)) (kind_rank (kind r)))
                    (fun l r => str_cmp (pkgbase l) (pkgbase r))).
Qed.

Lemma match_cmp_eq l r : match_cmp l r = Eq <-> kind l = kind r /\ pkgbase l = pkgbase r.
Proof.
  unfold match_cmp. rewrite <- (str_cmp_eq (pkgbase l)).
  split; [|intros [-> ->]; by rewrite Z.compare_refl].
  destruct (kind l), (kind r); simpl; try done; by split.
Qed.

Lemma best_match_spec idx n accept m :
  best_match idx n accept = Some m ->
  m ∈ default [] (idx !! n) /\ accept m = true /\
  forall m', m' ∈ default [] (idx !! n) -> accept m' = true -> match_cmp m m' <> Gt.
Proof.
  unfold best_match. destruct (idx !! n) as [l|]; [|done]. simpl. intros Hm.
  pose proof (min_by_elem _ _ _ Hm) as [Ha Hin]%list_elem_of_filter.
  split_and!; [done|done|]. intros m' Hin' Ha'.
  apply (min_by_best _ _ _ _ Hm). by apply list_elem_of_filter.
Qed.

Lemma best_match_None idx n accept :
  best_match idx n accept = None <-> forall m, m ∈ default [] (idx !! n) -> accept m = false.
Proof.
  unfold best_match. destruct (idx !! n) as [l|]; simpl; [|split; [set_solver|done]].
  rewrite min_by_None. split.
  - intros Hf m Hm. destruct (accept m) eqn:Ha; [|done].
    assert (m ∈ filter (fun c => accept c = true) l) as Hc by by apply list_elem_of_filter.
    rewrite Hf in Hc. set_solver.
  - intros Hf. destruct (filter _ l) as [|m k] eqn:Hk; [done|].
    assert (m ∈ filter (fun c => accept c = true) l) as [Ha Hm]%list_elem_of_filter
      by (rewrite Hk; set_solver). specialize (Hf m Hm). congruence.
Qed.

(** ** What the index holds under a wanted name *)

Section index.
Context (wanted : gset string).

Lemma insert_match_elem idx n k m m' :
  m' ∈ default [] (insert_match k m idx !! n) <-> m' ∈ default [] (idx !! n) \/ k = n /\ m' = m.
Proof.
  unfold insert_match. destruct (decide (k = n)) as [->|Hne].
  - rewrite lookup_insert_eq. simpl. rewrite elem_of_app, list_elem_of_singleton. naive_solver.
  - rewrite lookup_insert_ne by done. naive_solver.
Qed.

Context (n : string) (Hn : n ∈ wanted).

Lemma insert_provides_elem base ps idx m :
  m ∈ default [] (foldl (insert_provide base wanted) idx ps !! n) <->
  m ∈ default [] (idx !! n) \/
  exists p v, p ∈ ps /\ split_provide p = (n, v) /\ m = mkMatch base Provides v.
Proof using Hn.
  revert idx. induction ps as [|p ps IH]; intros idx; simpl; [set_solver|].
  rewrite IH. unfold insert_provide. destruct (split_provide p) as [k v] eqn:Hp.
  assert (m ∈ default [] ((if decide (k ∈ wanted)
      then insert_match k (mkMatch base Provides v) idx else idx) !! n) <->
    m ∈ default [] (idx !! n) \/ k = n /\ m = mkMatch base Provides v) as ->.
  { destruct (decide (k ∈ wanted)); [apply insert_match_elem|].
    split; [by left|]. intros [?|[-> _]]; done. }
  setoid_rewrite elem_of_cons. split.
  - intros [[?|[-> ->]]|(q & w & ? & ? & ->)]; [by left|right; eauto 6|right; eauto 6].
  - intros [?|(q & w & [->|?] & Hq & ->)]; [by do 2 left| |right; eauto].
    left. right. rewrite Hp in Hq. by simplify_eq.
Qed.

Lemma insert_package_elem nm base v ps idx m :
  m ∈ default [] (insert_package nm base v ps wanted idx !! n) <->
  m ∈ default [] (idx !! n) \/
  nm = n /\ m = mkMatch base (if decide (nm = base) then Name else Split) v \/
  exists p w, p ∈ ps /\ split_provide p = (n, w) /\ m = mkMatch base Provides w.
Proof using Hn.
  unfold insert_package. rewrite insert_provides_elem.
  destruct (decide (nm ∈ wanted)).
  - rewrite insert_match_elem. tauto.
  - assert (nm <> n) by congruence. tauto.
Qed.

Lemma insert_candidate_elem c idx m :
  m ∈ default [] (insert_candidate wanted idx c !! n) <->
  m ∈ default [] (idx !! n) \/ claims c n m.
Proof using Hn.
  unfold insert_candidate.
  assert (forall ss idx, m ∈ default [] (foldl (fun i s =>
      insert_package s (name c) None [] wanted i) idx ss !! n) <->
    m ∈ default [] (idx !! n) \/ (n ∈ ss /\
      m = mkMatch (name c) (if decide (n = name c) then Name else Split) None)) as Hs.
  { induction ss as [|s ss IH]; intros i; simpl; [set_solver|].
    rewrite IH, insert_package_elem, elem_of_cons. split.
    - intros [[?|[[-> ->]|(p & w & []%elem_of_nil & _)]]|[? ->]]; auto.
    - intros [?|[[->|?] ->]]; auto. }
  rewrite Hs, insert_package_elem. clear Hs. split.
  - intros [[?|[[Hc ->]|(p & w & ? & ? & ->)]]|[? ->]]; [by left| | |].
    + right. pose proof (claims_name c) as Hcl. rewrite decide_True by done. by rewrite Hc in Hcl |- *.
    + right. by econstructor.
    + right. by constructor.
  - intros [?|Hc]; [by do 2 left|]. destruct Hc.
    + left. right. left. by rewrite decide_True.
    + left. right. right. eauto.
    + by right.
Qed.

Lemma index_elem candidates planned m :
  m ∈ default [] (index candidates planned wanted !! n) <->
  exists c, c ∈ candidates ++ planned /\ claims c n m.
Proof using Hn.
  unfold index. generalize (candidates ++ planned). intros l.
  assert (forall idx, m ∈ default [] (foldl (insert_candidate wanted) idx l !! n) <->
    m ∈ default [] (idx !! n) \/ exists c, c ∈ l /\ claims c n m) as ->;
    [|rewrite lookup_empty; set_solver].
  induction l as [|c l IH]; intros idx; simpl; [set_solver|].
  rewrite IH, insert_candidate_elem. setoid_rewrite elem_of_cons. split.
  - intros [[?|?]|(c' & ? & ?)]; [by left|right; eauto..].
  - intros [?|(c' & [->|?] & ?)]; [by do 2 left|by left; right|right; eauto].
Qed.
End index.

(** Among the tracked and the planned packages, the answer to a wanted name is the
    most direct claim the caller accepts -- the package's own name before a split
    package before a [provides] entry, and the least pkgbase among equals -- there is
    an answer whenever an acceptable claim exists, and neither the order of the rows
    nor which of them are only planned changes whom the name goes to. *)
Theorem tracked_match_is_best candidates planned wanted n accept :
  n ∈ wanted ->
  match best_match (index candidates planned wanted) n accept with
  | None => forall c m, c ∈ candidates ++ planned -> claims c n m -> accept m = false
  | Some m =>
      accept m = true /\ (exists c, c ∈ candidates ++ planned /\ claims c n m) /\
      forall c' m', c' ∈ candidates ++ planned -> claims c' n m' -> accept m' = true ->
        (kind_rank (kind m) < kind_rank (kind m'))%Z \/
        kind m = kind m' /\ str_cmp (pkgbase m) (pkgbase m') <> Gt
  end /\
  forall candidates' planned', candidates' ++ planned' ≡ₚ candidates ++ planned ->
    (pkgbase <$> best_match (index candidates' planned' wanted) n accept) =
    (pkgbase <$> best_match (index candidates planned wanted) n accept).
Proof.
  intros Hn. split.
  - destruct (best_match _ _ _) as [m|] eqn:Hm.
    + apply best_match_spec in Hm as (Hin & Ha & Hleast).
      apply index_elem in Hin; [|done]. split_and!; [done..|]. intros c' m' Hc' Hcl Ha'.
      specialize (Hleast m' ltac:(apply index_elem; eauto) Ha'). unfold match_cmp in Hleast.
      destruct (Z.compare_spec (kind_rank (kind m)) (kind_rank (kind m'))); simpl in *; [|by left|done].
      right. split; [|done]. by destruct (kind m), (kind m').
    + intros c m Hc Hcl. apply (proj1 (best_match_None _ _ _) Hm). apply index_elem; eauto.
  - intros candidates' planned' Hperm.
    assert (forall m, m ∈ default [] (index candidates' planned' wanted !! n) <->
      m ∈ default [] (index candidates planned wanted !! n)) as Heq.
    { intros m. rewrite !index_elem by done. by setoid_rewrite Hperm. }
    destruct (best_match (index candidates' _ _) _ _) as [m|] eqn:Hm,
      (best_match (index candidates _ _) _ _) as [k|] eqn:Hk; try done; simpl.
    + apply best_match_spec in Hm as (Hm & Hma & Hm'), Hk as (Hk & Hka & Hk').
      f_equal. apply (match_cmp_eq m k).
      pose proof (Hm' k ltac:(by apply Heq) Hka) as H1.
      pose proof (Hk' m ltac:(by apply Heq) Hma) as H2.
      rewrite (cmp_opp match_cmp m k) in H2. by destruct (match_cmp m k).
    + exfalso. apply best_match_spec in Hm as (Hm & Hma & _).
      pose proof (proj1 (best_match_None _ _ _) Hk m ltac:(by apply Heq)). congruence.
    + exfalso. apply best_match_spec in Hk as (Hk & Hka & _).
      pose proof (proj1 (best_match_None _ _ _) Hm k ltac:(by apply Heq)). congruence.
Qed.

(** [git] of a set where one package provides it and another splits into it. *)
Definition git_git := mkCandidate "git-git" None (Some ["git=2.4"]).
Definition git_tools := mkCandidate "git-tools" (Some ["git"; "gitk"]) None.

Lemma tracked_match_is_best_witness :
  best_match (index [git_git] [git_tools] {["git"]}) "git" (fun _ => true) =
    Some (mkMatch "git-tools" Split None) /\
  (pkgbase <$> best_match (index [git_tools] [git_git] {["git"]}) "git" (fun _ => true)) =
  (pkgbase <$> best_match (index [git_git] [git_tools] {["git"]}) "git" (fun _ => true)).
Proof.
  split; [by vm_compute|].
  apply (tracked_match_is_best [git_git] [git_tools] {["git"]} "git" (fun _ => true));
    [by apply elem_of_singleton|]. simpl. constructor.
Defined.
