(* ===== verification/Resolve.v ===== *)
(** * Resolving dependencies

    [backend/aurcache-deps/src/client.rs]: what a package depends on is asked of the
    official repositories, of what AURCache tracks and of the AUR, in that order, and
    no source is asked about a name an earlier one answered. The network, URLs and
    JSON are third-party crates': a parameter, [Web]. *)
From S2P Require Import Prelude Text Order Version Satisfy.
From Stdlib Require Import Ascii.
Open Scope string_scope.
Open Scope list_scope.

(** ** [model.rs] *)

(** What of an AUR package the code below reads. *)
Record Package := mkPackage {
  pkg_name : string;
  package_base : string;
  num_votes : Z;
  pkg_depends : option (list string);
  pkg_make_depends : option (list string);
  pkg_provides : option (list string)
}.

Record PackageResponse := mkPackageResponse {
  response_type : string;
  response_error : option string;
  results : list Package
}.

Inductive DependencyResolution :=
| Available
| Local (pkgbase : string)
| Aur (pkgbase : string).

Record Resolutions := mkResolutions {
  found : gmap string DependencyResolution;
  unresolved : list string
}.

(** A response as [reqwest] hands it over: the length it announces and the chunks
    that arrive, of which one may be the error it breaks off with. *)
Record Response (http_error : Type) := mkResponse {
  content_length : option Z;
  chunks : list (result http_error string)
}.
Arguments mkResponse {_} _ _.
Arguments content_length {_} _.
Arguments chunks {_} _.

(** [url], [reqwest] and [serde_json]. [send u n] is what the [n]th request for [u]
    ends with, after [error_for_status]. *)
Class Web := {
  url : Type;
  url_error : Type;
  http_error : Type;
  json_error : Type;
  url_parse : string -> result url_error url;
  append_pair : url -> string -> string -> url;
  push_segment : url -> string -> option url;
  clear_query : url -> url;
  query_pairs : url -> list (string * string);
  url_length : url -> Z;
  status : http_error -> option Z;
  error_url : http_error -> option url;
  with_url : http_error -> url -> http_error;
  send : url -> nat -> result http_error (Response http_error);
  from_slice : string -> result json_error PackageResponse
}.

(** ** [deps_from_packages] *)
Definition package_lists (pkg : Package) : PackageLists := {|
  pl_depends := default [] (pkg_depends pkg);
  pl_make_depends := default [] (pkg_make_depends pkg);
  pl_name := pkg_name pkg;
  pl_provides := default [] (pkg_provides pkg)
|}.

Definition deps_from_packages (packages : list Package) : PkgDeps :=
  pkg_deps packages package_lists.

(** ** [ProviderRank] *)

Definition VCS_SUFFIXES : list string := ["-git"; "-svn"; "-hg"; "-bzr"; "-cvs"; "-darcs"].

Definition is_vcs_pkgbase (pkgbase : string) : bool :=
  existsb (fun suffix => ends_with suffix pkgbase) VCS_SUFFIXES.

Record ProviderRank := mkProviderRank {
  named_otherwise : bool;
  vcs : bool;
  votes : Z;
  rank_pkgbase : string
}.

Definition rank_of (package : Package) (dep_name : string) : ProviderRank := {|
  named_otherwise := bool_decide (pkg_name package <> dep_name);
  vcs := is_vcs_pkgbase (package_base package);
  votes := num_votes package;
  rank_pkgbase := package_base package
|}.

(** The derived [Ord]: the fields in order, the votes [Reverse]d. *)
Definition rank_cmp (a b : ProviderRank) : comparison :=
  then_with (bool_cmp (named_otherwise a) (named_otherwise b))
    (then_with (bool_cmp (vcs a) (vcs b))
      (then_with (Z.compare (votes b) (votes a))
        (str_cmp (rank_pkgbase a) (rank_pkgbase b)))).

(** ** [Evidence] *)

Record Evidence := mkEvidence {
  official : bool;
  tracked : option string;
  aur : option string
}.

Definition no_evidence : Evidence := mkEvidence false None None.

Definition outcome (e : Evidence) : option DependencyResolution :=
  if official e then Some Available
  else match tracked e with
       | Some pkgbase => Some (Local pkgbase)
       | None => match aur e with Some pkgbase => Some (Aur pkgbase) | None => None end
       end.

Record Lookup := mkLookup { lookup_dep : Dependency; evidence : Evidence }.

Definition set_evidence (f : Evidence -> Evidence) (l : Lookup) : Lookup :=
  mkLookup (lookup_dep l) (f (evidence l)).
Definition set_tracked (t : option string) (e : Evidence) : Evidence :=
  mkEvidence (official e) t (aur e).
Definition set_aur (a : option string) (e : Evidence) : Evidence :=
  mkEvidence (official e) (tracked e) a.

Definition undecided (l : Lookup) : Prop := outcome (evidence l) = None.
#[export] Instance undecided_dec l : Decision (undecided l).
Proof. unfold undecided. destruct (outcome (evidence l)); [by right|by left]. Defined.

(** [for lookup in undecided(&mut lookups)], where [f] may fail. *)
Definition for_undecided {E} (f : Lookup -> result E Lookup) (lookups : list Lookup)
  : result E (list Lookup) :=
  collect_results (fun l => if decide (undecided l) then f l else Ok l) lookups.

(** [deps.iter().filter(|dep| seen.insert(dep.name))] *)
Fixpoint first_named (seen : gset string) (deps : list Dependency) : list Dependency :=
  match deps with
  | [] => []
  | dep :: deps =>
      if decide (dep_name dep ∈ seen) then first_named seen deps
      else dep :: first_named ({[dep_name dep]} ∪ seen) deps
  end.

(** The last loop: one name filed under [found] or [unresolved]. *)
Definition file_lookup (r : Resolutions) (l : Lookup) : Resolutions :=
  match outcome (evidence l) with
  | Some resolution =>
      mkResolutions (<[dep_name (lookup_dep l) := resolution]> (found r)) (unresolved r)
  | None => mkResolutions (found r) (unresolved r ++ [dep_name (lookup_dep l)])
  end.

Definition MAX_RPC_URL_BYTES : Z := 7600.
(** [retry_policy]'s [with_max_times]: how often a request is repeated. *)
Definition MAX_TIMES : nat := 3.

Section client.
Context `{Web}.

Inductive Error :=
| Rpc (message : string)
| Http (error : http_error)
| Body (received : Z) (expected : option Z) (source : http_error)
| BadUrl (error : url_error)
| Json (error : json_error)
| OfficialReposUnread.

(** ** Requests *)

Definition is_transient (error : http_error) : bool :=
  match status error with
  | Some status => ((500 <=? status) && (status <? 600) || (status =? 429))%Z
  | None => true
  end.

Definition without_query (error : http_error) : http_error :=
  match error_url error with
  | Some u => with_url error (clear_query u)
  | None => error
  end.

Fixpoint attempts (u : url) (n more : nat) : result http_error (Response http_error) :=
  match send u n with
  | Ok response => Ok response
  | Err e =>
      if is_transient e then
        match more with
        | O => Err e
        | S more => attempts u (S n) more
        end
      else Err e
  end.

Definition send_with_retry (u : url) : result http_error (Response http_error) :=
  match attempts u 0 MAX_TIMES with
  | Ok response => Ok response
  | Err e => Err (without_query e)
  end.

Definition retry_get (u : url) : result Error (Response http_error) :=
  match send_with_retry u with Ok response => Ok response | Err e => Err (Http e) end.

Fixpoint read_chunks (u : url) (expected : option Z) (body : string)
    (l : list (result http_error string)) : result Error string :=
  match l with
  | [] => Ok body
  | Ok chunk :: l => read_chunks u expected (body +:+ chunk) l
  | Err error :: _ =>
      Err (Body (Z.of_nat (String.length body)) expected (without_query (with_url error u)))
  end.

Definition read_body (u : url) (response : Response http_error) : result Error string :=
  read_chunks u (content_length response) "" (chunks response).

Definition rpc_fetch (u : url) : result Error (list Package) :=
  response ← retry_get u;
  body ← read_body u response;
  match from_slice body with
  | Err e => Err (Json e)
  | Ok response =>
      if decide (response_type response = "error")
      then Err (Rpc (default "AUR RPC returned error" (response_error response)))
      else Ok (results response)
  end.

(** ** [AurClient], the fields [rpc_url] and [official.names] *)

Record AurClient := mkAurClient {
  rpc_url : string;
  official_names : option (list (gset string))
}.

Definition parse_url (s : string) : result Error url :=
  match url_parse s with Ok u => Ok u | Err e => Err (BadUrl e) end.

(** [query_pairs_mut().append_pair("arg[]", arg)] *)
Definition append_arg (u : url) (arg : string) : url := append_pair u "arg[]" arg.

Definition rpc_info_url (c : AurClient) (args : list string) : result Error url :=
  u ← parse_url (rpc_url c +:+ "/info"); Ok (foldl append_arg u args).

(** The loop of [rpc_info_urls]; [current] already holds [in_current] arguments. *)
Fixpoint info_urls_from (base : string) (urls : list url) (current : url) (in_current : nat)
    (args : list string) : result Error (list url) :=
  match args with
  | [] => Ok (if decide (0 < in_current) then urls ++ [current] else urls)
  | arg :: args =>
      let candidate := append_arg current arg in
      if decide (0 < in_current /\ (MAX_RPC_URL_BYTES < url_length candidate)%Z) then
        fresh ← parse_url base;
        info_urls_from base (urls ++ [current]) (append_arg fresh arg) 1 args
      else info_urls_from base urls candidate (S in_current) args
  end.

Definition rpc_info_urls (c : AurClient) (args : list string) : result Error (list url) :=
  let base := rpc_url c +:+ "/info" in
  current ← parse_url base;
  info_urls_from base [] current 0 args.

Definition rpc_search_url (c : AurClient) (query by_ : string) : result Error url :=
  u ← parse_url (rpc_url c +:+ "/search");
  match push_segment u query with
  | None => Err (Rpc "Invalid RPC search URL")
  | Some u => Ok (append_pair u "by" by_)
  end.

Definition rpc_request (c : AurClient) (args : list string) : result Error (list Package) :=
  u ← rpc_info_url c args;
  packages ← rpc_fetch u;
  if decide (packages = []) then Err (Rpc "package not found via RPC") else Ok packages.

Definition deps_of (c : AurClient) (pkgbase : string) : result Error PkgDeps :=
  packages ← rpc_request c [pkgbase]; Ok (deps_from_packages packages).

Definition info_of (c : AurClient) (name : string) : result Error (option Package) :=
  u ← rpc_info_url c [name]; packages ← rpc_fetch u; Ok (head packages).

Definition multi_info_of (c : AurClient) (names : list string) : result Error (list Package) :=
  urls ← rpc_info_urls c names;
  packages ← collect_results rpc_fetch urls;
  Ok (concat packages).

Definition resolve_bases (c : AurClient) (names : list string) : result Error (gmap string string) :=
  packages ← multi_info_of c names;
  Ok (collect_map ((fun pkg => (pkg_name pkg, package_base pkg)) <$> packages)).

Definition search_by_name (c : AurClient) (query : string) : result Error (list Package) :=
  u ← rpc_search_url c query "name-desc"; rpc_fetch u.

Definition aur_providers (c : AurClient) (dep_name : string) : result Error (list Package) :=
  u ← rpc_search_url c dep_name "provides";
  packages ← rpc_fetch u;
  Ok (sort_by (fun a b => rank_cmp (rank_of a dep_name) (rank_of b dep_name)) packages).

Definition aur_provider_pkgbase (c : AurClient) (dep_name : string) : result Error (option string) :=
  packages ← aur_providers c dep_name; Ok (package_base <$> head packages).

(** [OfficialRepos::holds] *)
Definition holds (c : AurClient) (name : string) : result Error bool :=
  match official_names c with
  | Some held => Ok (existsb (fun database => bool_decide (name ∈ database)) held)
  | None => Err OfficialReposUnread
  end.

(** What AURCache tracks, [preferred] first. *)
Definition best_tracked (index : SatisfyIndex) (preferred : gset string) (name : string) : option string :=
  pkgbase <$>
  match best_match index name (fun matched => bool_decide (pkgbase matched ∈ preferred)) with
  | Some m => Some m
  | None => best_match index name (fun _ => true)
  end.

(** ** [resolve_dependencies], source by source *)

Definition ask_official (c : AurClient) (l : Lookup) : result Error Lookup :=
  held ← holds c (dep_name (lookup_dep l));
  Ok (set_evidence (fun e => mkEvidence held (tracked e) (aur e)) l).

Definition ask_tracked (index : SatisfyIndex) (preferred : gset string) (l : Lookup) : Lookup :=
  if decide (undecided l)
  then set_evidence (set_tracked (best_tracked index preferred (dep_name (lookup_dep l)))) l
  else l.

Definition ask_exact (c : AurClient) (lookups : list Lookup) : result Error (list Lookup) :=
  let names := (fun l => dep_name (lookup_dep l)) <$> filter undecided lookups in
  if decide (names = []) then Ok lookups
  else
    bases ← resolve_bases c names;
    for_undecided (fun l => Ok (set_evidence (set_aur (bases !! dep_name (lookup_dep l))) l)) lookups.

Definition ask_provider (c : AurClient) (l : Lookup) : result Error Lookup :=
  base ← aur_provider_pkgbase c (dep_name (lookup_dep l));
  Ok (set_evidence (set_aur base) l).

Definition resolve_dependencies (c : AurClient) (deps : list Dependency)
    (index : SatisfyIndex) (preferred : gset string) : result Error Resolutions :=
  let lookups := (fun dep => mkLookup dep no_evidence) <$> first_named ∅ deps in
  lookups ← collect_results (ask_official c) lookups;
  lookups ← ask_exact c (ask_tracked index preferred <$> lookups);
  lookups ← for_undecided (ask_provider c) lookups;
  Ok (foldl file_lookup (mkResolutions ∅ []) lookups).

(** [dependency_resolution.rs]'s [resolve_dependencies]. *)
Definition resolve_tracked (c : AurClient) (candidates : list PackageCandidate)
    (deps : list Dependency) (planned : list PackageCandidate) (preferred : gset string)
  : result Error Resolutions :=
  let wanted := list_to_set (dep_name <$> deps) in
  resolve_dependencies c deps (Satisfy.index candidates planned wanted) preferred.

End client.

(** ** The order of providers *)

#[export] Instance total_rank : TotalCmp rank_cmp.
Proof.
  unfold rank_cmp. repeat apply total_then.
  - apply (total_on named_otherwise bool_cmp).
  - apply (total_on vcs bool_cmp).
  - apply (total_opp (fun a b => Z.compare (votes a) (votes b))).
  - apply (total_on rank_pkgbase str_cmp).
Qed.

(** ** Requests of the AUR *)

(** What the code relies on of [url]: a pair is appended to the query. *)
Class WebLaws `{Web} : Prop :=
  query_append u k v : query_pairs (append_pair u k v) = query_pairs u ++ [(k, v)].

Section requests.
Context `{Web}.

Definition info_query (base : url) (asked : list string) : url := foldl append_arg base asked.

(** A request the server can take: it asks something, and it is within the limit
    unless it asks about one name only. *)
Definition fits (base : url) (asked : list string) : Prop :=
  asked <> [] /\ (length asked = 1 \/ (url_length (info_query base asked) <= MAX_RPC_URL_BYTES)%Z).

Lemma info_query_snoc base g arg : append_arg (info_query base g) arg = info_query base (g ++ [arg]).
Proof. unfold info_query. by rewrite foldl_app. Qed.

Lemma info_urls_from_spec s base args groups g :
  parse_url s = Ok base -> Forall (fits base) groups -> (g <> [] -> fits base g) ->
  exists res, info_urls_from s (info_query base <$> groups) (info_query base g) (length g) args =
      Ok (info_query base <$> res) /\
    concat res = concat groups ++ g ++ args /\ Forall (fits base) res.
Proof.
  intros Hs. revert groups g. induction args as [|arg args IH]; intros groups g Hgs Hg; cbn [info_urls_from].
  - destruct g as [|x g]; cbn [length].
    + rewrite decide_False by lia. exists groups. by rewrite !app_nil_r.
    + rewrite decide_True by lia. exists (groups ++ [x :: g]).
      rewrite fmap_app, concat_app. simpl. rewrite !app_nil_r.
      split_and!; [done|done|]. rewrite Forall_app, Forall_singleton. split; [done|by apply Hg].
  - destruct (decide _) as [[Hlen Hmax]|Hroom].
    + rewrite Hs. simpl. destruct (IH (groups ++ [g]) [arg]) as (res & Hres & Hc & Hf).
      * rewrite Forall_app, Forall_singleton. split; [done|]. apply Hg. by destruct g; simpl in *; [lia|].
      * intros _. split; [done|by left].
      * rewrite fmap_app in Hres. exists res. split_and!; [exact Hres| |done].
        rewrite Hc, concat_app. simpl. by rewrite app_nil_r, <- app_assoc.
    + rewrite info_query_snoc. destruct (IH groups (g ++ [arg]) Hgs) as (res & Hres & Hc & Hf).
      * intros _. split; [by destruct g|]. rewrite length_app. simpl. rewrite info_query_snoc in Hroom.
        destruct g; [by left|right]. simpl in Hroom. destruct (decide (url_length (info_query base ((s0 :: g) ++ [arg])) <= MAX_RPC_URL_BYTES)%Z); [done|].
        exfalso. apply Hroom. simpl in *. lia.
      * rewrite length_app, Nat.add_1_r in Hres. exists res. split_and!; [exact Hres| |done].
        by rewrite Hc, <- app_assoc.
Qed.

Lemma rpc_info_urls_spec c base args :
  url_parse (rpc_url c +:+ "/info") = Ok base ->
  exists groups, rpc_info_urls c args = Ok (info_query base <$> groups) /\
    concat groups = args /\ Forall (fits base) groups.
Proof.
  intros Hb. assert (parse_url (rpc_url c +:+ "/info") = Ok base) as Hp by (unfold parse_url; by rewrite Hb).
  unfold rpc_info_urls. rewrite Hp. simpl.
  by apply (info_urls_from_spec _ base args [] [] Hp).
Qed.

Lemma query_info_query `{!WebLaws} base asked :
  query_pairs (info_query base asked) = query_pairs base ++ ((fun n => ("arg[]", n)) <$> asked).
Proof.
  unfold info_query. revert base. induction asked as [|n asked IH]; intros base; simpl.
  - by rewrite app_nil_r.
  - rewrite IH. unfold append_arg. by rewrite query_append, <- app_assoc.
Qed.
End requests.

(** An [/info] query over any number of names goes out as requests that together
    ask about each name exactly once and in order; none is empty, and each is within
    [MAX_RPC_URL_BYTES] unless the one name it asks about is alone over it. *)
Theorem info_requests_cover `{WebLaws} c base names :
  url_parse (rpc_url c +:+ "/info") = Ok base -> query_pairs base = [] ->
  exists urls, rpc_info_urls c names = Ok urls /\
    urls ≫= query_pairs = (fun n => ("arg[]", n)) <$> names /\
    Forall (fun u => query_pairs u <> [] /\
      (length (query_pairs u) = 1 \/ (url_length u <= MAX_RPC_URL_BYTES)%Z)) urls.
Proof.
  intros Hb Hq. destruct (rpc_info_urls_spec c base names Hb) as (groups & -> & <- & Hf).
  exists (info_query base <$> groups). split; [done|]. split.
  - clear Hf. induction groups as [|g groups IH]; [done|]. csimpl.
    by rewrite IH, query_info_query, Hq, fmap_app.
  - rewrite Forall_fmap. eapply Forall_impl; [exact Hf|]. intros g [Hne Hfit]. simpl.
    rewrite query_info_query, Hq, app_nil_l, length_fmap. split; [by destruct g|done].
Qed.

(** ** The reference: every source asked about every name *)

Section reference.
Context `{Web} (held : list (gset string)) (index : SatisfyIndex) (preferred : gset string)
  (catalogue : string -> option string) (providers : string -> list Package).

Definition best_provider (n : string) : option string :=
  package_base <$> min_by (fun a b => rank_cmp (rank_of a n) (rank_of b n)) (providers n).

Definition evidence_for (n : string) : Evidence :=
  mkEvidence (existsb (fun database => bool_decide (n ∈ database)) held)
    (best_tracked index preferred n)
    (match catalogue n with Some base => Some base | None => best_provider n end).

(** What a name resolves to, said without the code's bookkeeping. *)
Definition decision (n : string) : option DependencyResolution :=
  if decide (Exists (fun database => n ∈ database) held) then Some Available
  else match best_tracked index preferred n with
       | Some base => Some (Local base)
       | None =>
           match catalogue n with
           | Some base => Some (Aur base)
           | None => Aur <$> best_provider n
           end
       end.

Lemma outcome_decision n : outcome (evidence_for n) = decision n.
Proof.
  unfold outcome, evidence_for, decision. simpl.
  assert (existsb (fun database => bool_decide (n ∈ database)) held = true <->
    Exists (fun database => n ∈ database) held) as He.
  { rewrite existsb_exists, Exists_exists. setoid_rewrite bool_decide_eq_true.
    by setoid_rewrite list_elem_of_In. }
  destruct (existsb _ held); case_decide as Hd; [done|by destruct Hd; apply He| |].
  - by apply He in Hd.
  - destruct (best_tracked _ _ _), (catalogue n), (best_provider n); done.
Qed.

(** What the AUR answers: [/info] lists packages of its catalogue, every one asked
    about among them, and a search lists a name's providers. *)
Record aur_answers (c : AurClient) (base : url) : Prop := {
  aa_base : url_parse (rpc_url c +:+ "/info") = Ok base;
  aa_info asked : asked <> [] -> exists ps, rpc_fetch (info_query base asked) = Ok ps /\
    (forall p, p ∈ ps -> catalogue (pkg_name p) = Some (package_base p)) /\
    (forall n, n ∈ asked -> catalogue n <> None -> n ∈ pkg_name <$> ps);
  aa_search n : exists u, rpc_search_url c n "provides" = Ok u /\ rpc_fetch u = Ok (providers n)
}.

Context (c : AurClient) (base : url) (Haur : aur_answers c base).

Lemma multi_info_answers names :
  exists ps, multi_info_of c names = Ok ps /\
    (forall p, p ∈ ps -> catalogue (pkg_name p) = Some (package_base p)) /\
    (forall n, n ∈ names -> catalogue n <> None -> n ∈ pkg_name <$> ps).
Proof using Haur.
  destruct (rpc_info_urls_spec c base names (aa_base _ _ Haur)) as (groups & Hu & <- & Hf).
  unfold multi_info_of. rewrite Hu. simpl. clear Hu.
  assert (exists pss, collect_results rpc_fetch (info_query base <$> groups) = Ok pss /\
    (forall p, p ∈ concat pss -> catalogue (pkg_name p) = Some (package_base p)) /\
    (forall n, n ∈ concat groups -> catalogue n <> None -> n ∈ pkg_name <$> concat pss))
    as (pss & -> & Hs & Hc); [|by exists (concat pss)].
  induction Hf as [|g groups [Hg _] _ (pss & Hp & IHs & IHc)]; csimpl.
  - exists []. split_and!; [done|by intros p ?%elem_of_nil|by intros n ?%elem_of_nil].
  - destruct (aa_info _ _ Haur g Hg) as (ps & Hps & Hs & Hc).
    rewrite Hps. cbn [mbind result_bind]. rewrite Hp. exists (ps :: pss). split; [done|]. simpl. split.
    + intros p [?|?]%elem_of_app; auto.
    + intros n [?|?]%elem_of_app Hn; rewrite fmap_app, elem_of_app; auto.
Qed.

Lemma resolve_bases_answers names :
  exists m, resolve_bases c names = Ok m /\ forall n, n ∈ names -> m !! n = catalogue n.
Proof using Haur.
  destruct (multi_info_answers names) as (ps & Hps & Hs & Hc).
  unfold resolve_bases. rewrite Hps. simpl. eexists. split; [done|]. intros n Hn.
  destruct (collect_map _ !! n) as [b|] eqn:Hb.
  - apply collect_map_elem, list_elem_of_fmap in Hb as (p & [= -> ->] & Hp). by rewrite Hs.
  - destruct (catalogue n) as [b|] eqn:Hcat; [|done]. exfalso.
    destruct (collect_map_is_Some ((fun pkg => (pkg_name pkg, package_base pkg)) <$> ps) n) as [b' Hb'];
      [|congruence]. rewrite <- list_fmap_compose. apply Hc; [done|congruence].
Qed.

(** What is known of a dependency once each source has been asked in turn. *)
Definition after_official (d : Dependency) : Lookup :=
  mkLookup d (mkEvidence (official (evidence_for (dep_name d))) None None).
Definition after_tracked (d : Dependency) : Lookup := ask_tracked index preferred (after_official d).
Definition after_exact (d : Dependency) : Lookup :=
  if decide (undecided (after_tracked d))
  then set_evidence (set_aur (catalogue (dep_name d))) (after_tracked d) else after_tracked d.
Definition after_provider (d : Dependency) : Lookup :=
  if decide (undecided (after_exact d))
  then set_evidence (set_aur (best_provider (dep_name d))) (after_exact d) else after_exact d.

Lemma lookup_dep_tracked d : lookup_dep (after_tracked d) = d.
Proof. unfold after_tracked, ask_tracked. by case_decide. Qed.
Lemma lookup_dep_exact d : lookup_dep (after_exact d) = d.
Proof. unfold after_exact. case_decide; apply lookup_dep_tracked. Qed.
Lemma lookup_dep_provider d : lookup_dep (after_provider d) = d.
Proof. unfold after_provider. case_decide; apply lookup_dep_exact. Qed.

(** Asking only about what is open decides as asking about everything would. *)
Lemma outcome_after d : outcome (evidence (after_provider d)) = outcome (evidence_for (dep_name d)).
Proof.
  unfold after_provider, after_exact, after_tracked, ask_tracked, after_official, evidence_for, undecided.
  cbn. destruct (existsb _ held); cbn; [by repeat (rewrite decide_False by done; cbn)|].
  rewrite (decide_True (P := None = None)) by done. cbn.
  destruct (best_tracked _ _ _); cbn; [by repeat (rewrite decide_False by done; cbn)|].
  rewrite (decide_True (P := None = None)) by done. cbn.
  destruct (catalogue _); cbn; [by rewrite decide_False|by rewrite decide_True].
Qed.

Lemma ask_exact_answers ds : ask_exact c (after_tracked <$> ds) = Ok (after_exact <$> ds).
Proof using Haur.
  unfold ask_exact. set (names := (fun l => dep_name (lookup_dep l)) <$> _).
  assert (forall d, d ∈ ds -> undecided (after_tracked d) -> dep_name d ∈ names) as Hnames.
  { intros d Hd Hu. unfold names. apply list_elem_of_fmap. exists (after_tracked d).
    rewrite lookup_dep_tracked. split; [done|]. apply list_elem_of_filter. split; [done|].
    by apply list_elem_of_fmap_2. }
  destruct (decide (names = [])) as [Hnil|_].
  - f_equal. apply list_fmap_ext. intros i d Hd%list_elem_of_lookup_2.
    unfold after_exact. destruct (decide (undecided (after_tracked d))) as [Hu|]; [|done].
    specialize (Hnames d Hd Hu). rewrite Hnil in Hnames. by apply elem_of_nil in Hnames.
  - destruct (resolve_bases_answers names) as (m & -> & Hm). simpl. unfold for_undecided.
    rewrite (collect_results_ok _ (fun l => if decide (undecided l)
      then set_evidence (set_aur (m !! dep_name (lookup_dep l))) l else l)) by (intros l _; by case_decide).
    f_equal. rewrite <- list_fmap_compose. apply list_fmap_ext. intros i d Hd%list_elem_of_lookup_2.
    simpl. unfold after_exact. destruct (decide (undecided (after_tracked d))) as [Hu|]; [|done].
    by rewrite lookup_dep_tracked, Hm by auto.
Qed.

Lemma ask_provider_answers l :
  ask_provider c l = Ok (set_evidence (set_aur (best_provider (dep_name (lookup_dep l)))) l).
Proof using Haur.
  unfold ask_provider, aur_provider_pkgbase, aur_providers.
  destruct (aa_search _ _ Haur (dep_name (lookup_dep l))) as (u & -> & Hu). simpl.
  rewrite Hu. simpl. by rewrite head_sort_by.
Qed.

Lemma lookups_answered ds :
  official_names c = Some held ->
  (lookups ← collect_results (ask_official c) ((fun dep => mkLookup dep no_evidence) <$> ds);
   lookups ← ask_exact c (ask_tracked index preferred <$> lookups);
   for_undecided (ask_provider c) lookups) = Ok (after_provider <$> ds).
Proof using Haur.
  intros Hheld. rewrite (collect_results_ok _ (fun l => after_official (lookup_dep l))).
  - cbn [mbind result_bind].
    replace (ask_tracked _ _ <$> _) with (after_tracked <$> ds) by by rewrite <- !list_fmap_compose.
    rewrite ask_exact_answers. cbn [mbind result_bind]. unfold for_undecided. rewrite (collect_results_ok _ (fun l => if decide (undecided l)
      then set_evidence (set_aur (best_provider (dep_name (lookup_dep l)))) l else l))
      by (intros l _; case_decide; [apply ask_provider_answers|done]).
    rewrite <- list_fmap_compose. f_equal. apply list_fmap_ext. intros i d _. simpl.
    unfold after_provider. by rewrite lookup_dep_exact.
  - intros l (d & -> & _)%list_elem_of_fmap. unfold ask_official, holds. by rewrite Hheld.
Qed.
End reference.

(** ** Filing the lookups *)

Lemma first_named_names seen deps :
  dep_name <$> first_named seen deps = collect_unique seen (dep_name <$> deps).
Proof.
  revert seen. induction deps as [|d deps IH]; intros seen; [done|]. csimpl.
  case_decide; csimpl; by rewrite IH.
Qed.

Lemma file_lookups (o : string -> option DependencyResolution) r ls :
  (forall l, l ∈ ls -> outcome (evidence l) = o (dep_name (lookup_dep l))) ->
  let names := (fun l => dep_name (lookup_dep l)) <$> ls in
  (forall n, found (foldl file_lookup r ls) !! n =
    if decide (n ∈ names /\ o n <> None) then o n else found r !! n) /\
  unresolved (foldl file_lookup r ls) = unresolved r ++ filter (fun n => o n = None) names.
Proof.
  revert r. induction ls as [|l ls IH]; intros r Ho names.
  { split; [|by rewrite app_nil_r]. intros n. by rewrite decide_False by (intros [[]%elem_of_nil _]). }
  assert (outcome (evidence l) = o (dep_name (lookup_dep l))) as Hl by apply Ho, list_elem_of_here.
  destruct (IH (file_lookup r l)) as [IHf IHu]; [intros k Hk; by apply Ho, list_elem_of_further|].
  subst names. cbn [foldl]. csimpl. set (k := dep_name (lookup_dep l)) in *. split.
  - intros n. rewrite IHf. unfold file_lookup. rewrite Hl. fold k.
    destruct (decide (n = k)) as [->|Hne].
    + destruct (o k) eqn:Hk; simpl.
      * rewrite (decide_True (P := k ∈ k :: _ /\ _)) by (split; [left|done]).
        case_decide; [done|]. by rewrite lookup_insert_eq.
      * rewrite !decide_False by (intros [_ []]; done). done.
    + assert (found match o k with
        | Some resolution => mkResolutions (<[k := resolution]> (found r)) (unresolved r)
        | None => mkResolutions (found r) (unresolved r ++ [k]) end !! n = found r !! n) as ->.
      { destruct (o k); simpl; [by rewrite lookup_insert_ne|done]. }
      apply decide_ext. rewrite elem_of_cons. naive_solver.
  - rewrite IHu. unfold file_lookup. rewrite Hl. fold k. rewrite filter_cons.
    destruct (o k) eqn:Hk; simpl; [done|]. by rewrite <- app_assoc.
Qed.

(** C38. Once the official databases have been read and the AUR answers, resolving
    always succeeds, and its answer for each name is the one all sources together give
    when every source is asked about every name: the official repositories before
    what is tracked (a preferred package first), before the AUR package of that name,
    before the best one providing it. Every name ends up either found or reported as
    unresolved, once and in the order declared. Before the databases have been read,
    resolving anything fails. *)
Theorem resolution_by_precedence `{Web} c deps index preferred catalogue providers base :
  aur_answers catalogue providers c base ->
  match official_names c with
  | None => deps <> [] -> resolve_dependencies c deps index preferred = Err OfficialReposUnread
  | Some held =>
      let decided := decision held index preferred catalogue providers in
      exists r, resolve_dependencies c deps index preferred = Ok r /\
        (forall n, found r !! n = if decide (n ∈ dep_name <$> deps) then decided n else None) /\
        unresolved r = filter (fun n => decided n = None) (collect_unique_strings (dep_name <$> deps))
  end.
Proof.
  intros Haur. destruct (official_names c) as [held|] eqn:Hheld.
  - intros decided. set (ds := first_named ∅ deps).
    pose proof (lookups_answered held index preferred catalogue providers c base Haur ds Hheld) as Hls.
    set (ls := after_provider held index preferred catalogue providers <$> ds) in *.
    exists (foldl file_lookup (mkResolutions ∅ []) ls). split.
    { unfold resolve_dependencies. fold ds. revert Hls.
      destruct (collect_results _ _) as [k|]; [|done]. simpl.
      destruct (ask_exact _ _) as [k'|]; [|done]. simpl. by intros ->. }
    destruct (file_lookups decided (mkResolutions ∅ []) ls) as [Hf Hu].
    { intros l (d & -> & _)%list_elem_of_fmap. by rewrite outcome_after, outcome_decision, lookup_dep_provider. }
    assert ((fun l => dep_name (lookup_dep l)) <$> ls = collect_unique_strings (dep_name <$> deps)) as Hn.
    { unfold ls, collect_unique_strings. rewrite <- first_named_names, <- list_fmap_compose.
      apply list_fmap_ext. intros i d _. simpl. by rewrite lookup_dep_provider. }
    rewrite Hn in Hf, Hu. split; [|exact Hu]. intros n. rewrite Hf. simpl. rewrite lookup_empty.
    assert (n ∈ collect_unique_strings (dep_name <$> deps) <-> n ∈ dep_name <$> deps) as Hin.
    { unfold collect_unique_strings. rewrite (proj2 (collect_unique_spec _ _)). set_solver. }
    destruct (decide (n ∈ collect_unique_strings _ /\ _)) as [[Hc Hd]|Hno];
      [rewrite decide_True by (by apply Hin); done|].
    destruct (decide (n ∈ dep_name <$> deps)) as [Hd|]; [|done].
    destruct (decided n) eqn:He; [|done]. destruct Hno. by rewrite Hin.
  - intros Hne. unfold resolve_dependencies. destruct deps as [|d deps]; [done|]. simpl.
    unfold ask_official, holds. by rewrite Hheld.
Qed.

(** ** A catalogue of two packages *)

Definition stub_results (body : string) : list Package :=
  if decide (body = "info") then [mkPackage "yay" "yay" 2000 None None None]
  else if decide (body = "sh")
  then [mkPackage "dash-git" "dash-git" 90 None None None; mkPackage "mksh" "mksh" 12 None None None]
  else [].

#[export] Instance stub_web : Web := {|
  url := string * list (string * string);
  url_error := unit; http_error := Z; json_error := unit;
  url_parse := fun s => Ok (s, []);
  append_pair := fun u k v => (u.1, u.2 ++ [(k, v)]);
  push_segment := fun u s => Some (u.1, [("segment", s)]);
  clear_query := fun u => (u.1, []);
  query_pairs := snd;
  url_length := fun u =>
    foldr (fun p n => Z.of_nat (String.length p.2) + 7 + n)%Z (Z.of_nat (String.length u.1)) u.2;
  status := Some;
  error_url := fun _ => None;
  with_url := fun e _ => e;
  send := fun u n =>
    match n with
    | O => Err 502%Z
    | _ => Ok (mkResponse None
             (if ends_with "/info" u.1 then [Ok "in"; Ok "fo"]
              else match u.2 with (_, s) :: _ => [Ok s] | [] => [] end))
    end;
  from_slice := fun body =>
    Ok (mkPackageResponse "multiinfo" None (stub_results body))
|}.

#[export] Instance stub_web_laws : WebLaws.
Proof. by intros u k v. Qed.

Definition stub_client : AurClient := mkAurClient "https://aur/rpc/v5" (Some [{["glibc"]}; {["git"]}]).
Definition stub_catalogue (n : string) : option string := if decide (n = "yay") then Some "yay" else None.
Definition stub_base : url := ("https://aur/rpc/v5/info", []).

Lemma stub_info asked : info_query stub_base asked =
  ("https://aur/rpc/v5/info", (fun n => ("arg[]", n)) <$> asked).
Proof.
  unfold info_query, stub_base. change ((fun n => ("arg[]", n)) <$> asked) with ([] ++ ((fun n => ("arg[]", n)) <$> asked)).
  generalize (@nil (string * string)) as q. induction asked as [|n asked IH]; intros q; simpl.
  - by rewrite app_nil_r.
  - rewrite IH. simpl. by rewrite <- app_assoc.
Qed.

Lemma stub_answers : aur_answers stub_catalogue stub_results stub_client stub_base.
Proof.
  split; [done| |].
  - intros asked _. eexists. split; [by rewrite stub_info|]. split.
    + by intros p ->%list_elem_of_singleton.
    + intros n _ Hn. unfold stub_catalogue in Hn. case_decide as Hy; [|done]. rewrite Hy. by left.
  - intros n. by eexists.
Qed.

(** [git] is the official one's, [yay] the AUR's by name, [sh] its best provider's,
    and nobody has [nope]. *)
Lemma resolution_by_precedence_witness :
  exists r, resolve_dependencies stub_client
      (unversioned <$> ["sh"; "git"; "nope"; "yay"; "sh"; "tool"])
      (Satisfy.index [git_git; mkCandidate "tool" None None] [] {["git"; "tool"]}) ∅ = Ok r /\
    found r !! "git" = Some Available /\ found r !! "yay" = Some (Aur "yay") /\
    found r !! "sh" = Some (Aur "mksh") /\ found r !! "tool" = Some (Local "tool") /\
    unresolved r = ["nope"].
Proof.
  destruct (resolution_by_precedence stub_client (unversioned <$> ["sh"; "git"; "nope"; "yay"; "sh"; "tool"])
    (Satisfy.index [git_git; mkCandidate "tool" None None] [] {["git"; "tool"]}) ∅
    stub_catalogue stub_results _ stub_answers) as (r & Hr & Hf & Hu).
  exists r. rewrite !Hf, Hu. split_and!; [exact Hr|by vm_compute..].
Defined.

Lemma info_requests_cover_witness :
  exists urls, rpc_info_urls stub_client (replicate 400 "some-package-name") = Ok urls /\
    urls ≫= query_pairs = (fun n => ("arg[]", n)) <$> replicate 400 "some-package-name" /\
    Forall (fun u => query_pairs u <> [] /\
      (length (query_pairs u) = 1 \/ (url_length u <= MAX_RPC_URL_BYTES)%Z)) urls /\ length urls = 2.
Proof.
  destruct (info_requests_cover stub_client stub_base
    (replicate 400 "some-package-name") eq_refl eq_refl) as (urls & Hr & Hq & Hf).
  exists urls. split_and!; [done..|].
  assert (length <$> rpc_info_urls stub_client (replicate 400 "some-package-name") = Ok 2) as Hl
    by by vm_compute. rewrite Hr in Hl. by injection Hl.
Defined.
