(* ===== verification/BuildStatus.v ===== *)
(** * Build-row queries and the status a package shows

    [backend/aurcache-db/src/helpers/builds.rs]: the newest successful build,
    whether a dependency is satisfied, the pending build, and
    [refresh_package_status] -- the one way [packages.status] is written once a
    package has builds -- with the guarded [transition] every change of a
    build's status goes through. *)
From S2P Require Import Prelude BuildState Sql Schema Version.

(** ** Recency *)

(** [recency()]: [COALESCE(end_time, start_time)]. *)
Definition recency (b : builds.Model) : option Z :=
  match builds.end_time b with Some t => Some t | None => builds.start_time b end.

(** [ORDER BY recency() DESC, id DESC], the first row first. Where a build has
    no time at all the backends disagree on [NULL]; it sorts last here, as on
    SQLite. *)
Definition more_recent (a b : builds.Model) : Prop :=
  match recency a, recency b with
  | Some s, Some t => (t < s \/ s = t /\ builds.id b <= builds.id a)%Z
  | Some _, None => True
  | None, Some _ => False
  | None, None => (builds.id b <= builds.id a)%Z
  end.
#[export] Instance more_recent_dec a b : Decision (more_recent a b).
Proof. unfold more_recent. destruct (recency a), (recency b); apply _. Defined.

Definition on_platform (platform : option Platform) (b : builds.Model) : Prop :=
  match platform with Some p => builds.platform b = p | None => True end.
#[export] Instance on_platform_dec platform b : Decision (on_platform platform b).
Proof. unfold on_platform. destruct platform; apply _. Defined.

(** [newest_success_query], before the projection of one column. *)
Definition newest_success (l : list builds.Model) (pkg_id : Z) (platform : option Platform) :
    option builds.Model :=
  head (merge_sort more_recent
    (filter (fun b => builds.pkg_id b = pkg_id /\ builds.status b = Successful /\
                      on_platform platform b) l)).

Definition newest_success_query {A} (pkg_id : Z) (platform : option Platform)
    (column : builds.Model -> A) : DB (option A) :=
  query (fun d => column <$> newest_success (t_builds d) pkg_id platform).

(** An empty version means "not known". *)
Definition known_version (version : string) : option string :=
  if decide (version = "") then None else Some version.

Definition latest_successful_version (pkg_id : Z) (platform : option Platform) :
    DB (option string) :=
  row ← newest_success_query pkg_id platform builds.version;
  mret (row ≫= known_version).

(** [latest_successful_build_vcs_sources]: empty when nothing is recorded. *)
Definition latest_successful_build_vcs_sources (pkg_id : Z) (platform : option Platform) :
    DB (gmap string string) :=
  row ← newest_success_query pkg_id platform builds.vcs_sources;
  mret (default ∅ (mjoin row)).

Definition dependency_satisfied `{Alpm} (dependee_id : Z) (platform : Platform)
    (constraint : string) : DB bool :=
  version ← latest_successful_version dependee_id (Some platform);
  mret (is_some_and (fun version => satisfies_constraint version constraint) version).

(** The [for] loop of [dependencies_satisfied], with its early return. *)
Fixpoint dependencies_satisfied `{Alpm} (deps : list dependencies.Model) (platform : Platform) :
    DB bool :=
  match deps with
  | [] => mret true
  | dep :: deps =>
      ok ← dependency_satisfied (dependencies.dependee_id dep) platform
             (dependencies.version_constraint dep);
      if (ok : bool) then dependencies_satisfied deps platform else mret false
  end.

Definition pending_build (pkg_id : Z) (platform : Platform) : DB (option builds.Model) :=
  find_build_where (fun b => builds.pkg_id b = pkg_id /\ builds.platform b = platform /\
                             in_progress b).

(** An empty set clears the column rather than storing [{}]. *)
Definition record_build_vcs_sources (build_id : Z) (commits : gmap string string) : DB unit :=
  let recorded := if decide (commits = ∅) then None else Some commits in
  _ ← update_builds [builds.Set_vcs_sources recorded] (fun b => builds.id b = build_id);
  mret tt.

(** ** [combined_status] *)
Definition PRECEDENCE : list BuildState :=
  [Active; Publishing; Enqueued; WaitingForDeps; Failed; Successful].

(** [PRECEDENCE.iter().position(|s| s == state)]; every state is in it. *)
Definition rank (state : BuildState) : nat :=
  default 0 (fst <$> list_find (fun s => s = state) PRECEDENCE).

Definition combined_status (states : list BuildState) : option BuildState :=
  min_by_key rank states.

(** ** [refresh_package_status] *)

(** SQL's [MAX]: [NULL] over no rows. *)
Definition max_of (l : list Z) : option Z :=
  match l with [] => None | x :: l => Some (foldl Z.max x l) end.

(** The correlated subquery [newest_number]. *)
Definition newest_number (l : list builds.Model) (b : builds.Model) : option Z :=
  max_of (builds.number <$> filter (fun a => slot_key a = slot_key b) l).

(** The newest build of each platform: [(platform, status)]. *)
Definition newest (l : list builds.Model) (pkg_id : Z) : list (Platform * BuildState) :=
  (fun b => (builds.platform b, builds.status b)) <$>
    filter (fun b => builds.pkg_id b = pkg_id /\ newest_number l b = Some (builds.number b)) l.

(** What the package should show, from its builds and configured platforms. *)
Definition shown (l : list builds.Model) (pkg_id : Z) (configured : list Platform) :
    option BuildState :=
  combined_status (snd <$> filter (fun ps => ps.1 ∈ configured) (newest l pkg_id)).

Definition refresh_package_status (pkg_id : Z) : DB unit :=
  row ← query (fun d => packages.platforms <$>
                 head (filter (fun p => packages.id p = pkg_id) (t_packages d)));
  match row with
  | None => mret tt
  | Some platforms =>
      let configured := default [] platforms in
      newest ← query (fun d => newest (t_builds d) pkg_id);
      match combined_status (snd <$> filter (fun ps => ps.1 ∈ configured) newest) with
      | None => mret tt
      | Some status =>
          _ ← update_packages [packages.Set_status status] (fun p => packages.id p = pkg_id);
          mret tt
      end
  end.

Definition delete_build (build : builds.Model) : DB unit :=
  transaction (
    _ ← delete_build_row (builds.id build);
    _ ← refresh_package_status (builds.pkg_id build);
    mret (EndCommit tt)).

Inductive Transition := Moved | Unchanged.
#[export] Instance Transition_eq_dec : EqDecision Transition.
Proof. solve_decision. Defined.

(** [update] is given as the columns it sets along with the status and the
    guard it narrows the write to. *)
Definition transition (build : builds.Model) (from : list BuildState) (to : BuildState)
    (cols : list builds.col_expr) (guard : builds.Model -> Prop)
    `{!forall b, Decision (guard b)} : DB Transition :=
  transaction (
    rows ← update_builds (builds.Set_status to :: cols)
             (fun b => guard b /\ builds.id b = builds.id build /\ builds.status b ∈ from);
    if decide (rows = 0) then mret (EndRollback Unchanged)
    else
      _ ← refresh_package_status (builds.pkg_id build);
      mret (EndCommit Moved)).

(** [BuildRef { pkgbase, number }] *)
Record BuildRef := mkBuildRef { ref_pkgbase : string; ref_number : Z }.

Definition id_le (a b : builds.Model) : Prop := (builds.id a <= builds.id b)%Z.
#[export] Instance id_le_dec a b : Decision (id_le a b).
Proof. unfold id_le. apply _. Defined.

(** The inner join with [packages], in id order: a build whose package is gone
    is left out. *)
Definition build_refs (ids : list Z) : DB (list BuildRef) :=
  if decide (ids = []) then mret []
  else query (fun d =>
    merge_sort id_le (filter (fun b => builds.id b ∈ ids) (t_builds d)) ≫= fun b =>
      (fun p => mkBuildRef (packages.name p) (builds.number b)) <$>
        filter (fun p => packages.id p = builds.pkg_id b) (t_packages d)).

(** ** Sequential meaning

    What each query answers, and what [refresh_package_status] leaves, as
    functions of the database. *)

Definition successful_version (l : list builds.Model) (pkg_id : Z) (platform : Platform) :
    option string :=
  (builds.version <$> newest_success l pkg_id (Some platform)) ≫= known_version.

Definition dep_ready `{Alpm} (l : list builds.Model) (platform : Platform)
    (dep : dependencies.Model) : bool :=
  is_some_and (fun version => satisfies_constraint version (dependencies.version_constraint dep))
    (successful_version l (dependencies.dependee_id dep) platform).

Definition set_status_of (pkg_id : Z) (status : BuildState) (l : list packages.Model) :
    list packages.Model :=
  updated_packages [packages.Set_status status] (fun p => packages.id p = pkg_id) l.

Definition refreshed (pkg_id : Z) (d : database) : database :=
  match head (filter (fun p => packages.id p = pkg_id) (t_packages d)) with
  | None => d
  | Some p =>
      match shown (t_builds d) pkg_id (default [] (packages.platforms p)) with
      | None => d
      | Some status => with_packages (set_status_of pkg_id status (t_packages d)) d
      end
  end.

(** ** Lemmas *)

#[export] Instance more_recent_trans : Transitive more_recent.
Proof.
  intros a b c. unfold more_recent. destruct (recency a), (recency b), (recency c); lia.
Qed.
#[export] Instance more_recent_total : Total more_recent.
Proof. intros a b. unfold more_recent. destruct (recency a), (recency b); lia. Qed.

(** The newest success is a success, and none is more recent. *)
Lemma newest_success_spec l pkg_id platform b :
  newest_success l pkg_id platform = Some b ->
  (b ∈ l /\ builds.pkg_id b = pkg_id /\ builds.status b = Successful /\ on_platform platform b) /\
  forall c, c ∈ l -> builds.pkg_id c = pkg_id -> builds.status c = Successful ->
    on_platform platform c -> more_recent b c.
Proof.
  unfold newest_success. set (k := filter _ l).
  pose proof (StronglySorted_merge_sort more_recent k) as Hs.
  pose proof (merge_sort_Permutation more_recent k) as Hp.
  destruct (merge_sort more_recent k) as [|x m]; [done|]. intros [= ->].
  assert (b ∈ k) as Hb by (rewrite <- Hp; left).
  split.
  { unfold k in Hb. apply list_elem_of_filter in Hb as [(?&?&?) ?]. done. }
  intros c Hc H1 H2 H3. assert (c ∈ b :: m) as Hin.
  { rewrite Hp. apply list_elem_of_filter. auto. }
  apply StronglySorted_inv in Hs as [_ Hall]. apply elem_of_cons in Hin as [->|Hin].
  - destruct (total more_recent b b); done.
  - by apply (proj1 (Forall_forall _ _) Hall).
Qed.

Lemma newest_success_None l pkg_id platform :
  newest_success l pkg_id platform = None <->
  forall c, c ∈ l -> builds.pkg_id c = pkg_id -> builds.status c = Successful ->
    ~ on_platform platform c.
Proof.
  unfold newest_success. set (k := filter _ l).
  pose proof (merge_sort_Permutation more_recent k) as Hp.
  assert (head (merge_sort more_recent k) = None <-> k = []) as ->.
  { split; [|by intros ->]. destruct (merge_sort more_recent k) eqn:Hk; [|done].
    intros _. by symmetry; apply Permutation_nil_l. }
  unfold k. rewrite filter_nil_iff. split.
  - intros Hn c Hc ? ? ?. by apply (Hn c Hc).
  - intros Hn c Hc (?&?&?). by eapply Hn.
Qed.

Lemma rank_inj s t : rank s = rank t -> s = t.
Proof. by destruct s, t. Qed.

Lemma combined_status_spec states s :
  combined_status states = Some s <-> s ∈ states /\ forall t, t ∈ states -> rank s <= rank t.
Proof.
  unfold combined_status. split.
  - intros Hs. split; [by eapply min_by_key_elem|]. intros t. by apply min_by_key_le.
  - intros [Hs Hle]. destruct (min_by_key rank states) as [t|] eqn:Ht.
    + f_equal. apply rank_inj. apply (anti_symm Nat.le).
      * by apply (min_by_key_le _ _ _ _ Ht).
      * apply Hle. by eapply min_by_key_elem.
    + apply min_by_key_None in Ht as ->. by apply elem_of_nil in Hs.
Qed.

Lemma combined_status_None states : combined_status states = None <-> states = [].
Proof. apply min_by_key_None. Qed.

Lemma combined_status_elem (l k : list BuildState) :
  (forall s, s ∈ l <-> s ∈ k) -> combined_status l = combined_status k.
Proof.
  intros Hlk. destruct (combined_status k) as [s|] eqn:Hk.
  - apply combined_status_spec in Hk. apply combined_status_spec. setoid_rewrite Hlk. done.
  - apply combined_status_None in Hk as ->. apply combined_status_None.
    destruct l as [|x l]; [done|]. destruct (proj1 (elem_of_nil x)). apply Hlk. by left.
Qed.

#[export] Instance combined_status_perm : Proper ((≡ₚ) ==> (=)) combined_status.
Proof. intros l k Hp. apply combined_status_elem. intros s. by rewrite Hp. Qed.

Lemma foldl_max_ge l x : (x <= foldl Z.max x l)%Z /\ forall y, y ∈ l -> (y <= foldl Z.max x l)%Z.
Proof.
  revert x; induction l as [|y l IH]; intros x; simpl.
  - split; [lia|]. by intros y ?%elem_of_nil.
  - destruct (IH (Z.max x y)) as [H1 H2]. split; [lia|].
    intros z [->|Hz]%elem_of_cons; [lia|auto].
Qed.

Lemma foldl_max_elem l x : foldl Z.max x l = x \/ foldl Z.max x l ∈ l.
Proof.
  revert x; induction l as [|y l IH]; intros x; simpl; [by left|].
  destruct (IH (Z.max x y)) as [->|?]; [|right; by right].
  destruct (Z.max_spec x y) as [[_ ->]|[_ ->]]; [right; left|by left].
Qed.

Lemma max_of_spec l m : max_of l = Some m <-> m ∈ l /\ forall y, y ∈ l -> (y <= m)%Z.
Proof.
  destruct l as [|x l]; simpl.
  - split; [done|]. by intros [?%elem_of_nil _].
  - destruct (foldl_max_ge l x) as [Hx Hl]. split.
    + intros [= <-]. split.
      * destruct (foldl_max_elem l x) as [->|?]; [left|by right].
      * intros y [->|?]%elem_of_cons; auto.
    + intros [Hm Hle]. f_equal. apply (anti_symm Z.le).
      * apply Hle. destruct (foldl_max_elem l x) as [->|?]; [left|by right].
      * apply elem_of_cons in Hm as [->|?]; auto.
Qed.

(** The rows of one package. *)
Definition builds_of (pkg_id : Z) (l : list builds.Model) : list builds.Model :=
  filter (fun b => builds.pkg_id b = pkg_id) l.

Lemma newest_number_local l b :
  newest_number (builds_of (builds.pkg_id b) l) b = newest_number l b.
Proof.
  unfold newest_number, builds_of. rewrite list_filter_filter. do 2 f_equal.
  apply list_filter_iff. intros a. unfold slot_key.
  split; [by intros [? _]|]. intros Heq. split; [done|congruence].
Qed.

Lemma newest_local l pkg_id : newest (builds_of pkg_id l) pkg_id = newest l pkg_id.
Proof.
  unfold newest. f_equal. etrans; [apply list_filter_filter|].
  apply list_filter_iff. intros b. split.
  - intros [[Hp Hn] _]. subst. by rewrite newest_number_local in Hn.
  - intros [Hp Hn]. subst. by rewrite newest_number_local.
Qed.

Lemma shown_local l k pkg_id configured :
  builds_of pkg_id l = builds_of pkg_id k ->
  shown l pkg_id configured = shown k pkg_id configured.
Proof.
  intros Heq. unfold shown. by rewrite <- (newest_local l), <- (newest_local k), Heq.
Qed.

(** Only what a build is of and its status decide what is shown. *)
Lemma filter_fmap {A B} (f : A -> B) (P : B -> Prop) `{!forall y, Decision (P y)} (l : list A) :
  filter P (f <$> l) = f <$> filter (fun x => P (f x)) l.
Proof.
  induction l as [|x l IH]; [done|]. csimpl. rewrite !filter_cons, IH. by case_decide.
Qed.

Lemma shown_fmap (f : builds.Model -> builds.Model) l pkg_id configured :
  (forall b, number_key (f b) = number_key b /\ slot_key (f b) = slot_key b /\
             builds.status (f b) = builds.status b) ->
  shown (f <$> l) pkg_id configured = shown l pkg_id configured.
Proof.
  intros Hf. unfold shown. do 3 f_equal.
  assert (forall b, newest_number (f <$> l) (f b) = newest_number l b) as Hnum.
  { intros b. unfold newest_number. f_equal. rewrite filter_fmap, <- list_fmap_compose.
    rewrite (list_filter_iff _ (fun a => slot_key a = slot_key b)).
    - apply list_fmap_ext. intros i a _. destruct (Hf a) as [Hn _]. unfold number_key in Hn.
      by injection Hn.
    - intros a. destruct (Hf a) as (_ & -> & _). by destruct (Hf b) as (_ & -> & _). }
  unfold newest. rewrite filter_fmap, <- list_fmap_compose.
  rewrite (list_filter_iff _ (fun b => builds.pkg_id b = pkg_id /\
                                newest_number l b = Some (builds.number b))).
  - apply list_fmap_ext. intros i b _. destruct (Hf b) as (_ & Hs & Hst). simpl.
    unfold slot_key in Hs. injection Hs as _ ->. by rewrite Hst.
  - intros b. rewrite Hnum. destruct (Hf b) as (Hn & _). unfold number_key in Hn.
    by injection Hn as -> ->.
Qed.

Lemma run_refresh pkg_id d : run (refresh_package_status pkg_id) d = (Ok tt, refreshed pkg_id d).
Proof.
  unfold refresh_package_status, refreshed, mbind, sql_mbind.
  rewrite run_bind by apply _. rewrite run_query.
  destruct (head (filter _ (t_packages d))) as [p|]; [|done]. simpl.
  rewrite run_bind by apply _. rewrite run_query.
  unfold shown. destruct (combined_status _) as [s|]; [|done].
  rewrite run_bind by apply _. by rewrite run_update_packages.
Qed.

#[export] Instance refresh_transparent pkg_id : Transparent (refresh_package_status pkg_id).
Proof. unfold refresh_package_status. sql_class. Qed.
#[export] Instance refresh_steady pkg_id : Steady (refresh_package_status pkg_id).
Proof. unfold refresh_package_status. sql_class. Qed.

Lemma run_dependencies_satisfied `{Alpm} deps platform d :
  run (dependencies_satisfied deps platform) d =
    (Ok (forallb (dep_ready (t_builds d) platform) deps), d).
Proof.
  induction deps as [|dep deps IH]; [done|]. cbn [dependencies_satisfied forallb].
  assert (run (dependency_satisfied (dependencies.dependee_id dep) platform
            (dependencies.version_constraint dep)) d =
          (Ok (dep_ready (t_builds d) platform dep), d)) as Hdep by done.
  unfold mbind, sql_mbind. rewrite run_bind by apply _. rewrite Hdep.
  destruct (dep_ready (t_builds d) platform dep); simpl; [apply IH|done].
Qed.

#[export] Instance dependencies_satisfied_steady `{Alpm} deps platform :
  Steady (dependencies_satisfied deps platform).
Proof.
  intros d. induction deps as [|dep deps IH]; [done|]. simpl.
  unfold mbind, sql_mbind, sql_bind, dependency_satisfied, latest_successful_version. simpl.
  by destruct (is_some_and _ _).
Qed.
