(* ===== verification/Invariant.v ===== *)
(** * What holds of the database between transactions

    Three invariants, kept together as [Inv]: the keys and indexes ([wf]); the
    columns a build's status determines ([lifecycle_ok]: who holds it, whether
    it has a lease, an end, a size); and that every package shows what its
    builds add up to ([synced]). Inside a transaction that touches one
    package's builds, that package may disagree until it is refreshed:
    [Inv_except]. Every operation of the queue is one of the updates below. *)
From S2P Require Import Prelude BuildState Sql Schema BuildStatus.

Record wf (d : database) : Prop := {
  wf_indexes : builds_indexes (t_builds d);
  wf_packages : NoDup (packages.id <$> t_packages d);
  wf_owned : builds_owned d;
  wf_fresh : Forall (fun b => builds.id b < next_build_id d)%Z (t_builds d);
  wf_workers : NoDup (workers.id <$> t_workers d)
}.

(** The columns each state allows. *)
Definition lifecycle_ok (b : builds.Model) : Prop :=
  match builds.status b with
  | Enqueued | WaitingForDeps =>
      builds.worker_id b = None /\ builds.lease_expires_at b = None /\
      builds.end_time b = None /\ builds.end_reason b = None /\ builds.size b = None
  | Active =>
      is_Some (builds.worker_id b) /\ is_Some (builds.lease_expires_at b) /\
      is_Some (builds.start_time b) /\
      builds.end_time b = None /\ builds.end_reason b = None /\ builds.size b = None
  | Publishing =>
      is_Some (builds.worker_id b) /\ builds.lease_expires_at b = None /\
      builds.end_reason b = None /\
      (is_Some (builds.size b) <-> is_Some (builds.end_time b))
  | Successful =>
      is_Some (builds.worker_id b) /\ builds.lease_expires_at b = None /\
      builds.end_reason b = None /\
      is_Some (builds.size b) /\ is_Some (builds.end_time b)
  | Failed => builds.lease_expires_at b = None /\ is_Some (builds.end_time b)
  end.

Definition synced_at (d : database) (p : packages.Model) : Prop :=
  forall s, shown (t_builds d) (packages.id p) (default [] (packages.platforms p)) = Some s ->
            packages.status p = s.

Definition synced (d : database) : Prop := Forall (synced_at d) (t_packages d).

Record Inv (d : database) : Prop := {
  inv_wf : wf d;
  inv_lifecycle : Forall lifecycle_ok (t_builds d);
  inv_synced : synced d
}.

Record Inv_except (pkg_id : Z) (d : database) : Prop := {
  exc_wf : wf d;
  exc_lifecycle : Forall lifecycle_ok (t_builds d);
  exc_synced : Forall (fun p => packages.id p <> pkg_id -> synced_at d p) (t_packages d)
}.

(** ** Updates *)

Lemma inv_except_of pkg_id d : Inv d -> Inv_except pkg_id d.
Proof.
  intros [Hwf Hl Hs]. split; [done..|]. eapply Forall_impl; [done|]. auto.
Qed.

(** Whatever replaces the builds of one package leaves the others as shown. *)
Lemma exc_synced_builds pkg_id d l :
  (forall q, q <> pkg_id -> builds_of q l = builds_of q (t_builds d)) ->
  Forall (fun p => packages.id p <> pkg_id -> synced_at d p) (t_packages d) ->
  Forall (fun p => packages.id p <> pkg_id -> synced_at (with_builds l d) p)
    (t_packages (with_builds l d)).
Proof.
  intros Hl Hs. eapply Forall_impl; [done|]. intros p Hp Hne s. simpl.
  rewrite (shown_local l (t_builds d)) by auto. by apply Hp.
Qed.

Lemma builds_of_updated cols P `{!forall b, Decision (P b)} l pkg_id q :
  (forall b, b ∈ l -> P b -> builds.pkg_id b = pkg_id) -> q <> pkg_id ->
  builds_of q (updated cols P l) = builds_of q l.
Proof.
  intros HP Hq. unfold builds_of, updated. induction l as [|b l IH]; [done|].
  csimpl. rewrite !filter_cons.
  rewrite IH by (intros c Hc; apply HP; by right).
  destruct (decide (P b)) as [Hb|Hb]; [|done].
  assert (builds.pkg_id b = pkg_id) as Hpk by (apply HP; [left|done]).
  pose proof (assign_keys cols b) as (_ & Hk & _). unfold number_key in Hk.
  injection Hk as Hk _. rewrite !decide_False; [done|congruence..].
Qed.

Lemma wf_update d cols P `{!forall b, Decision (P b)} :
  wf d ->
  (forall b, b ∈ t_builds d -> P b -> in_progress (builds.assign cols b) -> in_progress b) ->
  wf (with_builds (updated cols P (t_builds d)) d).
Proof.
  intros [Hi Hp Ho Hf Hw] Hprog. split; simpl; [by apply updated_indexes|done| | |done].
  - apply Forall_forall. intros b (a & Ha & ->)%elem_of_updated.
    pose proof (proj1 (Forall_forall _ _) Ho a Ha). simpl. case_decide; [|done].
    pose proof (assign_keys cols a) as (_ & Hk & _). unfold number_key in Hk. congruence.
  - apply Forall_forall. intros b (a & Ha & ->)%elem_of_updated.
    pose proof (proj1 (Forall_forall _ _) Hf a Ha). simpl in *. case_decide; [|done].
    by rewrite assign_id.
Qed.

Lemma lifecycle_update d cols P `{!forall b, Decision (P b)} :
  Forall lifecycle_ok (t_builds d) ->
  (forall b, b ∈ t_builds d -> P b -> lifecycle_ok b -> lifecycle_ok (builds.assign cols b)) ->
  Forall lifecycle_ok (updated cols P (t_builds d)).
Proof.
  intros Hl Hlife. apply Forall_forall. intros b (a & Ha & ->)%elem_of_updated.
  pose proof (proj1 (Forall_forall _ _) Hl a Ha). case_decide; auto.
Qed.

Lemma inv_update pkg_id d cols P `{!forall b, Decision (P b)} :
  Inv_except pkg_id d ->
  (forall b, b ∈ t_builds d -> P b -> builds.pkg_id b = pkg_id) ->
  (forall b, b ∈ t_builds d -> P b -> in_progress (builds.assign cols b) -> in_progress b) ->
  (forall b, b ∈ t_builds d -> P b -> lifecycle_ok b -> lifecycle_ok (builds.assign cols b)) ->
  Inv_except pkg_id (with_builds (updated cols P (t_builds d)) d).
Proof.
  intros [Hwf Hl Hs] Hpkg Hprog Hlife. split.
  - by apply wf_update.
  - by apply lifecycle_update.
  - apply exc_synced_builds; [|done]. intros q Hq. by eapply builds_of_updated.
Qed.

(** A write that moves no row to another state leaves every package showing
    what it showed. *)
Lemma inv_update_quiet d cols P `{!forall b, Decision (P b)} :
  Inv d ->
  (forall b, builds.status (builds.assign cols b) = builds.status b) ->
  (forall b, b ∈ t_builds d -> P b -> lifecycle_ok b -> lifecycle_ok (builds.assign cols b)) ->
  Inv (with_builds (updated cols P (t_builds d)) d).
Proof.
  intros [Hwf Hl Hs] Hst Hlife. split.
  - apply wf_update; [done|]. intros b _ _. unfold in_progress. by rewrite Hst.
  - by apply lifecycle_update.
  - eapply Forall_impl; [exact Hs|]. intros p Hp s. simpl. unfold updated. rewrite shown_fmap.
    + apply Hp.
    + intros b. case_decide; [|done]. destruct (assign_keys cols b) as (_ & -> & ->). by rewrite Hst.
Qed.

Lemma inv_delete pkg_id d (id : Z) :
  Inv_except pkg_id d ->
  (forall b, b ∈ t_builds d -> builds.id b = id -> builds.pkg_id b = pkg_id) ->
  Inv_except pkg_id (with_builds (filter (fun b => builds.id b <> id) (t_builds d)) d).
Proof.
  intros [[[Hi Hn Hpd] Hp Ho Hf Hw] Hl Hs] Hpkg.
  set (l := filter _ (t_builds d)).
  assert (l `sublist_of` t_builds d) as Hsub by apply sublist_filter.
  split; [split; simpl| |].
  - split.
    + eapply sublist_NoDup; [exact Hi|]. by apply fmap_sublist.
    + eapply sublist_NoDup; [exact Hn|]. by apply fmap_sublist.
    + eapply sublist_NoDup; [exact Hpd|]. apply fmap_sublist. subst l.
      rewrite list_filter_filter.
      rewrite (list_filter_iff _ (fun b => builds.id b <> id /\ in_progress b)) by tauto.
      rewrite <- list_filter_filter. apply sublist_filter.
  - done.
  - by apply Forall_filter_of.
  - by apply Forall_filter_of.
  - done.
  - by apply Forall_filter_of.
  - apply exc_synced_builds; [|done]. intros q Hq. unfold builds_of, l.
    rewrite list_filter_filter. apply filter_ext_elem. intros b Hb. split; [tauto|].
    intros Hbq. split; [done|]. intros Hid. apply Hq. rewrite <- Hbq. by apply Hpkg.
Qed.

(** A row inserted under a fresh id, with a free number and a free slot. *)
Lemma inv_insert pkg_id d (row : builds.Model) :
  Inv_except pkg_id d ->
  builds.id row = next_build_id d ->
  builds.pkg_id row = pkg_id ->
  pkg_id ∈ (packages.id <$> t_packages d) ->
  builds_indexes (t_builds d ++ [row]) ->
  lifecycle_ok row ->
  Inv_except pkg_id (Database (t_builds d ++ [row]) (t_packages d) (t_workers d)
    (t_dependencies d) (t_files d) (next_build_id d + 1) (next_file_id d) (t_worker_settings d) (t_settings d)
    (next_worker_id d) (next_worker_setting_id d)
    (next_setting_id d) (t_vcs_sources d)).
Proof.
  intros [[Hi Hp Ho Hf Hw] Hl Hs] Hid Hpk Hown Hidx Hlife. split; [split; simpl| |]; try done.
  - unfold builds_owned. simpl. apply Forall_app_2; [done|]. apply Forall_singleton. by rewrite Hpk.
  - apply Forall_app_2.
    + eapply Forall_impl; [exact Hf|]. simpl. intros b Hb. lia.
    + apply Forall_singleton. lia.
  - simpl. apply Forall_app_2; [done|]. by apply Forall_singleton.
  - simpl. eapply Forall_impl; [exact Hs|]. intros p Hpp Hne s. simpl.
    rewrite (shown_local _ (t_builds d)); [by apply Hpp|].
    unfold builds_of. rewrite filter_app, filter_cons, decide_False by congruence.
    by rewrite app_nil_r.
Qed.

(** Columns of a package other than what it shows and is built for. *)
Lemma inv_packages pkg_id d cols P `{!forall p, Decision (P p)} :
  (forall p, packages.id (packages.assign cols p) = packages.id p) ->
  (forall p, packages.status (packages.assign cols p) = packages.status p) ->
  (forall p, packages.platforms (packages.assign cols p) = packages.platforms p) ->
  Inv_except pkg_id d -> Inv_except pkg_id (with_packages (updated_packages cols P (t_packages d)) d).
Proof.
  intros Hid Hst Hpl [[Hi Hp Ho Hf Hw] Hl Hs].
  assert (packages.id <$> updated_packages cols P (t_packages d) = packages.id <$> t_packages d)
    as Hids.
  { unfold updated_packages. rewrite <- list_fmap_compose. apply list_fmap_ext.
    intros _ p _. simpl. by case_decide. }
  split; [split; simpl| |]; try done.
  - by rewrite Hids.
  - unfold builds_owned. simpl. by rewrite Hids.
  - simpl. apply Forall_fmap. eapply Forall_impl; [exact Hs|]. intros p Hpp. simpl.
    unfold synced_at. simpl. case_decide; [|done]. by rewrite Hid, Hpl, Hst.
Qed.

(** ** Refreshing *)

Lemma set_status_ids pkg_id s l : packages.id <$> set_status_of pkg_id s l = packages.id <$> l.
Proof.
  unfold set_status_of, updated_packages. rewrite <- list_fmap_compose. apply list_fmap_ext.
  intros _ p _. simpl. by case_decide.
Qed.

Lemma refreshed_builds pkg_id d : t_builds (refreshed pkg_id d) = t_builds d.
Proof. unfold refreshed. repeat case_match; done. Qed.

Lemma refreshed_package_ids pkg_id d :
  packages.id <$> t_packages (refreshed pkg_id d) = packages.id <$> t_packages d.
Proof. unfold refreshed. repeat case_match; try done. apply set_status_ids. Qed.

Lemma refreshed_next pkg_id d : next_build_id (refreshed pkg_id d) = next_build_id d.
Proof. unfold refreshed. repeat case_match; done. Qed.

Lemma refreshed_workers pkg_id d : t_workers (refreshed pkg_id d) = t_workers d.
Proof. unfold refreshed. repeat case_match; done. Qed.

Lemma refreshed_dependencies pkg_id d : t_dependencies (refreshed pkg_id d) = t_dependencies d.
Proof. unfold refreshed. repeat case_match; done. Qed.

Lemma head_filter_package (l : list packages.Model) p :
  NoDup (packages.id <$> l) -> p ∈ l ->
  head (filter (fun q => packages.id q = packages.id p) l) = Some p.
Proof.
  induction l as [|q l IH]; csimpl; [by intros _ ?%not_elem_of_nil|].
  rewrite NoDup_cons. intros [Hq Hl] Hin. rewrite filter_cons.
  apply elem_of_cons in Hin as [->|Hp]; [by rewrite decide_True|].
  rewrite decide_False; [auto|]. intros Heq. apply Hq. rewrite Heq. by apply list_elem_of_fmap_2.
Qed.

(** The package refreshed shows what its builds add up to; the others are as
    they were. *)
Lemma inv_refresh pkg_id d : Inv_except pkg_id d -> Inv (refreshed pkg_id d).
Proof.
  intros [[Hi Hp Ho Hf Hw] Hl Hs]. split; [split| |].
  - by rewrite refreshed_builds.
  - by rewrite refreshed_package_ids.
  - unfold builds_owned. by rewrite refreshed_builds, refreshed_package_ids.
  - by rewrite refreshed_builds, refreshed_next.
  - by rewrite refreshed_workers.
  - by rewrite refreshed_builds.
  - rewrite Forall_forall in Hs.
    assert (forall p s, p ∈ t_packages d -> packages.id p = pkg_id ->
      shown (t_builds d) pkg_id (default [] (packages.platforms p)) = Some s ->
      refreshed pkg_id d = with_packages (set_status_of pkg_id s (t_packages d)) d) as Hset.
    { intros p s Hin <- Hshown. unfold refreshed. by rewrite head_filter_package, Hshown. }
    apply Forall_forall. intros p Hin s. rewrite refreshed_builds. intros Hshown.
    unfold refreshed in Hin. destruct (head (filter _ (t_packages d))) as [q|] eqn:Hq.
    2:{ apply (Hs p); [done| |done]. intros Hid.
        pose proof (head_filter_package _ p Hp Hin) as Hh. rewrite Hid in Hh. congruence. }
    assert (q ∈ t_packages d /\ packages.id q = pkg_id) as [Hq1 Hq2]
      by (by apply head_filter_elem in Hq as [??]).
    destruct (shown (t_builds d) pkg_id _) as [t|] eqn:Ht.
    + simpl in Hin. unfold set_status_of, updated_packages in Hin.
      apply list_elem_of_fmap in Hin as (r & -> & Hr).
      destruct (decide (packages.id r = pkg_id)) as [Hrid|Hrid]; simpl in *.
      * pose proof (head_filter_package _ r Hp Hr) as Hh. rewrite Hrid, Hq in Hh.
        injection Hh as ->. rewrite Hrid in Hshown. congruence.
      * by apply (Hs r Hr).
    + destruct (decide (packages.id p = pkg_id)) as [Hrid|Hrid]; [|by apply (Hs p Hin)].
      pose proof (head_filter_package _ p Hp Hin) as Hh. rewrite Hrid, Hq in Hh.
      injection Hh as ->. rewrite Hrid in Hshown. congruence.
Qed.

(** Refreshing what already agrees changes nothing. *)
Lemma refreshed_id pkg_id d : Inv d -> refreshed pkg_id d = d.
Proof.
  intros [[_ Hp _ _ _] _ Hs]. unfold refreshed, synced in *. rewrite Forall_forall in Hs.
  destruct (head (filter _ (t_packages d))) as [q|] eqn:Hq; [|done].
  assert (q ∈ t_packages d /\ packages.id q = pkg_id) as [Hq1 Hq2]
    by (by apply head_filter_elem in Hq as [??]).
  destruct (shown _ _ _) as [s|] eqn:Hshown; [|done].
  assert (set_status_of pkg_id s (t_packages d) = t_packages d) as ->; [|by destruct d].
  unfold set_status_of, updated_packages. rewrite <- (list_fmap_id (t_packages d)) at 2.
  apply list_fmap_ext. intros i p Hi. case_decide as Hid; [|done].
  assert (p ∈ t_packages d) as Hin by (apply list_elem_of_lookup; eauto).
  pose proof (head_filter_package _ p Hp Hin) as Hh. rewrite Hid, Hq in Hh. injection Hh as ->.
  assert (packages.status p = s) as <- by (apply (Hs p Hin); by rewrite Hid).
  by destruct p.
Qed.

(** ** Guarded writes

    [find a row, UPDATE .. WHERE it still is what it was, refresh]: the shape
    of every change of a build's status. *)

(** A row that was read at some point: ids are never given out twice, so
    whatever has that id now is the same build. *)
Definition known (b : builds.Model) (d : database) : Prop :=
  (builds.id b < next_build_id d)%Z /\
  forall a, a ∈ t_builds d -> builds.id a = builds.id b ->
    number_key a = number_key b /\ slot_key a = slot_key b.

Lemma known_elem b d : wf d -> b ∈ t_builds d -> known b d.
Proof.
  intros [[Hi _ _] _ _ Hf _] Hb. split.
  - by apply (proj1 (Forall_forall _ _) Hf).
  - intros a Ha Heq. by rewrite (ids_inj _ a b Hi Ha Hb Heq).
Qed.

(** What a guarded write leaves. *)
Definition written (pkg_id : Z) (cols : list builds.col_expr) (P : builds.Model -> Prop)
    `{!forall b, Decision (P b)} (d : database) : database :=
  refreshed pkg_id (with_builds (updated cols P (t_builds d)) d).

(** The states a build may still reach: it never runs backwards past a claim, and
    what has ended has ended. *)
Definition may_become (s t : BuildState) : bool :=
  match s, t with
  | (Enqueued | WaitingForDeps), _ => true
  | Active, (Active | Publishing | Successful | Failed) => true
  | Publishing, (Publishing | Successful | Failed) => true
  | Successful, Successful | Failed, Failed => true
  | _, _ => false
  end.

Lemma may_become_refl s : may_become s s = true.
Proof. by destruct s. Qed.
Lemma may_become_trans s t u :
  may_become s t = true -> may_become t u = true -> may_become s u = true.
Proof. by destruct s, t, u. Qed.

(** A build moves forward, and what was recorded of it stays recorded. *)
Definition moves (b a : builds.Model) : Prop :=
  may_become (builds.status b) (builds.status a) = true /\
  (is_Some (builds.size b) -> is_Some (builds.size a)).

#[export] Instance moves_refl : Reflexive moves.
Proof. intros b. split; [apply may_become_refl|done]. Qed.
#[export] Instance moves_trans : Transitive moves.
Proof. intros a b c [? ?] [? ?]. split; [by eapply may_become_trans|auto]. Qed.

(** A write that keeps the indexes and the lifecycle, on rows of one package, and
    moves builds forward. *)
Record good_write (pkg_id : Z) (cols : list builds.col_expr) (P : builds.Model -> Prop)
    (d : database) : Prop := {
  gw_package : forall b, b ∈ t_builds d -> P b -> builds.pkg_id b = pkg_id;
  gw_progress : forall b, b ∈ t_builds d -> P b ->
    in_progress (builds.assign cols b) -> in_progress b;
  gw_lifecycle : forall b, b ∈ t_builds d -> P b -> lifecycle_ok b ->
    lifecycle_ok (builds.assign cols b);
  gw_moves : forall b, b ∈ t_builds d -> P b -> moves b (builds.assign cols b)
}.

Section guarded.
Context (pkg_id : Z) (cols : list builds.col_expr) (P : builds.Model -> Prop)
  `{!forall b, Decision (P b)}.

Lemma good_write_indexes d :
  builds_indexes (t_builds d) -> good_write pkg_id cols P d ->
  builds_indexes (updated cols P (t_builds d)).
Proof. intros Hi [_ Hp _ _]. by apply updated_indexes. Qed.

Lemma good_write_except d :
  Inv_except pkg_id d -> good_write pkg_id cols P d ->
  Inv_except pkg_id (with_builds (updated cols P (t_builds d)) d).
Proof. intros Hd [???]. by apply inv_update. Qed.

Lemma written_inv d : Inv_except pkg_id d -> good_write pkg_id cols P d -> Inv (written pkg_id cols P d).
Proof. intros. by apply inv_refresh, good_write_except. Qed.

Lemma written_builds d : t_builds (written pkg_id cols P d) = updated cols P (t_builds d).
Proof. unfold written. by rewrite refreshed_builds. Qed.

(** No row to write: nothing changes. *)
Lemma updated_none l : filter P l = [] -> updated cols P l = l.
Proof.
  intros Hf. unfold updated. rewrite <- (list_fmap_id l) at 2. apply list_fmap_ext.
  intros i b Hb. rewrite decide_False; [done|].
  apply (proj1 (filter_nil_iff _ _) Hf). apply list_elem_of_lookup. eauto.
Qed.
End guarded.

Section transition.
Context (build : builds.Model) (from : list BuildState) (to : BuildState)
  (cols : list builds.col_expr) (guard : builds.Model -> Prop)
  `{!forall b, Decision (guard b)}.

(** The row a [transition] writes. *)
Definition transition_guard (b : builds.Model) : Prop :=
  guard b /\ builds.id b = builds.id build /\ builds.status b ∈ from.
#[export] Instance transition_guard_dec b : Decision (transition_guard b).
Proof. unfold transition_guard. apply _. Defined.

Definition transitioned (d : database) : Transition * database :=
  if decide (filter transition_guard (t_builds d) = []) then (Unchanged, d)
  else (Moved, written (builds.pkg_id build) (builds.Set_status to :: cols) transition_guard d).

#[export] Instance transition_transparent : Transparent (transition build from to cols guard).
Proof. unfold transition. sql_class. Qed.
#[export] Instance transition_steady : Steady (transition build from to cols guard).
Proof. unfold transition. sql_class. Qed.

Lemma run_transition d :
  builds_indexes (t_builds d) ->
  good_write (builds.pkg_id build) (builds.Set_status to :: cols) transition_guard d ->
  run (transition build from to cols guard) d = (Ok (transitioned d).1, (transitioned d).2).
Proof.
  intros Hi Hgw. unfold transition, transitioned. rewrite run_transaction by sql_class.
  unfold mbind, sql_mbind. rewrite run_bind by apply _.
  pose proof (good_write_indexes _ _ transition_guard d Hi Hgw) as Hok.
  rewrite run_update_builds by done. change (fun b => guard b /\ _) with transition_guard.
  destruct (filter _ (t_builds d)) as [|x m] eqn:Hf; [done|].
  cbn [length]. rewrite decide_False by done. rewrite run_bind by apply _.
  by rewrite run_refresh.
Qed.

Lemma transitioned_inv d :
  Inv d -> good_write (builds.pkg_id build) (builds.Set_status to :: cols) transition_guard d ->
  Inv (transitioned d).2.
Proof.
  intros Hd Hgw. unfold transitioned. case_decide; [done|].
  apply written_inv; [by apply inv_except_of|done].
Qed.
End transition.

(** ** How the database may move

    Every operation keeps [Inv], hands out ids in order, never changes what a
    build is of (its number, its package, its platform) and only moves its state
    forward. *)

Definition same_build (a b : builds.Model) : Prop :=
  builds.id a = builds.id b /\ number_key a = number_key b /\ slot_key a = slot_key b.

(** [a] is what [b] has become. *)
Definition became (b a : builds.Model) : Prop :=
  same_build a b /\ moves b a.

Record grows (d d' : database) : Prop := {
  gr_next : (next_build_id d <= next_build_id d')%Z;
  gr_builds : forall a, a ∈ t_builds d' -> (builds.id a < next_build_id d)%Z ->
    exists b, b ∈ t_builds d /\ became b a;
  gr_fresh : (forall a, a ∈ t_builds d -> builds.id a < next_build_id d)%Z ->
    forall a, a ∈ t_builds d' -> (builds.id a < next_build_id d')%Z
}.

Definition advances (d d' : database) : Prop := Inv d -> Inv d' /\ grows d d'.

#[export] Instance same_build_refl : Reflexive same_build.
Proof. done. Qed.
#[export] Instance same_build_trans : Transitive same_build.
Proof. intros a b c (?&?&?) (?&?&?). repeat split; congruence. Qed.

#[export] Instance became_refl : Reflexive became.
Proof. intros a. by split. Qed.
#[export] Instance became_trans : Transitive became.
Proof.
  intros a b c [H1 M1] [H2 M2]. by split; etrans.
Qed.

Lemma assign_same cols b : same_build (builds.assign cols b) b.
Proof. apply assign_keys. Qed.

#[export] Instance grows_refl : Reflexive grows.
Proof. intros d. split; [lia| |done]. intros a Ha _. by exists a. Qed.

#[export] Instance advances_preorder : PreOrder advances.
Proof.
  split.
  - intros d Hd. by split.
  - intros d d' d'' H1 H2 Hd. destruct (H1 Hd) as [Hd' [N1 B1 F1]].
    destruct (H2 Hd') as [Hd'' [N2 B2 F2]]. split; [done|]. split.
    + lia.
    + intros a Ha Hlt. destruct (B2 a Ha) as (b & Hb & Hab); [lia|].
      destruct (B1 b Hb) as (c & Hc & Hbc); [destruct Hab as ((<-&_)&_); done|].
      exists c. split; [done|by etrans].
    + intros Hf. by apply F2, F1.
Qed.

Lemma known_advances b d d' : Inv d -> advances d d' -> known b d -> known b d'.
Proof.
  intros Hd Ha [Hlt Hk]. destruct (Ha Hd) as [_ [Hn Hb _]]. split; [lia|].
  intros a Hin Hid. destruct (Hb a Hin) as (c & Hc & (Hcid & Hn' & Hs') & _); [lia|].
  destruct (Hk c Hc) as [Hkn Hks]; [congruence|]. split; congruence.
Qed.

Lemma grows_refreshed pkg_id d d' : grows d d' -> grows d (refreshed pkg_id d').
Proof.
  intros [Hn Hb Hf]. split; rewrite ?refreshed_next, ?refreshed_builds; done.
Qed.

Lemma grows_updated cols P `{!forall b, Decision (P b)} d :
  (forall b, b ∈ t_builds d -> P b -> moves b (builds.assign cols b)) ->
  grows d (with_builds (updated cols P (t_builds d)) d).
Proof.
  intros Hm. split; simpl; [lia| |].
  - intros a (b & Hb & ->)%elem_of_updated _. exists b. split; [done|].
    case_decide; [split; [apply assign_same|by apply Hm]|done].
  - intros Hf a (b & Hb & ->)%elem_of_updated. specialize (Hf b Hb). case_decide; [|done].
    by rewrite assign_id.
Qed.

Lemma grows_written pkg_id cols P `{!forall b, Decision (P b)} d :
  good_write pkg_id cols P d -> grows d (written pkg_id cols P d).
Proof. intros Hgw. apply grows_refreshed, grows_updated, Hgw. Qed.

Lemma grows_deleted (P : builds.Model -> Prop) `{!forall b, Decision (P b)} d :
  grows d (with_builds (filter P (t_builds d)) d).
Proof.
  split; simpl; [lia| |].
  - intros a [_ Ha]%list_elem_of_filter _. by exists a.
  - intros Hf a [_ Ha]%list_elem_of_filter. by apply Hf.
Qed.

Lemma grows_trans d d' d'' : grows d d' -> grows d' d'' -> grows d d''.
Proof.
  intros [N1 B1 F1] [N2 B2 F2]. split; [lia| |by auto].
  intros a Ha Hlt. destruct (B2 a Ha) as (b & Hb & Hab); [lia|].
  destruct (B1 b Hb) as (c & Hc & Hbc); [destruct Hab as ((<-&_)&_); done|].
  exists c. split; [done|by etrans].
Qed.

(** A build read earlier: the precondition of every write pinned to it. *)
Definition knows (l : list builds.Model) (d : database) : Prop :=
  Inv d /\ Forall (fun b => known b d) l.

Lemma knows_one b d : knows [b] d <-> Inv d /\ known b d.
Proof. unfold knows. by rewrite Forall_singleton. Qed.

Lemma knows_stable l : stable advances (knows l).
Proof.
  intros d d' Ha [Hd Hl]. split; [by apply Ha|]. eapply Forall_impl; [exact Hl|].
  intros b. by apply known_advances.
Qed.

Lemma inv_stable : stable advances Inv.
Proof. intros d d' Ha Hd. by apply Ha. Qed.

Lemma triple_find_builds P `{!forall b, Decision (P b)} :
  triple advances Inv (find_builds P) (fun l d => knows l d).
Proof.
  apply triple_query; [apply _|]. intros d Hd. split; [done|]. apply Forall_forall.
  intros b [_ Hb]%list_elem_of_filter. apply known_elem; [apply Hd|done].
Qed.

Lemma triple_find_build P `{!forall b, Decision (P b)} :
  triple advances Inv (find_build_where P)
    (fun o d => knows (option_list o) d /\ forall b, o = Some b -> P b).
Proof.
  apply triple_query; [apply _|]. intros d Hd.
  destruct (head _) as [b|] eqn:Hb; simpl; [|split; [by split|done]].
  apply head_filter_elem in Hb as [Hb HP]. split; [split; [done|]|by intros ? [= <-]].
  apply Forall_singleton. by apply known_elem; [apply Hd|].
Qed.

Lemma known_pkg b d a :
  known b d -> a ∈ t_builds d -> builds.id a = builds.id b -> builds.pkg_id a = builds.pkg_id b.
Proof.
  intros [_ Hk] Ha Hid. destruct (Hk a Ha Hid) as [Hn _]. unfold number_key in Hn. congruence.
Qed.

#[export] Instance transition_atomic build from to cols guard `{!forall b, Decision (guard b)} :
  Atomic (transition build from to cols guard).
Proof. unfold transition. sql_class. Qed.

Lemma triple_transition (P : database -> Prop) build from to cols guard
    `{!forall b, Decision (guard b)} :
  (forall d, P d -> Inv d /\
     good_write (builds.pkg_id build) (builds.Set_status to :: cols)
       (transition_guard build from guard) d) ->
  triple advances P (transition build from to cols guard) (fun _ d => Inv d).
Proof.
  intros HP. apply triple_atomic; [apply _..|]. intros d a d' [Hd Hgw]%HP.
  rewrite run_transition by (apply Hd || done). intros [= <- <-].
  pose proof (transitioned_inv build from to cols guard d Hd Hgw) as Hd'.
  split; [|done]. intros _. split; [done|].
  unfold transitioned. case_decide; [done|by apply grows_written].
Qed.
