(* ===== verification/Fixtures.v ===== *)
(** * A concrete database

    A small server's state, on which the properties' hypotheses are shown to
    hold: three packages, three workers (one not approved), and builds in
    every phase. [check_inv] decides the invariant, so that a state's [Inv] is
    one evaluation. *)
From S2P Require Import Prelude Text BuildState Sql Schema Version BuildStatus Invariant.
#[local] Open Scope string_scope.
#[local] Open Scope Z_scope.
#[local] Open Scope list_scope.

Definition synced_atb (d : database) (p : packages.Model) : bool :=
  match shown (t_builds d) (packages.id p) (default [] (packages.platforms p)) with
  | None => true
  | Some s => bool_decide (packages.status p = s)
  end.

#[export] Instance lifecycle_ok_dec b : Decision (lifecycle_ok b).
Proof. unfold lifecycle_ok. destruct (builds.status b); apply _. Defined.

Definition check_inv (d : database) : bool :=
  bool_decide (builds_indexes (t_builds d)) &&
  bool_decide (NoDup (packages.id <$> t_packages d)) &&
  bool_decide (Forall (fun b => builds.pkg_id b ∈ (packages.id <$> t_packages d)) (t_builds d)) &&
  bool_decide (Forall (fun b => builds.id b < next_build_id d) (t_builds d)) &&
  bool_decide (NoDup (workers.id <$> t_workers d)) &&
  bool_decide (Forall lifecycle_ok (t_builds d)) &&
  forallb (synced_atb d) (t_packages d).

Lemma check_inv_sound d : check_inv d = true -> Inv d.
Proof.
  unfold check_inv. rewrite !andb_true_iff, !bool_decide_eq_true.
  intros [[[[[[H1 H2] H3] H4] H5] H6] H7]. split; [by split|done|].
  apply Forall_forall. intros p Hp s Hs.
  rewrite forallb_forall in H7. specialize (H7 p (proj1 (list_elem_of_In _ _) Hp)).
  unfold synced_atb in H7. rewrite Hs in H7. by apply bool_decide_eq_true in H7.
Qed.

Definition demo_package (id : Z) (name : string) (status : BuildState) (version : option string)
    (platforms : list Platform) : packages.Model :=
  packages.mk id name status false version [] (Some platforms) (Aur name) true None None None
    None None None None None None None None.

Definition demo_worker (id : Z) (name : string) (status : ApprovalStatus) (arches : list string)
    (affinity : list string) (priority : Z) : workers.Model :=
  workers.mk id name status name None None arches (Some 1000) None None affinity priority 2 "[]"
    None false false.

Definition demo_build (id pkg_id number : Z) (status : BuildState) (start end_ : option Z)
    (platform : Platform) (version : string) (size worker lease : option Z)
    (trigger : BuildTrigger) : builds.Model :=
  builds.mk id pkg_id number status start end_ platform version size None None None None None
    worker lease trigger None None None None None.

Definition x86 : Platform := Platform.X86_64.
Definition arm : Platform := Platform.Aarch64.

(** [hello] is queued; [libfoo] is built for ARM and building for x86 on the
    worker reserved for it; [app] waits for [libfoo]. *)
Definition demo_queued : builds.Model :=
  demo_build 1 1 1 Enqueued (Some 900) None x86 "1.0-1" None None None User.
Definition demo_active : builds.Model :=
  demo_build 2 2 2 Active (Some 950) None x86 "2.0-1" None (Some 2) (Some 1100) TimeoutRetry.
Definition demo_built : builds.Model :=
  demo_build 3 2 1 Successful (Some 500) (Some 600) arm "2.0-1" (Some 4096) (Some 2) None User.
Definition demo_waiting : builds.Model :=
  demo_build 4 3 1 WaitingForDeps (Some 960) None x86 "3.0-1" None None None AutoUpdate.
Definition demo_publishing : builds.Model :=
  demo_build 5 3 2 Publishing (Some 970) None arm "3.0-1" None (Some 1) None User.

Definition demo_db : database :=
  Database [demo_queued; demo_active; demo_built; demo_waiting; demo_publishing]
    [demo_package 1 "hello" Enqueued (Some "1.0-1") [x86];
     demo_package 2 "libfoo" Active (Some "2.0-1") [x86; arm];
     demo_package 3 "app" Publishing None [x86; arm]]
    [demo_worker 1 "w1" Approved ["x86_64"] [] 0;
     demo_worker 2 "w2" Approved ["x86_64"; "aarch64"] ["libfoo"] 5;
     demo_worker 3 "w3" Pending ["x86_64"] ["hello"] 9]
    [dependencies.mk 1 3 2 ">=2.0"]
    [] 6 1
    [worker_settings.mk 1 1 "concurrency" "2"; worker_settings.mk 2 2 "build_timeout" "3h"]
    [settings.mk 1 "cpu_limit" (Some "4") settings.GLOBAL] 4 3 2
    [package_vcs_sources.mk 1 3 "git+https://example.org/app.git" "c0ffee" 900].

Lemma demo_inv : Inv demo_db.
Proof. apply check_inv_sound. vm_compute. reflexivity. Qed.

Lemma demo_wf : wf demo_db.
Proof. apply inv_wf, demo_inv. Qed.

(** The same, once [libfoo] is built for x86 as well. *)
Definition demo_succeeded : builds.Model :=
  demo_build 2 2 2 Successful (Some 950) (Some 990) x86 "2.0-1" (Some 8192) (Some 2) None
    TimeoutRetry.

Definition demo_built_db : database :=
  Database [demo_queued; demo_succeeded; demo_built; demo_waiting; demo_publishing]
    [demo_package 1 "hello" Enqueued (Some "1.0-1") [x86];
     demo_package 2 "libfoo" Successful (Some "2.0-1") [x86; arm];
     demo_package 3 "app" Publishing None [x86; arm]]
    (t_workers demo_db) (t_dependencies demo_db) [] 6 1
    (t_worker_settings demo_db) (t_settings demo_db) 4 3 2 (t_vcs_sources demo_db).

Lemma demo_built_inv : Inv demo_built_db.
Proof. apply check_inv_sound. vm_compute. reflexivity. Qed.

(** A version order simple enough to evaluate: [>=v] against the text of the
    version. *)
Definition demo_alpm : Alpm := {|
  AlpmVersion := string;
  VersionRequirement := string;
  version_from_str v := if decide (v = "") then None else Some v;
  requirement_from_str r := strip_prefix ">=" r;
  is_satisfied_by r v := bool_decide (String.le r v)
|}.
