(* ===== verification/BuildEnqueue.v ===== *)
(** * Queueing builds

    [backend/aurcache-db/src/helpers/build_enqueue.rs]: the insert that queues
    a build unless one is pending, and the promotion and demotion between
    waiting for dependencies and ready to claim. *)
From stdpp Require Import pretty.
From S2P Require Import Prelude BuildState Sql Schema BuildStatus Invariant Fixtures.
Open Scope string_scope. Open Scope list_scope.

Inductive Queued := Inserted | Promoted | Existing.
#[export] Instance Queued_eq_dec : EqDecision Queued.
Proof. solve_decision. Defined.

Record EnqueueBuildResult := mkEnqueue {
  enq_build : builds.Model;
  enq_queued : Queued
}.

Module Pending.
Inductive Pending := Enqueued | WaitingForDeps.

#[export] Instance Pending_eq_dec : EqDecision Pending.
Proof. solve_decision. Defined.

Definition state (p : Pending) : BuildState :=
  match p with
  | Enqueued => BuildState.Enqueued
  | WaitingForDeps => BuildState.WaitingForDeps
  end.
End Pending.
Export (hints) Pending.

Definition NUMBER_RACE_ATTEMPTS : nat := 5.

(** [(SELECT COALESCE(MAX(number), 0) + 1 FROM builds WHERE pkg_id = ..)] *)
Definition next_build_number (l : list builds.Model) (pkg_id : Z) : Z :=
  (default 0 (max_of (builds.number <$> builds_of pkg_id l)) + 1)%Z.

(** The row the insert writes; every column it does not name is [NULL] or its
    default. *)
Definition inserted_row (id pkg_id number : Z) (pending : Pending.Pending) (start_time : Z)
    (platform : Platform) (version : string) (trigger : BuildTrigger) : builds.Model :=
  builds.mk id pkg_id number (Pending.state pending) (Some start_time) None platform version
    None None None None None None None None trigger None None None None None.

(** [INSERT INTO builds .. ON CONFLICT DO NOTHING]: a row that breaks a unique
    index is not inserted; one that names no package is an error. *)
Definition insert_build (pkg_id : Z) (pending : Pending.Pending) (start_time : Z)
    (platform : Platform) (version : string) (trigger : BuildTrigger) : DB nat :=
  statement (fun d =>
    let row := inserted_row (next_build_id d) pkg_id (next_build_number (t_builds d) pkg_id)
                 pending start_time platform version trigger in
    if decide (builds_indexes (t_builds d ++ [row])) then
      if decide (pkg_id ∈ (packages.id <$> t_packages d)) then
        Ok (1, Database (t_builds d ++ [row]) (t_packages d) (t_workers d) (t_dependencies d)
                 (t_files d) (next_build_id d + 1) (next_file_id d) (t_worker_settings d) (t_settings d)
                 (next_worker_id d) (next_worker_setting_id d)
    (next_setting_id d) (t_vcs_sources d))
      else Err Constraint
    else Ok (0, d)).

Definition attempts_exhausted (pkg_id : Z) (platform : Platform) : string :=
  "Could not assign a build number for package " +:+ pretty pkg_id +:+ " on platform " +:+
  Platform.as_str platform +:+ " after " +:+ pretty NUMBER_RACE_ATTEMPTS +:+ " attempts".

(** The [for _ in 0..NUMBER_RACE_ATTEMPTS] loop, inside the transaction. *)
Fixpoint enqueue_attempts (attempts : nat) (pkg_id : Z) (platform : Platform) (version : string)
    (start_time : Z) (pending : Pending.Pending) (trigger : BuildTrigger) :
    DB (ending EnqueueBuildResult) :=
  match attempts with
  | 0 => sql_fail (Custom (attempts_exhausted pkg_id platform))
  | S attempts =>
      rows ← insert_build pkg_id pending start_time platform version trigger;
      existing ← pending_build pkg_id platform;
      match existing with
      | Some build =>
          queued ←
            (if decide (rows = 1) then
               _ ← refresh_package_status pkg_id; mret Inserted
             else mret Existing);
          mret (EndCommit (mkEnqueue build queued))
      | None => enqueue_attempts attempts pkg_id platform version start_time pending trigger
      end
  end.

Definition enqueue_build_if_missing (pkg_id : Z) (platform : Platform) (version : string)
    (start_time : Z) (pending : Pending.Pending) (trigger : BuildTrigger) :
    DB EnqueueBuildResult :=
  transaction (enqueue_attempts NUMBER_RACE_ATTEMPTS pkg_id platform version start_time pending
                 trigger).

Definition promote_waiting_build (pkg_id : Z) (platform : Platform) :
    DB (option builds.Model) :=
  transaction (
    found ← find_build_where (fun b => builds.pkg_id b = pkg_id /\ builds.platform b = platform /\
                                       builds.status b = WaitingForDeps);
    match found with
    | None => mret (EndDrop None)
    | Some build =>
        rows ← update_builds [builds.Set_status Enqueued]
                 (fun b => builds.id b = builds.id build /\ builds.status b = WaitingForDeps);
        if decide (rows = 0) then mret (EndDrop None)
        else
          _ ← refresh_package_status pkg_id;
          mret (EndCommit (Some (builds.set (builds.Set_status Enqueued) build)))
    end).

Module Demotion.
Inductive Demotion := Demoted | Unchanged.

#[export] Instance Demotion_eq_dec : EqDecision Demotion.
Proof. solve_decision. Defined.
End Demotion.
Export (hints) Demotion.

Definition demote_enqueued_build (pkg_id : Z) (platform : Platform) : DB Demotion.Demotion :=
  transaction (
    rows ← update_builds [builds.Set_status WaitingForDeps]
             (fun b => builds.pkg_id b = pkg_id /\ builds.platform b = platform /\
                       builds.status b = Enqueued);
    if decide (rows = 0) then mret (EndDrop Demotion.Unchanged)
    else
      _ ← refresh_package_status pkg_id;
      mret (EndCommit Demotion.Demoted)).

(** ** What they do, as functions of the database *)

Definition pending_row (l : list builds.Model) (pkg_id : Z) (platform : Platform) :
    option builds.Model :=
  head (filter (fun b => builds.pkg_id b = pkg_id /\ builds.platform b = platform /\
                         in_progress b) l).

Definition appended (row : builds.Model) (d : database) : database :=
  Database (t_builds d ++ [row]) (t_packages d) (t_workers d) (t_dependencies d) (t_files d)
    (next_build_id d + 1) (next_file_id d) (t_worker_settings d) (t_settings d)
    (next_worker_id d) (next_worker_setting_id d)
    (next_setting_id d) (t_vcs_sources d).

Definition fresh_row (d : database) (pkg_id : Z) (platform : Platform) (version : string)
    (start_time : Z) (pending : Pending.Pending) (trigger : BuildTrigger) : builds.Model :=
  inserted_row (next_build_id d) pkg_id (next_build_number (t_builds d) pkg_id)
    pending start_time platform version trigger.

Definition enqueued_db (d : database) (pkg_id : Z) (platform : Platform) (version : string)
    (start_time : Z) (pending : Pending.Pending) (trigger : BuildTrigger) :
    EnqueueBuildResult * database :=
  match pending_row (t_builds d) pkg_id platform with
  | Some b => (mkEnqueue b Existing, d)
  | None =>
      let row := fresh_row d pkg_id platform version start_time pending trigger in
      (mkEnqueue row Inserted, refreshed pkg_id (appended row d))
  end.

(** ** Lemmas *)

Lemma pending_state_in_progress p : is_in_progress (Pending.state p) = true.
Proof. by destruct p. Qed.

Lemma next_build_number_gt l b :
  b ∈ l -> (builds.number b < next_build_number l (builds.pkg_id b))%Z.
Proof.
  intros Hb. unfold next_build_number.
  assert (builds.number b ∈ (builds.number <$> builds_of (builds.pkg_id b) l)) as Hin.
  { apply list_elem_of_fmap_2. by apply list_elem_of_filter. }
  destruct (max_of _) as [m|] eqn:Hm; simpl.
  - apply max_of_spec in Hm as [_ Hle]. specialize (Hle _ Hin). lia.
  - destruct (builds.number <$> _); [by apply elem_of_nil in Hin|done].
Qed.

(** The next number is free, so only a pending build can stop the insert. *)
Lemma insert_indexes (d : database) row :
  wf d ->
  builds.id row = next_build_id d ->
  builds.number row = next_build_number (t_builds d) (builds.pkg_id row) ->
  in_progress row ->
  builds_indexes (t_builds d ++ [row]) <->
  pending_row (t_builds d) (builds.pkg_id row) (builds.platform row) = None.
Proof.
  intros [[Hi Hn Hpd] Hp Ho Hf _] Hid Hnum Hprog. unfold pending_row.
  assert (forall l : list builds.Model, head l = None <-> l = []) as -> by (by intros []).
  rewrite filter_nil_iff. split.
  - intros [_ _ Hpend] b Hb (Hpk & Hpl & Hbp).
    rewrite filter_app, filter_cons, decide_True in Hpend by done.
    rewrite fmap_app in Hpend. apply NoDup_app in Hpend as (_ & Hdisj & _).
    apply (Hdisj (slot_key b)).
    + apply list_elem_of_fmap_2. by apply list_elem_of_filter.
    + csimpl. apply list_elem_of_singleton. unfold slot_key. congruence.
  - intros Hnone. split; rewrite ?filter_app, ?fmap_app; apply NoDup_app; split; try done; split.
    + intros i (b & -> & Hb)%list_elem_of_fmap Hc. apply list_elem_of_singleton in Hc.
      pose proof (proj1 (Forall_forall _ _) Hf b Hb). simpl in *. lia.
    + apply NoDup_singleton.
    + intros k (b & -> & Hb)%list_elem_of_fmap Hc. apply list_elem_of_singleton in Hc.
      unfold number_key in Hc. injection Hc as Hpk Hbn.
      pose proof (next_build_number_gt _ _ Hb). rewrite Hpk in *. lia.
    + apply NoDup_singleton.
    + rewrite filter_cons, decide_True by done. csimpl.
      intros k (b & -> & Hb)%list_elem_of_fmap Hc. apply list_elem_of_singleton in Hc.
      apply list_elem_of_filter in Hb as [Hb1 Hb2]. unfold slot_key in Hc.
      injection Hc as Hpk Hpl. by apply (Hnone b).
    + rewrite filter_cons, decide_True by done. apply NoDup_singleton.
Qed.

Lemma fresh_row_in_progress d pkg_id platform version start_time pending trigger :
  in_progress (fresh_row d pkg_id platform version start_time pending trigger).
Proof. unfold in_progress. apply elem_of_IN_PROGRESS. apply pending_state_in_progress. Qed.

Section enqueue.
Context (pkg_id : Z) (platform : Platform) (version : string) (start_time : Z)
  (pending : Pending.Pending) (trigger : BuildTrigger).

Abbreviation enqueue :=
  (enqueue_build_if_missing pkg_id platform version start_time pending trigger).

#[export] Instance insert_build_transparent :
  Transparent (insert_build pkg_id pending start_time platform version trigger) :=
  statement_transparent _.
#[export] Instance insert_build_steady :
  Steady (insert_build pkg_id pending start_time platform version trigger) :=
  statement_steady _.
#[export] Instance pending_build_transparent :
  Transparent (pending_build pkg_id platform) := query_transparent _.
#[export] Instance pending_build_steady :
  Steady (pending_build pkg_id platform) := query_steady _.

#[export] Instance enqueue_attempts_transparent n :
  Transparent (enqueue_attempts n pkg_id platform version start_time pending trigger).
Proof. induction n as [|n IH]; simpl; sql_class. Qed.
#[export] Instance enqueue_attempts_steady n :
  Steady (enqueue_attempts n pkg_id platform version start_time pending trigger).
Proof. induction n as [|n IH]; simpl; sql_class. Qed.
#[export] Instance enqueue_transparent : Transparent enqueue.
Proof. unfold enqueue_build_if_missing. sql_class. Qed.
#[export] Instance enqueue_steady : Steady enqueue.
Proof. unfold enqueue_build_if_missing. sql_class. Qed.

(** Over a serial database the first attempt decides. *)
Lemma run_enqueue d :
  wf d -> pkg_id ∈ (packages.id <$> t_packages d) ->
  run enqueue d =
    (Ok (enqueued_db d pkg_id platform version start_time pending trigger).1,
     (enqueued_db d pkg_id platform version start_time pending trigger).2).
Proof.
  intros Hwf Hpkg. unfold enqueue_build_if_missing, enqueued_db, NUMBER_RACE_ATTEMPTS.
  rewrite run_transaction by apply _. cbn [enqueue_attempts].
  unfold mbind, sql_mbind. rewrite run_bind by apply _. unfold insert_build.
  rewrite run_statement. cbv zeta.
  fold (fresh_row d pkg_id platform version start_time pending trigger).
  pose proof (fresh_row_in_progress d pkg_id platform version start_time pending trigger) as Hrp.
  pose proof (insert_indexes d (fresh_row d pkg_id platform version start_time pending trigger)
    Hwf eq_refl eq_refl Hrp) as Hidx. simpl in Hidx.
  destruct (pending_row (t_builds d) pkg_id platform) as [b|] eqn:Hpend.
  - rewrite decide_False by (by intros ?%Hidx).
    rewrite run_bind by apply _. unfold pending_build, find_build_where.
    rewrite run_query. unfold pending_row in Hpend. by rewrite Hpend.
  - rewrite decide_True, decide_True by (by try apply Hidx).
    rewrite run_bind by apply _. unfold pending_build, find_build_where.
    rewrite run_query. simpl t_builds. rewrite filter_app.
    unfold pending_row in Hpend.
    assert (filter (fun b => builds.pkg_id b = pkg_id /\ builds.platform b = platform /\
              in_progress b) (t_builds d) = []) as -> by (by destruct (filter _ _)).
    rewrite filter_cons, decide_True by done. cbn [app head].
    rewrite run_bind by (simpl; sql_class). cbn [decide]. rewrite decide_True by done.
    rewrite run_bind by apply _. by rewrite run_refresh.
Qed.

Lemma enqueued_inv d :
  Inv_except pkg_id d -> pkg_id ∈ (packages.id <$> t_packages d) ->
  Inv_except pkg_id (enqueued_db d pkg_id platform version start_time pending trigger).2.
Proof.
  intros Hinv Hpkg. unfold enqueued_db.
  destruct (pending_row _ _ _) as [b|] eqn:Hpend; simpl; [done|].
  apply inv_except_of, inv_refresh, inv_insert; try done.
  - apply insert_indexes; try done; [apply Hinv|]. apply fresh_row_in_progress.
  - unfold lifecycle_ok. by destruct pending.
Qed.
End enqueue.

(** ** Promotion and demotion *)

Definition waiting_row (l : list builds.Model) (pkg_id : Z) (platform : Platform) :
    option builds.Model :=
  head (filter (fun b => builds.pkg_id b = pkg_id /\ builds.platform b = platform /\
                         builds.status b = WaitingForDeps) l).

(** The write of [promote_waiting_build], pinned to the row read. *)
Definition promote_pin (build b : builds.Model) : Prop :=
  builds.id b = builds.id build /\ builds.status b = WaitingForDeps.
#[export] Instance promote_pin_dec build b : Decision (promote_pin build b).
Proof. unfold promote_pin. apply _. Defined.

Definition demote_pin (pkg_id : Z) (platform : Platform) (b : builds.Model) : Prop :=
  builds.pkg_id b = pkg_id /\ builds.platform b = platform /\ builds.status b = Enqueued.
#[export] Instance demote_pin_dec pkg_id platform b : Decision (demote_pin pkg_id platform b).
Proof. unfold demote_pin. apply _. Defined.

Definition promoted_db (pkg_id : Z) (platform : Platform) (d : database) :
    option builds.Model * database :=
  match waiting_row (t_builds d) pkg_id platform with
  | None => (None, d)
  | Some b =>
      (Some (builds.set (builds.Set_status Enqueued) b),
       written pkg_id [builds.Set_status Enqueued] (promote_pin b) d)
  end.

Definition demoted_db (pkg_id : Z) (platform : Platform) (d : database) : Demotion.Demotion * database :=
  if decide (filter (demote_pin pkg_id platform) (t_builds d) = []) then (Demotion.Unchanged, d)
  else (Demotion.Demoted, written pkg_id [builds.Set_status WaitingForDeps] (demote_pin pkg_id platform) d).

Lemma promote_good b d :
  wf d -> b ∈ t_builds d ->
  good_write (builds.pkg_id b) [builds.Set_status Enqueued] (promote_pin b) d.
Proof.
  intros [[Hi _ _] _ _ _ _] Hb. split.
  - intros a Ha [Hid _]. by rewrite (ids_inj _ a b Hi Ha Hb Hid).
  - intros a _ [_ Hs] _. unfold in_progress. rewrite Hs. apply elem_of_IN_PROGRESS. done.
  - intros a _ [_ Hs]. unfold lifecycle_ok. by rewrite Hs.
  - intros a _ [_ Hs]. split; [by rewrite Hs|done].
Qed.

Lemma demote_good pkg_id platform d :
  good_write pkg_id [builds.Set_status WaitingForDeps] (demote_pin pkg_id platform) d.
Proof.
  split.
  - by intros a _ (? & _).
  - intros a _ (_ & _ & Hs) _. unfold in_progress. rewrite Hs. by apply elem_of_IN_PROGRESS.
  - intros a _ (_ & _ & Hs). unfold lifecycle_ok. by rewrite Hs.
  - intros a _ (_ & _ & Hs). split; [by rewrite Hs|done].
Qed.

#[export] Instance promote_transparent pkg_id platform :
  Transparent (promote_waiting_build pkg_id platform).
Proof. unfold promote_waiting_build. sql_class. Qed.
#[export] Instance promote_steady pkg_id platform : Steady (promote_waiting_build pkg_id platform).
Proof. unfold promote_waiting_build. sql_class. Qed.
#[export] Instance demote_transparent pkg_id platform :
  Transparent (demote_enqueued_build pkg_id platform).
Proof. unfold demote_enqueued_build. sql_class. Qed.
#[export] Instance demote_steady pkg_id platform : Steady (demote_enqueued_build pkg_id platform).
Proof. unfold demote_enqueued_build. sql_class. Qed.

Lemma run_promote pkg_id platform d :
  wf d ->
  run (promote_waiting_build pkg_id platform) d =
    (Ok (promoted_db pkg_id platform d).1, (promoted_db pkg_id platform d).2).
Proof.
  intros Hwf. unfold promote_waiting_build, promoted_db. rewrite run_transaction by sql_class.
  unfold mbind, sql_mbind. rewrite run_bind by apply _.
  unfold find_build_where at 1. rewrite run_query.
  change (head (filter _ (t_builds d))) with (waiting_row (t_builds d) pkg_id platform).
  destruct (waiting_row _ _ _) as [b|] eqn:Hrow; [|done].
  apply head_filter_elem in Hrow as (Hb & Hpk & Hpl & Hs). subst pkg_id.
  pose proof (promote_good b d Hwf Hb) as Hgw. rewrite run_bind by apply _.
  change (fun a => builds.id a = builds.id b /\ builds.status a = WaitingForDeps)
    with (promote_pin b).
  rewrite run_update_builds by (eapply good_write_indexes; [apply Hwf|done]).
  rewrite decide_False; [|].
  - rewrite run_bind by apply _. by rewrite run_refresh.
  - intros Hlen%nil_length_inv. apply (proj1 (filter_nil_iff _ _) Hlen b Hb). by split.
Qed.

Lemma run_demote pkg_id platform d :
  wf d ->
  run (demote_enqueued_build pkg_id platform) d =
    (Ok (demoted_db pkg_id platform d).1, (demoted_db pkg_id platform d).2).
Proof.
  intros Hwf. unfold demote_enqueued_build, demoted_db. rewrite run_transaction by sql_class.
  unfold mbind, sql_mbind. rewrite run_bind by apply _.
  change (fun b => builds.pkg_id b = pkg_id /\ builds.platform b = platform /\
                   builds.status b = Enqueued) with (demote_pin pkg_id platform).
  rewrite run_update_builds
    by (eapply good_write_indexes; [apply Hwf|apply demote_good]).
  destruct (filter _ (t_builds d)) as [|x m] eqn:Hf; [done|]. cbn [length].
  rewrite !decide_False by done. rewrite run_bind by apply _. by rewrite run_refresh.
Qed.

Lemma promoted_inv pkg_id platform d : Inv d -> Inv (promoted_db pkg_id platform d).2.
Proof.
  intros Hd. unfold promoted_db. destruct (waiting_row _ _ _) as [b|] eqn:Hrow; [|done].
  apply head_filter_elem in Hrow as (Hb & <- & _ & _). simpl.
  apply written_inv; [by apply inv_except_of|]. apply promote_good; [apply Hd|done].
Qed.

Lemma demoted_inv pkg_id platform d : Inv d -> Inv (demoted_db pkg_id platform d).2.
Proof.
  intros Hd. unfold demoted_db. case_decide; [done|].
  apply written_inv; [by apply inv_except_of|apply demote_good].
Qed.

(** ** Sessions *)

Lemma enqueued_builds pkg_id platform version start_time pending trigger d :
  t_builds (enqueued_db d pkg_id platform version start_time pending trigger).2 =
    match pending_row (t_builds d) pkg_id platform with
    | Some _ => t_builds d
    | None => t_builds d ++ [fresh_row d pkg_id platform version start_time pending trigger]
    end.
Proof.
  unfold enqueued_db. destruct (pending_row _ _ _); simpl; [done|]. by rewrite refreshed_builds.
Qed.

Lemma grows_appended row d : builds.id row = next_build_id d -> grows d (appended row d).
Proof.
  intros Hid. split; simpl; [lia| |].
  - intros a [Ha|Ha%list_elem_of_singleton]%elem_of_app Hlt; [by exists a|]. subst. lia.
  - intros Hf a [Ha|Ha%list_elem_of_singleton]%elem_of_app; [specialize (Hf a Ha)|subst]; lia.
Qed.

Lemma grows_enqueued pkg_id platform version start_time pending trigger d :
  grows d (enqueued_db d pkg_id platform version start_time pending trigger).2.
Proof.
  unfold enqueued_db. destruct (pending_row _ _ _); simpl; [done|].
  by apply grows_refreshed, grows_appended.
Qed.

Lemma enqueued_keeps_inv pkg_id platform version start_time pending trigger d :
  Inv d -> pkg_id ∈ (packages.id <$> t_packages d) ->
  Inv (enqueued_db d pkg_id platform version start_time pending trigger).2.
Proof.
  intros Hd Hpkg. unfold enqueued_db. destruct (pending_row _ _ _) eqn:Hpend; [done|].
  apply inv_refresh, inv_insert; try done.
  - by apply inv_except_of.
  - apply insert_indexes; try done; [apply Hd|apply fresh_row_in_progress].
  - unfold lifecycle_ok. by destruct pending.
Qed.

#[export] Instance enqueue_atomic pkg_id platform version start_time pending trigger :
  Atomic (enqueue_build_if_missing pkg_id platform version start_time pending trigger).
Proof. unfold enqueue_build_if_missing. sql_class. Qed.
#[export] Instance promote_atomic pkg_id platform : Atomic (promote_waiting_build pkg_id platform).
Proof. unfold promote_waiting_build. sql_class. Qed.
#[export] Instance demote_atomic pkg_id platform : Atomic (demote_enqueued_build pkg_id platform).
Proof. unfold demote_enqueued_build. sql_class. Qed.

(** Without its package a pending build cannot exist, and none is made. *)
Lemma enqueue_unknown_package pkg_id platform version start_time pending trigger left d :
  Inv d -> pkg_id ∉ (packages.id <$> t_packages d) ->
  exists e,
    o_result (enqueue_build_if_missing pkg_id platform version start_time pending trigger left d)
      = Err e /\
    o_db (enqueue_build_if_missing pkg_id platform version start_time pending trigger left d) = d.
Proof.
  intros Hd Hpkg.
  destruct (atomic (m := enqueue_build_if_missing pkg_id platform version start_time pending trigger)
    left d) as [?|(a & _ & Hrun)]; [done|].
  exfalso. revert Hrun. unfold enqueue_build_if_missing, NUMBER_RACE_ATTEMPTS. rewrite run_transaction by apply _.
  cbn [enqueue_attempts]. unfold mbind, sql_mbind. rewrite run_bind by apply _.
  unfold insert_build. rewrite run_statement. cbv zeta. rewrite decide_True.
  - by rewrite decide_False.
  - apply insert_indexes; try done; [apply Hd|apply fresh_row_in_progress|].
    unfold pending_row. simpl. destruct (head _) as [b|] eqn:Hb; [|done].
    apply head_filter_elem in Hb as (Hb & <- & _). destruct Hpkg. simpl.
    by apply (proj1 (Forall_forall _ _) (wf_owned _ (inv_wf _ Hd)) b Hb).
Qed.

(** What a session of [enqueue_build_if_missing] may answer. *)
Definition enqueue_promise (pkg_id : Z) (platform : Platform) (version : string) (start_time : Z)
    (pending : Pending.Pending) (trigger : BuildTrigger) (d : database)
    (o : outcome database DbErr EnqueueBuildResult) : Prop :=
  Inv (o_db o) /\
  match o_result o with
  | Ok (mkEnqueue build Existing) =>
      o_db o = d /\ build ∈ t_builds d /\ slot_key build = (pkg_id, platform) /\
      in_progress build
  | Ok (mkEnqueue build Inserted) =>
      build = fresh_row d pkg_id platform version start_time pending trigger /\
      t_builds (o_db o) = t_builds d ++ [build] /\
      (forall b, b ∈ t_builds d -> slot_key b = (pkg_id, platform) -> ~ in_progress b) /\
      (forall b, b ∈ t_builds d -> builds.pkg_id b = pkg_id ->
                 builds.number b < builds.number build)%Z
  | Ok (mkEnqueue _ Promoted) => False
  | Err _ => o_db o = d
  end.

Lemma enqueue_meets pkg_id platform version start_time pending trigger left d :
  Inv d ->
  enqueue_promise pkg_id platform version start_time pending trigger d
    (enqueue_build_if_missing pkg_id platform version start_time pending trigger left d).
Proof.
  intros Hd. unfold enqueue_promise.
  destruct (decide (pkg_id ∈ (packages.id <$> t_packages d))) as [Hpkg|Hpkg].
  2:{ destruct (enqueue_unknown_package pkg_id platform version start_time pending trigger left d)
        as (e & -> & ->); done. }
  destruct (atomic_run (enqueue_build_if_missing pkg_id platform version start_time pending trigger)
    left d _ _ (run_enqueue _ _ _ _ _ _ d (inv_wf _ Hd) Hpkg)) as [(e & -> & ->)|[-> ->]]; [done|].
  split; [by apply enqueued_keeps_inv|].
  rewrite enqueued_builds. unfold enqueued_db.
  destruct (pending_row _ _ _) as [b|] eqn:Hb; simpl.
  - apply head_filter_elem in Hb as (? & <- & <- & ?). by split_and!.
  - split_and!; [done..| |].
    + intros b Hin Hslot Hp. unfold pending_row in Hb.
      apply (head_filter_None _ _ Hb b Hin). unfold slot_key in Hslot. by simplify_eq.
    + intros b Hin <-. by apply next_build_number_gt.
Qed.

Lemma triple_enqueue pkg_id platform version start_time pending trigger :
  triple advances Inv (enqueue_build_if_missing pkg_id platform version start_time pending trigger)
    (fun e d => knows [enq_build e] d).
Proof.
  intros left d Hd.
  destruct (decide (pkg_id ∈ (packages.id <$> t_packages d))) as [Hpkg|Hpkg].
  2:{ destruct (enqueue_unknown_package pkg_id platform version start_time pending trigger left d)
        as (e & -> & ->); [done..|]. split; [done|]. by intros a. }
  pose proof (enqueue_meets pkg_id platform version start_time pending trigger left d Hd) as [Hd' Ho].
  destruct (atomic_run (enqueue_build_if_missing pkg_id platform version start_time pending trigger)
    left d _ _ (run_enqueue _ _ _ _ _ _ d (inv_wf _ Hd) Hpkg)) as [(e & He & Hdb)|[Hr Hdb]];
    rewrite ?He, ?Hr, ?Hdb in *.
  - split; [done|]. by intros a.
  - split; [intros _; split; [done|apply grows_enqueued]|]. intros a [= <-]. split; [done|].
    apply Forall_singleton. apply known_elem; [apply Hd'|].
    destruct (enqueued_db d _ _ _ _ _ _) as [[build []] d']; simpl in *; [|done|].
    + destruct Ho as (_ & -> & _). apply elem_of_app. right. left.
    + by destruct Ho as (-> & ? & _).
Qed.

Lemma grows_promoted pkg_id platform d : Inv d -> grows d (promoted_db pkg_id platform d).2.
Proof.
  intros Hd. unfold promoted_db. destruct (waiting_row _ _ _) as [b|] eqn:Hrow; simpl; [|done].
  apply head_filter_elem in Hrow as (Hb & <- & _ & _).
  by apply grows_written, promote_good; [apply Hd|].
Qed.

Lemma grows_demoted pkg_id platform d : grows d (demoted_db pkg_id platform d).2.
Proof. unfold demoted_db. case_decide; simpl; [done|apply grows_written, demote_good]. Qed.

Lemma triple_promote pkg_id platform :
  triple advances Inv (promote_waiting_build pkg_id platform) (fun _ d => Inv d).
Proof.
  apply triple_atomic; [apply _..|]. intros d a d' Hd. rewrite run_promote by apply Hd.
  intros [= <- <-]. pose proof (promoted_inv pkg_id platform d Hd).
  split; [|done]. intros _. split; [done|by apply grows_promoted].
Qed.

Lemma triple_demote pkg_id platform :
  triple advances Inv (demote_enqueued_build pkg_id platform) (fun _ d => Inv d).
Proof.
  apply triple_atomic; [apply _..|]. intros d a d' Hd. rewrite run_demote by apply Hd.
  intros [= <- <-]. pose proof (demoted_inv pkg_id platform d Hd).
  split; [|done]. intros _. split; [done|apply grows_demoted].
Qed.

(** ** Properties *)

(** C26. Queueing a build, over a connection that may fail at any statement:
    at most one unsettled build exists per package and platform, so an existing
    one is answered and nothing is written; otherwise one row is appended, in
    the requested state, numbered above every build of its package; an error
    writes nothing. With a connection that holds and a package that exists, the
    numbering never runs out of attempts. *)
Theorem enqueue_if_missing_once pkg_id platform version start_time pending trigger left d :
  Inv d ->
  let o := enqueue_build_if_missing pkg_id platform version start_time pending trigger left d in
  enqueue_promise pkg_id platform version start_time pending trigger d o /\
  (left = None -> pkg_id ∈ (packages.id <$> t_packages d) -> is_ok (o_result o) = true).
Proof.
  intros Hd o. split; [by apply enqueue_meets|]. unfold o. clear o. intros -> Hpkg.
  pose proof (run_enqueue pkg_id platform version start_time pending trigger d
    (inv_wf _ Hd) Hpkg) as Hrun.
  unfold run in Hrun. by injection Hrun as -> _.
Qed.

Lemma enqueue_if_missing_once_witness :
  let o := enqueue_build_if_missing 1 arm "1.1-1" 1000 Pending.Enqueued User None demo_db in
  let o' := enqueue_build_if_missing 1 x86 "1.1-1" 1000 Pending.Enqueued User None demo_db in
  (Inv demo_db /\ enqueue_promise 1 arm "1.1-1" 1000 Pending.Enqueued User demo_db o) /\
  enq_queued <$> o_result o = Ok Inserted /\ enq_queued <$> o_result o' = Ok Existing.
Proof.
  split.
  - split; [apply demo_inv|].
    apply (enqueue_if_missing_once 1 arm "1.1-1" 1000 Pending.Enqueued User None demo_db), demo_inv.
  - split; vm_compute; reflexivity.
Defined.

(** Moving a queue entry between its two pending states. *)
Definition requeued (pkg_id : Z) (platform : Platform) (from to : BuildState) (d d' : database) :
    Prop :=
  t_builds d' =
    (fun b => if decide (slot_key b = (pkg_id, platform) /\ builds.status b = from)
              then builds.set (builds.Set_status to) b else b) <$> t_builds d.

Lemma slot_key_eq b pkg_id platform :
  slot_key b = (pkg_id, platform) <-> builds.pkg_id b = pkg_id /\ builds.platform b = platform.
Proof. unfold slot_key. split; [by intros [= -> ->]|by intros [-> ->]]. Qed.

(** The pending index makes "the waiting build" unique. *)
Lemma waiting_unique d a b :
  wf d -> a ∈ t_builds d -> b ∈ t_builds d -> slot_key a = slot_key b ->
  in_progress a -> in_progress b -> a = b.
Proof.
  intros [[_ _ Hp] _ _ _ _] Ha Hb Hs Hpa Hpb.
  by apply (NoDup_fmap_inj_elem slot_key (filter in_progress (t_builds d)));
    [|apply list_elem_of_filter..|].
Qed.

Lemma promoted_requeued pkg_id platform d :
  wf d -> requeued pkg_id platform WaitingForDeps Enqueued d (promoted_db pkg_id platform d).2.
Proof.
  intros Hwf. unfold requeued, promoted_db. destruct (waiting_row _ _ _) as [b|] eqn:Hb.
  - cbn [snd]. rewrite written_builds. unfold updated. apply list_fmap_ext.
    intros i a Ha%list_elem_of_lookup_2.
    apply head_filter_elem in Hb as (Hb & Hpk & Hpl & Hs).
    assert (promote_pin b a <-> slot_key a = (pkg_id, platform) /\ builds.status a = WaitingForDeps)
      as Hiff; [|by destruct (decide _), (decide _); tauto].
    split.
    + intros [Hid Has]. assert (a = b) as -> by (by apply (ids_inj (t_builds d)); [apply Hwf|..]).
      by rewrite slot_key_eq.
    + intros [[Hpk' Hpl']%slot_key_eq Has]. assert (a = b) as ->; [|done].
      apply (waiting_unique d); try done.
      * unfold slot_key. congruence.
      * by apply elem_of_IN_PROGRESS; rewrite Has.
      * by apply elem_of_IN_PROGRESS; rewrite Hs.
  - cbn [snd]. rewrite <- (list_fmap_id (t_builds d)) at 1. apply list_fmap_ext.
    intros i a Ha%list_elem_of_lookup_2. rewrite decide_False; [done|].
    intros [[Hpk Hpl]%slot_key_eq Hs]. by apply (head_filter_None _ _ Hb a Ha).
Qed.

Lemma demoted_requeued pkg_id platform d :
  requeued pkg_id platform Enqueued WaitingForDeps d (demoted_db pkg_id platform d).2.
Proof.
  unfold requeued, demoted_db.
  assert (forall a, demote_pin pkg_id platform a <->
            slot_key a = (pkg_id, platform) /\ builds.status a = Enqueued) as Hiff.
  { intros a. unfold demote_pin. rewrite slot_key_eq. tauto. }
  case_decide as Hf; cbn [snd].
  - rewrite <- (list_fmap_id (t_builds d)) at 1. apply list_fmap_ext.
    intros i a Ha%list_elem_of_lookup_2. rewrite decide_False; [done|]. rewrite <- Hiff.
    by apply (proj1 (filter_nil_iff _ _) Hf).
  - rewrite written_builds. apply list_fmap_ext. intros i a Ha. specialize (Hiff a).
    by destruct (decide _), (decide _); tauto.
Qed.

(** Promoting: over any connection, either an error and nothing written, or
    the package's build for the platform that waits for its dependencies - and
    no other row, whatever state it is in - becomes claimable and is answered;
    nothing is answered exactly when none waits. *)
Theorem promote_moves_the_waiting_build pkg_id platform left d :
  Inv d ->
  let o := promote_waiting_build pkg_id platform left d in
  Inv (o_db o) /\
  match o_result o with
  | Err _ => o_db o = d
  | Ok (Some b) =>
      requeued pkg_id platform WaitingForDeps Enqueued d (o_db o) /\
      b ∈ t_builds (o_db o) /\ slot_key b = (pkg_id, platform) /\ builds.status b = Enqueued
  | Ok None =>
      o_db o = d /\ forall b, b ∈ t_builds d -> slot_key b = (pkg_id, platform) ->
                      builds.status b <> WaitingForDeps
  end.
Proof.
  intros Hd. pose proof (inv_wf d Hd) as Hwf. simpl.
  pose proof (promoted_inv pkg_id platform d Hd) as Hinv.
  pose proof (promoted_requeued pkg_id platform d Hwf) as Hreq.
  destruct (atomic_run (promote_waiting_build pkg_id platform) left d _ _
    (run_promote pkg_id platform d Hwf)) as [(e & -> & ->)|[-> ->]]; [done|].
  split; [done|]. revert Hreq. unfold promoted_db.
  destruct (waiting_row _ _ _) as [b|] eqn:Hb; cbn [fst snd]; intros Hreq.
  - split; [done|]. apply head_filter_elem in Hb as (Hb & Hpk & Hpl & Hs).
    split; [|by rewrite slot_key_eq]. rewrite Hreq. apply list_elem_of_fmap. exists b.
    split; [|done]. by rewrite decide_True by (by rewrite slot_key_eq).
  - split; [done|]. intros b Hin [Hpk Hpl]%slot_key_eq Hs.
    by apply (head_filter_None _ _ Hb b Hin).
Qed.

Lemma promote_moves_the_waiting_build_witness :
  let o := promote_waiting_build 3 x86 None demo_db in
  (Inv demo_db /\ Inv (o_db o)) /\ is_ok (o_result o) = true /\
  builds.status <$> t_builds (o_db o) = [Enqueued; Active; Successful; Enqueued; Publishing].
Proof.
  split.
  - split; [apply demo_inv|].
    destruct (promote_moves_the_waiting_build 3 x86 None demo_db demo_inv) as [H _]. exact H.
  - split; vm_compute; reflexivity.
Defined.

(** Demoting: over any connection, either an error and nothing written, or
    the queued build of the package and platform goes back to waiting - a build
    a worker already holds is never taken from it - and the answer says whether
    there was one. *)
Theorem demote_moves_the_queued_build pkg_id platform left d :
  Inv d ->
  let o := demote_enqueued_build pkg_id platform left d in
  Inv (o_db o) /\
  match o_result o with
  | Err _ => o_db o = d
  | Ok Demotion.Demoted =>
      requeued pkg_id platform Enqueued WaitingForDeps d (o_db o) /\
      exists b, b ∈ t_builds d /\ slot_key b = (pkg_id, platform) /\ builds.status b = Enqueued
  | Ok Demotion.Unchanged =>
      o_db o = d /\ forall b, b ∈ t_builds d -> slot_key b = (pkg_id, platform) ->
                      builds.status b <> Enqueued
  end.
Proof.
  intros Hd. pose proof (inv_wf d Hd) as Hwf. simpl.
  pose proof (demoted_inv pkg_id platform d Hd) as Hinv.
  pose proof (demoted_requeued pkg_id platform d) as Hreq.
  destruct (atomic_run (demote_enqueued_build pkg_id platform) left d _ _
    (run_demote pkg_id platform d Hwf)) as [(e & -> & ->)|[-> ->]]; [done|].
  split; [done|]. revert Hreq. unfold demoted_db. case_decide as Hf; cbn [fst snd]; intros Hreq.
  - split; [done|]. intros b Hin [Hpk Hpl]%slot_key_eq Hs.
    by apply (proj1 (filter_nil_iff _ _) Hf b Hin).
  - split; [done|]. destruct (filter _ (t_builds d)) as [|b l] eqn:Hl; [done|].
    assert (b ∈ filter (demote_pin pkg_id platform) (t_builds d)) as Hb by (rewrite Hl; left).
    apply list_elem_of_filter in Hb as ((Hpk & Hpl & Hs) & Hb). exists b. by rewrite slot_key_eq.
Qed.

Lemma demote_moves_the_queued_build_witness :
  let o := demote_enqueued_build 1 x86 None demo_db in
  (Inv demo_db /\ Inv (o_db o)) /\
  o_result o = Ok Demotion.Demoted /\
  o_result (demote_enqueued_build 2 x86 None demo_db) = Ok Demotion.Unchanged.
Proof.
  split.
  - split; [apply demo_inv|].
    destruct (demote_moves_the_queued_build 1 x86 None demo_db demo_inv) as [H _]. exact H.
  - split; vm_compute; reflexivity.
Defined.
