(* ===== verification/WorkerJobs.v ===== *)
(** * Routing and claiming

    [backend/aurcache-db/src/helpers/worker_jobs.rs], the first half: the
    snapshot of the approved fleet, the three routing layers (affinity,
    architecture, priority), the order a worker claims in, the claim itself,
    and the explanation of builds nobody can take. *)
From S2P Require Import Prelude BuildState Sql Schema BuildStatus Invariant.

(** ** The fleet *)

Record WorkerCap := mkWorkerCap {
  cap_id : Z;
  cap_name : string;
  cap_priority : Z;
  cap_concurrency : Z;
  cap_arches : list string;
  cap_last_seen : option Z;
  cap_active : Z;
  cap_paused : bool
}.

Record Fleet := mkFleet {
  fl_workers : list WorkerCap;
  fl_affinity : gmap string (gset Z)
}.

(** The [GROUP BY worker_id] count of [ACTIVE] builds, for one worker; a
    worker with no group counts zero, and an [i64] that does not fit an [i32]
    saturates. *)
Definition active_count (l : list builds.Model) (worker_id : Z) : Z :=
  i32_saturating (Z.of_nat (length (filter
    (fun b => builds.status b = Active /\ builds.worker_id b = Some worker_id) l))).

Definition worker_cap (l : list builds.Model) (row : workers.Model) : WorkerCap :=
  mkWorkerCap (workers.id row) (workers.name row) (workers.priority row)
    (workers.concurrency row) (workers.arches row) (workers.last_seen row)
    (active_count l (workers.id row)) (workers.paused row).

(** [for pkg in row.package_affinity { affinity.entry(pkg).or_default().insert(row.id) }] *)
Definition add_affinity (m : gmap string (gset Z)) (row : workers.Model) : gmap string (gset Z) :=
  foldl (fun m pkg => entry_insert pkg (workers.id row) m) m (workers.package_affinity row).

Definition fleet_of (rows : list workers.Model) (l : list builds.Model) : Fleet :=
  mkFleet (worker_cap l <$> rows) (foldl add_affinity ∅ rows).

Definition approved (row : workers.Model) : Prop := workers.status row = Approved.
#[export] Instance approved_dec row : Decision (approved row).
Proof. unfold approved. apply _. Defined.

(** [Fleet::load]: the approved rows, then the counts. *)
Definition Fleet_load : DB Fleet :=
  rows ← query (fun d => filter approved (t_workers d));
  counts ← query t_builds;
  mret (fleet_of rows counts).

Module Fleet.
(** Sorted, so that the explanation is stable between requests. *)
Definition affinity_holders (f : Fleet) (pkg : string) : list string :=
  match fl_affinity f !! pkg with
  | None => []
  | Some ids => merge_sort String.le
      (cap_name <$> filter (fun w => cap_id w ∈ ids) (fl_workers f))
  end.

Definition worker (f : Fleet) (id : Z) : option WorkerCap :=
  snd <$> list_find (fun w => cap_id w = id) (fl_workers f).

Definition reserved (f : Fleet) (pkg : string) : bool :=
  match fl_affinity f !! pkg with Some _ => true | None => false end.

Definition affine (f : Fleet) (worker_id : Z) (pkg : string) : bool :=
  is_some_and (fun ws : gset Z => bool_decide (worker_id ∈ ws)) (fl_affinity f !! pkg).

Definition arch_ok (w : WorkerCap) (platform : string) : bool :=
  existsb (fun a => bool_decide (a = platform)) (cap_arches w).

Definition capable (f : Fleet) (w : WorkerCap) (platform pkg : string) : bool :=
  arch_ok w platform && (negb (reserved f pkg) || affine f (cap_id w) pkg).
End Fleet.

Definition is_live (last_seen : option Z) (now liveness_timeout : Z) : bool :=
  is_some_and (fun seen => bool_decide (now - seen <= liveness_timeout)%Z) last_seen.

Definition available (w : WorkerCap) (now liveness_timeout : Z) : bool :=
  is_live (cap_last_seen w) now liveness_timeout && negb (cap_paused w) &&
  bool_decide (cap_active w < cap_concurrency w)%Z.

(** Whether a strictly higher-priority worker could take this job right now. *)
Definition blocked (f : Fleet) (me : WorkerCap) (platform pkg : string)
    (now liveness_timeout : Z) : bool :=
  existsb (fun w =>
    negb (bool_decide (cap_id w = cap_id me)) &&
    bool_decide (cap_priority me < cap_priority w)%Z &&
    Fleet.capable f w platform pkg &&
    available w now liveness_timeout) (fl_workers f).

(** ** The claim order *)

Record ClaimRank := mkRank {
  not_affine : bool;
  queued_at : Z;
  rank_id : Z;
  rank_pkg_id : Z
}.

(** The derived [Ord]: field by field, in order. *)
Definition rank_le (a b : ClaimRank) : Prop :=
  if decide (not_affine a = not_affine b) then
    if decide (queued_at a = queued_at b) then
      if decide (rank_id a = rank_id b) then (rank_pkg_id a <= rank_pkg_id b)%Z
      else (rank_id a < rank_id b)%Z
    else (queued_at a < queued_at b)%Z
  else not_affine a = false.
#[export] Instance rank_le_dec a b : Decision (rank_le a b).
Proof. unfold rank_le. repeat case_decide; apply _. Defined.

(** ** [claim_job] *)

(** [package_names]: the pkgbase of each queued build's package. *)
Definition package_names (l : list packages.Model) (queued : list builds.Model) : gmap Z string :=
  collect_map ((fun p => (packages.id p, packages.name p)) <$>
    filter (fun p => packages.id p ∈ (builds.pkg_id <$> queued)) l).

(** The columns the queue scans read of an [ENQUEUED] row are read off the row
    itself. *)
Definition queued_builds (l : list builds.Model) : list builds.Model :=
  filter (fun b => builds.status b = Enqueued) l.

Record claim_params := mkClaimParams {
  lease_ttl_secs : Z;
  spill_delay_secs : Z;
  liveness_timeout_secs : Z
}.

(** The body of the ranking loop: the rank of a build this worker may take. *)
Definition rank_candidate (fleet : Fleet) (me : WorkerCap) (names : gmap Z string)
    (busy_pkgs : list Z) (now : Z) (cp : claim_params) (build : builds.Model) :
    option ClaimRank :=
  pkg ← names !! builds.pkg_id build;
  if decide (builds.pkg_id build ∈ busy_pkgs) then None
  else
    let platform := Platform.as_str (builds.platform build) in
    if Fleet.capable fleet me platform pkg then
      let age := (now - default now (builds.start_time build))%Z in
      if bool_decide (age < spill_delay_secs cp)%Z &&
         blocked fleet me platform pkg now (liveness_timeout_secs cp)
      then None
      else Some (mkRank (negb (Fleet.affine fleet (cap_id me) pkg))
                   (default 0%Z (builds.start_time build)) (builds.id build)
                   (builds.pkg_id build))
    else None.

Definition claim_cols (worker_id now lease_ttl : Z) : list builds.col_expr :=
  [builds.Set_status Active; builds.Set_worker_id (Some worker_id);
   builds.Set_lease_expires_at (Some (now + lease_ttl)%Z); builds.Set_start_time (Some now)].

Definition claim_pin (id : Z) (b : builds.Model) : Prop :=
  builds.id b = id /\ builds.status b = Enqueued.
#[export] Instance claim_pin_dec id b : Decision (claim_pin id b).
Proof. unfold claim_pin. apply _. Defined.

(** The loop over the ranked candidates: the first whose conditional update
    wins is committed. *)
Fixpoint claim_first (ranked : list ClaimRank) (worker_id now lease_ttl : Z) :
    DB (ending (option builds.Model)) :=
  match ranked with
  | [] => mret (EndDrop None)
  | r :: ranked =>
      rows ← update_builds (claim_cols worker_id now lease_ttl) (claim_pin (rank_id r));
      if decide (rows = 1) then
        _ ← refresh_package_status (rank_pkg_id r);
        claimed ← find_build_by_id (rank_id r);
        mret (EndCommit claimed)
      else claim_first ranked worker_id now lease_ttl
  end.

Definition claim_job (worker_id now : Z) (cp : claim_params) : DB (option builds.Model) :=
  transaction (
    fleet ← Fleet_load;
    match option_filter (fun me => negb (cap_paused me)) (Fleet.worker fleet worker_id) with
    | None => mret (EndDrop None)
    | Some me =>
        candidates ← query (fun d => queued_builds (t_builds d));
        if decide (candidates = []) then mret (EndDrop None)
        else
          busy_pkgs ← query (fun d => builds.pkg_id <$>
            filter (fun b => builds.status b = Active /\ builds.worker_id b = Some worker_id)
              (t_builds d));
          names ← query (fun d => package_names (t_packages d) candidates);
          let ranked := merge_sort rank_le
            (omap (rank_candidate fleet me names busy_pkgs now cp) candidates) in
          claim_first ranked worker_id now (lease_ttl_secs cp)
    end).

(** ** [waiting_reasons] *)

Inductive WaitingReason :=
| Paused (names : list string)
| Affinity (names : list string)
| Arch (arch : string)
| Offline.

(** The body of the loop; [None] is ordinary queueing, or a build whose package
    is gone. *)
Definition waiting_reason (fleet : Fleet) (names : gmap Z string) (now liveness_timeout : Z)
    (build : builds.Model) : option WaitingReason :=
  pkg ← names !! builds.pkg_id build;
  let platform := Platform.as_str (builds.platform build) in
  let capable := filter (fun w => Fleet.capable fleet w platform pkg = true) (fl_workers fleet) in
  let live := filter (fun w => is_live (cap_last_seen w) now liveness_timeout = true) capable in
  if existsb (fun w => negb (cap_paused w)) live then None
  else if decide (live <> []) then Some (Paused (merge_sort String.le (cap_name <$> live)))
  else if Fleet.reserved fleet pkg then Some (Affinity (Fleet.affinity_holders fleet pkg))
  else if decide (capable = []) then Some (Arch platform)
  else Some Offline.

Definition waiting_reasons (now liveness_timeout : Z) : DB (gmap Z WaitingReason) :=
  queued ← query (fun d => queued_builds (t_builds d));
  if decide (queued = []) then mret ∅
  else
    fleet ← Fleet_load;
    names ← query (fun d => package_names (t_packages d) queued);
    mret (collect_map (omap (fun b => (builds.id b,.) <$>
      waiting_reason fleet names now liveness_timeout b) queued)).
