(* ===== verification/Claim.v ===== *)
(** * What a claim promises

    The routing rules of [claim_job] stated on the rows themselves
    ([may_claim]), and the theorems that the claim refines them: it takes the
    least-ranked build its worker may take, exactly when there is one, as one
    step that keeps every invariant. *)
From S2P Require Import Prelude BuildState Sql Schema BuildStatus Invariant Fixtures WorkerJobs.

(** ** The rules, on the rows *)

(** Some approved worker names the package. *)
Definition reserved_row (d : database) (pkg : string) : Prop :=
  Exists (fun row => approved row /\ pkg ∈ workers.package_affinity row) (t_workers d).

(** A worker may build the package on the platform at all. *)
Definition capable_row (d : database) (row : workers.Model) (platform : Platform) (pkg : string) :
    Prop :=
  Platform.as_str platform ∈ workers.arches row /\
  (reserved_row d pkg -> pkg ∈ workers.package_affinity row).

Definition available_row (d : database) (now : Z) (cp : claim_params) (row : workers.Model) : Prop :=
  is_live (workers.last_seen row) now (liveness_timeout_secs cp) = true /\
  workers.paused row = false /\
  (active_count (t_builds d) (workers.id row) < workers.concurrency row)%Z.

(** Every worker the build should be left to: strictly higher priority, able
    to build it, and able to take it now. *)
Definition preferred_row (d : database) (now : Z) (cp : claim_params) (me : workers.Model)
    (b : builds.Model) (pkg : string) (row : workers.Model) : Prop :=
  row ∈ t_workers d /\ approved row /\ workers.id row <> workers.id me /\
  (workers.priority me < workers.priority row)%Z /\
  capable_row d row (builds.platform b) pkg /\ available_row d now cp row.

Definition build_age (now : Z) (b : builds.Model) : Z :=
  (now - default now (builds.start_time b))%Z.

Record may_claim (d : database) (now : Z) (cp : claim_params) (me : workers.Model)
    (b : builds.Model) (pkg : string) : Prop := {
  mc_worker : me ∈ t_workers d /\ approved me /\ workers.paused me = false;
  mc_queued : b ∈ t_builds d /\ builds.status b = Enqueued;
  mc_package : exists p, p ∈ t_packages d /\ packages.id p = builds.pkg_id b /\
                 packages.name p = pkg;
  mc_free : forall c, c ∈ t_builds d -> builds.status c = Active ->
              builds.worker_id c = Some (workers.id me) -> builds.pkg_id c <> builds.pkg_id b;
  mc_capable : capable_row d me (builds.platform b) pkg;
  mc_priority : (spill_delay_secs cp <= build_age now b)%Z \/
                forall row, ~ preferred_row d now cp me b pkg row
}.

(** Where it stands in the claim order: jobs reserved for the worker first,
    then the oldest, then the id. *)
Definition claim_rank (me : workers.Model) (b : builds.Model) (pkg : string) : ClaimRank :=
  mkRank (negb (bool_decide (pkg ∈ workers.package_affinity me)))
    (default 0%Z (builds.start_time b)) (builds.id b) (builds.pkg_id b).

(** ** The fleet is its rows *)

Section affinity.
Implicit Types (rows : list workers.Model) (m : gmap string (gset Z)).

Lemma add_affinity_lookup m row pkg :
  (forall i, i ∈ default ∅ (add_affinity m row !! pkg) <->
     i ∈ default ∅ (m !! pkg) \/ i = workers.id row /\ pkg ∈ workers.package_affinity row) /\
  (is_Some (add_affinity m row !! pkg) <->
     is_Some (m !! pkg) \/ pkg ∈ workers.package_affinity row).
Proof.
  unfold add_affinity. revert m.
  induction (workers.package_affinity row) as [|q l IH]; intros m; simpl.
  - setoid_rewrite elem_of_nil. split; [intros i|]; tauto.
  - destruct (IH (entry_insert q (workers.id row) m)) as [IH1 IH2].
    split.
    + intros i. rewrite IH1, lookup_entry_insert, elem_of_cons.
      case_decide; simpl; [|intuition congruence]. subst. set_solver.
    + rewrite IH2, lookup_entry_insert, elem_of_cons.
      case_decide; simpl; [|intuition congruence]. subst. split; [auto|]. eauto.
Qed.

Lemma affinity_lookup rows m pkg :
  (forall i, i ∈ default ∅ (foldl add_affinity m rows !! pkg) <->
     i ∈ default ∅ (m !! pkg) \/
     exists row, row ∈ rows /\ workers.id row = i /\ pkg ∈ workers.package_affinity row) /\
  (is_Some (foldl add_affinity m rows !! pkg) <->
     is_Some (m !! pkg) \/ exists row, row ∈ rows /\ pkg ∈ workers.package_affinity row).
Proof.
  revert m; induction rows as [|row rows IH]; intros m; simpl.
  - setoid_rewrite elem_of_nil. split; [intros i|]; split; [auto|intros [?|(?&?&_)]|auto|intros [?|(?&?&_)]]; done.
  - destruct (IH (add_affinity m row)) as [IH1 IH2].
    destruct (add_affinity_lookup m row pkg) as [A1 A2]. setoid_rewrite elem_of_cons. split.
    + intros i. rewrite IH1, A1. split.
      * intros [[?|[-> ?]]|(r&?&?&?)]; [by left|right; by exists row; auto|right; exists r; auto].
      * intros [?|(r&[->|?]&<-&?)]; [by do 2 left|left; by right|right; by exists r].
    + rewrite IH2, A2. split.
      * intros [[?|?]|(r&?&?)]; [by left|right; exists row; auto|right; exists r; auto].
      * intros [?|(r&[->|?]&?)]; [by do 2 left|left; by right|right; by exists r].
Qed.
End affinity.

(** The fleet of a database. *)
Definition db_fleet (d : database) : Fleet := fleet_of (filter approved (t_workers d)) (t_builds d).

Lemma run_fleet_load d : run Fleet_load d = (Ok (db_fleet d), d).
Proof. done. Qed.

Lemma reserved_spec d pkg : Fleet.reserved (db_fleet d) pkg = true <-> reserved_row d pkg.
Proof.
  unfold Fleet.reserved, reserved_row. simpl.
  destruct (affinity_lookup (filter approved (t_workers d)) ∅ pkg) as [_ Hr].
  rewrite Exists_exists. transitivity (is_Some (foldl add_affinity ∅ (filter approved (t_workers d)) !! pkg)).
  - destruct (foldl _ _ _ !! pkg); split; done.
  - rewrite Hr, lookup_empty. setoid_rewrite list_elem_of_filter. split.
    + intros [[??]|(r&[??]&?)]; [done|]. by exists r.
    + intros (r&?&?&?). right. by exists r.
Qed.

Lemma affine_spec d me pkg :
  wf d -> me ∈ t_workers d -> approved me ->
  Fleet.affine (db_fleet d) (workers.id me) pkg = true <-> pkg ∈ workers.package_affinity me.
Proof.
  intros Hwf Hme Happ. unfold Fleet.affine. simpl.
  destruct (affinity_lookup (filter approved (t_workers d)) ∅ pkg) as [Ha _].
  specialize (Ha (workers.id me)). rewrite lookup_empty in Ha. simpl in Ha.
  transitivity (workers.id me ∈
    default ∅ (foldl add_affinity ∅ (filter approved (t_workers d)) !! pkg)).
  - destruct (foldl _ _ _ !! pkg) as [ws|]; [apply (bool_decide_eq_true (_ ∈ ws))|].
    split; [done|]. by intros ?%not_elem_of_empty.
  - rewrite Ha. setoid_rewrite list_elem_of_filter. split.
    + intros [?|(r&[??]&Hid&?)]; [by destruct (not_elem_of_empty (C := gset Z) (workers.id me))|].
      assert (r = me) as ->; [|done].
      apply (NoDup_fmap_inj_elem workers.id (t_workers d)); [apply Hwf|done..].
    + intros ?. right. by exists me.
Qed.

Lemma arch_ok_spec l row platform :
  Fleet.arch_ok (worker_cap l row) platform = true <-> platform ∈ workers.arches row.
Proof.
  unfold Fleet.arch_ok. rewrite existsb_exists. setoid_rewrite bool_decide_eq_true. simpl.
  split; [by intros (a & ?%list_elem_of_In & ->)|]. intros ?. exists platform.
  by rewrite <- list_elem_of_In.
Qed.

Lemma capable_spec d me platform pkg :
  wf d -> me ∈ t_workers d -> approved me ->
  Fleet.capable (db_fleet d) (worker_cap (t_builds d) me) (Platform.as_str platform) pkg = true <->
  capable_row d me platform pkg.
Proof.
  intros Hwf Hme Happ. unfold Fleet.capable, capable_row.
  rewrite andb_true_iff, arch_ok_spec, orb_true_iff, negb_true_iff.
  rewrite (affine_spec d me pkg) by done.
  pose proof (reserved_spec d pkg) as Hr. destruct (Fleet.reserved (db_fleet d) pkg).
  - intuition discriminate.
  - assert (~ reserved_row d pkg) by (intros ?%Hr; done). tauto.
Qed.

Lemma available_spec d now cp row :
  available (worker_cap (t_builds d) row) now (liveness_timeout_secs cp) = true <->
  available_row d now cp row.
Proof.
  unfold available, available_row. rewrite !andb_true_iff, negb_true_iff, bool_decide_eq_true.
  simpl. tauto.
Qed.

Lemma blocked_spec d me b pkg now cp :
  wf d ->
  blocked (db_fleet d) (worker_cap (t_builds d) me) (Platform.as_str (builds.platform b)) pkg now
    (liveness_timeout_secs cp) = true <->
  exists row, preferred_row d now cp me b pkg row.
Proof.
  intros Hwf. unfold blocked. rewrite existsb_exists. split.
  - intros (w & Hw%list_elem_of_In & Hb). simpl in Hw.
    apply list_elem_of_fmap in Hw as (row & -> & [Happ Hrow]%list_elem_of_filter).
    rewrite !andb_true_iff, negb_true_iff, bool_decide_eq_true, bool_decide_eq_false in Hb.
    destruct Hb as [[[Hid Hprio] Hcap] Hav]. exists row.
    rewrite available_spec in Hav. rewrite capable_spec in Hcap by done.
    by repeat split; try apply Hcap; try apply Hav.
  - intros (row & Hrow & Happ & Hid & Hprio & Hcap & Hav).
    exists (worker_cap (t_builds d) row). split.
    + apply list_elem_of_In. simpl. apply list_elem_of_fmap_2. by apply list_elem_of_filter.
    + rewrite !andb_true_iff, negb_true_iff, bool_decide_eq_true, bool_decide_eq_false.
      by rewrite available_spec, capable_spec.
Qed.

(** ** The claim, as a function of the database *)

Definition busy_pkgs_of (l : list builds.Model) (worker_id : Z) : list Z :=
  builds.pkg_id <$>
    filter (fun b => builds.status b = Active /\ builds.worker_id b = Some worker_id) l.

Definition ranked_candidates (d : database) (me : WorkerCap) (now : Z) (cp : claim_params) :
    list ClaimRank :=
  merge_sort rank_le
    (omap (rank_candidate (db_fleet d) me
             (package_names (t_packages d) (queued_builds (t_builds d)))
             (busy_pkgs_of (t_builds d) (cap_id me)) now cp)
       (queued_builds (t_builds d))).

(** The approved worker asking, when it is not paused. *)
Definition claimant (d : database) (worker_id : Z) : option WorkerCap :=
  option_filter (fun me => negb (cap_paused me)) (Fleet.worker (db_fleet d) worker_id).

Definition claim_db (worker_id now : Z) (cp : claim_params) (d : database) :
    option builds.Model * database :=
  match claimant d worker_id with
  | None => (None, d)
  | Some me =>
      match ranked_candidates d me now cp with
      | [] => (None, d)
      | r :: _ =>
          let d' := written (rank_pkg_id r) (claim_cols worker_id now (lease_ttl_secs cp))
                      (claim_pin (rank_id r)) d in
          (head (filter (fun b => builds.id b = rank_id r) (t_builds d')), d')
      end
  end.

Lemma package_names_lookup l queued i pkg :
  NoDup (packages.id <$> l) ->
  package_names l queued !! i = Some pkg <->
  i ∈ (builds.pkg_id <$> queued) /\
  exists p, p ∈ l /\ packages.id p = i /\ packages.name p = pkg.
Proof.
  intros Hnd. unfold package_names.
  set (k := filter (fun p => packages.id p ∈ (builds.pkg_id <$> queued)) l).
  assert (NoDup (packages.id <$> k)) as Hk.
  { eapply sublist_NoDup; [exact Hnd|]. apply fmap_sublist, sublist_filter. }
  rewrite collect_map_lookup by (by rewrite <- list_fmap_compose).
  rewrite list_elem_of_fmap. unfold k. setoid_rewrite list_elem_of_filter. split.
  - intros (p & [= -> ->] & ? & ?). eauto.
  - intros (? & p & ? & <- & <-). by exists p.
Qed.

Lemma busy_spec l w i :
  i ∈ busy_pkgs_of l w <->
  exists c, c ∈ l /\ builds.status c = Active /\ builds.worker_id c = Some w /\ builds.pkg_id c = i.
Proof.
  unfold busy_pkgs_of. rewrite list_elem_of_fmap. setoid_rewrite list_elem_of_filter. split.
  - intros (c & -> & [??] & ?). by exists c.
  - intros (c & ? & ? & ? & <-). by exists c.
Qed.

(** The loop's body keeps a build exactly when the rules allow it. *)
Lemma rank_candidate_spec d me b now cp r :
  wf d -> me ∈ t_workers d -> approved me -> workers.paused me = false ->
  b ∈ queued_builds (t_builds d) ->
  rank_candidate (db_fleet d) (worker_cap (t_builds d) me)
    (package_names (t_packages d) (queued_builds (t_builds d)))
    (busy_pkgs_of (t_builds d) (workers.id me)) now cp b = Some r <->
  exists pkg, may_claim d now cp me b pkg /\ r = claim_rank me b pkg.
Proof.
  intros Hwf Hme Happ Hpaused Hb.
  pose proof Hb as [Hq Hbin]%list_elem_of_filter.
  assert (builds.pkg_id b ∈ (builds.pkg_id <$> queued_builds (t_builds d))) as Hbq
    by by apply list_elem_of_fmap_2.
  assert (forall pkg, claim_rank me b pkg =
    mkRank (negb (Fleet.affine (db_fleet d) (workers.id me) pkg))
      (default 0%Z (builds.start_time b)) (builds.id b) (builds.pkg_id b)) as Hrank.
  { intros pkg. unfold claim_rank. do 2 f_equal. apply eq_true_iff_eq.
    by rewrite bool_decide_eq_true, affine_spec. }
  unfold rank_candidate. destruct (package_names _ _ !! _) as [pkg|] eqn:Hpkg; simpl.
  2:{ split; [done|]. intros (pkg & [_ _ (p & Hp & Hid & Hname) _ _ _] & _).
      assert (Some pkg = None) by (rewrite <- Hpkg; symmetry; apply package_names_lookup;
        [apply Hwf|split; [done|by exists p]]). done. }
  pose proof Hpkg as Hpkg'. apply package_names_lookup in Hpkg' as [_ Hp]; [|apply Hwf].
  assert (forall pkg', may_claim d now cp me b pkg' -> pkg' = pkg) as Huniq.
  { intros pkg' [_ _ (p' & Hp' & Hid' & <-) _ _ _]. destruct Hp as (p & Hp & Hid & <-).
    f_equal. apply (NoDup_fmap_inj_elem packages.id (t_packages d)); [apply Hwf|done|done|congruence]. }
  assert (may_claim d now cp me b pkg <->
    builds.pkg_id b ∉ busy_pkgs_of (t_builds d) (workers.id me) /\
    capable_row d me (builds.platform b) pkg /\
    ((spill_delay_secs cp <= build_age now b)%Z \/
       forall row, ~ preferred_row d now cp me b pkg row)) as Hmay.
  { split.
    - intros [_ _ _ Hfree Hcap Hprio]. split; [|done]. rewrite busy_spec.
      intros (c & ? & ? & ? & ?). by apply (Hfree c).
    - intros (Hbusy & Hcap & Hprio). split; try done.
      intros c ? ? ? ?. apply Hbusy. rewrite busy_spec. by exists c. }
  transitivity (may_claim d now cp me b pkg /\ r = claim_rank me b pkg).
  2:{ split; [eauto|]. intros (pkg' & Hm & ->). by rewrite <- (Huniq pkg' Hm). }
  rewrite Hmay, Hrank. case_decide as Hbusy; [split; [done|tauto]|].
  destruct (Fleet.capable _ _ _ _) eqn:Hcap.
  2:{ split; [done|]. intros [(_ & Hc & _) _]. apply capable_spec in Hc; [|done..]. congruence. }
  apply capable_spec in Hcap; [|done..].
  destruct (bool_decide _ && _) eqn:Hblk.
  - apply andb_true_iff in Hblk as [Hage Hblk]. apply bool_decide_eq_true in Hage.
    apply blocked_spec in Hblk as [row Hrow]; [|done]. split; [done|].
    intros [(_ & _ & [Hs|Hnone]) _]; [unfold build_age in Hs; lia|by destruct (Hnone row)].
  - split; [intros [= <-]|by intros [_ ->]]. split; [|done]. repeat split; try done; [apply Hcap..|].
    apply andb_false_iff in Hblk as [Hage|Hblk].
    + apply bool_decide_eq_false in Hage. left. unfold build_age. lia.
    + right. intros row Hrow. assert (blocked (db_fleet d) (worker_cap (t_builds d) me)
        (Platform.as_str (builds.platform b)) pkg now (liveness_timeout_secs cp) = true);
        [|congruence]. apply blocked_spec; eauto.
Qed.

#[export] Instance rank_le_total : Total rank_le.
Proof.
  intros [p q i k] [p' q' i' k']. unfold rank_le; simpl.
  destruct p, p'; repeat case_decide; simplify_eq; try tauto; try lia; auto.
Qed.
#[export] Instance rank_le_trans : Transitive rank_le.
Proof.
  intros [p q i k] [p' q' i' k'] [p'' q'' i'' k'']. unfold rank_le; simpl.
  destruct p, p', p''; simpl; repeat case_decide; simplify_eq; try done; try lia.
Qed.
#[export] Instance rank_le_antisymm : AntiSymm (=) rank_le.
Proof.
  intros [p q i k] [p' q' i' k']. unfold rank_le; simpl.
  destruct p, p'; simpl; repeat case_decide; simplify_eq; try done; try lia.
  all: intros ??; f_equal; lia.
Qed.

Lemma claimant_spec d w cap :
  wf d ->
  claimant d w = Some cap <->
  exists me, me ∈ t_workers d /\ approved me /\ workers.paused me = false /\
    workers.id me = w /\ cap = worker_cap (t_builds d) me.
Proof.
  intros Hwf. unfold claimant. rewrite option_filter_Some, negb_true_iff.
  unfold Fleet.worker. simpl. rewrite fmap_Some. split.
  - intros [([i c] & Hfind & ->) Hpaused]. simpl in *.
    apply list_find_Some in Hfind as (Hl & Hid & _).
    apply list_elem_of_lookup_2, list_elem_of_fmap in Hl as (me & -> & [Happ Hme]%list_elem_of_filter).
    by exists me.
  - intros (me & Hme & Happ & Hpaused & Hid & ->). split; [|done].
    assert (worker_cap (t_builds d) me ∈ (worker_cap (t_builds d) <$> filter approved (t_workers d)))
      as Hin by (apply list_elem_of_fmap_2; by apply list_elem_of_filter).
    destruct (list_find_elem_of (fun c => cap_id c = w) _ _ Hin Hid) as [[i c] Hfind].
    exists (i, c). split; [done|].
    apply list_find_Some in Hfind as (Hl & Hcid & _).
    apply list_elem_of_lookup_2, list_elem_of_fmap in Hl as (you & -> & [Happ' Hyou]%list_elem_of_filter).
    simpl in *. f_equal. apply (NoDup_fmap_inj_elem workers.id (t_workers d));
      [apply Hwf|done|done|congruence].
Qed.

Lemma elem_of_ranked d me now cp r :
  wf d -> me ∈ t_workers d -> approved me -> workers.paused me = false ->
  r ∈ ranked_candidates d (worker_cap (t_builds d) me) now cp <->
  exists b pkg, may_claim d now cp me b pkg /\ r = claim_rank me b pkg.
Proof.
  intros Hwf Hme Happ Hp. unfold ranked_candidates.
  rewrite (merge_sort_Permutation rank_le), list_elem_of_omap. split.
  - intros (b & Hb & Hr). apply rank_candidate_spec in Hr as (pkg & ? & ?); [|done..]. eauto.
  - intros (b & pkg & Hm & ->). exists b.
    assert (b ∈ queued_builds (t_builds d)) as Hb.
    { destruct Hm as [_ [? ?] _ _ _ _]. by apply list_elem_of_filter. }
    split; [done|]. apply rank_candidate_spec; eauto.
Qed.

Lemma claim_good b w now ttl d :
  wf d -> b ∈ t_builds d -> builds.status b = Enqueued ->
  good_write (builds.pkg_id b) (claim_cols w now ttl) (claim_pin (builds.id b)) d.
Proof.
  intros [[Hi _ _] _ _ _ _] Hb Hs. split.
  - intros a Ha [Hid _]. by rewrite (ids_inj _ a b Hi Ha Hb Hid).
  - intros a _ [_ Ha] _. unfold in_progress. rewrite Ha. by apply elem_of_IN_PROGRESS.
  - intros a _ [_ Ha]. unfold lifecycle_ok. rewrite Ha. simpl. intros (_ & _ & -> & -> & ->).
    repeat split; by eexists.
  - intros a _ [_ Ha]. split; [by rewrite Ha|done].
Qed.

#[export] Instance claim_first_transparent l w now ttl : Transparent (claim_first l w now ttl).
Proof. induction l; simpl; sql_class. Qed.
#[export] Instance claim_first_steady l w now ttl : Steady (claim_first l w now ttl).
Proof. induction l; simpl; sql_class. Qed.
#[export] Instance Fleet_load_transparent : Transparent Fleet_load.
Proof. unfold Fleet_load. sql_class. Qed.
#[export] Instance Fleet_load_steady : Steady Fleet_load.
Proof. unfold Fleet_load. sql_class. Qed.
#[export] Instance claim_job_transparent w now cp : Transparent (claim_job w now cp).
Proof. unfold claim_job. sql_class. Qed.
#[export] Instance claim_job_steady w now cp : Steady (claim_job w now cp).
Proof. unfold claim_job. sql_class. Qed.

#[export] Instance claim_job_atomic w now cp : Atomic (claim_job w now cp).
Proof. unfold claim_job. sql_class. Qed.

(** The first candidate's compare-and-swap wins: nothing moves the row between
    the read and the write of one transaction. *)
Lemma run_claim_first r l w now ttl d b :
  wf d -> b ∈ t_builds d -> builds.status b = Enqueued ->
  rank_id r = builds.id b -> rank_pkg_id r = builds.pkg_id b ->
  run (claim_first (r :: l) w now ttl) d =
    let d' := written (rank_pkg_id r) (claim_cols w now ttl) (claim_pin (rank_id r)) d in
    (Ok (EndCommit (head (filter (fun b => builds.id b = rank_id r) (t_builds d')))), d').
Proof.
  intros Hwf Hb Hs Hid Hpk. pose proof (claim_good b w now ttl d Hwf Hb Hs) as Hgw.
  cbn [claim_first]. unfold mbind, sql_mbind. rewrite run_bind by apply _.
  rewrite Hid, Hpk. rewrite run_update_builds by (eapply good_write_indexes; [apply Hwf|done]).
  assert (filter (claim_pin (builds.id b)) (t_builds d) = [b]) as ->.
  { rewrite <- (head_filter_id (t_builds d) b) by (apply Hwf || done).
    apply filter_ext_elem. intros a Ha. unfold claim_pin. split; [tauto|]. intros Hab.
    split; [done|]. by rewrite (ids_inj (t_builds d) a b) by (apply Hwf || done). }
  cbn [length]. rewrite decide_True by done. rewrite run_bind by apply _. rewrite run_refresh.
  rewrite run_bind by apply _. unfold find_build_by_id, find_build_where. rewrite run_query.
  done.
Qed.

Lemma run_claim_job w now cp d :
  wf d -> run (claim_job w now cp) d = (Ok (claim_db w now cp d).1, (claim_db w now cp d).2).
Proof.
  intros Hwf. unfold claim_job, claim_db. rewrite run_transaction by sql_class.
  unfold mbind, sql_mbind. rewrite run_bind by apply _. rewrite run_fleet_load.
  change (option_filter _ _) with (claimant d w).
  destruct (claimant d w) as [cap|] eqn:Hcap; [|done].
  apply (claimant_spec _ _ _ Hwf) in Hcap as (me & Hme & Happ & Hp & Hid & ->).
  rewrite run_bind by apply _. rewrite run_query. case_decide as Hempty.
  { unfold ranked_candidates. rewrite Hempty. done. }
  rewrite run_bind by apply _. rewrite run_query. rewrite run_bind by apply _. rewrite run_query.
  cbv zeta. subst w.
  change (merge_sort rank_le _) with
    (ranked_candidates d (worker_cap (t_builds d) me) now cp).
  destruct (ranked_candidates d _ now cp) as [|r l] eqn:Hr; [done|].
  assert (r ∈ ranked_candidates d (worker_cap (t_builds d) me) now cp) as Hin by (rewrite Hr; left).
  apply elem_of_ranked in Hin as (b & pkg & [_ [Hb Hs] _ _ _ _] & ->); [|done..].
  by rewrite (run_claim_first _ _ _ _ _ d b).
Qed.

(** ** The claim meets its specification *)

(** The row a claim hands its worker. *)
Definition claimed_row (w now : Z) (cp : claim_params) (b : builds.Model) : builds.Model :=
  builds.assign (claim_cols w now (lease_ttl_secs cp)) b.

Lemma claim_db_Some w now cp d b' d' :
  Inv d -> claim_db w now cp d = (Some b', d') ->
  exists me b pkg, workers.id me = w /\ may_claim d now cp me b pkg /\
    b' = claimed_row w now cp b /\ b' ∈ t_builds d' /\
    d' = written (builds.pkg_id b) (claim_cols w now (lease_ttl_secs cp))
           (claim_pin (builds.id b)) d /\
    (forall c q, may_claim d now cp me c q -> rank_le (claim_rank me b pkg) (claim_rank me c q)).
Proof.
  intros Hd. pose proof (inv_wf d Hd) as Hwf. unfold claim_db.
  destruct (claimant d w) as [cap|] eqn:Hcap; [|done].
  apply (claimant_spec _ _ _ Hwf) in Hcap as (me & Hme & Happ & Hp & Hid & ->).
  destruct (ranked_candidates d _ now cp) as [|r l] eqn:Hr; [done|].
  assert (r ∈ ranked_candidates d (worker_cap (t_builds d) me) now cp) as Hin by (rewrite Hr; left).
  apply elem_of_ranked in Hin as (b & pkg & Hm & ->); [|done..].
  pose proof Hm as [_ [Hb Hs] _ _ _ _]. simpl. rewrite written_builds. intros [= Hh <-].
  apply head_filter_elem in Hh as [Hb' Hbid]. pose proof Hb' as Hb''.
  apply elem_of_updated in Hb' as (a & Ha & Heq).
  assert (a = b) as ->.
  { apply (ids_inj (t_builds d)); [apply Hwf|done|done|]. rewrite <- Hbid, Heq.
    case_decide; [|done]. symmetry. apply assign_keys. }
  rewrite decide_True in Heq by done. exists me, b, pkg. split_and!; try done.
  - by rewrite written_builds.
  - intros c q Hc.
    assert (claim_rank me c q ∈ ranked_candidates d (worker_cap (t_builds d) me) now cp) as Hin.
    { apply elem_of_ranked; eauto. }
    pose proof (StronglySorted_merge_sort rank_le (omap (rank_candidate (db_fleet d)
      (worker_cap (t_builds d) me) (package_names (t_packages d) (queued_builds (t_builds d)))
      (busy_pkgs_of (t_builds d) (workers.id me)) now cp) (queued_builds (t_builds d)))) as Hsort.
    fold (ranked_candidates d (worker_cap (t_builds d) me) now cp) in Hsort. rewrite Hr in Hin.
    unfold ranked_candidates in Hr. simpl in Hr. rewrite Hr in Hsort.
    apply elem_of_cons in Hin as [->|Hin]; [destruct (total rank_le (claim_rank me b pkg) (claim_rank me b pkg)); done|].
    apply StronglySorted_inv in Hsort as [_ Hall]. by apply (proj1 (Forall_forall _ _) Hall).
Qed.

Lemma claim_db_None w now cp d d' :
  Inv d -> claim_db w now cp d = (None, d') ->
  d' = d /\ forall me b pkg, workers.id me = w -> ~ may_claim d now cp me b pkg.
Proof.
  intros Hd. pose proof (inv_wf d Hd) as Hwf. unfold claim_db.
  destruct (claimant d w) as [cap|] eqn:Hcap.
  - apply (claimant_spec _ _ _ Hwf) in Hcap as (me & Hme & Happ & Hp & Hid & ->).
    destruct (ranked_candidates d _ now cp) as [|r l] eqn:Hr.
    + intros [= <-]. split; [done|]. intros me' b pkg Hid' Hm.
      assert (me' = me) as ->.
      { destruct Hm as [[Hme' _] _ _ _ _ _].
        apply (NoDup_fmap_inj_elem workers.id (t_workers d)); [apply Hwf|done|done|congruence]. }
      assert (claim_rank me b pkg ∈ ranked_candidates d (worker_cap (t_builds d) me) now cp) as Hin
        by (apply elem_of_ranked; eauto).
      rewrite Hr in Hin. by apply elem_of_nil in Hin.
    + assert (r ∈ ranked_candidates d (worker_cap (t_builds d) me) now cp) as Hin by (rewrite Hr; left).
      apply elem_of_ranked in Hin as (b & pkg & Hm & ->); [|done..].
      pose proof Hm as [_ [Hb Hs] _ _ _ _]. intros [= Hh _].
      exfalso. rewrite written_builds in Hh. simpl in Hh.
      apply (head_filter_None _ _ Hh (claimed_row w now cp b)); [|apply assign_keys].
      apply elem_of_updated. exists b. split; [done|]. by rewrite decide_True.
  - intros [= <-]. split; [done|]. intros me b pkg Hid [(Hme & Happ & Hp) _ _ _ _ _].
    assert (claimant d w = Some (worker_cap (t_builds d) me)); [|congruence].
    apply claimant_spec; [done|]. by exists me.
Qed.

Lemma claim_db_inv w now cp d : Inv d -> Inv (claim_db w now cp d).2.
Proof.
  intros Hd. destruct (claim_db w now cp d) as [[b'|] d'] eqn:Hc; simpl.
  - apply claim_db_Some in Hc as (me & b & pkg & _ & [_ [Hb Hs] _ _ _ _] & _ & _ & -> & _); [|done].
    apply written_inv; [by apply inv_except_of|]. apply claim_good; [apply Hd|done..].
  - by apply claim_db_None in Hc as [-> _].
Qed.

(** ** Explaining what waits *)

(** The approved workers that could build it at all, and those of them up. *)
Definition can_take (d : database) (b : builds.Model) (pkg : string) (row : workers.Model) : Prop :=
  row ∈ t_workers d /\ approved row /\ capable_row d row (builds.platform b) pkg.

Definition up_row (now timeout : Z) (row : workers.Model) : Prop :=
  is_live (workers.last_seen row) now timeout = true.

(** When each explanation is the right one. *)
Definition explains (d : database) (now timeout : Z) (b : builds.Model) (pkg : string)
    (reason : option WaitingReason) : Prop :=
  match reason with
  | None => exists row, can_take d b pkg row /\ up_row now timeout row /\ workers.paused row = false
  | Some (Paused names) =>
      (exists row, can_take d b pkg row /\ up_row now timeout row) /\
      (forall row, can_take d b pkg row -> up_row now timeout row -> workers.paused row = true) /\
      (forall n, n ∈ names <-> exists row, can_take d b pkg row /\ up_row now timeout row /\
                                 workers.name row = n)
  | Some (Affinity names) =>
      (forall row, can_take d b pkg row -> ~ up_row now timeout row) /\ reserved_row d pkg /\
      (forall n, n ∈ names <-> exists row, row ∈ t_workers d /\ approved row /\
                                 pkg ∈ workers.package_affinity row /\ workers.name row = n)
  | Some (Arch arch) =>
      arch = Platform.as_str (builds.platform b) /\ ~ reserved_row d pkg /\
      (forall row, ~ can_take d b pkg row)
  | Some Offline =>
      (forall row, can_take d b pkg row -> ~ up_row now timeout row) /\ ~ reserved_row d pkg /\
      (exists row, can_take d b pkg row)
  end.

Lemma elem_of_capable d b pkg w :
  wf d ->
  w ∈ filter (fun w => Fleet.capable (db_fleet d) w (Platform.as_str (builds.platform b)) pkg = true)
    (fl_workers (db_fleet d)) <->
  exists row, can_take d b pkg row /\ w = worker_cap (t_builds d) row.
Proof.
  intros Hwf. rewrite list_elem_of_filter. simpl. rewrite list_elem_of_fmap.
  setoid_rewrite list_elem_of_filter. split.
  - intros [Hc (row & -> & Happ & Hrow)]. exists row. apply capable_spec in Hc; [|done..].
    by repeat split; try apply Hc.
  - intros (row & (Hrow & Happ & Hc) & ->). split; [by apply capable_spec|by exists row].
Qed.

Lemma holders_spec d pkg n :
  wf d ->
  n ∈ Fleet.affinity_holders (db_fleet d) pkg <->
  exists row, row ∈ t_workers d /\ approved row /\ pkg ∈ workers.package_affinity row /\
    workers.name row = n.
Proof.
  intros Hwf. unfold Fleet.affinity_holders.
  destruct (affinity_lookup (filter approved (t_workers d)) ∅ pkg) as [Ha Hs]. simpl.
  setoid_rewrite list_elem_of_filter in Ha. setoid_rewrite list_elem_of_filter in Hs.
  setoid_rewrite lookup_empty in Ha. setoid_rewrite lookup_empty in Hs.
  destruct (foldl _ _ _ !! pkg) as [ids|] eqn:Hids.
  - rewrite (merge_sort_Permutation String.le), list_elem_of_fmap.
    setoid_rewrite list_elem_of_filter. setoid_rewrite list_elem_of_fmap.
    setoid_rewrite list_elem_of_filter. simpl in Ha. split.
    + intros (w & -> & Hin & row & -> & Happ & Hrow). simpl in *.
      apply Ha in Hin as [Hin|(r & [Happ' Hr] & Hid & Hpkg)];
        [by destruct (not_elem_of_empty (C := gset Z) (workers.id row))|].
      assert (r = row) as ->; [|by exists row].
      apply (NoDup_fmap_inj_elem workers.id (t_workers d)); [apply Hwf|done..].
    + intros (row & Hrow & Happ & Hpkg & <-). exists (worker_cap (t_builds d) row).
      split; [done|]. split; [|by exists row]. apply Ha. right. by exists row.
  - split; [by intros ?%elem_of_nil|]. intros (row & Hrow & Happ & Hpkg & _).
    assert (is_Some (None (A := gset Z))) as [? ?]; [|done]. apply Hs. right. by exists row.
Qed.

Lemma waiting_reason_spec d now timeout names b pkg :
  wf d -> names !! builds.pkg_id b = Some pkg ->
  explains d now timeout b pkg (waiting_reason (db_fleet d) names now timeout b).
Proof.
  intros Hwf Hpkg. unfold waiting_reason. rewrite Hpkg. cbn [mbind option_bind].
  set (cap := filter _ (fl_workers (db_fleet d))).
  assert (forall w, w ∈ cap <-> exists row, can_take d b pkg row /\ w = worker_cap (t_builds d) row)
    as Hcap by (intros w; by apply elem_of_capable).
  set (live := filter _ cap).
  assert (forall w, w ∈ live <-> exists row, can_take d b pkg row /\ up_row now timeout row /\
            w = worker_cap (t_builds d) row) as Hlive.
  { intros w. unfold live. rewrite list_elem_of_filter, Hcap. split.
    - intros [Hl (row & ? & ->)]. by exists row.
    - intros (row & ? & ? & ->). split; [done|]. by exists row. }
  destruct (existsb _ live) eqn:He.
  { apply existsb_exists in He as (w & Hw%list_elem_of_In & Hp). apply Hlive in Hw as (row & ? & ? & ->).
    exists row. split_and!; [done..|]. by apply negb_true_iff in Hp. }
  assert (forall row, can_take d b pkg row -> up_row now timeout row -> workers.paused row = true)
    as Hpaused.
  { intros row Hc Hu. destruct (workers.paused row) eqn:Hp; [done|].
    assert (existsb (fun w => negb (cap_paused w)) live = true); [|congruence].
    apply existsb_exists. exists (worker_cap (t_builds d) row). split; [|simpl; by rewrite Hp].
    apply list_elem_of_In, Hlive. by exists row. }
  case_decide as Hne.
  { split_and!; [|done|].
    - destruct live as [|w l]; [done|].
      destruct (proj1 (Hlive w) (list_elem_of_here w l)) as (row & ? & ? & _). by exists row.
    - intros n. rewrite (merge_sort_Permutation String.le), list_elem_of_fmap. split.
      + intros (w & -> & Hw). apply Hlive in Hw as (row & ? & ? & ->). by exists row.
      + intros (row & ? & ? & <-). exists (worker_cap (t_builds d) row). split; [done|].
        apply Hlive. by exists row. }
  assert (live = []) as Hnil by (by destruct live; [|destruct Hne]).
  assert (forall row, can_take d b pkg row -> ~ up_row now timeout row) as Hoff.
  { intros row Hc Hu. apply (elem_of_nil (worker_cap (t_builds d) row)). rewrite <- Hnil.
    apply Hlive. by exists row. }
  pose proof (reserved_spec d pkg) as Hres. destruct (Fleet.reserved (db_fleet d) pkg).
  { split_and!; [done|by apply Hres|]. intros n. by apply holders_spec. }
  assert (~ reserved_row d pkg) by (intros ?%Hres; done).
  case_decide as Hc.
  - split_and!; [done..|]. intros row Hr. apply (elem_of_nil (worker_cap (t_builds d) row)).
    rewrite <- Hc. apply Hcap. by exists row.
  - split_and!; [done..|]. destruct cap as [|w l]; [done|].
    destruct (proj1 (Hcap w) (list_elem_of_here w l)) as (row & ? & _). by exists row.
Qed.

Definition waiting_db (now timeout : Z) (d : database) : gmap Z WaitingReason :=
  collect_map (omap (fun b => (builds.id b,.) <$>
    waiting_reason (db_fleet d) (package_names (t_packages d) (queued_builds (t_builds d)))
      now timeout b) (queued_builds (t_builds d))).

Lemma run_waiting_reasons now timeout d :
  run (waiting_reasons now timeout) d = (Ok (waiting_db now timeout d), d).
Proof.
  unfold waiting_reasons, waiting_db, mbind, sql_mbind, mret, sql_mret.
  rewrite run_bind by apply _. rewrite run_query. case_decide as Hq; [by rewrite Hq|].
  rewrite run_bind by apply _. rewrite run_fleet_load. rewrite run_bind by apply _.
  by rewrite run_query.
Qed.

Lemma collect_omap_lookup {A} (key : builds.Model -> Z) (f : builds.Model -> option A) l b :
  NoDup (key <$> l) -> b ∈ l ->
  collect_map (omap (fun c => (key c,.) <$> f c) l) !! key b = f b.
Proof.
  intros Hnd Hin.
  assert (NoDup (omap (fun c => (key c,.) <$> f c) l).*1) as Hnd'.
  { clear Hin. induction l as [|c l IH]; csimpl in *; [constructor|].
    apply NoDup_cons in Hnd as [Hc Hl]. destruct (f c); csimpl; [|auto].
    apply NoDup_cons. split; [|auto]. intros Hi. apply Hc.
    apply list_elem_of_fmap in Hi as ([i r] & -> & Hi). apply list_elem_of_omap in Hi as (e & He & Hf).
    destruct (f e); simplify_eq/=. by apply list_elem_of_fmap_2. }
  apply option_eq. intros r. rewrite collect_map_lookup by done. rewrite list_elem_of_omap. split.
  - intros (c & Hc & Hr). destruct (f c) eqn:Hfc; simplify_eq/=.
    by rewrite (NoDup_fmap_inj_elem key l c b) in Hfc by done.
  - intros Hr. exists b. by rewrite Hr.
Qed.

Lemma waiting_lookup now timeout d b :
  wf d -> b ∈ t_builds d -> builds.status b = Enqueued ->
  waiting_db now timeout d !! builds.id b =
    waiting_reason (db_fleet d) (package_names (t_packages d) (queued_builds (t_builds d)))
      now timeout b.
Proof.
  intros Hwf Hb Hs. unfold waiting_db.
  apply (collect_omap_lookup builds.id (waiting_reason _ _ now timeout)).
  - eapply sublist_NoDup; [apply (ids_unique _ (wf_indexes _ Hwf))|].
    apply fmap_sublist, sublist_filter.
  - by apply list_elem_of_filter.
Qed.

(** ** Properties *)

(** What a session of [claim_job] may answer. *)
Definition claim_promise (w now : Z) (cp : claim_params) (d : database)
    (o : outcome database DbErr (option builds.Model)) : Prop :=
  Inv (o_db o) /\
  match o_result o with
  | Ok (Some b') =>
      exists me b pkg, workers.id me = w /\ may_claim d now cp me b pkg /\
        (forall c q, may_claim d now cp me c q ->
           rank_le (claim_rank me b pkg) (claim_rank me c q)) /\
        b' = claimed_row w now cp b /\
        t_builds (o_db o) = (fun a => if decide (builds.id a = builds.id b) then b' else a)
                              <$> t_builds d
  | Ok None =>
      o_db o = d /\ forall me b pkg, workers.id me = w -> ~ may_claim d now cp me b pkg
  | Err _ => o_db o = d
  end.

Lemma claim_written_builds w now ttl b d :
  wf d -> b ∈ t_builds d -> builds.status b = Enqueued ->
  t_builds (written (builds.pkg_id b) (claim_cols w now ttl) (claim_pin (builds.id b)) d) =
    (fun a => if decide (builds.id a = builds.id b)
              then builds.assign (claim_cols w now ttl) b else a) <$> t_builds d.
Proof.
  intros Hwf Hb Hs. rewrite written_builds. unfold updated. apply list_fmap_ext.
  intros i a Ha%list_elem_of_lookup_2. destruct (decide (builds.id a = builds.id b)) as [Hid|Hid].
  - assert (a = b) as -> by (apply (ids_inj (t_builds d)); [apply Hwf|done..]).
    by rewrite decide_True.
  - rewrite decide_False; [done|]. by intros [? _].
Qed.

Lemma claim_job_meets w now cp d left :
  Inv d -> claim_promise w now cp d (claim_job w now cp left d).
Proof.
  intros Hd. pose proof (inv_wf d Hd) as Hwf. unfold claim_promise.
  pose proof (claim_db_inv w now cp d Hd) as Hinv.
  destruct (atomic_run (claim_job w now cp) left d _ _ (run_claim_job w now cp d Hwf))
    as [(e & -> & ->)|[-> ->]]; [done|].
  destruct (claim_db w now cp d) as [a d'] eqn:Hc. simpl in *.
  split; [done|]. destruct a as [b'|].
  - destruct (claim_db_Some _ _ _ _ _ _ Hd Hc) as (me & b & pkg & Hid & Hm & -> & _ & Hd' & Hmin).
    exists me, b, pkg. rewrite Hd'. destruct (mc_queued _ _ _ _ _ _ Hm). split_and!; try done.
    by apply claim_written_builds.
  - by destruct (claim_db_None _ _ _ _ _ Hd Hc) as [-> ?].
Qed.

Lemma grows_claimed w now cp d : Inv d -> grows d (claim_db w now cp d).2.
Proof.
  intros Hd. destruct (claim_db w now cp d) as [[b'|] d'] eqn:Hc; simpl.
  - apply claim_db_Some in Hc as (me & b & pkg & _ & [_ [Hb Hs] _ _ _ _] & _ & _ & -> & _); [|done].
    by apply grows_written, claim_good; [apply Hd|..].
  - by apply claim_db_None in Hc as [-> _].
Qed.

Lemma triple_claim w now cp : triple advances Inv (claim_job w now cp) (fun _ d => Inv d).
Proof.
  apply triple_atomic; [apply _..|]. intros d a d' Hd. rewrite run_claim_job by apply Hd.
  intros [= <- <-]. pose proof (claim_db_inv w now cp d Hd).
  split; [|done]. intros _. split; [done|by apply grows_claimed].
Qed.

(** A sequence of claim requests, each over a connection of its own. *)
Record claim_request := { cr_worker : Z; cr_now : Z; cr_params : claim_params; cr_left : option nat }.

Definition answer_claim (r : claim_request) (d : database) :
    outcome database DbErr (option builds.Model) :=
  claim_job (cr_worker r) (cr_now r) (cr_params r) (cr_left r) d.

Fixpoint answer_claims (rs : list claim_request) (d : database) : list builds.Model :=
  match rs with
  | [] => []
  | r :: rs =>
      let o := answer_claim r d in
      match o_result o with
      | Ok (Some b) => [b]
      | _ => []
      end ++ answer_claims rs (o_db o)
  end.

Definition queued_in (d : database) (id : Z) : Prop :=
  exists b, b ∈ t_builds d /\ builds.id b = id /\ builds.status b = Enqueued.

Lemma answer_claim_queued r d id :
  Inv d -> queued_in (o_db (answer_claim r d)) id ->
  queued_in d id /\
  forall b, o_result (answer_claim r d) = Ok (Some b) -> builds.id b <> id.
Proof.
  intros Hd Hq. destruct (claim_job_meets (cr_worker r) (cr_now r) (cr_params r) d (cr_left r) Hd)
    as [_ Hres]. fold (answer_claim r d) in Hres.
  destruct (o_result (answer_claim r d)) as [[b'|]|].
  - destruct Hres as (me & b & pkg & _ & Hm & _ & -> & Hb). destruct Hq as (c & Hc & Hid & Hs).
    rewrite Hb in Hc. apply list_elem_of_fmap in Hc as (a & -> & Ha). case_decide as Hab; [done|].
    split; [by exists a|]. intros b' [= <-]. rewrite <- Hid. unfold claimed_row.
    rewrite assign_id. congruence.
  - destruct Hres as [Hdb _]. rewrite Hdb in Hq. by split.
  - rewrite Hres in Hq. by split.
Qed.

Lemma answer_claims_queued rs d b :
  Inv d -> b ∈ answer_claims rs d -> queued_in d (builds.id b).
Proof.
  revert d; induction rs as [|r rs IH]; intros d Hd; cbn [answer_claims]; [by intros ?%elem_of_nil|].
  pose proof (claim_job_meets (cr_worker r) (cr_now r) (cr_params r) d (cr_left r) Hd)
    as [Hd' Hres]. fold (answer_claim r d) in *. rewrite elem_of_app. intros [Hb|Hb].
  - destruct (o_result (answer_claim r d)) as [[b'|]|]; try by apply elem_of_nil in Hb.
    apply list_elem_of_singleton in Hb as ->. destruct Hres as (me & c & pkg & _ & Hm & _ & -> & _).
    destruct (mc_queued _ _ _ _ _ _ Hm). exists c. unfold claimed_row. by rewrite assign_id.
  - by apply (answer_claim_queued r d), IH.
Qed.

(** C6. Claiming a job, over a connection that may fail at any statement.
    A worker is handed the least-ranked queued build it may take under the
    routing rules ([may_claim]), the build's row alone becomes [Active], held
    by that worker with a fresh lease, and the package shows it; it is handed
    nothing exactly when it may take nothing, and then, as after any error, the
    database is untouched. The invariant holds after every session. *)
Theorem claim_job_routes w now cp d left :
  Inv d -> claim_promise w now cp d (claim_job w now cp left d).
Proof. apply claim_job_meets. Qed.

Definition demo_params : claim_params := mkClaimParams 60 60 60.

Lemma claim_job_routes_witness :
  Inv demo_db /\ claim_promise 1 1000 demo_params demo_db (claim_job 1 1000 demo_params None demo_db) /\
  o_result (claim_job 1 1000 demo_params None demo_db) =
    Ok (Some (claimed_row 1 1000 demo_params demo_queued)).
Proof.
  split; [apply demo_inv|]. split; [apply (claim_job_routes 1 1000 demo_params demo_db None), demo_inv|].
  vm_compute. reflexivity.
Defined.

(** C4. No double hand-out: over any sequence of claim requests, from any
    workers, with any faults, no build is handed out twice. *)
Theorem claims_exclusive rs d :
  Inv d -> NoDup (builds.id <$> answer_claims rs d).
Proof.
  revert d; induction rs as [|r rs IH]; intros d Hd; cbn [answer_claims]; [constructor|].
  pose proof (claim_job_meets (cr_worker r) (cr_now r) (cr_params r) d (cr_left r) Hd) as [Hd' _].
  fold (answer_claim r d) in Hd'. specialize (IH _ Hd').
  destruct (o_result (answer_claim r d)) as [[b|]|] eqn:Hr; csimpl; [|done..].
  apply NoDup_cons. split; [|done]. intros (c & Hid & Hc)%list_elem_of_fmap.
  apply answer_claims_queued, (answer_claim_queued r d) in Hc as [_ Hne]; [|done..].
  by apply (Hne b).
Qed.

Lemma claims_exclusive_witness :
  let rs := [{| cr_worker := 1; cr_now := 1000; cr_params := demo_params; cr_left := None |};
             {| cr_worker := 2; cr_now := 1000; cr_params := demo_params; cr_left := None |}] in
  NoDup (builds.id <$> answer_claims rs demo_db) /\
  builds.id <$> answer_claims rs demo_db = [1%Z].
Proof.
  split; [apply claims_exclusive, demo_inv|]. vm_compute. reflexivity.
Defined.

(** The package of a queued build, by name. *)
Lemma queued_package_name d b :
  wf d -> b ∈ t_builds d -> builds.status b = Enqueued ->
  exists p, p ∈ t_packages d /\ packages.id p = builds.pkg_id b /\
    package_names (t_packages d) (queued_builds (t_builds d)) !! builds.pkg_id b =
      Some (packages.name p).
Proof.
  intros Hwf Hb Hs. destruct Hwf as [_ Hp Ho _ _]. unfold builds_owned in Ho.
  rewrite Forall_forall in Ho. apply Ho in Hb as Hin. apply list_elem_of_fmap in Hin as (p & Hpid & Hin).
  exists p. split_and!; [done..|]. apply package_names_lookup; [done|].
  split; [|by exists p]. apply (list_elem_of_fmap_2 builds.pkg_id). by apply list_elem_of_filter.
Qed.

(** What the queue page says of a waiting build is why it waits: asked over
    a connection that holds, every queued build with an available worker (up
    and not paused) is left out as ordinary queueing, and every other one is
    explained by the first of pause, reservation, architecture and absence that
    holds of the fleet; nothing else is explained, and nothing is written. *)
Theorem waiting_reasons_explain now timeout d :
  Inv d ->
  exists m, run (waiting_reasons now timeout) d = (Ok m, d) /\
    (forall b, b ∈ t_builds d -> builds.status b = Enqueued ->
       exists p, p ∈ t_packages d /\ packages.id p = builds.pkg_id b /\
         explains d now timeout b (packages.name p) (m !! builds.id b)) /\
    (forall id reason, m !! id = Some reason -> queued_in d id).
Proof.
  intros Hd. pose proof (inv_wf d Hd) as Hwf. exists (waiting_db now timeout d).
  split; [apply run_waiting_reasons|]. split.
  - intros b Hb Hs. destruct (queued_package_name d b Hwf Hb Hs) as (p & Hp & Hpid & Hname).
    exists p. split_and!; [done..|]. rewrite waiting_lookup by done. by apply waiting_reason_spec.
  - intros id reason Hm. apply collect_map_elem in Hm.
    apply list_elem_of_omap in Hm as (b & [Hs Hb]%list_elem_of_filter & Hr).
    destruct (waiting_reason _ _ _ _ b); simplify_eq/=. by exists b.
Qed.

Lemma waiting_reasons_explain_witness :
  Inv demo_db /\
  (exists m, run (waiting_reasons 2000 60) demo_db = (Ok m, demo_db) /\
    (forall b, b ∈ t_builds demo_db -> builds.status b = Enqueued ->
       exists p, p ∈ t_packages demo_db /\ packages.id p = builds.pkg_id b /\
         explains demo_db 2000 60 b (packages.name p) (m !! builds.id b)) /\
    (forall id reason, m !! id = Some reason -> queued_in demo_db id)) /\
  waiting_db 2000 60 demo_db = {[ 1%Z := Offline ]}.
Proof.
  split; [apply demo_inv|]. split; [apply (waiting_reasons_explain 2000 60 demo_db), demo_inv|].
  vm_compute. reflexivity.
Defined.
