(* ===== verification/Leases.v ===== *)
(** * Leases: heartbeat, abandonment and the reaper

    [backend/aurcache-db/src/helpers/worker_jobs.rs], the second half: how a
    lease is renewed, how a build is taken back from a worker that lost it,
    and what is queued in its place. *)
From S2P Require Import Prelude BuildState Sql Schema BuildStatus Invariant Fixtures BuildEnqueue.
Open Scope string_scope. Open Scope list_scope.

Inductive Retry :=
| RetryQueued (build_id : Z)
| RetryAdopted (build_id : Z)
| RetrySpent.
#[export] Instance Retry_eq_dec : EqDecision Retry.
Proof. solve_decision. Defined.

Record Abandoned := mkAbandoned {
  ab_build_id : Z;
  ab_number : Z;
  ab_pkgbase : option string;
  ab_end_reason : EndReason;
  ab_worker_id : option Z;
  ab_retry : Retry
}.

(** [Abandoned::build_ref] *)
Definition ab_build_ref (a : Abandoned) : option BuildRef :=
  pkgbase ← ab_pkgbase a; Some (mkBuildRef pkgbase (ab_number a)).

(** [still_held]: the row is [ACTIVE], under the same owner and the same lease
    revision as when it was read. *)
Definition still_held (observed b : builds.Model) : Prop :=
  builds.id b = builds.id observed /\ builds.status b = Active /\
  builds.worker_id b = builds.worker_id observed /\
  builds.lease_expires_at b = builds.lease_expires_at observed.
#[export] Instance still_held_dec observed b : Decision (still_held observed b).
Proof. unfold still_held. apply _. Defined.

Definition abandon_cols (now : Z) (end_reason : EndReason) : list builds.col_expr :=
  [builds.Set_status Failed; builds.Set_end_time (Some now);
   builds.Set_end_reason (Some end_reason); builds.Set_lease_expires_at None].

(** [ORDER BY number DESC LIMIT max(max_attempts, 1)] of the platform's builds. *)
Definition number_ge (a b : builds.Model) : Prop :=
  (builds.number b < builds.number a \/
   builds.number b = builds.number a /\ builds.id b <= builds.id a)%Z.
#[export] Instance number_ge_dec a b : Decision (number_ge a b).
Proof. unfold number_ge. apply _. Defined.

Definition recent_builds (l : list builds.Model) (pkg_id : Z) (platform : Platform)
    (max_attempts : Z) : list builds.Model :=
  take (Z.to_nat (Z.max max_attempts 1))
    (merge_sort number_ge
       (filter (fun b => builds.pkg_id b = pkg_id /\ builds.platform b = platform) l)).

(** A retry that ended in an abandonment that counts. *)
Definition futile (row : builds.Model) : bool :=
  bool_decide (builds.trigger row = TimeoutRetry) &&
  is_some_and spends_retry (builds.end_reason row).

Definition futile_run (recent : list builds.Model) : nat := length (take_while futile recent).

(** [futile_run < usize::try_from(max_attempts).unwrap_or(0)] *)
Definition budget_left (recent : list builds.Model) (max_attempts : Z) : bool :=
  bool_decide (futile_run recent < Z.to_nat max_attempts).

Definition retry_of (enqueue : EnqueueBuildResult) : Retry :=
  match enq_queued enqueue with
  | Inserted | Promoted => RetryQueued (builds.id (enq_build enqueue))
  | Existing => RetryAdopted (builds.id (enq_build enqueue))
  end.

Definition abandon_build (now : Z) (observed : builds.Model) (end_reason : EndReason)
    (max_attempts : Z) : DB (option Abandoned) :=
  transaction (
    cas ← update_builds (abandon_cols now end_reason) (still_held observed);
    if decide (cas = 0) then mret (EndRollback None)
    else
      pkg ← find_package_by_id (builds.pkg_id observed);
      recent ← query (fun d => recent_builds (t_builds d) (builds.pkg_id observed)
                                 (builds.platform observed) max_attempts);
      retry ←
        match budget_left recent max_attempts, pkg with
        | true, Some pkg =>
            enqueue ← enqueue_build_if_missing (builds.pkg_id observed)
              (builds.platform observed) (default "" (packages.upstream_version pkg)) now
              Pending.Enqueued TimeoutRetry;
            mret (retry_of enqueue)
        | _, _ => mret RetrySpent
        end;
      _ ← refresh_package_status (builds.pkg_id observed);
      mret (EndCommit (Some (mkAbandoned (builds.id observed) (builds.number observed)
        (packages.name <$> pkg) end_reason (builds.worker_id observed) retry)))).

(** [outcome.extend(abandon_build(..)?)]: one turn of the loops below. *)
Definition abandon_one (clock max_attempts : Z) (reason : builds.Model -> EndReason)
    (build : builds.Model) : DB (list Abandoned) :=
  a ← abandon_build clock build (reason build) max_attempts; mret (option_list a).

(** ** [heartbeat] *)

Record HeartbeatOutcome := mkHeartbeat {
  renewed : list Z;
  dropped : list Abandoned;
  cancel_requested : list Z
}.

Definition owned_active (worker_id : Z) (b : builds.Model) : Prop :=
  builds.worker_id b = Some worker_id /\ builds.status b = Active.
#[export] Instance owned_active_dec worker_id b : Decision (owned_active worker_id b).
Proof. unfold owned_active. apply _. Defined.

(** Claimed within its first lease. *)
Definition just_claimed (now lease_ttl : Z) (b : builds.Model) : bool :=
  is_some_and (fun claimed => bool_decide (claimed > now - lease_ttl)%Z) (builds.start_time b).

(** The renewals and the drops of one pass over the owned builds. *)
Definition to_renew (owned : list builds.Model) (reported : list Z) : list Z :=
  builds.id <$> filter (fun b => builds.id b ∈ reported) owned.

Definition to_drop (owned : list builds.Model) (reported : list Z) (now lease_ttl : Z) :
    list builds.Model :=
  filter (fun b => builds.id b ∉ reported /\ just_claimed now lease_ttl b = false) owned.

(** Whether a reported id is something the worker must stop. *)
Definition cancels (worker_id : Z) (rows : list builds.Model) (id : Z) : Prop :=
  match last (filter (fun b => builds.id b = id) rows) with
  | None => True
  | Some b => builds.status b <> Active \/ builds.worker_id b <> Some worker_id
  end.
#[export] Instance cancels_dec worker_id rows id : Decision (cancels worker_id rows id).
Proof. unfold cancels. case_match; apply _. Defined.

(** [now] is the heartbeat's; [clock] what [abandon_build] reads for itself. *)
Definition heartbeat (clock now worker_id : Z) (active_build_ids : list Z)
    (lease_ttl max_attempts : Z) : DB HeartbeatOutcome :=
  owned ← find_builds (owned_active worker_id);
  let renew := to_renew owned active_build_ids in
  dropped ← for_collect (abandon_one clock max_attempts (fun _ => Dropped))
              (to_drop owned active_build_ids now lease_ttl);
  _ ← (if decide (renew = []) then mret 0
       else update_builds [builds.Set_lease_expires_at (Some (now + lease_ttl)%Z)]
              (fun b => builds.id b ∈ renew /\ owned_active worker_id b));
  cancel_requested ←
    (if decide (active_build_ids = []) then mret []
     else
       rows ← find_builds (fun b => builds.id b ∈ active_build_ids);
       mret (filter (cancels worker_id rows) active_build_ids));
  mret (mkHeartbeat renew dropped cancel_requested).

(** ** Revocation *)

Definition abandon_worker_builds (clock worker_id max_attempts : Z) : DB (list Abandoned) :=
  owned ← find_builds (owned_active worker_id);
  for_collect (abandon_one clock max_attempts (fun _ => WorkerRevoked)) owned.

(** ** The reaper *)

Record BuildAges := mkAges {
  age_default : Z;
  age_by_package : gmap Z Z
}.

Definition ages_all (age : Z) : BuildAges := mkAges age ∅.

Definition age_of (ages : BuildAges) (pkg_id : Z) : Z :=
  default (age_default ages) (age_by_package ages !! pkg_id).

Definition age_shortest (ages : BuildAges) : Z :=
  foldl Z.min (age_default ages) (map_to_list (age_by_package ages)).*2.

Definition reap_candidate (now : Z) (ages : BuildAges) (b : builds.Model) : Prop :=
  builds.status b = Active /\
  (is_some_and (fun l => bool_decide (l < now)%Z) (builds.lease_expires_at b) = true \/
   builds.lease_expires_at b = None \/
   is_some_and (fun s => bool_decide (s < now - age_shortest ages)%Z) (builds.start_time b) = true).
#[export] Instance reap_candidate_dec now ages b : Decision (reap_candidate now ages b).
Proof. unfold reap_candidate. apply _. Defined.

(** The backstop deadline outranks the lease. *)
Definition reap_reason (now : Z) (ages : BuildAges) (b : builds.Model) : option EndReason :=
  let over_backstop :=
    is_some_and (fun t => bool_decide (t < now - age_of ages (builds.pkg_id b))%Z)
      (builds.start_time b) in
  let lease_lost :=
    is_none_or (fun expires => bool_decide (expires < now)%Z) (builds.lease_expires_at b) in
  if over_backstop then Some MaxDuration
  else if lease_lost then Some LeaseExpired
  else None.

Definition reap_one (clock : Z) (now max_attempts : Z) (ages : BuildAges) (build : builds.Model) :
    DB (list Abandoned) :=
  match reap_reason now ages build with
  | None => mret []
  | Some end_reason => abandon_one clock max_attempts (fun _ => end_reason) build
  end.

(** As in [heartbeat], [clock] is what [abandon_build] reads for itself. *)
Definition reap_expired_builds (clock now max_attempts : Z) (ages : BuildAges) :
    DB (list Abandoned) :=
  candidates ← find_builds (reap_candidate now ages);
  for_collect (reap_one clock now max_attempts ages) candidates.

(** ** [abandon_build], as a function of the database *)

Definition failed_row (clock : Z) (end_reason : EndReason) (b : builds.Model) : builds.Model :=
  builds.assign (abandon_cols clock end_reason) b.

Definition abandoned_db (clock : Z) (observed : builds.Model) (end_reason : EndReason)
    (max_attempts : Z) (d : database) : option Abandoned * database :=
  if decide (filter (still_held observed) (t_builds d) = []) then (None, d)
  else
    let d1 := with_builds (updated (abandon_cols clock end_reason) (still_held observed)
                             (t_builds d)) d in
    let pkg := head (filter (fun p => packages.id p = builds.pkg_id observed) (t_packages d)) in
    let recent := recent_builds (t_builds d1) (builds.pkg_id observed) (builds.platform observed)
                    max_attempts in
    let '(retry, d2) :=
      match budget_left recent max_attempts, pkg with
      | true, Some pkg =>
          let e := enqueued_db d1 (builds.pkg_id observed) (builds.platform observed)
                     (default "" (packages.upstream_version pkg)) clock
                     Pending.Enqueued TimeoutRetry in
          (retry_of e.1, e.2)
      | _, _ => (RetrySpent, d1)
      end in
    (Some (mkAbandoned (builds.id observed) (builds.number observed) (packages.name <$> pkg)
             end_reason (builds.worker_id observed) retry),
     refreshed (builds.pkg_id observed) d2).

Lemma abandon_good clock observed reason d :
  known observed d ->
  good_write (builds.pkg_id observed) (abandon_cols clock reason) (still_held observed) d.
Proof.
  intros [_ Hk]. split.
  - intros b Hb (Hid & _). destruct (Hk b Hb Hid) as [Hn _]. unfold number_key in Hn. congruence.
  - intros b _ _ Hp. by apply elem_of_IN_PROGRESS in Hp.
  - intros b _ _ _. unfold lifecycle_ok. simpl. split; [done|by eexists].
  - intros b _ (_ & Hs & _). split; [by rewrite Hs|done].
Qed.

#[export] Instance abandon_build_transparent now observed reason n :
  Transparent (abandon_build now observed reason n).
Proof. unfold abandon_build. sql_class. Qed.
#[export] Instance abandon_build_steady now observed reason n :
  Steady (abandon_build now observed reason n).
Proof. unfold abandon_build. sql_class. Qed.

Lemma package_found d pkg_id p :
  head (filter (fun p => packages.id p = pkg_id) (t_packages d)) = Some p ->
  pkg_id ∈ (packages.id <$> t_packages d).
Proof. intros [? <-]%head_filter_elem. by apply list_elem_of_fmap_2. Qed.

Lemma run_abandon clock observed reason n d :
  Inv d -> known observed d ->
  run (abandon_build clock observed reason n) d =
    (Ok (abandoned_db clock observed reason n d).1, (abandoned_db clock observed reason n d).2).
Proof.
  intros Hd Hk. pose proof (abandon_good clock observed reason d Hk) as Hgw.
  pose proof (good_write_except _ _ _ d (inv_except_of _ d Hd) Hgw) as Hd1.
  unfold abandon_build, abandoned_db. rewrite run_transaction by sql_class.
  unfold mbind, sql_mbind, mret, sql_mret. rewrite run_bind by apply _.
  rewrite run_update_builds by (eapply good_write_indexes; [apply Hd|done]).
  destruct (filter (still_held observed) (t_builds d)) as [|x m]; [done|].
  cbn [length]. rewrite !decide_False by done.
  rewrite run_bind by apply _. unfold find_package_by_id. rewrite run_query.
  change (t_packages (with_builds _ d)) with (t_packages d).
  destruct (head (filter (fun p => packages.id p = _) (t_packages d))) as [p|] eqn:Hp.
  - rewrite run_bind by apply _. rewrite run_query. rewrite run_bind by sql_class.
    destruct (budget_left _ n).
    + rewrite run_bind by apply _. rewrite run_enqueue;
        [|apply Hd1|simpl; by eapply package_found].
      rewrite run_ret. rewrite run_bind by apply _. by rewrite run_refresh.
    + rewrite run_ret. rewrite run_bind by apply _. by rewrite run_refresh.
  - rewrite run_bind by apply _. rewrite run_query. rewrite run_bind by sql_class.
    destruct (budget_left _ n); rewrite run_ret, run_bind by apply _; by rewrite run_refresh.
Qed.

(** A fresh attempt, as [abandon_build] queues it. *)
Definition retry_row (d : database) (b : builds.Model) : Prop :=
  builds.status b = Enqueued /\ builds.trigger b = TimeoutRetry /\
  builds.worker_id b = None /\ (next_build_id d <= builds.id b)%Z.

(** What an abandonment leaves: the row failed, everything else as it was, and
    at most one fresh attempt. *)
Lemma abandoned_db_spec clock observed reason n d b :
  Inv d -> known observed d -> b ∈ t_builds d -> still_held observed b ->
  exists a extra,
    (abandoned_db clock observed reason n d).1 = Some a /\
    ab_build_id a = builds.id observed /\ ab_end_reason a = reason /\
    ab_worker_id a = builds.worker_id observed /\
    Inv (abandoned_db clock observed reason n d).2 /\
    t_builds (abandoned_db clock observed reason n d).2 =
      updated (abandon_cols clock reason) (still_held observed) (t_builds d) ++ extra /\
    (next_build_id d <= next_build_id (abandoned_db clock observed reason n d).2)%Z /\
    match ab_retry a with
    | RetryQueued id => exists row, extra = [row] /\ retry_row d row /\ builds.id row = id /\
        slot_key row = slot_key observed
    | RetryAdopted _ => False
    | RetrySpent => extra = []
    end.
Proof.
  intros Hd Hk Hb Hheld. pose proof (abandon_good clock observed reason d Hk) as Hgw.
  pose proof (good_write_except _ _ _ d (inv_except_of _ d Hd) Hgw) as Hd1.
  unfold abandoned_db. rewrite decide_False; [|].
  2:{ intros Hf. by apply (proj1 (filter_nil_iff _ _) Hf b Hb). }
  set (d1 := with_builds _ d) in *. cbv zeta.
  assert (pending_row (t_builds d1) (builds.pkg_id observed) (builds.platform observed) = None)
    as Hnone.
  { destruct (pending_row _ _ _) as [c|] eqn:Hc; [|done]. exfalso.
    apply head_filter_elem in Hc as (Hc & Hpk & Hpl & Hprog). simpl in Hc.
    apply elem_of_updated in Hc as (a & Ha & ->). revert Hprog Hpk Hpl. case_decide as Hh.
    - intros Hprog. by apply elem_of_IN_PROGRESS in Hprog.
    - intros Hprog Hpk Hpl. apply Hh.
      assert (a = b) as ->; [|done]. destruct Hheld as (Hid & Hact & _).
      destruct (proj2 Hk b Hb Hid) as [_ Hslot].
      apply (NoDup_fmap_inj_elem slot_key (filter in_progress (t_builds d))).
      + apply Hd.
      + by apply list_elem_of_filter.
      + apply list_elem_of_filter. split; [|done]. unfold in_progress. rewrite Hact.
        by apply elem_of_IN_PROGRESS.
      + rewrite Hslot. unfold slot_key. congruence. }
  destruct (budget_left _ n); [destruct (head (filter _ (t_packages d))) as [p|] eqn:Hp|].
  - unfold enqueued_db. rewrite Hnone. cbn [fst snd].
    eexists _, [_]. split_and!; [done..| | | |].
    + apply inv_refresh. pose proof (enqueued_inv (builds.pkg_id observed) (builds.platform observed)
        (default "" (packages.upstream_version p)) clock Pending.Enqueued TimeoutRetry d1 Hd1
        (package_found _ _ _ Hp)) as He. unfold enqueued_db in He. by rewrite Hnone in He.
    + cbn. by rewrite !refreshed_builds.
    + cbn. rewrite !refreshed_next. cbn. lia.
    + simpl. eexists. split; [done|]. unfold retry_row. simpl. repeat split; lia.
  - eexists _, []. split_and!; [done..| | | |done].
    + by apply inv_refresh.
    + cbn. by rewrite refreshed_builds, app_nil_r.
    + cbn. rewrite refreshed_next. cbn. lia.
  - eexists _, []. split_and!; [done..| | | |done].
    + by apply inv_refresh.
    + cbn. by rewrite refreshed_builds, app_nil_r.
    + cbn. rewrite refreshed_next. cbn. lia.
Qed.

Lemma abandoned_inv clock observed reason n d :
  Inv d -> known observed d -> Inv (abandoned_db clock observed reason n d).2.
Proof.
  intros Hd Hk. pose proof (abandon_good clock observed reason d Hk) as Hgw.
  pose proof (good_write_except _ _ _ d (inv_except_of _ d Hd) Hgw) as Hd1.
  unfold abandoned_db. case_decide; [done|].
  destruct (budget_left _ n); [destruct (head (filter _ (t_packages d))) as [p|] eqn:Hp|];
    simpl; apply inv_refresh; try done.
  apply enqueued_inv; [done|]. simpl. by eapply package_found.
Qed.

(** ** Loops of abandonments *)

Definition ids_of (l : list builds.Model) : list Z := builds.id <$> l.

(** What taking back every build of [l] leaves. *)
Record abandoned_all (clock : Z) (reason : builds.Model -> EndReason) (l : list builds.Model)
    (out : list Abandoned) (d d' : database) : Prop := {
  aa_inv : Inv d';
  aa_reported : ab_build_id <$> out = ids_of l;
  aa_failed : forall b, b ∈ l -> failed_row clock (reason b) b ∈ t_builds d';
  aa_kept : forall b, b ∈ t_builds d -> builds.id b ∉ ids_of l -> b ∈ t_builds d';
  aa_only : forall b, b ∈ t_builds d' ->
    (b ∈ t_builds d /\ builds.id b ∉ ids_of l) \/
    (exists o, o ∈ l /\ b = failed_row clock (reason o) o) \/ retry_row d b;
  aa_next : (next_build_id d <= next_build_id d')%Z
}.

Lemma failed_row_id clock reason b : builds.id (failed_row clock reason b) = builds.id b.
Proof. apply assign_keys. Qed.

Lemma still_held_same d o b :
  wf d -> o ∈ t_builds d -> builds.status o = Active -> b ∈ t_builds d ->
  still_held o b <-> b = o.
Proof.
  intros Hwf Ho Hact Hb. split.
  - intros (Hid & _). by apply (ids_inj (t_builds d)); [apply Hwf|..].
  - by intros ->.
Qed.

(** One abandonment, in the terms of the loop. *)
Lemma abandon_one_spec clock n reason d o :
  Inv d -> o ∈ t_builds d -> builds.status o = Active ->
  exists out d',
    run (abandon_one clock n reason o) d = (Ok out, d') /\
    abandoned_all clock reason [o] out d d'.
Proof.
  intros Hd Ho Hact. pose proof (inv_wf d Hd) as Hwf.
  destruct (abandoned_db_spec clock o (reason o) n d o Hd (known_elem _ _ Hwf Ho) Ho)
    as (a & extra & Ha & Hid & Hr & Hw & Hinv & Hrows & Hnext & Hretry); [done|].
  exists [a], (abandoned_db clock o (reason o) n d).2. split.
  { unfold abandon_one, mbind, sql_mbind, mret, sql_mret. rewrite run_bind by apply _.
    rewrite run_abandon by (done || by apply known_elem). by rewrite Ha. }
  assert (forall b, b ∈ extra -> retry_row d b) as Hextra.
  { intros b Hb. destruct (ab_retry a); [|done|by rewrite Hretry in Hb; apply elem_of_nil in Hb].
    destruct Hretry as (row & -> & Hrow & _). apply list_elem_of_singleton in Hb. by subst. }
  split; try done.
  - unfold ids_of. csimpl. by rewrite Hid.
  - intros b Hb%list_elem_of_singleton. subst b. rewrite Hrows. apply elem_of_app. left.
    apply elem_of_updated. exists o. split; [done|]. rewrite decide_True; [done|].
    by apply (still_held_same d).
  - intros b Hb Hne. rewrite Hrows. apply elem_of_app. left. apply elem_of_updated.
    exists b. split; [done|]. rewrite decide_False; [done|].
    intros Hh. apply (still_held_same d) in Hh; [|done..]. subst. by apply Hne; left.
  - intros b. rewrite Hrows. intros [Hb|Hb]%elem_of_app; [|by do 2 right; apply Hextra].
    apply elem_of_updated in Hb as (c & Hc & ->). destruct (decide (still_held o c)) as [Hh|Hh].
    + apply (still_held_same d) in Hh; [|done..]. subst. right; left. exists o. split; [left|done].
    + left. split; [done|]. intros Hin%list_elem_of_singleton. apply Hh.
      apply (still_held_same d); [done..|]. by apply (ids_inj (t_builds d)); [apply Hwf|..].
Qed.

Lemma retry_row_later d d' b :
  (next_build_id d <= next_build_id d')%Z -> retry_row d' b -> retry_row d b.
Proof. intros Hle (?&?&?&?). repeat split; try done. lia. Qed.

#[export] Instance abandon_one_transparent clock n reason b :
  Transparent (abandon_one clock n reason b).
Proof. unfold abandon_one. sql_class. Qed.
#[export] Instance abandon_one_steady clock n reason b : Steady (abandon_one clock n reason b).
Proof. unfold abandon_one. sql_class. Qed.

Lemma abandon_each_spec clock n reason l d :
  Inv d -> NoDup (ids_of l) -> Forall (fun b => b ∈ t_builds d /\ builds.status b = Active) l ->
  exists out d',
    run (for_collect (abandon_one clock n reason) l) d = (Ok out, d') /\
    abandoned_all clock reason l out d d'.
Proof.
  revert d; induction l as [|o l IH]; intros d Hd Hnd Hl.
  { exists [], d. split; [done|]. split; try done.
    - by intros b ?%elem_of_nil.
    - intros b Hb. left. split; [done|]. by intros ?%elem_of_nil. }
  apply Forall_cons in Hl as [[Ho Hact] Hl]. unfold ids_of in Hnd. csimpl in Hnd.
  apply NoDup_cons in Hnd as [Hfresh Hnd].
  destruct (abandon_one_spec clock n reason d o Hd Ho Hact) as (out1 & d1 & Hrun1 & H1).
  assert (forall b, b ∈ l -> builds.id b <> builds.id o) as Hne.
  { intros b Hb Heq. apply Hfresh. rewrite <- Heq. by apply list_elem_of_fmap_2. }
  destruct (IH d1) as (out2 & d2 & Hrun2 & H2); [apply H1|done| |].
  { apply Forall_forall. intros b Hb. pose proof (proj1 (Forall_forall _ _) Hl b Hb) as [Hb1 ?].
    split; [|done]. apply (aa_kept _ _ _ _ _ _ H1); [done|].
    intros Hin%list_elem_of_singleton. by apply (Hne b). }
  exists (out1 ++ out2), d2. split.
  { cbn [for_collect]. unfold mbind, sql_mbind, mret, sql_mret in *.
    rewrite run_bind by apply _. rewrite Hrun1. rewrite run_bind by apply _. by rewrite Hrun2. }
  destruct H1 as [I1 R1 F1 K1 O1 N1], H2 as [I2 R2 F2 K2 O2 N2]. split; [done|..].
  - rewrite fmap_app, R1, R2. done.
  - intros b [->|Hb]%elem_of_cons; [|by apply F2]. apply K2; [apply F1; left|].
    by rewrite failed_row_id.
  - intros b Hb Hin. unfold ids_of in Hin. csimpl in Hin. apply not_elem_of_cons in Hin as [Hin1 Hin2].
    apply K2; [|done]. apply K1; [done|]. by intros ?%list_elem_of_singleton.
  - intros b Hb. destruct (O2 b Hb) as [[Hb1 Hb2]|[(c & Hc & ->)|Hb1]].
    + destruct (O1 b Hb1) as [[Hb3 Hb4]|[(c & Hc & ->)|Hb3]].
      * left. split; [done|]. unfold ids_of. csimpl. apply not_elem_of_cons. split; [|done].
        intros Heq. apply Hb4. rewrite Heq. left.
      * right; left. apply list_elem_of_singleton in Hc. subst. exists o. split; [left|done].
      * by do 2 right.
    + right; left. exists c. split; [by right|done].
    + do 2 right. by eapply retry_row_later.
  - lia.
Qed.

(** A row of the database is exactly one of: failed by the loop, or as it was. *)
Lemma abandoned_all_active clock reason l out d d' b :
  abandoned_all clock reason l out d d' -> b ∈ t_builds d' -> builds.status b = Active ->
  b ∈ t_builds d /\ builds.id b ∉ ids_of l.
Proof.
  intros H Hb Hact. destruct (aa_only _ _ _ _ _ _ H b Hb) as [?|[(o & _ & ->)|(Hs & _)]];
    [done|done|congruence].
Qed.

(** ** Reaping *)

Lemma age_shortest_le ages pkg_id : (age_shortest ages <= age_of ages pkg_id)%Z.
Proof.
  unfold age_shortest, age_of.
  assert (forall (l : list Z) a, (foldl Z.min a l <= a /\
    forall x, x ∈ l -> foldl Z.min a l <= x)%Z) as Hmin.
  { induction l as [|y l IH]; intros a; simpl.
    - split; [lia|]. by intros x ?%elem_of_nil.
    - destruct (IH (Z.min a y)) as [H1 H2]. split; [lia|].
      intros x [->|Hx]%elem_of_cons; [lia|auto]. }
  destruct (Hmin (map_to_list (age_by_package ages)).*2 (age_default ages)) as [H1 H2].
  destruct (age_by_package ages !! pkg_id) as [a|] eqn:Ha; simpl; [|done].
  apply H2. apply list_elem_of_fmap. exists (pkg_id, a). split; [done|].
  by apply elem_of_map_to_list.
Qed.

(** The query fetches every build the reaper has a reason to end. *)
Lemma reap_reason_candidate now ages b reason :
  builds.status b = Active -> reap_reason now ages b = Some reason -> reap_candidate now ages b.
Proof.
  unfold reap_reason, reap_candidate. intros Hact. split; [done|].
  pose proof (age_shortest_le ages (builds.pkg_id b)) as Hle.
  destruct (is_some_and _ (builds.start_time b)) eqn:Hs.
  - do 2 right. apply is_some_and_true in Hs as (t & Ht & Hlt).
    apply bool_decide_eq_true in Hlt. apply is_some_and_true. exists t.
    split; [done|]. apply bool_decide_eq_true. lia.
  - destruct (builds.lease_expires_at b) as [e|]; [|by right; left]. simpl in *.
    destruct (bool_decide (e < now)%Z); [by left|done].
Qed.

Definition reap_reason_or (now : Z) (ages : BuildAges) (b : builds.Model) : EndReason :=
  default LeaseExpired (reap_reason now ages b).

(** The reaper's loop is the loop of abandonments over the builds it has a
    reason to end. *)
Lemma run_reap_loop clock now n ages l d :
  Inv d -> NoDup (ids_of l) -> Forall (fun b => b ∈ t_builds d /\ builds.status b = Active) l ->
  run (for_collect (reap_one clock now n ages) l) d =
  run (for_collect (abandon_one clock n (reap_reason_or now ages))
         (filter (fun b => reap_reason now ages b <> None) l)) d.
Proof.
  revert d; induction l as [|o l IH]; intros d Hd Hnd Hl; [done|].
  apply Forall_cons in Hl as [[Ho Hact] Hl]. unfold ids_of in Hnd. csimpl in Hnd.
  apply NoDup_cons in Hnd as [Hfresh Hnd].
  rewrite filter_cons. cbn [for_collect]. unfold mbind, sql_mbind.
  destruct (reap_reason now ages o) as [r|] eqn:Hr.
  - rewrite decide_True by done. cbn [for_collect]. unfold mbind, sql_mbind.
    destruct (abandon_one_spec clock n (reap_reason_or now ages) d o Hd Ho Hact)
      as (out1 & d1 & Hrun1 & H1).
    assert (reap_one clock now n ages o = abandon_one clock n (reap_reason_or now ages) o) as ->.
    { unfold reap_one, abandon_one, reap_reason_or. by rewrite Hr. }
    rewrite !run_bind by sql_class. rewrite Hrun1.
    rewrite run_bind by (apply for_collect_steady; intros b; unfold reap_one; sql_class).
    rewrite run_bind by sql_class. rewrite IH; [done|apply H1|done|].
    apply Forall_forall. intros b Hb. pose proof (proj1 (Forall_forall _ _) Hl b Hb) as [Hb1 ?].
    split; [|done]. apply (aa_kept _ _ _ _ _ _ H1); [done|].
    intros Hin%list_elem_of_singleton. apply Hfresh. rewrite <- Hin. by apply list_elem_of_fmap_2.
  - rewrite decide_False by (intros ?; done).
    rewrite run_bind by (unfold reap_one; sql_class). unfold reap_one at 1. rewrite Hr.
    unfold mret, sql_mret. rewrite run_ret.
    rewrite run_bind by (apply for_collect_steady; intros b; unfold reap_one; sql_class).
    rewrite IH by done. destruct (run _ d) as [[out|e] d']; done.
Qed.

(** ** Sessions *)

#[export] Instance abandon_build_atomic now observed reason n :
  Atomic (abandon_build now observed reason n).
Proof. unfold abandon_build. sql_class. Qed.

Lemma grows_abandoned clock observed reason n d :
  grows d (abandoned_db clock observed reason n d).2.
Proof.
  assert (grows d (with_builds (updated (abandon_cols clock reason) (still_held observed)
    (t_builds d)) d)) as Hg.
  { apply grows_updated. intros b _ (_ & Hs & _). split; [by rewrite Hs|done]. }
  unfold abandoned_db. case_decide; [done|].
  destruct (budget_left _ n); [destruct (head (filter _ (t_packages d))) as [p|]|];
    simpl; apply grows_refreshed; [|exact Hg..].
  eapply grows_trans; [exact Hg|apply grows_enqueued].
Qed.

Lemma triple_abandon clock observed reason n :
  triple advances (knows [observed]) (abandon_build clock observed reason n) (fun _ d => Inv d).
Proof.
  apply triple_atomic; [apply _..|]. intros d a d' [Hd Hk]%knows_one.
  rewrite run_abandon by done. intros [= <- <-].
  pose proof (abandoned_inv clock observed reason n d Hd Hk).
  split; [|done]. intros _. split; [done|apply grows_abandoned].
Qed.

Lemma knows_elem l b d : b ∈ l -> knows l d -> knows [b] d.
Proof.
  intros Hb [Hd Hl]. split; [done|]. apply Forall_singleton.
  by apply (proj1 (Forall_forall _ _) Hl).
Qed.

Lemma triple_abandon_one clock n reason b :
  triple advances (knows [b]) (abandon_one clock n reason b) (fun _ d => Inv d).
Proof.
  unfold abandon_one. eapply triple_bind; [apply _|apply triple_abandon|].
  intros a. by apply triple_ret; [apply _|].
Qed.

(** Each of the loops below keeps the invariant wherever it breaks off. *)
Lemma triple_abandon_each (f : builds.Model -> DB (list Abandoned)) l :
  (forall b, triple advances (knows [b]) (f b) (fun _ d => Inv d)) ->
  triple advances (knows l) (for_collect f l) (fun _ d => knows l d).
Proof.
  intros Hf. eapply triple_conseq.
  - apply (triple_for_collect advances Inv f l (knows l)); [apply knows_stable|].
    intros b Hb. eapply triple_conseq; [apply Hf| |by intros].
    intros d [_ Hk]. by eapply knows_elem.
  - intros d Hk. split; [apply Hk|done].
  - by intros _ d [_ Hk].
Qed.

Lemma triple_reap_one clock now n ages b :
  triple advances (knows [b]) (reap_one clock now n ages b) (fun _ d => Inv d).
Proof.
  unfold reap_one. destruct (reap_reason now ages b); [apply triple_abandon_one|].
  apply triple_ret; [apply _|]. by intros d [Hd _].
Qed.

Lemma triple_reap clock now n ages :
  triple advances Inv (reap_expired_builds clock now n ages) (fun _ d => Inv d).
Proof.
  unfold reap_expired_builds. eapply triple_bind; [apply _|apply triple_find_builds|].
  intros l. eapply triple_conseq; [apply triple_abandon_each| |].
  - intros b. apply triple_reap_one.
  - done.
  - by intros _ d [Hd _].
Qed.

Lemma triple_abandon_worker clock w n :
  triple advances Inv (abandon_worker_builds clock w n) (fun _ d => Inv d).
Proof.
  unfold abandon_worker_builds. eapply triple_bind; [apply _|apply triple_find_builds|].
  intros l. eapply triple_conseq; [apply triple_abandon_each| |].
  - intros b. apply triple_abandon_one.
  - done.
  - by intros _ d [Hd _].
Qed.

(** ** Renewal *)

Definition renew_cols (now lease_ttl : Z) : list builds.col_expr :=
  [builds.Set_lease_expires_at (Some (now + lease_ttl)%Z)].

Definition renew_pin (renew : list Z) (worker_id : Z) (b : builds.Model) : Prop :=
  builds.id b ∈ renew /\ owned_active worker_id b.
#[export] Instance renew_pin_dec renew worker_id b : Decision (renew_pin renew worker_id b).
Proof. unfold renew_pin. apply _. Defined.

Definition renewed_db (now lease_ttl : Z) (renew : list Z) (worker_id : Z) (d : database) : database :=
  with_builds (updated (renew_cols now lease_ttl) (renew_pin renew worker_id) (t_builds d)) d.


(** Renewing moves no row between states, so no package has to be refreshed. *)
Lemma renewed_inv now lease_ttl renew w d : Inv d -> Inv (renewed_db now lease_ttl renew w d).
Proof.
  intros Hd. apply inv_update_quiet; [done|done|].
  intros b _ (_ & _ & Ha). unfold lifecycle_ok. simpl. rewrite Ha.
  intros (?&?&?&?&?&?). by split_and!.
Qed.

Definition renew_leases (now lease_ttl : Z) (renew : list Z) (worker_id : Z) : DB nat :=
  if decide (renew = []) then mret 0
  else update_builds (renew_cols now lease_ttl) (renew_pin renew worker_id).

Lemma renewed_nil now lease_ttl w d : renewed_db now lease_ttl [] w d = d.
Proof.
  unfold renewed_db. rewrite updated_none; [by destruct d|]. apply filter_nil_iff.
  intros b _ [Hin _]. by apply elem_of_nil in Hin.
Qed.

Lemma run_renew now lease_ttl renew w d :
  Inv d -> exists n, run (renew_leases now lease_ttl renew w) d = (Ok n, renewed_db now lease_ttl renew w d).
Proof.
  intros Hd. unfold renew_leases. case_decide as Hr.
  - subst. rewrite renewed_nil. by exists 0.
  - pose proof (renewed_inv now lease_ttl renew w d Hd) as Hd'. rewrite run_update_builds; [eauto|].
    apply Hd'.
Qed.

Lemma triple_renew now lease_ttl renew w :
  triple advances Inv (renew_leases now lease_ttl renew w) (fun _ d => Inv d).
Proof.
  unfold renew_leases. case_decide; [by apply triple_ret; [apply _|]|].
  apply triple_statement; [apply _|]. intros d a d' Hd Hf. cbv beta zeta in Hf.
  case_decide; [|done].
  injection Hf as <- <-. pose proof (renewed_inv now lease_ttl renew w d Hd) as Hd'.
  split; [|done]. intros _. split; [done|].
  apply (grows_updated (renew_cols now lease_ttl) (renew_pin renew w)). intros b _ _.
  split; [apply may_become_refl|done].
Qed.

Lemma triple_heartbeat clock now w ids lease_ttl n :
  triple advances Inv (heartbeat clock now w ids lease_ttl n) (fun _ d => Inv d).
Proof.
  unfold heartbeat. eapply triple_bind; [apply _|apply triple_find_builds|]. intros owned.
  apply (triple_bind advances _ _ _ (fun _ d => Inv d)).
  - eapply triple_conseq; [apply (triple_abandon_each _ (to_drop owned ids now lease_ttl))| |].
    + intros b. apply triple_abandon_one.
    + intros d [Hd Hl]. split; [done|]. apply Forall_forall.
      intros b [_ Hb]%list_elem_of_filter. by apply (proj1 (Forall_forall _ _) Hl).
    + intros _ d [Hd _]. exact Hd.
  - intros dropped. eapply triple_bind; [apply _|apply triple_renew|]. intros nrows.
    apply (triple_bind advances _ _ _ (fun _ d => Inv d)).
    + case_decide; [by apply triple_ret; [apply _|]|].
      eapply triple_bind; [apply _|apply triple_find_builds|]. intros rows.
      apply triple_ret; [apply _|]. by intros d [Hd _].
    + intros c. by apply triple_ret; [apply _|].
Qed.

(** Under a unique id, the last row found by id is the row of that id. *)
Lemma cancels_spec d (ids : list Z) w id :
  wf d -> id ∈ ids ->
  cancels w (filter (fun b => builds.id b ∈ ids) (t_builds d)) id <->
  ~ exists b, b ∈ t_builds d /\ builds.id b = id /\ owned_active w b.
Proof.
  intros Hwf Hid. unfold cancels.
  assert (filter (fun b => builds.id b = id) (filter (fun b => builds.id b ∈ ids) (t_builds d)) =
          filter (fun b => builds.id b = id) (t_builds d)) as ->.
  { rewrite list_filter_filter. apply list_filter_iff. intros b. split; [tauto|].
    intros Hb. by rewrite Hb. }
  destruct (filter _ (t_builds d)) as [|b l] eqn:Hf.
  - split; [|done]. intros _ (b & Hb & Hbid & _). by apply (proj1 (filter_nil_iff _ _) Hf b).
  - assert (b ∈ filter (fun b => builds.id b = id) (t_builds d)) as Hb by (rewrite Hf; left).
    apply list_elem_of_filter in Hb as [Hbid Hb].
    rewrite <- Hbid, head_filter_id in Hf by (apply Hwf || done). injection Hf as <-. simpl.
    unfold owned_active. split.
    + intros Hor (c & Hc & Hcid & Hw & Hs).
      assert (c = b) as -> by (apply (ids_inj (t_builds d)); [apply Hwf|congruence..]). tauto.
    + intros Hno. destruct (decide (builds.status b = Active)) as [Hs|Hs]; [|by left]. right.
      intros Hw. apply Hno. by exists b.
Qed.

(** What a heartbeat over a connection that holds leaves. *)
Record beat (clock now w : Z) (ids : list Z) (lease_ttl : Z) (d : database)
    (out : HeartbeatOutcome) (d' : database) : Prop := {
  hb_inv : Inv d';
  hb_renewed : forall id, id ∈ renewed out <->
    id ∈ ids /\ exists b, b ∈ t_builds d /\ builds.id b = id /\ owned_active w b;
  hb_leases : forall b, b ∈ t_builds d -> owned_active w b -> builds.id b ∈ ids ->
    builds.assign (renew_cols now lease_ttl) b ∈ t_builds d';
  hb_cancel : forall id, id ∈ cancel_requested out <-> id ∈ ids /\ id ∉ renewed out;
  hb_dropped : ab_build_id <$> dropped out =
    ids_of (to_drop (filter (owned_active w) (t_builds d)) ids now lease_ttl);
  hb_failed : forall b, b ∈ t_builds d -> owned_active w b -> builds.id b ∉ ids ->
    just_claimed now lease_ttl b = false -> failed_row clock Dropped b ∈ t_builds d';
  hb_spared : forall b, b ∈ t_builds d ->
    ~ owned_active w b \/ builds.id b ∉ ids /\ just_claimed now lease_ttl b = true ->
    b ∈ t_builds d'
}.

Lemma elem_of_to_drop d (ids : list Z) now lease_ttl w b :
  b ∈ to_drop (filter (owned_active w) (t_builds d)) ids now lease_ttl <->
  b ∈ t_builds d /\ owned_active w b /\ builds.id b ∉ ids /\ just_claimed now lease_ttl b = false.
Proof. unfold to_drop. rewrite !list_elem_of_filter. tauto. Qed.

Lemma elem_of_to_renew d (ids : list Z) w id :
  id ∈ to_renew (filter (owned_active w) (t_builds d)) ids <->
  id ∈ ids /\ exists b, b ∈ t_builds d /\ builds.id b = id /\ owned_active w b.
Proof.
  unfold to_renew. rewrite list_elem_of_fmap. setoid_rewrite list_elem_of_filter.
  setoid_rewrite list_elem_of_filter. split.
  - intros (b & -> & ? & ? & ?). split; [done|]. by exists b.
  - intros (? & b & ? & <- & ?). by exists b.
Qed.

Lemma not_in_drop d (ids : list Z) now lease_ttl w b :
  wf d -> b ∈ t_builds d ->
  ~ owned_active w b \/ builds.id b ∈ ids \/ just_claimed now lease_ttl b = true ->
  builds.id b ∉ ids_of (to_drop (filter (owned_active w) (t_builds d)) ids now lease_ttl).
Proof.
  intros Hwf Hb Hor (c & Hid & Hc)%list_elem_of_fmap.
  apply elem_of_to_drop in Hc as (Hc & Ho & Hni & Hj).
  assert (b = c) as -> by (by apply (ids_inj (t_builds d)); [apply Hwf|..]).
  destruct Hor as [?|[?|?]]; [done..|congruence].
Qed.

Lemma run_heartbeat clock now w ids lease_ttl n d :
  Inv d -> exists out d', run (heartbeat clock now w ids lease_ttl n) d = (Ok out, d') /\
    beat clock now w ids lease_ttl d out d'.
Proof.
  intros Hd. pose proof (inv_wf d Hd) as Hwf.
  set (owned := filter (owned_active w) (t_builds d)).
  destruct (abandon_each_spec clock n (fun _ => Dropped) (to_drop owned ids now lease_ttl) d)
    as (dropped & d1 & Hrun1 & H1); [done| | |].
  { eapply sublist_NoDup; [apply (ids_unique _ (wf_indexes _ Hwf))|]. apply fmap_sublist.
    etrans; apply sublist_filter. }
  { apply Forall_forall. intros b Hb%elem_of_to_drop. destruct Hb as (? & [_ ?] & _). done. }
  pose proof (aa_inv _ _ _ _ _ _ H1) as Hd1.
  destruct (run_renew now lease_ttl (to_renew owned ids) w d1 Hd1) as [rows Hrun2].
  set (d2 := renewed_db now lease_ttl (to_renew owned ids) w d1) in *.
  pose proof (renewed_inv now lease_ttl (to_renew owned ids) w d1 Hd1) as Hd2. fold d2 in Hd2.
  exists (mkHeartbeat (to_renew owned ids) dropped
    (filter (cancels w (filter (fun b => builds.id b ∈ ids) (t_builds d2))) ids)), d2.
  split.
  { unfold heartbeat, mbind, sql_mbind, mret, sql_mret. rewrite run_bind by apply _.
    unfold find_builds. rewrite run_query. fold owned.
    rewrite run_bind by apply _. rewrite Hrun1.
    change (if decide (to_renew owned ids = []) then _ else _)
      with (renew_leases now lease_ttl (to_renew owned ids) w).
    rewrite run_bind by (unfold renew_leases; sql_class). rewrite Hrun2.
    rewrite run_bind by sql_class. case_decide as Hids; [by subst|].
    rewrite run_bind by apply _. by rewrite run_query. }
  assert (forall id, id ∈ ids ->
    (exists b, b ∈ t_builds d2 /\ builds.id b = id /\ owned_active w b) <->
    (exists b, b ∈ t_builds d /\ builds.id b = id /\ owned_active w b)) as Hactive.
  { intros id Hid. split.
    - intros (b & Hb & Hbid & Hw & Hs).
      apply elem_of_updated in Hb as (a & Ha & ->).
      assert (owned_active w a) as [Hw' Hs'] by (by case_decide).
      destruct (abandoned_all_active _ _ _ _ _ _ a H1 Ha Hs') as [Ha' _].
      exists a. split; [done|]. split; [|done]. rewrite <- Hbid. case_decide; [|done].
      by rewrite assign_id.
    - intros (b & Hb & Hbid & Ho).
      exists (builds.assign (renew_cols now lease_ttl) b). split; [|by rewrite assign_id].
      apply elem_of_updated. exists b. split.
      + apply (aa_kept _ _ _ _ _ _ H1); [done|]. apply not_in_drop; [done..|]. right. left.
        by rewrite Hbid.
      + rewrite decide_True; [done|]. split; [|done]. apply elem_of_to_renew.
        rewrite Hbid. split; [done|]. by exists b. }
  split; cbn [Leases.renewed Leases.dropped Leases.cancel_requested].
  - done.
  - apply elem_of_to_renew.
  - intros b Hb Ho Hin. apply elem_of_updated. exists b. split.
    + apply (aa_kept _ _ _ _ _ _ H1); [done|]. apply not_in_drop; [done..|]. by right; left.
    + rewrite decide_True; [done|]. split; [|done]. apply elem_of_to_renew. split; [done|].
      by exists b.
  - intros id. rewrite list_elem_of_filter; unfold owned; rewrite elem_of_to_renew. split.
    + intros [Hc Hid]. split; [done|]. intros [_ He]. apply Hactive in He; [|done].
      apply (cancels_spec d2) in Hc; [done|apply Hd2|done].
    + intros [Hid Hno]. split; [|done]. apply (cancels_spec d2); [apply Hd2|done|].
      intros He. apply Hno. split; [done|]. by apply Hactive.
  - apply H1.
  - intros b Hb Ho Hni Hj. apply elem_of_updated. exists (failed_row clock Dropped b). split.
    + apply (aa_failed _ _ _ _ _ _ H1 b). by apply elem_of_to_drop.
    + rewrite decide_False; [done|]. by intros (_ & _ & Hs).
  - intros b Hb Hor. apply elem_of_updated. exists b. split.
    + apply (aa_kept _ _ _ _ _ _ H1); [done|]. apply not_in_drop; [done..|]. tauto.
    + rewrite decide_False; [done|]. intros (Hin & Ho).
      apply elem_of_to_renew in Hin as [Hin _]. tauto.
Qed.

(** ** Properties *)

(** C10. A heartbeat settles what the worker holds: of the ids it reports, those
    that are its active builds have their lease renewed and every other one is
    answered as to be stopped; of its active builds it does not report, those
    past their first lease are failed as dropped (and nothing else is), those
    just claimed are left to it; everyone else's rows are untouched. Over any
    connection, wherever it breaks off, the invariant holds and no build's
    identity changes. *)
Theorem heartbeat_settles clock now w ids lease_ttl n d :
  Inv d ->
  (exists out d', run (heartbeat clock now w ids lease_ttl n) d = (Ok out, d') /\
     beat clock now w ids lease_ttl d out d') /\
  (forall left, advances d (o_db (heartbeat clock now w ids lease_ttl n left d))).
Proof.
  intros Hd. split; [by apply run_heartbeat|].
  intros left. by apply triple_heartbeat.
Qed.

Lemma heartbeat_settles_witness :
  (Inv demo_db /\
   exists out d', run (heartbeat 1200 1200 2 [2; 7]%Z 60 3) demo_db = (Ok out, d') /\
     beat 1200 1200 2 [2; 7]%Z 60 demo_db out d') /\
  fst (run (heartbeat 1200 1200 2 [2; 7]%Z 60 3) demo_db) = Ok (mkHeartbeat [2%Z] [] [7%Z]) /\
  (fun out => ab_build_id <$> dropped out) <$> fst (run (heartbeat 1200 1200 2 [] 60 3) demo_db)
    = Ok [2%Z].
Proof.
  split.
  - split; [apply demo_inv|].
    destruct (heartbeat_settles 1200 1200 2 [2; 7]%Z 60 3 demo_db demo_inv) as [H _]. exact H.
  - split; vm_compute; reflexivity.
Defined.

(** What a pass of the reaper leaves. *)
Record reaped (clock now : Z) (ages : BuildAges) (d : database) (out : list Abandoned)
    (d' : database) : Prop := {
  rp_inv : Inv d';
  rp_failed : forall b reason, b ∈ t_builds d -> builds.status b = Active ->
    reap_reason now ages b = Some reason -> failed_row clock reason b ∈ t_builds d';
  rp_spared : forall b, b ∈ t_builds d ->
    builds.status b <> Active \/ reap_reason now ages b = None -> b ∈ t_builds d';
  rp_done : forall b, b ∈ t_builds d' -> builds.status b = Active ->
    b ∈ t_builds d /\ reap_reason now ages b = None;
  rp_reported : forall id, id ∈ (ab_build_id <$> out) <->
    exists b, b ∈ t_builds d /\ builds.id b = id /\ builds.status b = Active /\
      is_Some (reap_reason now ages b)
}.

Lemma elem_of_reap now ages d b :
  b ∈ filter (fun b => reap_reason now ages b <> None) (filter (reap_candidate now ages) (t_builds d))
  <-> b ∈ t_builds d /\ builds.status b = Active /\ is_Some (reap_reason now ages b).
Proof.
  rewrite !list_elem_of_filter, <- not_eq_None_Some. split.
  - intros (? & [? _] & ?). done.
  - intros (? & ? & Hr). split_and!; [done| |done].
    destruct (reap_reason now ages b) as [r|] eqn:Heq; [|done]. by eapply reap_reason_candidate.
Qed.

Lemma run_reap clock now n ages d :
  Inv d -> exists out d', run (reap_expired_builds clock now n ages) d = (Ok out, d') /\
    reaped clock now ages d out d'.
Proof.
  intros Hd. pose proof (inv_wf d Hd) as Hwf.
  set (cands := filter (reap_candidate now ages) (t_builds d)).
  set (l := filter (fun b => reap_reason now ages b <> None) cands).
  assert (NoDup (ids_of cands)) as Hnd.
  { eapply sublist_NoDup; [apply (ids_unique _ (wf_indexes _ Hwf))|].
    apply fmap_sublist, sublist_filter. }
  assert (forall b, b ∈ l <-> b ∈ t_builds d /\ builds.status b = Active /\
            is_Some (reap_reason now ages b)) as Hl by apply elem_of_reap.
  destruct (abandon_each_spec clock n (reap_reason_or now ages) l d) as (out & d' & Hrun & H).
  { done. } { eapply sublist_NoDup; [exact Hnd|]. apply fmap_sublist, sublist_filter. }
  { apply Forall_forall. intros b (? & ? & _)%Hl. done. }
  exists out, d'. split.
  { unfold reap_expired_builds, mbind, sql_mbind. rewrite run_bind by apply _.
    unfold find_builds. rewrite run_query. rewrite run_reap_loop; [done|done|done|].
    apply Forall_forall. intros b [[? _] ?]%list_elem_of_filter. done. }
  assert (forall b, b ∈ t_builds d -> builds.id b ∈ ids_of l -> b ∈ l) as Hids.
  { intros b Hb (c & Hid & Hc)%list_elem_of_fmap. pose proof Hc as (Hcd & _)%Hl.
    by rewrite (ids_inj (t_builds d) b c) by (apply Hwf || done). }
  split.
  - apply H.
  - intros b reason Hb Ha Hr. assert (reason = reap_reason_or now ages b) as ->.
    { unfold reap_reason_or. by rewrite Hr. }
    apply (aa_failed _ _ _ _ _ _ H). apply Hl. by rewrite Hr.
  - intros b Hb Hor. apply (aa_kept _ _ _ _ _ _ H); [done|].
    intros (_ & Ha & [r Hr])%Hids%Hl; [|done]. destruct Hor; [done|congruence].
  - intros b Hb Ha. destruct (abandoned_all_active _ _ _ _ _ _ b H Hb Ha) as [Hb' Hni].
    split; [done|]. destruct (reap_reason now ages b) eqn:Hr; [|done]. destruct Hni.
    apply list_elem_of_fmap_2, Hl. by rewrite Hr.
  - intros id. rewrite (aa_reported _ _ _ _ _ _ H). unfold ids_of. rewrite list_elem_of_fmap. split.
    + intros (b & -> & (? & ? & ?)%Hl). by exists b.
    + intros (b & Hb & <- & Ha & Hr). exists b. split; [done|]. by apply Hl.
Qed.

(** The reaper ends exactly the active builds that are past their package's
    age or have lost their lease - each under that reason, the age first - and
    leaves no such build behind; the fetched candidates never miss one. Over
    any connection, wherever it breaks off, the invariant holds. *)
Theorem reaper_complete clock now n ages d :
  Inv d ->
  (exists out d', run (reap_expired_builds clock now n ages) d = (Ok out, d') /\
     reaped clock now ages d out d') /\
  (forall left, advances d (o_db (reap_expired_builds clock now n ages left d))).
Proof.
  intros Hd. split; [by apply run_reap|]. intros left. by apply triple_reap.
Qed.

Lemma reaper_complete_witness :
  (Inv demo_db /\
   exists out d', run (reap_expired_builds 1200 1200 3 (ages_all 3600)) demo_db = (Ok out, d') /\
     reaped 1200 1200 (ages_all 3600) demo_db out d') /\
  fst (run (reap_expired_builds 1200 1200 3 (ages_all 3600)) demo_db) =
    Ok [mkAbandoned 2 2 (Some "libfoo") LeaseExpired (Some 2%Z) (RetryQueued 6)] /\
  fst (run (reap_expired_builds 1200 1200 1 (mkAges 3600 {[ 2%Z := 100%Z ]})) demo_db) =
    Ok [mkAbandoned 2 2 (Some "libfoo") MaxDuration (Some 2%Z) RetrySpent].
Proof.
  split.
  - split; [apply demo_inv|].
    destruct (reaper_complete 1200 1200 3 (ages_all 3600) demo_db demo_inv) as [H _]. exact H.
  - split; vm_compute; reflexivity.
Defined.

(** The retry budget: spent when the newest [max_attempts] builds of the slot
    are all retries that ended in an abandonment that counts. *)
Definition budget_spent (rows : list builds.Model) (n : Z) : Prop :=
  (n <= 0)%Z \/
  (Z.to_nat n <= length rows /\ Forall (fun b => futile b = true) (take (Z.to_nat n) rows)).

Lemma budget_left_spec rows n :
  budget_left (take (Z.to_nat (Z.max n 1)) rows) n = false <-> budget_spent rows n.
Proof.
  unfold budget_left, budget_spent, futile_run. rewrite bool_decide_eq_false.
  destruct (decide (n <= 0)%Z) as [Hn|Hn].
  { rewrite (Z.max_r n 1) by lia. assert (Z.to_nat n = 0) as -> by lia. split; [by left|lia]. }
  rewrite Z.max_l by lia. set (k := Z.to_nat n). split.
  - intros Hle. right. pose proof (length_take_while_le futile (take k rows)) as Hlt.
    rewrite length_take in Hlt. split; [lia|]. apply take_while_full. rewrite length_take. lia.
  - intros [?|[Hk Hall]]; [done|]. apply take_while_full in Hall. rewrite length_take in Hall. lia.
Qed.

(** The builds of one slot, newest first. *)
Definition slot_history (l : list builds.Model) (pkg_id : Z) (platform : Platform) :
    list builds.Model :=
  merge_sort number_ge
    (filter (fun b => builds.pkg_id b = pkg_id /\ builds.platform b = platform) l).

(** What a session of [abandon_build] may answer, for a build read earlier. *)
Definition abandon_promise (clock : Z) (observed : builds.Model) (reason : EndReason) (n : Z)
    (d : database) (o : outcome database DbErr (option Abandoned)) : Prop :=
  Inv (o_db o) /\
  match o_result o with
  | Err _ => o_db o = d
  | Ok None => o_db o = d /\ forall b, b ∈ t_builds d -> ~ still_held observed b
  | Ok (Some a) =>
      let failed := updated (abandon_cols clock reason) (still_held observed) (t_builds d) in
      (exists b, b ∈ t_builds d /\ still_held observed b) /\
      ab_build_id a = builds.id observed /\ ab_end_reason a = reason /\
      exists extra, t_builds (o_db o) = failed ++ extra /\
        match ab_retry a with
        | RetryQueued id => exists row, extra = [row] /\ retry_row d row /\ builds.id row = id /\
            slot_key row = slot_key observed /\
            ~ budget_spent (slot_history failed (builds.pkg_id observed) (builds.platform observed)) n
        | RetryAdopted _ => False
        | RetrySpent => extra = [] /\
            budget_spent (slot_history failed (builds.pkg_id observed) (builds.platform observed)) n
        end
  end.

Lemma abandoned_db_retry clock observed reason n d a :
  wf d -> known observed d -> (abandoned_db clock observed reason n d).1 = Some a ->
  let failed := updated (abandon_cols clock reason) (still_held observed) (t_builds d) in
  ab_retry a = RetrySpent <->
  budget_spent (slot_history failed (builds.pkg_id observed) (builds.platform observed)) n.
Proof.
  intros Hwf Hk Ha failed. rewrite <- budget_left_spec. revert Ha. unfold abandoned_db.
  case_decide as Hf; [done|]. cbv zeta.
  change (take _ (slot_history _ _ _)) with
    (recent_builds failed (builds.pkg_id observed) (builds.platform observed) n).
  change (t_builds (with_builds _ d)) with failed.
  destruct (head (filter (fun p => packages.id p = _) (t_packages d))) as [p|] eqn:Hp.
  - destruct (budget_left _ n); simpl; intros [= <-]; simpl; [|done].
    unfold retry_of. by destruct (enq_queued _).
  - exfalso. apply Hf, filter_nil_iff. intros b Hb (Hid & _).
    pose proof (proj1 (Forall_forall _ _) (wf_owned _ Hwf) _ Hb) as Hin.
    simpl in Hin. apply list_elem_of_fmap in Hin as (p & Hpid & Hin).
    apply (head_filter_None _ _ Hp p Hin). destruct (proj2 Hk b Hb Hid) as [Hn _].
    unfold number_key in Hn. congruence.
Qed.

(** C11. Taking a build back from its worker, over any connection. When the row
    is no longer held as it was read - renewed, completed, cancelled or taken
    back meanwhile - nothing is written. Otherwise the row alone is failed under
    the reason given, and in the same transaction one fresh retry of the same
    package and platform is queued, unless the newest [max_attempts] builds of
    it were all retries that ended in an abandonment that counts; another
    pending build is never adopted. An error writes nothing. *)
Theorem abandon_build_retries clock observed reason n left d :
  Inv d -> known observed d ->
  abandon_promise clock observed reason n d (abandon_build clock observed reason n left d).
Proof.
  intros Hd Hk. unfold abandon_promise.
  pose proof (abandoned_inv clock observed reason n d Hd Hk) as Hinv.
  destruct (atomic_run (abandon_build clock observed reason n) left d _ _
    (run_abandon clock observed reason n d Hd Hk)) as [(e & -> & ->)|[-> ->]]; [done|].
  split; [done|]. destruct (filter (still_held observed) (t_builds d)) as [|b l] eqn:Hf.
  - unfold abandoned_db. rewrite decide_True by done. simpl. split; [done|].
    intros b Hb. by apply (proj1 (filter_nil_iff _ _) Hf).
  - assert (b ∈ filter (still_held observed) (t_builds d)) as Hb by (rewrite Hf; left).
    apply list_elem_of_filter in Hb as [Hh Hb].
    destruct (abandoned_db_spec clock observed reason n d b Hd Hk Hb Hh)
      as (a & extra & Ha & Hid & Hr & _ & _ & Hrows & _ & Hretry).
    pose proof (abandoned_db_retry clock observed reason n d a (inv_wf d Hd) Hk Ha) as Hspent.
    rewrite Ha. split_and!; [by exists b|done..|]. exists extra. split; [done|].
    destruct (ab_retry a) as [id|id|]; [|done|].
    + destruct Hretry as (row & ? & ? & ? & ?). exists row. split_and!; [done..|].
      by rewrite <- Hspent.
    + split; [done|]. by apply Hspent.
Qed.

Lemma abandon_build_retries_witness :
  let o := abandon_build 1200 demo_active Dropped 3 None demo_db in
  (Inv demo_db /\ abandon_promise 1200 demo_active Dropped 3 demo_db o) /\
  fmap (M := result DbErr) (fmap (M := option) ab_retry) (o_result o) =
    Ok (Some (RetryQueued 6)) /\
  o_result (abandon_build 1200 (builds.set (builds.Set_lease_expires_at (Some 1160%Z)) demo_active)
              Dropped 3 None demo_db) = Ok None.
Proof.
  split.
  - split; [apply demo_inv|].
    apply (abandon_build_retries 1200 demo_active Dropped 3 None demo_db); [apply demo_inv|].
    apply known_elem; [apply demo_wf|]. vm_compute. right. left.
  - split; vm_compute; reflexivity.
Defined.

(** Every active build of the worker is failed and reported, and nothing else is
    touched. *)
Lemma abandon_worker_spec clock w n d :
  Inv d ->
  exists out d', run (abandon_worker_builds clock w n) d = (Ok out, d') /\
    abandoned_all clock (fun _ => WorkerRevoked) (filter (owned_active w) (t_builds d)) out d d' /\
    (forall b, b ∈ t_builds d' -> ~ owned_active w b).
Proof.
  intros Hd. pose proof (inv_wf d Hd) as Hwf. set (l := filter (owned_active w) (t_builds d)).
  destruct (abandon_each_spec clock n (fun _ => WorkerRevoked) l d) as (out & d' & Hrun & H).
  { done. }
  { eapply sublist_NoDup; [apply (ids_unique _ (wf_indexes _ Hwf))|].
    apply fmap_sublist, sublist_filter. }
  { apply Forall_forall. intros b [[_ ?] ?]%list_elem_of_filter. done. }
  exists out, d'. split_and!; [|done|].
  { unfold abandon_worker_builds, mbind, sql_mbind. rewrite run_bind by apply _.
    unfold find_builds. by rewrite run_query. }
  intros b Hb [Hw Hs].
  destruct (abandoned_all_active _ _ _ _ _ _ b H Hb Hs) as [Hb' Hni]. apply Hni.
  apply list_elem_of_fmap_2. by apply list_elem_of_filter.
Qed.

(** Revoking a worker takes every build from it: each of its active builds
    is failed under that reason and reported, none is left active in its name,
    and no other build is touched; a revocation never counts against the retry
    budget. Over any connection the invariant holds wherever it breaks off. *)
Theorem revocation_releases clock w n d :
  Inv d ->
  (exists out d', run (abandon_worker_builds clock w n) d = (Ok out, d') /\ Inv d' /\
     (forall b, b ∈ t_builds d -> owned_active w b ->
        failed_row clock WorkerRevoked b ∈ t_builds d' /\
        futile (failed_row clock WorkerRevoked b) = false) /\
     (forall b, b ∈ t_builds d -> ~ owned_active w b -> b ∈ t_builds d') /\
     (forall b, b ∈ t_builds d' -> ~ owned_active w b) /\
     ab_build_id <$> out = ids_of (filter (owned_active w) (t_builds d))) /\
  (forall left, advances d (o_db (abandon_worker_builds clock w n left d))).
Proof.
  intros Hd. pose proof (inv_wf d Hd) as Hwf. split; [|intros left; by apply triple_abandon_worker].
  destruct (abandon_worker_spec clock w n d Hd) as (out & d' & Hrun & H & Hnone).
  exists out, d'. split_and!; [done|apply H| | |done|apply H].
  - intros b Hb Ho. split.
    + apply (aa_failed _ _ _ _ _ _ H). by apply list_elem_of_filter.
    + unfold futile. simpl. by rewrite andb_false_r.
  - intros b Hb Ho. apply (aa_kept _ _ _ _ _ _ H); [done|].
    intros (c & Hid & [Hc1 Hc2]%list_elem_of_filter)%list_elem_of_fmap.
    apply Ho. by rewrite (ids_inj (t_builds d) b c) by (apply Hwf || done).
Qed.

Lemma revocation_releases_witness :
  (Inv demo_db /\ forall left, advances demo_db (o_db (abandon_worker_builds 1200 2 3 left demo_db))) /\
  fst (run (abandon_worker_builds 1200 2 3) demo_db) =
    Ok [mkAbandoned 2 2 (Some "libfoo") WorkerRevoked (Some 2%Z) (RetryQueued 6)].
Proof.
  split.
  - split; [apply demo_inv|].
    destruct (revocation_releases 1200 2 3 demo_db demo_inv) as [_ H]. exact H.
  - vm_compute. reflexivity.
Defined.
