(* ===== verification/Registry.v ===== *)
(** * The registry of workers

    [backend/aurcache-db/src/helpers/worker_store.rs]: registering, re-keying,
    approving, pausing and revoking a worker, its settings, and what the list of
    workers shows. *)
From S2P Require Import Prelude Text BuildState Sql Schema Lists Order.
From S2P Require Import WorkerConfig BuildStatus Invariant Fixtures BuildEnqueue WorkerJobs Claim Leases.
Open Scope string_scope.
Open Scope list_scope.

(** ** Statements on [workers] *)

(** The primary key and the unique index on [cert_fingerprint]. *)
Record workers_indexes (l : list workers.Model) : Prop := {
  wi_ids : NoDup (workers.id <$> l);
  wi_fingerprints : NoDup (workers.cert_fingerprint <$> l)
}.
#[export] Instance workers_indexes_dec l : Decision (workers_indexes l).
Proof.
  destruct (decide (NoDup (workers.id <$> l) /\ NoDup (workers.cert_fingerprint <$> l))) as [H|H];
    [left|right]; [by split; apply H|]. intros [? ?]. by apply H.
Defined.

(** [UPDATE workers SET .. WHERE P]; [cols] may read the row. *)
Definition updated_workers (cols : workers.Model -> list workers.col_expr) (P : workers.Model -> Prop)
    `{!forall w, Decision (P w)} (l : list workers.Model) : list workers.Model :=
  (fun w => if decide (P w) then workers.assign (cols w) w else w) <$> l.

Definition update_workers (cols : workers.Model -> list workers.col_expr) (P : workers.Model -> Prop)
    `{!forall w, Decision (P w)} : DB nat :=
  statement (fun d =>
    let l := updated_workers cols P (t_workers d) in
    if decide (workers_indexes l)
    then Ok (length (filter P (t_workers d)), with_workers l d)
    else Err Constraint).

Definition find_worker_where (P : workers.Model -> Prop) `{!forall w, Decision (P w)} :
    DB (option workers.Model) :=
  query (fun d => head (filter P (t_workers d))).

(** [find_worker] *)
Definition find_worker (id : Z) : DB (option workers.Model) :=
  find_worker_where (fun w => workers.id w = id).

Definition find_worker_by_fingerprint (fingerprint : string) : DB (option workers.Model) :=
  find_worker_where (fun w => workers.cert_fingerprint w = fingerprint).

(** [active.update(db)]: [sea_orm] writes the columns that were [Set] and answers with
    the row as written, or with [RecordNotUpdated]. *)
Definition save_worker (cols : list workers.col_expr) (row : workers.Model) : DB workers.Model :=
  rows ← update_workers (fun _ => cols) (fun w => workers.id w = workers.id row);
  if decide (rows = 0) then sql_fail (Custom "RecordNotUpdated")
  else
    found ← find_worker (workers.id row);
    match found with
    | Some row => mret row
    | None => sql_fail (Custom "RecordNotUpdated")
    end.

(** ** Registration *)

Record WorkerRegistration := mkRegistration {
  reg_name : string;
  reg_fingerprint : string;
  reg_arches : list string;
  reg_version : string;
  reg_kind : string;
  reg_package_affinity : list string;
  reg_priority : Z;
  reg_concurrency : Z;
  reg_settings_declaration : string
}.

Definition registered_cols (clock : Z) (reg : WorkerRegistration) : list workers.col_expr :=
  [workers.Set_name (reg_name reg);
   workers.Set_arches (new_list (reg_arches reg));
   workers.Set_last_seen (Some clock);
   workers.Set_version (Some (reg_version reg));
   workers.Set_kind (Some (reg_kind reg));
   workers.Set_package_affinity (new_list (reg_package_affinity reg));
   workers.Set_priority (reg_priority reg);
   workers.Set_concurrency (reg_concurrency reg);
   workers.Set_settings_declaration (reg_settings_declaration reg)].

(** The row a first registration inserts; what it does not set is the column's
    default. *)
Definition new_worker (id clock : Z) (reg : WorkerRegistration) : workers.Model :=
  workers.mk id (reg_name reg) Pending (reg_fingerprint reg) None None
    (new_list (reg_arches reg)) (Some clock) (Some (reg_version reg)) (Some (reg_kind reg))
    (new_list (reg_package_affinity reg)) (reg_priority reg) (reg_concurrency reg)
    (reg_settings_declaration reg) None false false.

Definition with_new_worker (row : workers.Model) (d : database) : database :=
  Database (t_builds d) (t_packages d) (t_workers d ++ [row]) (t_dependencies d) (t_files d)
    (next_build_id d) (next_file_id d) (t_worker_settings d) (t_settings d)
    (next_worker_id d + 1) (next_worker_setting_id d)
    (next_setting_id d) (t_vcs_sources d).

(** [INSERT .. ON CONFLICT (cert_fingerprint) DO UPDATE], one statement. *)
Definition upsert_worker (clock : Z) (reg : WorkerRegistration) : DB () :=
  statement (fun d =>
    if decide (reg_fingerprint reg ∈ workers.cert_fingerprint <$> t_workers d) then
      Ok (tt, with_workers (updated_workers (fun _ => registered_cols clock reg)
                (fun w => workers.cert_fingerprint w = reg_fingerprint reg) (t_workers d)) d)
    else
      let row := new_worker (next_worker_id d) clock reg in
      if decide (workers_indexes (t_workers d ++ [row]))
      then Ok (tt, with_new_worker row d) else Err Constraint).

Definition register_worker (clock : Z) (reg : WorkerRegistration) : DB workers.Model :=
  _ ← upsert_worker clock reg;
  found ← find_worker_by_fingerprint (reg_fingerprint reg);
  match found with
  | Some row => mret row
  | None => sql_fail (Custom "worker vanished after registration")
  end.

Inductive Rekey := Known | NoRow | Rekeyed (previous : string).

Definition rekey_cols (fingerprint : string) : list workers.col_expr :=
  [workers.Set_cert_fingerprint fingerprint; workers.Set_signed_cert None; workers.Set_not_after None].

Definition rekey_embedded (fingerprint : string) : DB Rekey :=
  known ← find_worker_by_fingerprint fingerprint;
  match known with
  | Some _ => mret Known
  | None =>
      row ← find_worker_where (fun w => workers.embedded w = true);
      match row with
      | None => mret NoRow
      | Some row =>
          _ ← save_worker (rekey_cols fingerprint) row;
          mret (Rekeyed (workers.cert_fingerprint row))
      end
  end.

(** Every row: [embedded := (id = the worker's)]. *)
Definition mark_embedded (id : Z) : DB () :=
  _ ← update_workers (fun w => [workers.Set_embedded (bool_decide (workers.id w = id))]) (fun _ => True);
  mret tt.

(** ** Changes to one worker *)

Definition update_worker (id : Z) (cols : list workers.col_expr) : DB (option workers.Model) :=
  row ← find_worker id;
  match row with
  | None => mret None
  | Some row => row ← save_worker cols row; mret (Some row)
  end.

Definition store_signed_cert (id : Z) (signed_cert : string) (not_after : Z) : DB (option workers.Model) :=
  update_worker id [workers.Set_signed_cert (Some signed_cert); workers.Set_not_after (Some not_after)].

Definition approve_worker (id : Z) : DB (option workers.Model) :=
  update_worker id [workers.Set_status Approved].

Record RevokedWorker := mkRevoked {
  rv_worker : workers.Model;
  rv_abandoned : list Abandoned
}.

Definition revoked_cols : list workers.col_expr :=
  [workers.Set_status Revoked; workers.Set_paused false].

Definition revoke_worker (clock id max_attempts : Z) : DB (option RevokedWorker) :=
  worker ← update_worker id revoked_cols;
  match worker with
  | None => mret None
  | Some worker =>
      abandoned ← abandon_worker_builds clock id max_attempts;
      mret (Some (mkRevoked worker abandoned))
  end.

Definition set_paused (id : Z) (paused : bool) : DB (option workers.Model) :=
  update_worker id [workers.Set_paused paused].

Definition store_effective_config (id : Z) (effective : string) : DB () :=
  _ ← update_workers (fun _ => [workers.Set_effective_config (Some effective)])
        (fun w => workers.id w = id);
  mret tt.

(** ** Liveness *)

Definition TOUCH_THROTTLE_SECS : Z := 10.

(** [now.saturating_sub(seen)] *)
Definition i64_saturating_sub (a b : Z) : Z := Z.max i64_min (Z.min i64_max (a - b)).

(** Decided against [worker] as the caller read it; answers with what the caller's
    copy then is. *)
Definition touch_last_seen (now : Z) (worker : workers.Model) (version : option string)
  : DB workers.Model :=
  let version_changed := is_some_and (fun v => bool_decide (workers.version worker <> Some v)) version in
  let fresh := is_some_and (fun seen => (i64_saturating_sub now seen <? TOUCH_THROTTLE_SECS)%Z)
                 (workers.last_seen worker) in
  if fresh && negb version_changed then mret worker
  else
    let cols := workers.Set_last_seen (Some now) ::
      match version with Some v => [workers.Set_version (Some v)] | None => [] end in
    _ ← update_workers (fun _ => cols) (fun w => workers.id w = workers.id worker);
    mret (workers.assign cols worker).

(** ** Reading *)

Record BuildTally := mkTally { tl_active : Z; tl_successful : Z; tl_failed : Z }.
Definition no_builds : BuildTally := mkTally 0 0 0.

(** [GROUP BY worker_id, status]: one row per pair, with its count. *)
Definition status_counts (l : list builds.Model) : list (option Z * BuildState * Z) :=
  let held := filter (fun b => is_Some (builds.worker_id b)) l in
  (fun k => (k, Z.of_nat (length (filter (fun b => (builds.worker_id b, builds.status b) = k) held))))
    <$> remove_dups ((fun b => (builds.worker_id b, builds.status b)) <$> held).

Definition tally_row (tallies : gmap Z BuildTally) (row : option Z * BuildState * Z) : gmap Z BuildTally :=
  let '(worker_id, status, count) := row in
  match worker_id with
  | None => tallies
  | Some worker_id =>
      let count := if decide (count <= i32_max)%Z then count else i32_max in
      let tally := default no_builds (tallies !! worker_id) in
      let tally :=
        match status with
        | Active => mkTally count (tl_successful tally) (tl_failed tally)
        | Successful => mkTally (tl_active tally) count (tl_failed tally)
        | Failed => mkTally (tl_active tally) (tl_successful tally) count
        | Enqueued | WaitingForDeps | Publishing => tally
        end in
      <[worker_id := tally]> tallies
  end.

Definition build_tallies : DB (gmap Z BuildTally) :=
  rows ← query (fun d => status_counts (t_builds d));
  mret (foldl tally_row ∅ rows).

(** By name, in the database's binary collation, then by id. *)
Definition worker_cmp (a b : workers.Model) : comparison :=
  then_with (str_cmp (workers.name a) (workers.name b)) (Z.compare (workers.id a) (workers.id b)).

Definition list_workers : DB (list workers.Model) :=
  query (fun d => sort_by worker_cmp (t_workers d)).

(** ** Settings *)

Definition setting_of (worker_id : Z) (key : string) (row : worker_settings.Model) : Prop :=
  worker_settings.worker_id row = worker_id /\ worker_settings.key row = key.
#[export] Instance setting_of_dec worker_id key row : Decision (setting_of worker_id key row).
Proof. unfold setting_of. apply _. Defined.

Definition values_of (worker_id : Z) (l : list worker_settings.Model) : gmap string string :=
  collect_map ((fun row => (worker_settings.key row, worker_settings.value row)) <$>
    filter (fun row => worker_settings.worker_id row = worker_id) l).

Definition worker_setting_values (worker_id : Z) : DB (gmap string string) :=
  query (fun d => values_of worker_id (t_worker_settings d)).

(** [INSERT .. ON CONFLICT (worker_id, key) DO UPDATE SET value], one statement. *)
Definition upsert_worker_setting (worker_id : Z) (key value : string) : DB () :=
  statement (fun d =>
    let l := t_worker_settings d in
    if decide (Exists (setting_of worker_id key) l) then
      Ok (tt, with_worker_settings
        ((fun row => if decide (setting_of worker_id key row)
                     then worker_settings.mk (worker_settings.id row) worker_id key value else row) <$> l)
        (next_worker_setting_id d) d)
    else
      Ok (tt, with_worker_settings
        (l ++ [worker_settings.mk (next_worker_setting_id d) worker_id key value])
        (next_worker_setting_id d + 1) d)).

Definition delete_worker_setting (worker_id : Z) (key : string) : DB () :=
  statement (fun d =>
    Ok (tt, with_worker_settings (filter (fun row => ~ setting_of worker_id key row) (t_worker_settings d))
              (next_worker_setting_id d) d)).

Record SavedSettings := mkSaved { saved_set : list string; saved_reset : list string }.
Definition nothing_saved : SavedSettings := mkSaved [] [].

(** One turn of the loop of [save_worker_settings]. *)
Definition save_one (worker_id : Z) (before : gmap string string) (saved : SavedSettings)
    (change : string * option string) : DB SavedSettings :=
  let '(key, value) := change in
  match value with
  | Some value =>
      if decide (before !! key <> Some value) then
        _ ← upsert_worker_setting worker_id key value;
        mret (mkSaved (saved_set saved ++ [key]) (saved_reset saved))
      else mret saved
  | None =>
      if decide (is_Some (before !! key)) then
        _ ← delete_worker_setting worker_id key;
        mret (mkSaved (saved_set saved) (saved_reset saved ++ [key]))
      else mret saved
  end.

Fixpoint save_each (worker_id : Z) (before : gmap string string) (saved : SavedSettings)
    (changes : list (string * option string)) : DB SavedSettings :=
  match changes with
  | [] => mret saved
  | change :: changes =>
      saved ← save_one worker_id before saved change;
      save_each worker_id before saved changes
  end.

Definition save_worker_settings (worker_id : Z) (changes : gmap string (option string)) : DB SavedSettings :=
  transaction (
    before ← worker_setting_values worker_id;
    saved ← save_each worker_id before nothing_saved (by_key changes);
    mret (EndCommit saved)).

(** ** The build limits an upgrade kept *)

Definition EMBEDDED_WORKER_LIMITS : list (string * string) :=
  [("cpu_limit", "cpu_limit"); ("memory_limit", "memory_limit"); ("max_concurrent_builds", "concurrency")].

Section limits.
Context `{Float64}.

Record RefusedLimit := mkRefusedLimit {
  rl_key : string;
  rl_value : string;
  rl_reason : Refusal
}.

Record AdoptedLimits := mkAdopted {
  adopted_saved : SavedSettings;
  adopted_refused : list RefusedLimit
}.

Definition kept_limit (row : settings.Model) : Prop :=
  settings.pkg_id row = settings.scope None /\ settings.key row ∈ EMBEDDED_WORKER_LIMITS.*1.
#[export] Instance kept_limit_dec row : Decision (kept_limit row).
Proof. unfold kept_limit. apply _. Defined.

Definition adopt_one (declared : list SettingDecl)
    (acc : gmap string (option string) * list RefusedLimit) (row : settings.Model)
  : gmap string (option string) * list RefusedLimit :=
  let '(changes, refused) := acc in
  match head (filter (fun limit => limit.1 = settings.key row) EMBEDDED_WORKER_LIMITS) with
  | None => acc
  | Some (_, key) =>
      match option_filter (fun v => negb (is_empty v)) (trim <$> settings.value row) with
      | None => acc
      | Some value =>
          match validate_value declared key value with
          | Ok _ => (<[key := Some value]> changes, refused)
          | Err reason => (changes, refused ++ [mkRefusedLimit key value reason])
          end
      end
  end.

Definition adopt_0_5_limits (worker_id : Z) (declared : list SettingDecl) : DB AdoptedLimits :=
  kept ← query (fun d => filter kept_limit (t_settings d));
  if decide (kept = []) then mret (mkAdopted nothing_saved [])
  else
    let '(changes, refused) := foldl (adopt_one declared) (∅, []) kept in
    saved ← save_worker_settings worker_id changes;
    _ ← statement (fun d =>
          Ok (tt, with_settings (filter (fun row => settings.id row ∉ settings.id <$> kept) (t_settings d)) (next_setting_id d) d));
    mret (mkAdopted saved refused).
End limits.

(** ** What the queue leaves alone *)

Definition registry (d : database) :=
  (t_workers d, t_worker_settings d, t_settings d, next_worker_id d, next_worker_setting_id d).

Section untouched.
Context (r : list workers.Model * list worker_settings.Model * list settings.Model * Z * Z).
Definition holds_registry (d : database) : Prop := registry d = r.

#[local] Instance update_builds_registry cols P `{!forall b, Decision (P b)} :
  Preserves holds_registry (update_builds cols P).
Proof. apply statement_preserves. intros d a d' Hd. cbv zeta beta. case_decide; [|done]. by intros [= _ <-]. Qed.
#[local] Instance update_packages_registry cols P `{!forall b, Decision (P b)} :
  Preserves holds_registry (update_packages cols P).
Proof. apply statement_preserves. intros d a d' Hd. by intros [= _ <-]. Qed.
#[local] Instance insert_build_registry i p t f v g : Preserves holds_registry (insert_build i p t f v g).
Proof.
  apply statement_preserves. intros d a d' Hd. cbv zeta beta. repeat case_decide; try done; by intros [= _ <-].
Qed.
#[local] Instance refresh_registry i : Preserves holds_registry (refresh_package_status i).
Proof.
  apply bind_preserves; [apply _|]. intros [?|]; [|apply _]. apply bind_preserves; [apply _|].
  intros l. case_match; [|apply _]. apply bind_preserves; apply _.
Qed.
#[local] Instance enqueue_registry i f v t p g :
  Preserves holds_registry (enqueue_build_if_missing i f v t p g).
Proof.
  apply transaction_preserves_all. induction NUMBER_RACE_ATTEMPTS as [|n IH]; cbn [enqueue_attempts]; [apply _|].
  apply bind_preserves; [apply _|]. intros rows. apply bind_preserves; [apply _|]. intros [?|]; [|apply IH].
  apply bind_preserves; [|intros; apply _]. case_decide; [apply bind_preserves|]; apply _.
Qed.

#[local] Instance abandon_build_registry clock b reason n : Preserves holds_registry (abandon_build clock b reason n).
Proof.
  apply transaction_preserves_all. apply bind_preserves; [apply _|]. intros cas. case_decide; [apply _|].
  do 2 (apply bind_preserves; [apply _|]; intros ?). apply bind_preserves.
  - repeat case_match; apply _.
  - intros retry. apply bind_preserves; apply _.
Qed.

Lemma heartbeat_registry clock now w ids ttl n : Preserves holds_registry (heartbeat clock now w ids ttl n).
Proof.
  apply bind_preserves; [apply _|]. intros l. apply bind_preserves.
  - apply for_collect_preserves. intros b. apply bind_preserves; intros; apply _.
  - intros dropped. apply bind_preserves; [case_decide; apply _|]. intros ?.
    apply bind_preserves; [case_decide; [apply _|apply bind_preserves; apply _]|intros; apply _].
Qed.

Lemma abandon_worker_registry clock w n : Preserves holds_registry (abandon_worker_builds clock w n).
Proof.
  apply bind_preserves; [apply _|]. intros l. apply for_collect_preserves. intros b.
  apply bind_preserves; intros; apply _.
Qed.
End untouched.

(** ** The registry's invariant *)

Record registry_ok (d : database) : Prop := {
  ro_indexes : workers_indexes (t_workers d);
  ro_fresh : Forall (fun w => workers.id w < next_worker_id d)%Z (t_workers d);
  ro_embedded : length (filter (fun w => workers.embedded w = true) (t_workers d)) <= 1;
  ro_settings : NoDup ((fun row => (worker_settings.worker_id row, worker_settings.key row))
                         <$> t_worker_settings d)
}.

(** How [d] and [d'] compare as to who may build: nobody is lost, nobody's approval
    changes except as [A] says, and whoever is new is pending and not embedded. *)
Record regards (A : Z -> ApprovalStatus -> Prop) (d d' : database) : Prop := {
  rg_ok : registry_ok d -> registry_ok d';
  rg_kept w : w ∈ t_workers d -> exists w', w' ∈ t_workers d' /\ workers.id w' = workers.id w;
  rg_status w' : w' ∈ t_workers d' ->
    A (workers.id w') (workers.status w') \/
    (exists w, w ∈ t_workers d /\ workers.id w = workers.id w' /\ workers.status w = workers.status w') \/
    (workers.id w' ∉ workers.id <$> t_workers d) /\ workers.status w' = Pending
}.

#[export] Instance regards_preorder A : PreOrder (regards A).
Proof.
  split.
  - intros d. split; [done|by eauto|]. intros w Hw. right. left. eauto.
  - intros a b c [O1 K1 S1] [O2 K2 S2]. split; [auto| |].
    + intros w Hw. destruct (K1 w Hw) as (w' & Hw' & Hid). destruct (K2 w' Hw') as (w'' & ? & ?).
      exists w''. split; [done|congruence].
    + intros w Hw. destruct (S2 w Hw) as [?|[(v & Hv & Hid & Hs)|[Hn Hs]]]; [by left| |].
      * destruct (S1 v Hv) as [HA|[(u & ? & ? & ?)|[? ?]]]; rewrite Hid, Hs in *; [by left| |].
        -- right. left. exists u. split_and!; congruence.
        -- right. by right.
      * right. right. split; [|done]. intros (u & Hid & Hu)%list_elem_of_fmap. apply Hn.
        destruct (K1 u Hu) as (u' & Hu' & Hid'). rewrite Hid, <- Hid'. by apply list_elem_of_fmap_2.
Qed.

Lemma regards_registry A d d' : registry d' = registry d -> regards A d d'.
Proof.
  intros [= Hw Hs _ Hn _]. split.
  - intros [H1 H2 H3 H4]. split; by rewrite ?Hw, ?Hn, ?Hs.
  - rewrite Hw. eauto.
  - rewrite Hw. intros w Hin. right. left. eauto.
Qed.

(** ** Updates of [workers] *)

Lemma assign_worker_id cols w : workers.id (workers.assign cols w) = workers.id w.
Proof.
  unfold workers.assign. revert w. induction cols as [|c cols IH]; intros w; [done|]. simpl.
  rewrite IH. by destruct c.
Qed.

Section updated.
Context (cols : workers.Model -> list workers.col_expr) (P : workers.Model -> Prop) `{!forall w, Decision (P w)}.

Lemma elem_of_updated_workers l w :
  w ∈ updated_workers cols P l <->
  exists v, v ∈ l /\ w = if decide (P v) then workers.assign (cols v) v else v.
Proof. unfold updated_workers. rewrite list_elem_of_fmap. split; intros (v & ? & ?); exists v; auto. Qed.

Lemma updated_workers_fmap {K} (f : workers.Model -> K) l :
  (forall w, P w -> f (workers.assign (cols w) w) = f w) -> f <$> updated_workers cols P l = f <$> l.
Proof.
  intros Hf. unfold updated_workers. rewrite <- list_fmap_compose. apply list_fmap_ext.
  intros i w _. simpl. case_decide; auto.
Qed.

Lemma updated_workers_ids l : workers.id <$> updated_workers cols P l = workers.id <$> l.
Proof. apply updated_workers_fmap. intros w _. apply assign_worker_id. Qed.

(** An update that says [A] of the approvals it writes and does not embed anyone. *)
Lemma update_workers_regards A d :
  (workers_indexes (t_workers d) -> workers_indexes (updated_workers cols P (t_workers d))) ->
  (forall w, P w -> workers.embedded (workers.assign (cols w) w) = workers.embedded w) ->
  (forall w, P w -> workers.status (workers.assign (cols w) w) = workers.status w \/
     A (workers.id w) (workers.status (workers.assign (cols w) w))) ->
  regards A d (with_workers (updated_workers cols P (t_workers d)) d).
Proof.
  intros Hidx Hemb Hst. split; simpl.
  - intros [H1 H2 H3 H4]. split; simpl; [auto| | |done].
    + unfold updated_workers. apply Forall_fmap. eapply Forall_impl; [exact H2|]. intros w Hw. simpl.
      case_decide; [by rewrite assign_worker_id|done].
    + replace (length (filter (fun w => workers.embedded w = true) (updated_workers cols P (t_workers d))))
        with (length (filter (fun w => workers.embedded w = true) (t_workers d))); [done|].
      clear -Hemb. unfold updated_workers. induction (t_workers d) as [|w l IH]; [done|]. csimpl.
      rewrite !filter_cons. assert (workers.embedded (if decide (P w)
        then workers.assign (cols w) w else w) = workers.embedded w) as -> by (case_decide; auto).
      case_decide; simpl; by rewrite ?IH.
  - intros w Hw. eexists. split; [apply elem_of_updated_workers; eauto|]. case_decide; [apply assign_worker_id|done].
  - intros w' (w & Hw & ->)%elem_of_updated_workers. case_decide as HP; [|right; left; eauto].
    rewrite assign_worker_id. destruct (Hst w HP) as [He|?]; [|by left]. right. left. exists w. auto.
Qed.
End updated.

Lemma triple_update_workers A cols P `{!forall w, Decision (P w)} :
  (forall w, P w -> workers.embedded (workers.assign (cols w) w) = workers.embedded w) ->
  (forall w, P w -> workers.status (workers.assign (cols w) w) = workers.status w \/
     A (workers.id w) (workers.status (workers.assign (cols w) w))) ->
  triple (regards A) (fun _ => True) (update_workers cols P) (fun _ _ => True).
Proof.
  intros He Hs. apply triple_statement; [apply _|]. intros d a d' _.
  cbv zeta beta. case_decide; [|done]. intros [= _ <-].
  split; [|done]. by apply update_workers_regards.
Qed.

Section triples.
Context (A : Z -> ApprovalStatus -> Prop).
Abbreviation safe m := (triple (regards A) (fun _ => True) m (fun _ _ => True)).

Lemma safe_bind {E B C} (m : Sql database E B) (f : B -> Sql database E C) :
  safe m -> (forall a, safe (f a)) -> safe (mbind f m).
Proof. intros Hm Hf. eapply triple_bind; [apply _|exact Hm|exact Hf]. Qed.

Lemma safe_ret {E B} (a : B) : safe (mret (M := Sql database E) a).
Proof. apply triple_ret; [apply _|done]. Qed.

Lemma safe_query {B} (q : database -> B) : safe (query q).
Proof. apply triple_query; [apply _|done]. Qed.

Lemma safe_fail {B} (e : DbErr) : safe (sql_fail (D := database) (A := B) e).
Proof. intros left d _. split; [reflexivity|by intros a]. Qed.
End triples.

(** ** Who may build *)

(** The ways the registry changes. *)
Inductive registry_op : forall A, DB A -> (Z -> ApprovalStatus -> Prop) -> Prop :=
| op_register clock reg : registry_op _ (register_worker clock reg) (fun _ _ => False)
| op_rekey fingerprint : registry_op _ (rekey_embedded fingerprint) (fun _ _ => False)
| op_store_cert id cert not_after : registry_op _ (store_signed_cert id cert not_after) (fun _ _ => False)
| op_approve id : registry_op _ (approve_worker id) (fun i s => i = id /\ s = Approved)
| op_revoke clock id n : registry_op _ (revoke_worker clock id n) (fun i s => i = id /\ s = Revoked)
| op_pause id paused : registry_op _ (set_paused id paused) (fun _ _ => False)
| op_effective id json : registry_op _ (store_effective_config id json) (fun _ _ => False)
| op_touch now worker version : registry_op _ (touch_last_seen now worker version) (fun _ _ => False)
| op_mark id : registry_op _ (mark_embedded id) (fun _ _ => False)
| op_save worker_id values : registry_op _ (save_worker_settings worker_id values) (fun _ _ => False)
| op_adopt `{Float64} worker_id declared : registry_op _ (adopt_0_5_limits worker_id declared) (fun _ _ => False).

Section safe.
Context (A : Z -> ApprovalStatus -> Prop).
Abbreviation safe m := (triple (regards A) (fun _ => True) m (fun _ _ => True)).

Lemma safe_find_worker id : safe (find_worker id).
Proof. apply safe_query. Qed.

Lemma safe_save_worker cols row :
  (forall w, workers.embedded (workers.assign cols w) = workers.embedded w) ->
  (forall w, workers.id w = workers.id row -> workers.status (workers.assign cols w) = workers.status w \/
     A (workers.id w) (workers.status (workers.assign cols w))) ->
  safe (save_worker cols row).
Proof.
  intros He Hs. apply safe_bind; [by apply triple_update_workers|]. intros rows.
  case_decide; [apply safe_fail|]. apply safe_bind; [apply safe_find_worker|].
  intros [w|]; [apply safe_ret|apply safe_fail].
Qed.

Lemma safe_update_worker id cols :
  (forall w, workers.embedded (workers.assign cols w) = workers.embedded w) ->
  (forall w, workers.id w = id -> workers.status (workers.assign cols w) = workers.status w \/
     A (workers.id w) (workers.status (workers.assign cols w))) ->
  safe (update_worker id cols).
Proof.
  intros He Hs. eapply triple_bind; [apply _| |].
  - apply (triple_query _ _ _ (fun row _ => forall w, row = Some w -> workers.id w = id)).
    by intros d _ w [_ Hw]%head_filter_elem.
  - intros [row|] left d Hrow; [|split; [reflexivity|done]].
    eapply safe_bind; [|intros ?; apply safe_ret|done]. apply safe_save_worker; [done|].
    intros w Hw. apply Hs. rewrite Hw. by apply Hrow.
Qed.

Lemma safe_upsert clock reg : safe (upsert_worker clock reg).
Proof.
  apply triple_statement; [apply _|]. intros d [] d' _. cbv zeta beta.
  destruct (decide (reg_fingerprint reg ∈ workers.cert_fingerprint <$> t_workers d)) as [Hin|Hout].
  - intros [= <-]. split; [|done]. apply update_workers_regards; [|done|by left].
    intros [H1 H2]. split; [by rewrite updated_workers_ids|].
    by rewrite updated_workers_fmap.
  - case_decide as Hi; [|done]. intros [= <-]. split; [|done]. split; simpl.
    + intros [H1 H2 H3 H4]. split; simpl; [done| | |done].
      * rewrite Forall_app, Forall_singleton. simpl. split; [|lia].
        eapply Forall_impl; [exact H2|]. simpl. lia.
      * rewrite filter_app, length_app. rewrite filter_cons_False by done. simpl. lia.
    + intros w Hw. exists w. split; [|done]. apply elem_of_app. by left.
    + intros w [Hw| ->%list_elem_of_singleton]%elem_of_app; [by right; left; eauto|].
      right. right. split; [|done]. destruct Hi as [Hid _].
      rewrite fmap_app in Hid. apply NoDup_app in Hid as (_ & Hd & _). intros Hin.
      apply (Hd _ Hin). by left.
Qed.

(** Exactly one row can have the id. *)
Lemma marked_one id l :
  NoDup (workers.id <$> l) ->
  length (filter (fun w => workers.embedded w = true)
    (updated_workers (fun w => [workers.Set_embedded (bool_decide (workers.id w = id))]) (fun _ => True) l)) <= 1.
Proof.
  intros Hnd. unfold updated_workers.
  assert (forall k, length (filter (fun w => workers.embedded w = true)
      ((fun w => if decide True then workers.assign [workers.Set_embedded (bool_decide (workers.id w = id))] w
                 else w) <$> k)) = length (filter (fun w => workers.id w = id) k)) as ->.
  { induction k as [|w k IH]; [done|]. csimpl. rewrite !filter_cons.
    destruct (decide True) as [_|[]]; [|done]. cbn [workers.assign foldl workers.set workers.embedded].
    destruct (decide (workers.id w = id)) as [He|He];
      [rewrite (bool_decide_true _ He)|rewrite (bool_decide_false _ He)];
      [exact (f_equal S IH)|exact IH]. }
  destruct (filter (fun w => workers.id w = id) l) as [|u [|v k]] eqn:Hf; simpl; [lia..|]. exfalso.
  assert (NoDup (workers.id <$> u :: v :: k)) as Hnd'.
  { rewrite <- Hf. eapply sublist_NoDup; [exact Hnd|]. apply fmap_sublist, sublist_filter. }
  assert (Forall (fun w => workers.id w = id) (u :: v :: k)) as Hall.
  { rewrite <- Hf. apply Forall_forall. by intros w [? _]%list_elem_of_filter. }
  apply Forall_cons in Hall as [Hu [Hv _]%Forall_cons].
  apply NoDup_cons in Hnd' as [Hn _]. apply Hn.
  replace (workers.id u) with (workers.id v) by congruence. left.
Qed.

Lemma safe_mark id : safe (mark_embedded id).
Proof.
  apply safe_bind; [|intros; apply safe_ret]. apply triple_statement; [apply _|].
  intros d a d' _. cbv zeta beta. case_decide as Hi; [|done]. intros [= _ <-]. split; [|done]. split.
  - intros [H1 H2 H3 H4]. split; simpl; [done| |by apply marked_one, H1|done].
    unfold updated_workers. apply Forall_fmap. eapply Forall_impl; [exact H2|]. intros w Hw. simpl.
    by destruct (decide True) as [_|[]].
  - intros w Hw. eexists. split; [apply elem_of_updated_workers; eauto|]. by destruct (decide True) as [_|[]].
  - simpl. intros w' (w & Hw & ->)%elem_of_updated_workers. right. left. exists w.
    by destruct (decide True) as [_|[]].
Qed.

Lemma regards_settings l n d :
  (NoDup ((fun row => (worker_settings.worker_id row, worker_settings.key row)) <$> t_worker_settings d) ->
   NoDup ((fun row => (worker_settings.worker_id row, worker_settings.key row)) <$> l)) ->
  regards A d (with_worker_settings l n d).
Proof.
  intros Hl. split; simpl; [|by eauto|intros w Hw; right; left; eauto].
  intros [H1 H2 H3 H4]. split; simpl; auto.
Qed.

Lemma safe_upsert_setting w k v : safe (upsert_worker_setting w k v).
Proof.
  apply triple_statement; [apply _|]. intros d [] d' _. cbv zeta beta. case_decide as He.
  - intros [= <-]. split; [|done]. apply regards_settings. rewrite <- list_fmap_compose.
    intros Hnd. erewrite list_fmap_ext; [exact Hnd|].
    intros i row _. simpl. by case_decide as Hs; [destruct Hs as [<- <-]|].
  - intros [= <-]. split; [|done]. apply regards_settings. rewrite fmap_app. intros Hnd.
    apply NoDup_app. split_and!; [done| |apply NoDup_singleton].
    intros x (row & -> & Hin)%list_elem_of_fmap [= Hw Hk]%list_elem_of_singleton.
    apply He, Exists_exists. by exists row.
Qed.

Lemma safe_delete_setting w k : safe (delete_worker_setting w k).
Proof.
  apply triple_statement; [apply _|]. intros d [] d' _. cbv zeta beta. intros [= <-].
  split; [|done]. apply regards_settings. intros Hnd. eapply sublist_NoDup; [exact Hnd|].
  apply fmap_sublist, sublist_filter.
Qed.

Lemma safe_transaction {B} (body : DB (ending B)) : safe body -> safe (transaction body).
Proof.
  intros Hb left d _. split; [|done]. unfold transaction.
  destruct (o_result (query _ _ _)); [|reflexivity].
  destruct (Hb (o_left (query (fun _ => tt) left d)) d I) as [Hr _].
  destruct (o_result (body _ d)) as [[b|b|b]|]; simpl; try reflexivity;
    destruct (o_result (query _ _ _)); simpl; by try reflexivity.
Qed.

Lemma safe_save worker_id values : safe (save_worker_settings worker_id values).
Proof.
  apply safe_transaction, safe_bind; [apply safe_query|]. intros before.
  apply safe_bind; [|intros; apply safe_ret]. generalize nothing_saved.
  induction (by_key values) as [|[k v] l IH]; intros saved; [apply safe_ret|].
  apply safe_bind; [|intros; apply IH]. unfold save_one.
  destruct v; case_decide; try apply safe_ret; (apply safe_bind; [|intros; apply safe_ret]);
    [apply safe_upsert_setting|apply safe_delete_setting].
Qed.
End safe.

Lemma op_safe A (m : DB A) changes :
  registry_op A m changes -> triple (regards changes) (fun _ => True) m (fun _ _ => True).
Proof.
  intros Hop. destruct Hop as [clock reg|fingerprint|id cert not_after|id|clock id n|id paused|id json|now worker version
    |id|worker_id values|? worker_id declared].
  - apply safe_bind; [apply safe_upsert|]. intros _. apply safe_bind; [apply safe_query|].
    intros [w|]; [apply safe_ret|apply safe_fail].
  - apply safe_bind; [apply safe_query|]. intros [w|]; [apply safe_ret|].
    apply safe_bind; [apply safe_query|]. intros [w|]; [|apply safe_ret].
    apply safe_bind; [apply safe_save_worker; [done|by left]|intros _; apply safe_ret].
  - apply safe_update_worker; [done|by left].
  - apply safe_update_worker; [done|by right].
  - apply safe_bind; [apply safe_update_worker; [done|by right]|]. intros [w|]; [|apply safe_ret].
    apply safe_bind; [|intros ?; apply safe_ret]. intros left d _. split; [|done].
    apply regards_registry. by apply (abandon_worker_registry (registry d)).
  - apply safe_update_worker; [done|by left].
  - apply safe_bind; [apply triple_update_workers; [done|by left]|intros _; apply safe_ret].
  - unfold touch_last_seen. case_match; [apply safe_ret|].
    apply safe_bind; [|intros _; apply safe_ret].
    apply triple_update_workers; destruct version; first [done|by left].
  - apply safe_mark.
  - apply safe_save.
  - apply safe_bind; [apply safe_query|]. intros kept. case_decide; [apply safe_ret|].
    destruct (foldl _ _ _) as [values refused]. apply safe_bind; [apply safe_save|]. intros saved.
    apply safe_bind; [|intros; apply safe_ret]. apply triple_statement; [apply _|].
    intros d [] d' _ [= <-]. split; [|done]. split; simpl; [|by eauto|intros w Hw; right; left; eauto].
    by intros [? ? ? ?].
Qed.


(** C13. Nothing but an operator decides who may build: over any connection, whatever
    the registry does, a worker's approval changes only where it is approved or
    revoked by id - registering again, coming back under a new key, pausing or
    reporting never does - and whoever is new waits for approval. The fingerprints
    stay unique and at most one worker is the embedded one. *)
Theorem approval_is_only_given A (m : DB A) changes left d :
  registry_op A m changes -> registry_ok d ->
  let d' := o_db (m left d) in
  registry_ok d' /\
  (forall w, w ∈ t_workers d -> exists w', w' ∈ t_workers d' /\ workers.id w' = workers.id w) /\
  forall w', w' ∈ t_workers d' ->
    changes (workers.id w') (workers.status w') \/
    (exists w, w ∈ t_workers d /\ workers.id w = workers.id w' /\ workers.status w = workers.status w') \/
    workers.id w' ∉ workers.id <$> t_workers d /\ workers.status w' = Pending.
Proof.
  intros Hop Hok d'. cut (regards changes d d'); [intros [? ? ?]; auto|].
  by apply (op_safe A m changes Hop).
Qed.

(** ** Settings as a map *)

Definition settings_unique (l : list worker_settings.Model) : Prop :=
  NoDup ((fun row => (worker_settings.worker_id row, worker_settings.key row)) <$> l).

Lemma values_of_lookup w k v l :
  settings_unique l ->
  values_of w l !! k = Some v <->
  (exists row, row ∈ l /\ setting_of w k row /\ worker_settings.value row = v).
Proof.
  intros Hl. unfold values_of. rewrite collect_map_lookup.
  - rewrite list_elem_of_fmap. split.
    + intros (row & [= -> ->] & [Hw Hin]%list_elem_of_filter). by exists row.
    + intros (row & Hin & [Hw <-] & <-). exists row. split; [done|]. by apply list_elem_of_filter.
  - rewrite <- list_fmap_compose. unfold compose. simpl.
    induction l as [|row l IH]; [constructor|]. rewrite filter_cons.
    unfold settings_unique in *. rewrite fmap_cons, NoDup_cons in Hl. destruct Hl as [Hn Hl].
    case_decide as Hw; [|by apply IH]. rewrite fmap_cons, NoDup_cons. split; [|by apply IH].
    intros (r & Hk & [Hr Hin]%list_elem_of_filter)%list_elem_of_fmap. apply Hn, list_elem_of_fmap.
    exists r. split; [|done]. simpl in *. congruence.
Qed.

(** Two tables that give the same rows' values give the same map. *)
Lemma values_of_ext w k l l' :
  settings_unique l -> settings_unique l' ->
  (forall v, (exists row, row ∈ l /\ setting_of w k row /\ worker_settings.value row = v) <->
             (exists row, row ∈ l' /\ setting_of w k row /\ worker_settings.value row = v)) ->
  values_of w l !! k = values_of w l' !! k.
Proof.
  intros Hl Hl' Hv. apply option_eq. intros v. by rewrite !values_of_lookup.
Qed.

(** What a write of ([w], [k]) leaves under every key. *)
Definition setting_written (w : Z) (k : string) (value : option string) (l l' : list worker_settings.Model) : Prop :=
  settings_unique l' /\ values_of w l' !! k = value /\
  forall w' k', (w', k') <> (w, k) -> values_of w' l' !! k' = values_of w' l !! k'.

Lemma run_upsert_setting w k v d :
  settings_unique (t_worker_settings d) ->
  exists l n, run (upsert_worker_setting w k v) d = (Ok tt, with_worker_settings l n d) /\
    setting_written w k (Some v) (t_worker_settings d) l.
Proof.
  intros Hu. unfold upsert_worker_setting. rewrite run_statement. cbv zeta.
  set (l0 := t_worker_settings d) in *. destruct (decide (Exists (setting_of w k) l0)) as [He|He].
  - do 2 eexists. split; [done|]. set (f := fun row => _).
    assert (settings_unique (f <$> l0)) as Hu'.
    { unfold settings_unique in *. rewrite <- list_fmap_compose. erewrite list_fmap_ext; [exact Hu|].
      intros i row _. unfold f. simpl. by case_decide as Hs; [destruct Hs as [<- <-]|]. }
    split; [done|]. split.
    + apply values_of_lookup; [done|]. apply Exists_exists in He as (row & Hin & Hs).
      exists (f row). split; [by apply list_elem_of_fmap_2|]. unfold f. by rewrite decide_True.
    + intros w' k' Hne. apply values_of_ext; [done..|]. intros x. split.
      * intros (r & (row & -> & Hin)%list_elem_of_fmap & Hs & Hx). exists row. unfold f in *.
        case_decide as Hr; [|done]. destruct Hs as [<- <-]. by destruct Hne.
      * intros (row & Hin & Hs & Hx). exists row. split; [|done]. apply list_elem_of_fmap.
        exists row. split; [|done]. unfold f. rewrite decide_False; [done|].
        intros [? ?]. apply Hne. destruct Hs. congruence.
  - do 2 eexists. split; [done|]. set (row0 := worker_settings.mk _ _ _ _).
    assert (settings_unique (l0 ++ [row0])) as Hu'.
    { unfold settings_unique in *. rewrite fmap_app. apply NoDup_app.
      split_and!; [done| |apply NoDup_singleton].
      intros x (row & -> & Hin)%list_elem_of_fmap [= Hw Hk]%list_elem_of_singleton.
      apply He, Exists_exists. by exists row. }
    split; [done|]. split.
    + apply values_of_lookup; [done|]. exists row0. split; [|done]. apply elem_of_app. right. left.
    + intros w' k' Hne. apply values_of_ext; [done..|]. intros x. split.
      * intros (row & [Hin| ->%list_elem_of_singleton]%elem_of_app & Hs & Hx); [by exists row|].
        destruct Hs as [<- <-]. by destruct Hne.
      * intros (row & Hin & Hs & Hx). exists row. split; [|done]. apply elem_of_app. by left.
Qed.

Lemma run_delete_setting w k d :
  settings_unique (t_worker_settings d) ->
  exists l n, run (delete_worker_setting w k) d = (Ok tt, with_worker_settings l n d) /\
    setting_written w k None (t_worker_settings d) l.
Proof.
  intros Hu. unfold delete_worker_setting. rewrite run_statement. do 2 eexists. split; [done|].
  set (l0 := t_worker_settings d) in *.
  assert (settings_unique (filter (fun row => ~ setting_of w k row) l0)) as Hu'.
  { eapply sublist_NoDup; [exact Hu|]. apply fmap_sublist, sublist_filter. }
  split; [done|]. split.
  - apply eq_None_not_Some. intros [v (row & [Hn _]%list_elem_of_filter & Hs & _)%values_of_lookup]; done.
  - intros w' k' Hne. apply values_of_ext; [done..|]. intros x. split.
    + intros (row & [_ Hin]%list_elem_of_filter & Hs & Hx). by exists row.
    + intros (row & Hin & Hs & Hx). exists row. split; [|done]. apply list_elem_of_filter.
      split; [|done]. intros [? ?]. apply Hne. destruct Hs. congruence.
Qed.

#[export] Instance save_one_transparent w before saved c : Transparent (save_one w before saved c).
Proof. destruct c as [k [v|]]; simpl; case_decide; apply _. Qed.
#[export] Instance save_one_steady w before saved c : Steady (save_one w before saved c).
Proof. destruct c as [k [v|]]; simpl; case_decide; apply _. Qed.
#[export] Instance save_each_transparent w before saved l : Transparent (save_each w before saved l).
Proof. revert saved. induction l; intros saved; simpl; apply _. Qed.
#[export] Instance save_each_steady w before saved l : Steady (save_each w before saved l).
Proof. revert saved. induction l; intros saved; simpl; apply _. Qed.

Section save.
Context (w : Z) (before : gmap string string).

(** What processing the changes [l] leaves. *)
Record saves (l : list (string * option string)) (saved saved' : SavedSettings) (d d' : database) : Prop := {
  sv_unique : settings_unique (t_worker_settings d');
  sv_changed k v : (k, v) ∈ l -> values_of w (t_worker_settings d') !! k = v;
  sv_kept k : k ∉ l.*1 ->
    values_of w (t_worker_settings d') !! k = values_of w (t_worker_settings d) !! k;
  sv_others w' : w' <> w ->
    values_of w' (t_worker_settings d') = values_of w' (t_worker_settings d);
  sv_set k : k ∈ saved_set saved' <->
    k ∈ saved_set saved \/ exists v, (k, Some v) ∈ l /\ before !! k <> Some v;
  sv_reset k : k ∈ saved_reset saved' <->
    k ∈ saved_reset saved \/ (k, None) ∈ l /\ is_Some (before !! k);
  sv_frame : exists t n, d' = with_worker_settings t n d
}.

Lemma written_step d l n k v saved saved1 rest saved' d' :
  setting_written w k v (t_worker_settings d) l ->
  k ∉ rest.*1 ->
  (forall j, j ∈ saved_set saved1 <-> j ∈ saved_set saved \/ j = k /\ exists x, v = Some x /\ before !! k <> Some x) ->
  (forall j, j ∈ saved_reset saved1 <-> j ∈ saved_reset saved \/ j = k /\ v = None /\ is_Some (before !! k)) ->
  saves rest saved1 saved' (with_worker_settings l n d) d' ->
  saves ((k, v) :: rest) saved saved' d d'.
Proof.
  intros (Hu & Hk & Ho) Hfresh Hset Hreset [S1 S2 S3 S4 S5 S6 (t' & n' & S7)]. split; [done|..].
  - intros j x [[= -> ->]|Hj]%elem_of_cons; [|by apply S2]. by rewrite S3.
  - intros j. csimpl. rewrite not_elem_of_cons. intros [Hne Hj]. rewrite S3 by done. simpl.
    apply Ho. congruence.
  - intros w' Hne. rewrite S4 by done. apply map_eq. intros j. apply Ho. congruence.
  - intros j. rewrite S5, Hset. setoid_rewrite elem_of_cons. split.
    + intros [[?|[-> (x & -> & Hx)]]|(x & Hx & Hb)]; [by left|right; exists x; auto..].
    + intros [?|(x & [[= -> <-]|Hx] & Hb)]; [by left; left|left; right|right; by exists x].
      split; [done|]. by exists x.
  - intros j. rewrite S6, Hreset, elem_of_cons. split.
    + intros [[?|(-> & -> & Hx)]|[? ?]]; [by left|right; auto..].
    + intros [?|[[[= -> <-]|Hx] Hb]]; [by left; left|left; right; auto|by right].
  - exists t', n'. by rewrite S7.
Qed.

(** A change that is none leaves the table alone, and says so. *)
Lemma written_same d k v :
  settings_unique (t_worker_settings d) -> values_of w (t_worker_settings d) !! k = v ->
  setting_written w k v (t_worker_settings d) (t_worker_settings d).
Proof. by intros. Qed.

Lemma run_save_each l saved d :
  settings_unique (t_worker_settings d) -> NoDup l.*1 ->
  (forall k, k ∈ l.*1 -> values_of w (t_worker_settings d) !! k = before !! k) ->
  exists saved' d', run (save_each w before saved l) d = (Ok saved', d') /\ saves l saved saved' d d'.
Proof.
  revert saved d. induction l as [|[k v] l IH]; intros saved d Hu Hnd Hb; csimpl in *.
  { exists saved, d. split; [done|]. split; try done.
    - by intros k v ?%elem_of_nil.
    - intros k. split; [by left|]. by intros [?|(v & ?%elem_of_nil & _)].
    - intros k. split; [by left|]. by intros [?|[?%elem_of_nil _]].
    - exists (t_worker_settings d), (next_worker_setting_id d). by destruct d. }
  apply NoDup_cons in Hnd as [Hk Hnd]. specialize (Hb k) as Hbk.
  assert (values_of w (t_worker_settings d) !! k = before !! k) as Hcur by (apply Hbk; left). clear Hbk.
  assert (exists saved1 t n, run (save_one w before saved (k, v)) d =
      (Ok saved1, with_worker_settings t n d) /\ setting_written w k v (t_worker_settings d) t /\
    (forall j, j ∈ saved_set saved1 <-> j ∈ saved_set saved \/ j = k /\ exists x, v = Some x /\ before !! k <> Some x) /\
    (forall j, j ∈ saved_reset saved1 <-> j ∈ saved_reset saved \/ j = k /\ v = None /\ is_Some (before !! k)))
    as (saved1 & t & n & Hrun & Hw & Hset & Hreset).
  { assert (d = with_worker_settings (t_worker_settings d) (next_worker_setting_id d) d) as Hd by by destruct d.
    unfold save_one. destruct v as [v|]; case_decide as Hc.
    - destruct (run_upsert_setting w k v d Hu) as (t & n & Hr & Hw).
      exists (mkSaved (saved_set saved ++ [k]) (saved_reset saved)), t, n. split.
      { unfold mbind, sql_mbind. by rewrite run_bind, Hr by apply _. }
      split_and!; [done|intros j; simpl; rewrite elem_of_app, list_elem_of_singleton|intros j; simpl].
      + split; [intros [?| ->]|intros [?|[-> _]]]; eauto 6.
      + split; [by left|]. by intros [?|(_ & ? & _)].
    - exists saved, (t_worker_settings d), (next_worker_setting_id d). rewrite <- Hd.
      split_and!; [done|apply written_same; congruence|intros j..].
      + split; [by left|]. intros [?|(-> & x & [= <-] & Hn)]; done.
      + split; [by left|]. by intros [?|(_ & ? & _)].
    - destruct (run_delete_setting w k d Hu) as (t & n & Hr & Hw).
      exists (mkSaved (saved_set saved) (saved_reset saved ++ [k])), t, n. split.
      { unfold mbind, sql_mbind. by rewrite run_bind, Hr by apply _. }
      split_and!; [done|intros j; simpl|intros j; simpl; rewrite elem_of_app, list_elem_of_singleton].
      + split; [by left|]. by intros [?|(_ & x & ? & _)].
      + split; [intros [?| ->]|intros [?|[-> _]]]; eauto 6.
    - exists saved, (t_worker_settings d), (next_worker_setting_id d). rewrite <- Hd.
      apply eq_None_not_Some in Hc. split_and!; [done|apply written_same; congruence|intros j..].
      + split; [by left|]. by intros [?|(_ & x & ? & _)].
      + split; [by left|]. rewrite Hc. by intros [?|(_ & _ & ? & [=])]. }
  destruct (IH saved1 (with_worker_settings t n d)) as (saved' & d' & Hr & Hs).
  - apply Hw.
  - done.
  - intros j Hj. simpl. destruct Hw as (_ & _ & Ho). rewrite Ho by (intros [= ->]; done).
    apply Hb. by right.
  - exists saved', d'. split; [|by eapply written_step].
    change (run (sql_bind (fun s => save_each w before s l) (save_one w before saved (k, v))) d = (Ok saved', d')).
    rewrite run_bind by apply _. by rewrite Hrun.
Qed.
End save.

Lemma run_save w changes d :
  registry_ok d ->
  exists saved d', run (save_worker_settings w changes) d = (Ok saved, d') /\
    saves w (values_of w (t_worker_settings d)) (by_key changes) nothing_saved saved d d'.
Proof.
  intros Hok. set (before := values_of w (t_worker_settings d)).
  destruct (run_save_each w before (by_key changes) nothing_saved d) as (saved & d' & Hr & Hs);
    [apply Hok|apply by_key_nodup|done|].
  exists saved, d'. split; [|done].
  unfold save_worker_settings. rewrite run_transaction by apply _.
  unfold mbind, sql_mbind. rewrite run_bind by apply _. unfold worker_setting_values at 1. rewrite run_query.
  rewrite run_bind by apply _. fold before. by rewrite Hr.
Qed.

(** What saving leaves of each key. *)
Lemma saves_values w before changes saved d d' :
  saves w before (by_key changes) nothing_saved saved d d' ->
  forall k, values_of w (t_worker_settings d') !! k =
    match changes !! k with Some v => v | None => values_of w (t_worker_settings d) !! k end.
Proof.
  intros Hs k. destruct (changes !! k) as [v|] eqn:Hk; [by apply (sv_changed _ _ _ _ _ _ _ Hs), elem_of_by_key|].
  apply (sv_kept _ _ _ _ _ _ _ Hs). intros ([j v] & -> & Hj%elem_of_by_key)%list_elem_of_fmap. simpl in Hk. congruence.
Qed.

(** Settings are saved whole or not at all, over any connection: either every
    changed key has its new value or is gone, every other key and every other
    worker's settings are as before, and what is reported is exactly the keys whose
    value was not already so; or nothing was written. *)
Theorem settings_saved_whole w changes left d :
  registry_ok d ->
  let before := values_of w (t_worker_settings d) in
  let o := save_worker_settings w changes left d in
  (left = None -> is_ok (o_result o) = true) /\
  match o_result o with
  | Err _ => o_db o = d
  | Ok saved =>
      (forall k, values_of w (t_worker_settings (o_db o)) !! k =
         match changes !! k with Some v => v | None => before !! k end) /\
      (forall w', w' <> w ->
         values_of w' (t_worker_settings (o_db o)) = values_of w' (t_worker_settings d)) /\
      (forall k, k ∈ saved_set saved <-> exists v, changes !! k = Some (Some v) /\ before !! k <> Some v) /\
      (forall k, k ∈ saved_reset saved <-> changes !! k = Some None /\ is_Some (before !! k))
  end.
Proof.
  intros Hok before o. destruct (run_save w changes d Hok) as (saved & d' & Hrun & Hs).
  split; [intros ->; unfold o; unfold run in Hrun; by injection Hrun as -> _|].
  destruct (atomic_run (save_worker_settings w changes) left d saved d' Hrun) as [(e & He & Hd)|[He Hd]];
    fold o in He, Hd; rewrite He; [done|]. rewrite Hd. pose proof (saves_values _ _ _ _ _ _ Hs) as Hv. destruct Hs as [_ _ _ S4 S5 S6 _].
  split_and!; [done..| |].
  - intros k. rewrite S5. setoid_rewrite elem_of_by_key. split; [|by right]. by intros [?%elem_of_nil|].
  - intros k. rewrite S6, elem_of_by_key. split; [|by right]. by intros [?%elem_of_nil|].
Qed.

(** ** Registration *)

(** With the fingerprints unique, at most one row answers to one. *)
Lemma fingerprint_unique l f w `{!forall w, Decision (workers.cert_fingerprint w = f)} :
  NoDup (workers.cert_fingerprint <$> l) -> w ∈ l -> workers.cert_fingerprint w = f ->
  filter (fun w => workers.cert_fingerprint w = f) l = [w].
Proof.
  intros Hnd Hw Hf. induction l as [|v l IH]; [by apply elem_of_nil in Hw|].
  rewrite fmap_cons, NoDup_cons in Hnd. destruct Hnd as [Hv Hnd]. rewrite filter_cons.
  apply elem_of_cons in Hw as [->|Hw].
  - rewrite decide_True by done. f_equal. apply filter_nil_iff.
    intros u Hu Huf. apply Hv. rewrite Hf, <- Huf. by apply list_elem_of_fmap_2.
  - rewrite decide_False; [by apply IH|]. intros Hvf. apply Hv.
    rewrite Hvf, <- Hf. by apply list_elem_of_fmap_2.
Qed.

(** What registering leaves of the row that already has the fingerprint, if any. *)
Definition registered_row (clock : Z) (reg : WorkerRegistration) (d : database) : workers.Model :=
  match head (filter (fun w => workers.cert_fingerprint w = reg_fingerprint reg) (t_workers d)) with
  | Some w => workers.assign (registered_cols clock reg) w
  | None => new_worker (next_worker_id d) clock reg
  end.

Lemma run_register clock reg d :
  registry_ok d ->
  let row := registered_row clock reg d in
  exists d', run (register_worker clock reg) d = (Ok row, d') /\ row ∈ t_workers d' /\
    (forall w, w ∈ t_workers d -> workers.cert_fingerprint w <> reg_fingerprint reg -> w ∈ t_workers d') /\
    length (t_workers d') =
      if decide (reg_fingerprint reg ∈ workers.cert_fingerprint <$> t_workers d)
      then length (t_workers d) else S (length (t_workers d)).
Proof.
  intros Hok row. destruct Hok as [[Hids Hfps] Hfresh _ _].
  unfold register_worker, mbind, sql_mbind. rewrite run_bind by apply _. unfold upsert_worker at 1.
  rewrite run_statement. cbv zeta. unfold row, registered_row.
  destruct (decide (reg_fingerprint reg ∈ workers.cert_fingerprint <$> t_workers d)) as [Hin|Hout].
  - apply list_elem_of_fmap in Hin as (w & Hf & Hw). symmetry in Hf.
    rewrite (fingerprint_unique _ _ w Hfps Hw Hf). simpl.
    set (l := updated_workers _ _ _). set (v := workers.assign (registered_cols clock reg) w).
    assert (v ∈ l) as Hv by (apply elem_of_updated_workers; exists w; by rewrite decide_True).
    exists (with_workers l d). split_and!; [|done| |].
    + rewrite run_bind by apply _. unfold find_worker_by_fingerprint, find_worker_where. rewrite run_query.
      change (t_workers (with_workers l d)) with l. rewrite (fingerprint_unique l _ v); [done| |done|done].
      unfold l. by rewrite updated_workers_fmap.
    + intros u Hu Hne. apply elem_of_updated_workers. exists u. by rewrite decide_False.
    + simpl. unfold l, updated_workers. by rewrite length_fmap.
  - assert (filter (fun w => workers.cert_fingerprint w = reg_fingerprint reg) (t_workers d) = []) as ->.
    { apply filter_nil_iff. intros w Hw Hf. apply Hout. rewrite <- Hf. by apply list_elem_of_fmap_2. }
    simpl. set (v := new_worker (next_worker_id d) clock reg).
    rewrite decide_True; [simpl|split; rewrite fmap_app; apply NoDup_app; split_and!; try done; try apply NoDup_singleton].
    + exists (with_new_worker v d). split_and!.
      * rewrite run_bind by apply _. unfold find_worker_by_fingerprint, find_worker_where. rewrite run_query.
        change (t_workers (with_new_worker v d)) with (t_workers d ++ [v]).
        rewrite (fingerprint_unique (t_workers d ++ [v]) _ v); [done| | |done].
        -- rewrite fmap_app. apply NoDup_app. split_and!; [done| |apply NoDup_singleton].
           by intros x Hx ->%list_elem_of_singleton.
        -- apply elem_of_app. right. left.
      * simpl. apply elem_of_app. right. left.
      * intros u Hu _. apply elem_of_app. by left.
      * simpl. rewrite length_app. simpl. lia.
    + intros x (u & -> & Hu)%list_elem_of_fmap Hx%list_elem_of_singleton.
      rewrite Forall_forall in Hfresh. specialize (Hfresh u Hu). simpl in Hx. lia.
    + by intros x Hx ->%list_elem_of_singleton.
Qed.

(** A registration always leaves the worker in the registry as it reported
    itself: one that is known keeps its id, approval, certificate, pause and settings
    report, whatever it now calls itself; one that is not gets a new row, pending; and
    no other worker's row changes. *)
Theorem registration_refreshes clock reg d :
  registry_ok d ->
  exists row d', run (register_worker clock reg) d = (Ok row, d') /\ row ∈ t_workers d' /\
    workers.cert_fingerprint row = reg_fingerprint reg /\ workers.name row = reg_name reg /\
    workers.arches row = new_list (reg_arches reg) /\
    workers.package_affinity row = new_list (reg_package_affinity reg) /\
    workers.priority row = reg_priority reg /\ workers.concurrency row = reg_concurrency reg /\
    workers.settings_declaration row = reg_settings_declaration reg /\
    workers.last_seen row = Some clock /\
    match head (filter (fun w => workers.cert_fingerprint w = reg_fingerprint reg) (t_workers d)) with
    | Some w =>
        (workers.id row, workers.status row, workers.signed_cert row, workers.not_after row,
         workers.paused row, workers.embedded row, workers.effective_config row) =
        (workers.id w, workers.status w, workers.signed_cert w, workers.not_after w,
         workers.paused w, workers.embedded w, workers.effective_config w) /\
        length (t_workers d') = length (t_workers d)
    | None => workers.status row = Pending /\ workers.signed_cert row = None /\
        workers.id row ∉ workers.id <$> t_workers d /\ length (t_workers d') = S (length (t_workers d))
    end /\
    forall w, w ∈ t_workers d -> workers.cert_fingerprint w <> reg_fingerprint reg -> w ∈ t_workers d'.
Proof.
  intros Hok. destruct (run_register clock reg d Hok) as (d' & Hr & Hin & Hothers & Hlen).
  exists (registered_row clock reg d), d'.
  revert Hr Hin Hlen. unfold registered_row.
  destruct (filter (fun w => workers.cert_fingerprint w = reg_fingerprint reg) (t_workers d)) as [|w l] eqn:Hf;
    simpl; intros Hr Hin Hlen.
  - split_and!; try done.
    + intros (u & Hu & Hin')%list_elem_of_fmap. destruct Hok as [_ Hfresh _ _].
      rewrite Forall_forall in Hfresh. specialize (Hfresh u Hin'). lia.
    + rewrite Hlen. apply decide_False. intros (u & Hu & Hin')%list_elem_of_fmap.
      assert (u ∈ filter (fun w => workers.cert_fingerprint w = reg_fingerprint reg) (t_workers d)) as Hx
        by by apply list_elem_of_filter.
      rewrite Hf in Hx. by apply elem_of_nil in Hx.
  - assert (w ∈ filter (fun w => workers.cert_fingerprint w = reg_fingerprint reg) (t_workers d))
      as [Hfp Hw]%list_elem_of_filter by (rewrite Hf; left).
    split_and!; try done. rewrite Hlen. apply decide_True. rewrite <- Hfp. by apply list_elem_of_fmap_2.
Qed.

(** ** Revoking *)

Lemma inv_with_workers l d : NoDup (workers.id <$> l) -> Inv d -> Inv (with_workers l d).
Proof. intros Hl [[H1 H2 H3 H4 _] H5 H6]. by split. Qed.

(** With the ids unique, an id names one row. *)
Lemma find_worker_by_id l w `{!forall v, Decision (workers.id v = workers.id w)} :
  NoDup (workers.id <$> l) -> w ∈ l -> filter (fun v => workers.id v = workers.id w) l = [w].
Proof.
  intros Hnd Hw. induction l as [|v l IH]; [by apply elem_of_nil in Hw|].
  rewrite fmap_cons, NoDup_cons in Hnd. destruct Hnd as [Hv Hnd]. rewrite filter_cons.
  apply elem_of_cons in Hw as [->|Hw].
  - rewrite decide_True by done. f_equal. apply filter_nil_iff.
    intros u Hu Huf. apply Hv. rewrite <- Huf. by apply list_elem_of_fmap_2.
  - rewrite decide_False; [by apply IH|]. intros Hvf. apply Hv.
    rewrite Hvf. by apply list_elem_of_fmap_2.
Qed.

#[export] Instance save_worker_steady cols row : Steady (save_worker cols row).
Proof. unfold save_worker. sql_class. Qed.
#[export] Instance update_worker_steady id cols : Steady (update_worker id cols).
Proof. unfold update_worker. sql_class. Qed.

Lemma run_update_worker d w cols :
  registry_ok d -> w ∈ t_workers d ->
  workers.cert_fingerprint (workers.assign cols w) = workers.cert_fingerprint w ->
  run (update_worker (workers.id w) cols) d =
    (Ok (Some (workers.assign cols w)),
     with_workers (updated_workers (fun _ => cols) (fun v => workers.id v = workers.id w) (t_workers d)) d).
Proof.
  intros [[Hids Hfps] _ _ _] Hw Hf. set (l := updated_workers _ _ _). set (v := workers.assign cols w).
  assert (forall u, u ∈ t_workers d -> workers.id u = workers.id w -> u = w) as Hone.
  { intros u Hu Hid. by apply (NoDup_fmap_inj_elem workers.id (t_workers d)). }
  assert (workers_indexes l) as Hl.
  { split; [by unfold l; rewrite updated_workers_ids|].
    unfold l, updated_workers. rewrite <- list_fmap_compose. erewrite list_fmap_ext; [exact Hfps|].
    intros i u Hu%list_elem_of_lookup_2. simpl. case_decide as Hid; [|done]. by rewrite (Hone u). }
  assert (v ∈ l) as Hv by (apply elem_of_updated_workers; exists w; by rewrite decide_True).
  assert (workers.id v = workers.id w) as Hid by apply assign_worker_id.
  unfold update_worker, mbind, sql_mbind. rewrite run_bind by apply _.
  unfold find_worker at 1, find_worker_where at 1. rewrite run_query, find_worker_by_id by done. simpl.
  rewrite run_bind by apply _. unfold save_worker, mbind, sql_mbind. rewrite run_bind by apply _.
  unfold update_workers. rewrite run_statement. cbv zeta. fold l. rewrite decide_True by done.
  rewrite find_worker_by_id by done. cbn [length]. rewrite decide_False by done.
  rewrite run_bind by apply _. unfold find_worker, find_worker_where. rewrite run_query.
  change (t_workers (with_workers l d)) with l. rewrite <- Hid. rewrite find_worker_by_id; [done|apply Hl|done].
Qed.

Lemma claim_unapproved d id now cp :
  (forall w, w ∈ t_workers d -> workers.id w = id -> ~ approved w) ->
  run (claim_job id now cp) d = (Ok None, d).
Proof.
  intros Hn. unfold claim_job. rewrite run_transaction by sql_class.
  unfold mbind, sql_mbind. rewrite run_bind by apply _. rewrite run_fleet_load.
  assert (Fleet.worker (db_fleet d) id = None) as ->; [|done].
  unfold Fleet.worker, db_fleet, fleet_of. simpl.
  assert (list_find (fun w => cap_id w = id) (worker_cap (t_builds d) <$> filter approved (t_workers d)) = None) as ->;
    [|done].
  apply list_find_None, Forall_fmap, Forall_forall.
  intros w [Ha Hw]%list_elem_of_filter Hid. by apply (Hn w).
Qed.


(** ** On the demonstration database *)

Lemma demo_registry : registry_ok demo_db.
Proof.
  split; [split| | |]; try (refine (bool_decide_unpack _ _); vm_compute; exact I).
Qed.

Definition demo_registration : WorkerRegistration :=
  mkRegistration "w2, moved" "w2" ["aarch64"] "1.4" "chroot" [] 7 3 "[]".

Lemma registration_refreshes_witness :
  exists row d', run (register_worker 1200 demo_registration) demo_db = (Ok row, d') /\
    workers.id row = 2%Z /\ workers.status row = Approved /\ workers.name row = "w2, moved".
Proof.
  destruct (registration_refreshes 1200 demo_registration demo_db demo_registry)
    as (row & d' & Hr & _ & _ & Hn & _ & _ & _ & _ & _ & _ & Hk & _).
  change (head _) with (Some (demo_worker 2 "w2" Approved ["x86_64"; "aarch64"] ["libfoo"] 5)) in Hk.
  exists row, d'. destruct Hk as [Hk _]. split; [done|]. simpl in Hk.
  by injection Hk as Hid Hst _ _ _ _ _.
Defined.

Lemma approval_is_only_given_witness :
  registry_ok (o_db (register_worker 1200 (mkRegistration "new" "w9" ["x86_64"] "1" "chroot" [] 0 1 "[]") None demo_db)) /\
  t_workers (o_db (register_worker 1200 (mkRegistration "new" "w9" ["x86_64"] "1" "chroot" [] 0 1 "[]") None demo_db)) !! 3 =
    Some (new_worker 4 1200 (mkRegistration "new" "w9" ["x86_64"] "1" "chroot" [] 0 1 "[]")).
Proof.
  split; [|by vm_compute].
  apply (approval_is_only_given _ _ _ None demo_db (op_register 1200 (mkRegistration "new" "w9" ["x86_64"] "1" "chroot" [] 0 1 "[]"))
    demo_registry).
Defined.

Lemma settings_saved_whole_witness :
  let o := save_worker_settings 1 {["concurrency" := None; "build_timeout" := Some "1h"]} None demo_db in
  is_ok (o_result o) = true /\
  values_of 1 (t_worker_settings (o_db o)) !! "build_timeout" = Some "1h" /\
  values_of 2 (t_worker_settings (o_db o)) = values_of 2 (t_worker_settings demo_db).
Proof.
  intros o.
  destruct (settings_saved_whole 1 {["concurrency" := None; "build_timeout" := Some "1h"]} None demo_db demo_registry)
    as [Hok H]. fold o in Hok, H. clearbody o. specialize (Hok eq_refl). destruct (o_result o) as [saved|]; [|done].
  destruct H as (H1 & H2 & _). split_and!; [done| |by apply H2].
  rewrite H1. vm_compute. reflexivity.
Defined.

