(* ===== verification/Effects.v ===== *)
(** * What the server does besides the database

    The operations of [backend/aurcache-utils/src] run statements and, between
    them, announce events ([aurcache-activitylog]'s [ActivityLog::emit]), append
    to a build's log file ([build_logger.rs]), discard a staging directory
    ([Repository::discard_staging]) and start background work
    ([tokio::spawn]). Those are a trace beside the database, in the order they
    happen; what a file operation answers is the environment's, and given to
    the operation that asks. *)
From S2P Require Import Prelude BuildState Sql Schema BuildStatus Invariant.
Open Scope string_scope. Open Scope list_scope.

(** [aurcache-common/src/api/events.rs]: why a build was queued. *)
Module QueueCause.
Inductive QueueCause := Update | Rebuild | Retry | Dependency | First.
End QueueCause.

(** An error as a message names it: the database's, whose text is the driver's,
    or one with a text of its own. *)
Inductive ErrText :=
| OfDb (e : DbErr)
| OfText (text : string).

(** Which of a worker's reports could not be kept. *)
Inductive WorkerReport := Declaration | Configuration.

(** The events the modelled operations announce. *)
Inductive Event :=
| BuildQueued (pkg : string) (cause : QueueCause.QueueCause) (builds : list BuildRef)
    (version : option string) (retried : option BuildRef) (needed_by : option string)
| BuildUnblocked (build : BuildRef) (by_ : option BuildRef)
| BuildSucceeded (build : BuildRef) (worker : string)
| BuildFailed (build : BuildRef) (worker : string) (reason : option string)
| BuildPublished (build : BuildRef) (version : option string)
| BuildRecordFailed (build : BuildRef) (what : string) (error : ErrText)
| BuildLogAppendFailed (build : BuildRef) (error : ErrText)
| BuildMarkFailed (build : BuildRef) (error : ErrText)
| PublishFailed (build : BuildRef) (error : ErrText)
| DependentsTriggerFailed (pkg : string) (error : ErrText)
| WorkerEnrolled (worker : string)
| WorkerRegistered (worker : string) (version : option string)
| WorkerApproved (worker : string)
| WorkerReportFailed (worker : string) (report : WorkerReport) (error : ErrText)
| WorkerSettingsSaved (worker : string) (set reset : list string)
| WorkerReaped (workers : list string) (retried failed : list BuildRef)
| WorkerConfigChanged (worker : string) (settings : list string)
| WorkerSettingRejected (worker : string) (settings : list string).

Inductive Effect :=
| Emit (e : Event)
| AppendLog (pkgbase : string) (number : Z) (text : string)
| DiscardStaging (build_id : Z)
| RemoveLog (pkgbase : string) (number : Z)
| SpawnPublish (build_id : Z).

Record world := World {
  w_db : database;
  w_trace : list Effect
}.

(** A program of the database, run where there is a trace. *)
Definition on_db {E A} (m : Sql database E A) : Sql world E A :=
  fun left w =>
    let o := m left (w_db w) in
    Outcome (o_result o) (o_left o) (World (o_db o) (w_trace w)).

Definition effect {E} (e : Effect) : Sql world E unit :=
  fun left w => Outcome (Ok tt) left (World (w_db w) (w_trace w ++ [e])).

Definition emit {E} (e : Event) : Sql world E unit := effect (Emit e).

(** [if let Err(e) = m.await { .. }], [m.await.ok()]: an error is looked at, not
    passed on. *)
Definition attempt {D E F A} (m : Sql D E A) : Sql D F (result E A) :=
  fun left d =>
    let o := m left d in Outcome (Ok (o_result o)) (o_left o) (o_db o).

(** [append_build_output(..).await]: the text is appended, unless the file system
    refuses ([answer]). *)
Definition append_build_output {E} (answer : result string unit) (pkgbase : string) (number : Z)
    (text : string) : Sql world E (result string unit) :=
  match answer with
  | Ok _ => _ ← effect (AppendLog pkgbase number text); mret answer
  | Err _ => mret answer
  end.

(** ** Sessions *)

Definition w_advances (w w' : world) : Prop := advances (w_db w) (w_db w').
Definition w_inv (w : world) : Prop := Inv (w_db w).

#[export] Instance w_advances_preorder : PreOrder w_advances.
Proof.
  unfold w_advances. split.
  - intros w. reflexivity.
  - intros a b c H1 H2. by etrans.
Qed.

#[export] Instance on_db_steady {E A} (m : Sql database E A) : Steady m -> Steady (on_db m).
Proof. intros Hm w. apply Hm. Qed.
#[export] Instance effect_steady {E} e : Steady (effect (E := E) e).
Proof. done. Qed.
#[export] Instance emit_steady {E} e : Steady (emit (E := E) e).
Proof. done. Qed.
#[export] Instance attempt_steady {D E F A} (m : Sql D E A) : Steady m -> Steady (attempt (F := F) m).
Proof. intros Hm d. apply Hm. Qed.
#[export] Instance append_steady {E} answer p n t :
  Steady (append_build_output (E := E) answer p n t).
Proof. unfold append_build_output. destruct answer; apply _. Qed.

Lemma run_on_db {E A} (m : Sql database E A) w :
  run (on_db m) w =
    ((run m (w_db w)).1, World (run m (w_db w)).2 (w_trace w)).
Proof. done. Qed.

Lemma run_effect {E} e w :
  run (effect (E := E) e) w = (Ok tt, World (w_db w) (w_trace w ++ [e])).
Proof. done. Qed.

Lemma run_emit {E} e w :
  run (emit (E := E) e) w = (Ok tt, World (w_db w) (w_trace w ++ [Emit e])).
Proof. done. Qed.

Lemma run_attempt {D E F A} (m : Sql D E A) d :
  run (attempt (F := F) m) d = (Ok (run m d).1, (run m d).2).
Proof. done. Qed.

Lemma triple_on_db {E A} (P : database -> Prop) (m : Sql database E A) Q :
  triple advances P m Q ->
  triple w_advances (fun w => P (w_db w)) (on_db m) (fun a w => Q a (w_db w)).
Proof. intros Hm left w Hw. exact (Hm left (w_db w) Hw). Qed.

Lemma triple_effect {E} (P : database -> Prop) e :
  triple w_advances (fun w => P (w_db w)) (effect (E := E) e) (fun _ w => P (w_db w)).
Proof. intros left w Hw. split; [|by intros]. unfold w_advances. simpl. reflexivity. Qed.

(** What an ignored failure leaves is whatever is stable. *)
Lemma triple_attempt {D E F A} (R : relation D) (P : D -> Prop) (m : Sql D E A) Q :
  stable R P -> triple R P m Q ->
  triple R P (attempt (F := F) m) (fun r d => P d /\ forall a, r = Ok a -> Q a d).
Proof.
  intros HP Hm left d Hd. destruct (Hm left d Hd) as [Hr Hq]. split; [done|].
  intros r [= <-]. split; [by eapply HP|done].
Qed.

Lemma w_stable P : stable advances P -> stable w_advances (fun w => P (w_db w)).
Proof. intros HP w w' Hw. by apply HP. Qed.
