(* ===== verification/Completion.v ===== *)
(** * Completing a build

    [backend/aurcache-utils/src/worker_complete.rs]: what a worker's report
    makes of its build, and the promotion of the builds that waited for it. *)
From S2P Require Import Prelude BuildState Sql Schema Version BuildStatus Invariant Fixtures.
From S2P Require Import BuildEnqueue Leases Effects.
Open Scope string_scope. Open Scope list_scope.

(** A line feed. *)
Definition newline : string := String (Ascii.ascii_of_nat 10) EmptyString.

(** ** The report ([aurcache-common/src/worker.rs], [api/builds.rs]) *)

Module BuildOutcome.
Inductive BuildOutcome := Succeeded | Failed | Canceled | Interrupted.

#[export] Instance BuildOutcome_eq_dec : EqDecision BuildOutcome.
Proof. solve_decision. Defined.
End BuildOutcome.
Export (hints) BuildOutcome.

Record DiskUsage := mkDiskUsage {
  du_chroot : option Z;
  du_workdir : option Z;
  du_sources : option Z;
  du_build_tree : option Z
}.

Definition DiskUsage_is_empty (u : DiskUsage) : bool :=
  bool_decide (du_chroot u = None) && bool_decide (du_workdir u = None) &&
  bool_decide (du_sources u = None) && bool_decide (du_build_tree u = None).

Record KeptBuild := mkKeptBuild {
  kept_path : string;
  kept_until : Z;
  kept_tree : option string
}.

Record CompleteReport := mkReport {
  report_outcome : BuildOutcome.BuildOutcome;
  exit_code : option Z;
  reason : option string;
  peak_memory_bytes : option Z;
  disk_usage : option DiskUsage;
  vcs_commits : gmap string string;
  kept : option KeptBuild
}.

Inductive CompletionError :=
| NotFound (build_id : Z)
| LeaseLost (build_id worker_id : Z)
| Persistence (e : DbErr).

#[export] Instance CompletionError_from : FromDbErr CompletionError := Persistence.

Inductive Completion := Accepted | AlreadyAccepted.
#[export] Instance Completion_eq_dec : EqDecision Completion.
Proof. solve_decision. Defined.

(** ** Ownership *)

Definition find_build (build_id : Z) : Sql database CompletionError builds.Model :=
  found ← lift (find_build_by_id build_id);
  from_result (match found with Some b => Ok b | None => Err (NotFound build_id) end).

Definition lease_lost (build_id worker_id : Z) : CompletionError := LeaseLost build_id worker_id.

Definition check_owned (worker_id : Z) (build : builds.Model) : result CompletionError unit :=
  if decide (builds.worker_id build <> Some worker_id)
  then Err (lease_lost (builds.id build) worker_id) else Ok tt.

Definition check_owned_active (worker_id : Z) (build : builds.Model) :
    result CompletionError unit :=
  if decide (builds.status build <> Active)
  then Err (lease_lost (builds.id build) worker_id) else check_owned worker_id build.

Definition assert_owned_active (worker_id build_id : Z) :
    Sql database CompletionError builds.Model :=
  build ← find_build build_id;
  _ ← from_result (check_owned_active worker_id build);
  mret build.

Definition assert_owned (worker_id build_id : Z) : Sql database CompletionError builds.Model :=
  build ← find_build build_id;
  _ ← from_result (check_owned worker_id build);
  mret build.

(** ** [record_measurements] *)

Definition measured (report : CompleteReport) : list builds.col_expr :=
  match peak_memory_bytes report with
  | Some peak => [builds.Set_peak_memory (Some peak)]
  | None => []
  end ++
  match option_filter (fun u => negb (DiskUsage_is_empty u)) (disk_usage report) with
  | Some usage =>
      [builds.Set_disk_chroot (du_chroot usage); builds.Set_disk_workdir (du_workdir usage);
       builds.Set_disk_sources (du_sources usage); builds.Set_disk_build_tree (du_build_tree usage)]
  | None => []
  end ++
  match kept report with
  | Some kept =>
      [builds.Set_kept_path (Some (kept_path kept)); builds.Set_kept_until (Some (kept_until kept));
       builds.Set_kept_tree (kept_tree kept)]
  | None => []
  end.

Definition record_measurements (build_id : Z) (report : CompleteReport) : DB unit :=
  if decide (length (measured report) = 0) then mret tt
  else
    _ ← update_builds (measured report) (fun b => builds.id b = build_id);
    mret tt.

(** ** [release] *)

Definition release_cols (ended_at : option Z) : list builds.col_expr :=
  builds.Set_lease_expires_at None ::
  match ended_at with Some t => [builds.Set_end_time (Some t)] | None => [] end.

Definition release (build_id worker_id : Z) (status : BuildState) (ended_at : option Z) :
    Sql database CompletionError unit :=
  build ← find_build build_id;
  moved ← lift (transition build [Active] status (release_cols ended_at)
                  (fun b => builds.worker_id b = Some worker_id));
  from_result (match moved with
               | Moved => Ok tt
               | Unchanged => Err (lease_lost build_id worker_id)
               end).

Definition accept_for_publishing (build_id worker_id : Z) : Sql database CompletionError unit :=
  release build_id worker_id Publishing None.

Definition complete_failure (clock build_id worker_id : Z) : Sql database CompletionError unit :=
  release build_id worker_id Failed (Some clock).

(** ** Dependents *)

Definition promote_dependent (dependent_id : Z) (platform : Platform) : DB (option BuildRef) :=
  pkg ← find_package_by_id dependent_id;
  match pkg with
  | None => mret None
  | Some pkg =>
      let platforms := default [] (packages.platforms pkg) in
      if decide (platforms <> [] /\ platform ∉ platforms) then mret None
      else
        promoted ← promote_waiting_build (packages.id pkg) platform;
        mret ((fun b => mkBuildRef (packages.name pkg) (builds.number b)) <$> promoted)
  end.

Definition group_by_dependent (deps : list dependencies.Model) :
    gmap Z (list dependencies.Model) :=
  foldl (fun m dep =>
    <[dependencies.dependent_id dep :=
      default [] (m !! dependencies.dependent_id dep) ++ [dep]]> m) ∅ deps.

Definition load_dependencies_for_dependents_of (pkg_id : Z) :
    DB (gmap Z (list dependencies.Model)) :=
  dependent_ids ← query (fun d => dependencies.dependent_id <$>
    filter (fun dep => dependencies.dependee_id dep = pkg_id) (t_dependencies d));
  if decide (dependent_ids = []) then mret ∅
  else
    deps ← query (fun d =>
      filter (fun dep => dependencies.dependent_id dep ∈ (dependent_ids : list Z)) (t_dependencies d));
    mret (group_by_dependent deps).

Section dependents.
Context `{Alpm}.
(** A [HashMap] is walked in an order of its own. *)
Context (hash_order : gmap Z (list dependencies.Model) -> list (Z * list dependencies.Model)).

Definition promote_if_satisfied (platform : Platform)
    (dependent : Z * list dependencies.Model) : DB (list BuildRef) :=
  let '(dependent_id, all_deps) := dependent in
  satisfied ← dependencies_satisfied all_deps platform;
  if satisfied : bool then
    build ← promote_dependent dependent_id platform;
    mret (option_list build)
  else mret [].

Definition trigger_dependents (pkg_id : Z) (platform : Platform) : DB (list BuildRef) :=
  deps_by_dependent ← load_dependencies_for_dependents_of pkg_id;
  for_collect (promote_if_satisfied platform) (hash_order deps_by_dependent).
End dependents.

Section resync.
Context `{Alpm}.

Definition resync_one (pkg_id : Z) (deps : list dependencies.Model) (build : builds.Model) :
    DB (list Z) :=
  let platform := builds.platform build in
  ready ← dependencies_satisfied deps platform;
  match builds.status build, ready with
  | WaitingForDeps, true =>
      promoted ← promote_waiting_build pkg_id platform;
      mret (option_list (builds.id <$> promoted))
  | Enqueued, false =>
      _ ← demote_enqueued_build pkg_id platform;
      mret []
  | _, _ => mret []
  end.

Definition resync_pending_builds (pkg_id : Z) : DB (list Z) :=
  pending ← find_builds (fun b => builds.pkg_id b = pkg_id /\
              builds.status b ∈ [Enqueued; WaitingForDeps]);
  if decide (pending = []) then mret []
  else
    deps ← query (fun d =>
      filter (fun dep => dependencies.dependent_id dep = pkg_id) (t_dependencies d));
    for_collect (resync_one pkg_id deps) pending.
End resync.

(** ** [repeat] *)

Inductive Repeat := RAbort | RSuccess.

Definition repeat (build : builds.Model) (report : CompleteReport) (worker_id : Z) :
    option Repeat :=
  if decide (builds.worker_id build <> Some worker_id) then None
  else
    let failed := bool_decide (builds.status build = Failed) in
    let aborted := bool_decide (report_outcome report ∈
                                  [BuildOutcome.Canceled; BuildOutcome.Interrupted]) in
    if aborted && failed then Some RAbort
    else
      let accepted := bool_decide (builds.status build ∈ [Publishing; Successful]) ||
                      (failed && bool_decide (builds.end_reason build = None)) in
      if bool_decide (report_outcome report = BuildOutcome.Succeeded) && accepted
      then Some RSuccess else None.

(** ** [abandoned::report] *)

Definition explain {E} (answer : result string unit) (abandoned : Abandoned) :
    Sql world E unit :=
  match ab_build_ref abandoned with
  | None => mret tt
  | Some build =>
      r ← append_build_output answer (ref_pkgbase build) (ref_number build)
            ("Abandoned: " +:+ explanation (ab_end_reason abandoned) +:+ "." +:+ newline);
      match r with
      | Ok _ => mret tt
      | Err e => emit (BuildLogAppendFailed build (OfText e))
      end
  end.

Definition announce_retry {E} (abandoned : Abandoned) : Sql world E unit :=
  match ab_build_ref abandoned, ab_retry abandoned with
  | Some retried, RetryQueued replacement =>
      builds ← attempt (on_db (build_refs [replacement]));
      emit (BuildQueued (ref_pkgbase retried) QueueCause.Retry
              (match builds with Ok refs => refs | Err _ => [] end) None (Some retried) None)
  | _, _ => mret tt
  end.

(** [Named]: those with a fresh attempt, and those without. *)
Definition named_abandoned (abandoned : list Abandoned) : list BuildRef * list BuildRef :=
  let refs := omap ab_build_ref in
  (refs (filter (fun a => ab_retry a <> RetrySpent) abandoned), refs (filter (fun a => ab_retry a = RetrySpent) abandoned)).

(** [report], of one abandoned build. *)
Definition report_abandoned {E} (answer : result string unit) (abandoned : Abandoned) :
    Sql world E unit :=
  _ ← explain answer abandoned;
  announce_retry abandoned.

(** ** [complete] *)

(** The closure [record_failed]: announced when there is a name to announce it
    under. *)
Definition record_failed {A} (named : option BuildRef) (what : string) (r : result ErrText A) :
    Sql world CompletionError unit :=
  match r, named with
  | Err e, Some build => emit (BuildRecordFailed build what e)
  | _, _ => mret tt
  end.

Definition of_db {A} (r : result DbErr A) : result ErrText A :=
  match r with Ok a => Ok a | Err e => Err (OfDb e) end.
Definition of_text {A} (r : result string A) : result ErrText A :=
  match r with Ok a => Ok a | Err e => Err (OfText e) end.

Section complete.
(** What [now_secs] answers, the worker asking, the policy's attempts, and what
    the file system answers each append. *)
Context (clock max_attempts worker_id : Z) (worker_name : string)
  (append_reason append_note : result string unit).

Definition emit_named (named : option BuildRef) (e : BuildRef -> Event) :
    Sql world CompletionError unit :=
  match named with Some build => emit (e build) | None => mret tt end.

(** The success branch. *)
Definition complete_success (build_id : Z) (report : CompleteReport) (named : option BuildRef) :
    Sql world CompletionError Completion :=
  _ ← (if decide (vcs_commits report = ∅) then mret tt
       else
         r ← attempt (on_db (record_build_vcs_sources build_id (vcs_commits report)));
         record_failed named "built VCS sources" (of_db r));
  _ ← on_db (accept_for_publishing build_id worker_id);
  _ ← emit_named named (fun build => BuildSucceeded build worker_name);
  _ ← effect (SpawnPublish build_id);
  mret Accepted.

(** The interruption and failure branches. *)
Definition complete_otherwise (build : builds.Model) (report : CompleteReport)
    (pkgbase : option string) (named : option BuildRef) :
    Sql world CompletionError Completion :=
  _ ← match reason report, pkgbase with
      | Some reason, Some pkgbase =>
          r ← append_build_output append_reason pkgbase (builds.number build)
                ("worker reported failure: " +:+ reason +:+ newline);
          record_failed named "failure reason" (of_text r)
      | _, _ => mret tt
      end;
  if decide (report_outcome report = BuildOutcome.Interrupted) then
    abandoned ← on_db (lift (abandon_build clock build Interrupted max_attempts));
    abandoned ← from_result (match abandoned with
                             | Some a => Ok a
                             | None => Err (lease_lost (builds.id build) worker_id)
                             end);
    _ ← report_abandoned append_note abandoned;
    _ ← effect (DiscardStaging (builds.id build));
    mret Accepted
  else
    _ ← on_db (complete_failure clock (builds.id build) worker_id);
    _ ← emit_named named (fun named => BuildFailed named worker_name (reason report));
    _ ← effect (DiscardStaging (builds.id build));
    mret Accepted.

Definition complete (build_id : Z) (report : CompleteReport) :
    Sql world CompletionError Completion :=
  build ← on_db (find_build build_id);
  match repeat build report worker_id with
  | Some RAbort =>
      _ ← effect (DiscardStaging build_id);
      mret AlreadyAccepted
  | Some RSuccess => mret AlreadyAccepted
  | None =>
      _ ← from_result (check_owned_active worker_id build);
      pkg ← attempt (on_db (find_package_by_id (builds.pkg_id build)));
      let pkgbase := match pkg with Ok (Some pkg) => Some (packages.name pkg) | _ => None end in
      let named := (fun pkgbase => mkBuildRef pkgbase (builds.number build)) <$> pkgbase in
      measured ← attempt (on_db (record_measurements build_id report));
      _ ← record_failed named "measurements" (of_db measured);
      if decide (report_outcome report = BuildOutcome.Succeeded)
      then complete_success build_id report named
      else complete_otherwise build report pkgbase named
  end.
End complete.

(** ** Cancelling ([cancel.rs]) *)

Inductive Cancel := Cancelled | Settled.
#[export] Instance Cancel_eq_dec : EqDecision Cancel.
Proof. solve_decision. Defined.

Definition CANCELLABLE : list BuildState := [Active; Enqueued; WaitingForDeps].

Definition cancel_cols (clock : Z) : list builds.col_expr :=
  [builds.Set_end_time (Some clock); builds.Set_end_reason (Some Canceled);
   builds.Set_lease_expires_at None].

(** The note is best-effort: what the file system answers changes nothing. *)
Definition cancel_build (clock : Z) (append_note : result string unit) (pkgbase : string)
    (build : builds.Model) : Sql world DbErr Cancel :=
  moved ← on_db (transition build CANCELLABLE Failed (cancel_cols clock) (fun _ => True));
  if decide (moved = Unchanged) then mret Settled
  else
    _ ← append_build_output append_note pkgbase (builds.number build)
          ("Cancelled by operator." +:+ newline);
    mret Cancelled.

(** ** Deleting ([build_delete.rs]) *)

Inductive Delete := Deleted | Running.

Definition delete_build (pkgbase : string) (build : builds.Model) : Sql world DbErr Delete :=
  if decide (builds.status build ∈ [Active; Publishing]) then mret Running
  else
    _ ← on_db (BuildStatus.delete_build build);
    _ ← effect (RemoveLog pkgbase (builds.number build));
    mret Deleted.
