(* ===== verification/CompletionSpec.v ===== *)
(** * What completing a build promises

    The decision [complete] makes about a report as a relation ([completes]),
    which the code refines; that repeating an accepted report changes nothing;
    that a published build's dependents are all let go; and the cancel that
    races it. *)
From S2P Require Import Prelude BuildState Sql Schema Version BuildStatus Invariant Fixtures.
From S2P Require Import BuildEnqueue Leases Effects Completion.
Open Scope string_scope. Open Scope list_scope.

(** ** One row replaced *)

Definition replaced (b b' : builds.Model) (l : list builds.Model) : list builds.Model :=
  (fun a => if decide (builds.id a = builds.id b) then b' else a) <$> l.

Lemma replaced_replaced b b' b'' l :
  builds.id b' = builds.id b -> replaced b' b'' (replaced b b' l) = replaced b b'' l.
Proof.
  intros Hid. unfold replaced. rewrite <- list_fmap_compose. apply list_fmap_ext.
  intros i a _. simpl. destruct (decide (builds.id a = builds.id b)) as [Ha|Ha].
  - by rewrite decide_True.
  - rewrite decide_False; [done|congruence].
Qed.

Lemma replaced_same b l : NoDup (builds.id <$> l) -> b ∈ l -> replaced b b l = l.
Proof.
  intros Hnd Hb. unfold replaced. rewrite <- (list_fmap_id l) at 2. apply list_fmap_ext.
  intros i a Ha%list_elem_of_lookup_2. case_decide; [|done]. symmetry. by eapply ids_inj.
Qed.

Lemma updated_replaced cols P `{!forall b, Decision (P b)} l b :
  NoDup (builds.id <$> l) -> b ∈ l -> P b -> (forall a, P a -> builds.id a = builds.id b) ->
  updated cols P l = replaced b (builds.assign cols b) l.
Proof.
  intros Hnd Hb HP Hid. unfold updated, replaced. apply list_fmap_ext.
  intros i a Ha%list_elem_of_lookup_2. destruct (decide (builds.id a = builds.id b)) as [He|He].
  - assert (a = b) as -> by (by eapply ids_inj). by rewrite decide_True.
  - rewrite decide_False; [done|]. intros Ha'. by apply He, Hid.
Qed.

(** A guarded change of state, over any connection: an error and nothing changed;
    no row in a state it leaves from, and nothing changed; or that one row written. *)
Lemma transition_decides build from to cols left d :
  Inv d ->
  good_write (builds.pkg_id build) (builds.Set_status to :: cols)
    (transition_guard build from (fun _ => True)) d ->
  let o := transition build from to cols (fun _ => True) left d in
  Inv (o_db o) /\
  match o_result o with
  | Err _ => o_db o = d
  | Ok Unchanged => o_db o = d /\
      forall b, b ∈ t_builds d -> builds.id b = builds.id build -> builds.status b ∉ from
  | Ok Moved => exists b, b ∈ t_builds d /\ builds.id b = builds.id build /\
      builds.status b ∈ from /\
      t_builds (o_db o) = replaced b (builds.assign (builds.Set_status to :: cols) b) (t_builds d)
  end.
Proof.
  intros Hd Hgw. pose proof (transitioned_inv _ _ _ _ _ d Hd Hgw) as Hinv. simpl.
  destruct (atomic_run (transition build from to cols (fun _ => True)) left d
    _ _ (run_transition _ _ _ _ _ d (wf_indexes _ (inv_wf d Hd)) Hgw)) as [(e & -> & ->)|[-> ->]];
    [done|].
  split; [done|]. unfold transitioned.
  destruct (filter (transition_guard build from (fun _ => True)) (t_builds d)) as [|b l] eqn:Hf.
  - rewrite decide_True by done. simpl. split; [done|]. intros b Hb Hid Hs.
    apply (proj1 (filter_nil_iff _ _) Hf b Hb). by split_and!.
  - rewrite decide_False by done. cbn [fst snd].
    assert (b ∈ filter (transition_guard build from (fun _ => True)) (t_builds d)) as Hb
      by (rewrite Hf; left).
    apply list_elem_of_filter in Hb as [(_ & Hid & Hs) Hb]. exists b. split_and!; [done..|].
    rewrite written_builds.
    apply (updated_replaced (builds.Set_status to :: cols)
      (transition_guard build from (fun _ => True))); [apply Hd|done|by split_and!|].
    intros a (_ & Ha & _). congruence.
Qed.

Lemma replaced_elem b b' l : b ∈ l -> b' ∈ replaced b b' l.
Proof. intros Hb. apply list_elem_of_fmap. exists b. by rewrite decide_True. Qed.

(** ** Columns that decide nothing *)

Definition quiet (c : builds.col_expr) : Prop :=
  match c with
  | builds.Set_peak_memory _ | builds.Set_disk_chroot _ | builds.Set_disk_workdir _
  | builds.Set_disk_sources _ | builds.Set_disk_build_tree _ | builds.Set_vcs_sources _
  | builds.Set_kept_path _ | builds.Set_kept_until _ | builds.Set_kept_tree _ => True
  | _ => False
  end.

(** The columns the queue decides by. *)
Definition decisive (b : builds.Model) :=
  (builds.status b, builds.worker_id b, builds.lease_expires_at b, builds.start_time b,
   builds.end_time b, builds.end_reason b, builds.size b).

Lemma assign_quiet cols b : Forall quiet cols -> decisive (builds.assign cols b) = decisive b.
Proof.
  unfold builds.assign. revert b. induction cols as [|c cols IH]; intros b; simpl; [done|].
  intros [Hc Hcols]%Forall_cons. rewrite IH by done. by destruct c.
Qed.

Lemma decisive_status a b : decisive a = decisive b -> builds.status a = builds.status b.
Proof. by intros [= -> _]. Qed.

Lemma decisive_moves a b : decisive a = decisive b -> moves b a.
Proof.
  unfold decisive, moves. intros Heq. injection Heq as -> _ _ _ _ _ ->.
  split; [apply may_become_refl|done].
Qed.

Lemma decisive_lifecycle a b : decisive a = decisive b -> lifecycle_ok a -> lifecycle_ok b.
Proof.
  unfold decisive, lifecycle_ok. intros Heq. injection Heq as -> -> -> -> -> -> ->. done.
Qed.

Lemma measured_quiet report : Forall quiet (measured report).
Proof.
  unfold measured. repeat apply Forall_app_2; case_match; repeat constructor.
Qed.

Lemma inv_quiet cols P `{!forall b, Decision (P b)} d :
  Forall quiet cols -> Inv d -> Inv (with_builds (updated cols P (t_builds d)) d).
Proof.
  intros Hq Hd. apply inv_update_quiet; [done| |].
  - intros b. by apply decisive_status, assign_quiet.
  - intros b _ _. apply decisive_lifecycle. by rewrite assign_quiet.
Qed.

Lemma run_quiet cols P `{!forall b, Decision (P b)} d :
  Forall quiet cols -> Inv d ->
  run (update_builds cols P) d =
    (Ok (length (filter P (t_builds d))), with_builds (updated cols P (t_builds d)) d).
Proof. intros Hq Hd. apply run_update_builds, (inv_quiet cols P d Hq Hd). Qed.

Lemma triple_quiet cols P `{!forall b, Decision (P b)} :
  Forall quiet cols -> triple advances Inv (update_builds cols P) (fun _ d => Inv d).
Proof.
  intros Hq. apply triple_statement; [apply _|]. intros d a d' Hd Hf. cbv beta zeta in Hf.
  case_decide; [|done]. injection Hf as <- <-. pose proof (inv_quiet cols P d Hq Hd).
  split; [|done]. intros _. split; [done|apply grows_updated]. intros b _ _.
  by apply decisive_moves, assign_quiet.
Qed.

(** ** Finding and releasing *)

Lemma find_by_id d b :
  wf d -> b ∈ t_builds d -> filter (fun a => builds.id a = builds.id b) (t_builds d) = [b].
Proof. intros Hwf Hb. by apply head_filter_id; [apply Hwf|]. Qed.

#[export] Instance find_build_steady id : Steady (find_build id).
Proof. unfold find_build. sql_class. Qed.
#[export] Instance find_build_by_id_steady' id : Steady (find_build_by_id id).
Proof. apply _. Qed.

Lemma run_find_build d b :
  wf d -> b ∈ t_builds d -> run (find_build (builds.id b)) d = (Ok b, d).
Proof.
  intros Hwf Hb. unfold find_build, mbind, sql_mbind. rewrite run_bind by apply _.
  rewrite run_lift. unfold find_build_by_id, find_build_where. rewrite run_query.
  by rewrite find_by_id.
Qed.

Lemma run_find_build_none d id :
  (forall b, b ∈ t_builds d -> builds.id b <> id) ->
  run (find_build id) d = (Err (NotFound id), d).
Proof.
  intros Hno. unfold find_build, mbind, sql_mbind. rewrite run_bind by apply _.
  rewrite run_lift. unfold find_build_by_id, find_build_where. rewrite run_query.
  by rewrite (proj2 (filter_nil_iff _ _)).
Qed.

(** The ways a worker's report moves a build out of [Active]. *)
Definition released_to (status : BuildState) (ended_at : option Z) : Prop :=
  status = Publishing /\ ended_at = None \/ status = Failed /\ is_Some ended_at.

Abbreviation owner_is w := (fun b => builds.worker_id b = Some w).

Lemma release_good b w status ended_at d :
  known b d -> released_to status ended_at ->
  good_write (builds.pkg_id b) (builds.Set_status status :: release_cols ended_at)
    (transition_guard b [Active] (owner_is w)) d.
Proof.
  intros Hk Hto. split.
  - intros a Ha (_ & Hid & _). by apply (known_pkg b d).
  - intros a _ (_ & _ & Hs%list_elem_of_singleton) _. unfold in_progress. rewrite Hs.
    by apply elem_of_IN_PROGRESS.
  - intros a _ (_ & _ & Hs%list_elem_of_singleton). unfold lifecycle_ok. rewrite Hs.
    intros (? & ? & ? & He & ? & Hz). destruct Hto as [[-> ->]|[-> [t ->]]]; simpl.
    + rewrite He, Hz. by split_and!.
    + split; [done|by exists t].
  - intros a _ (_ & _ & Hs%list_elem_of_singleton). unfold moves. rewrite Hs.
    by destruct Hto as [[-> ->]|[-> [t ->]]].
Qed.

Definition released (b : builds.Model) (status : BuildState) (ended_at : option Z) :
    builds.Model :=
  builds.assign (builds.Set_status status :: release_cols ended_at) b.

Lemma run_release b w status ended_at d :
  Inv d -> b ∈ t_builds d -> released_to status ended_at ->
  if decide (owned_active w b) then
    exists d', run (release (builds.id b) w status ended_at) d = (Ok tt, d') /\ Inv d' /\
      t_builds d' = replaced b (released b status ended_at) (t_builds d)
  else run (release (builds.id b) w status ended_at) d = (Err (lease_lost (builds.id b) w), d).
Proof.
  intros Hd Hb Hto. pose proof (inv_wf d Hd) as Hwf.
  pose proof (release_good b w status ended_at d (known_elem _ _ Hwf Hb) Hto) as Hgw.
  assert (run (release (builds.id b) w status ended_at) d =
    match transitioned b [Active] status (release_cols ended_at) (owner_is w) d with
    | (Moved, d') => (Ok tt, d')
    | (Unchanged, d') => (Err (lease_lost (builds.id b) w), d')
    end) as ->.
  { unfold release, mbind, sql_mbind. rewrite run_bind by apply _. rewrite run_find_build by done.
    rewrite run_bind by apply _. rewrite run_lift.
    rewrite run_transition by (apply Hwf || done).
    destruct (transitioned _ _ _ _ _ d) as [[] d']; done. }
  unfold transitioned. assert (transition_guard b [Active] (owner_is w) b <-> owned_active w b) as Hg.
  { unfold transition_guard, owned_active. rewrite list_elem_of_singleton. tauto. }
  destruct (decide (owned_active w b)) as [Ho|Ho].
  - rewrite decide_False.
    2:{ intros Hf. apply (proj1 (filter_nil_iff _ _) Hf b Hb). by apply Hg. }
    eexists. split; [done|]. split; [apply written_inv; [by apply inv_except_of|done]|].
    rewrite written_builds. apply updated_replaced; [apply Hwf|done|by apply Hg|].
    by intros a (_ & ? & _).
  - rewrite decide_True; [done|]. apply filter_nil_iff. intros a Ha Hga. apply Ho, Hg.
    destruct Hga as (? & Hid & ?). by rewrite <- (ids_inj (t_builds d) a b) by (apply Hwf || done).
Qed.

(** ** The decision *)

Lemma package_of_build d b :
  wf d -> b ∈ t_builds d ->
  exists p, head (filter (fun p => packages.id p = builds.pkg_id b) (t_packages d)) = Some p /\
    p ∈ t_packages d /\ packages.id p = builds.pkg_id b.
Proof.
  intros Hwf Hb. pose proof (proj1 (Forall_forall _ _) (wf_owned _ Hwf) _ Hb) as Hin.
  simpl in Hin. apply list_elem_of_fmap in Hin as (p & Hpid & Hin).
  destruct (head _) as [q|] eqn:Hq.
  - apply head_filter_elem in Hq as Hq'. destruct Hq'. by exists q.
  - exfalso. by apply (head_filter_None _ _ Hq p Hin).
Qed.

(** The report repeats one already acted on. *)
Definition repeats_abort (w : Z) (report : CompleteReport) (b : builds.Model) : Prop :=
  builds.worker_id b = Some w /\ builds.status b = Failed /\
  (report_outcome report = BuildOutcome.Canceled \/ report_outcome report = BuildOutcome.Interrupted).

Definition repeats_success (w : Z) (report : CompleteReport) (b : builds.Model) : Prop :=
  builds.worker_id b = Some w /\ report_outcome report = BuildOutcome.Succeeded /\
  (builds.status b = Publishing \/ builds.status b = Successful \/
   builds.status b = Failed /\ builds.end_reason b = None).

Lemma repeat_spec b report w :
  match repeat b report w with
  | Some RAbort => repeats_abort w report b
  | Some RSuccess => repeats_success w report b
  | None => ~ repeats_abort w report b /\ ~ repeats_success w report b
  end.
Proof.
  unfold repeat, repeats_abort, repeats_success.
  destruct (decide (builds.worker_id b <> Some w)) as [Hw|Hw]; [tauto|].
  apply dec_stable in Hw.
  destruct (report_outcome report), (builds.status b), (builds.end_reason b); simpl;
    intuition (try discriminate; congruence).
Qed.

(** What the worker measured of the build, as the row keeps it. *)
Definition with_measurements (report : CompleteReport) (b : builds.Model) : builds.Model :=
  builds.assign (measured report) b.

Definition with_sources (report : CompleteReport) (b : builds.Model) : builds.Model :=
  if decide (vcs_commits report = ∅) then b
  else builds.assign [builds.Set_vcs_sources (Some (vcs_commits report))] b.

Definition reason_trace (answer : result string unit) (report : CompleteReport)
    (build : BuildRef) : list Effect :=
  match reason report with
  | None => []
  | Some reason =>
      match answer with
      | Ok _ => [AppendLog (ref_pkgbase build) (ref_number build)
                   ("worker reported failure: " +:+ reason +:+ newline)]
      | Err e => [Emit (BuildRecordFailed build "failure reason" (OfText e))]
      end
  end.

Section spec.
Context (clock max_attempts w : Z) (worker_name : string)
  (append_reason append_note : result string unit).

(** The answer to a report, and what it leaves. *)
Inductive completes (build_id : Z) (report : CompleteReport) (s : world) :
    result CompletionError Completion -> world -> Prop :=
| completes_unknown :
    (forall b, b ∈ t_builds (w_db s) -> builds.id b <> build_id) ->
    completes build_id report s (Err (NotFound build_id)) s
| completes_abort_again b :
    b ∈ t_builds (w_db s) -> builds.id b = build_id -> repeats_abort w report b ->
    completes build_id report s (Ok AlreadyAccepted)
      (World (w_db s) (w_trace s ++ [DiscardStaging build_id]))
| completes_success_again b :
    b ∈ t_builds (w_db s) -> builds.id b = build_id -> repeats_success w report b ->
    completes build_id report s (Ok AlreadyAccepted) s
| completes_refused b :
    b ∈ t_builds (w_db s) -> builds.id b = build_id -> ~ owned_active w b ->
    ~ repeats_abort w report b -> ~ repeats_success w report b ->
    completes build_id report s (Err (LeaseLost build_id w)) s
| completes_accepted b p d' :
    b ∈ t_builds (w_db s) -> builds.id b = build_id -> owned_active w b ->
    report_outcome report = BuildOutcome.Succeeded ->
    p ∈ t_packages (w_db s) -> packages.id p = builds.pkg_id b -> Inv d' ->
    t_builds d' = replaced b
      (released (with_sources report (with_measurements report b)) Publishing None)
      (t_builds (w_db s)) ->
    completes build_id report s (Ok Accepted)
      (World d' (w_trace s ++
        [Emit (BuildSucceeded (mkBuildRef (packages.name p) (builds.number b)) worker_name);
         SpawnPublish build_id]))
| completes_failed b p d' :
    b ∈ t_builds (w_db s) -> builds.id b = build_id -> owned_active w b ->
    report_outcome report = BuildOutcome.Failed \/ report_outcome report = BuildOutcome.Canceled ->
    p ∈ t_packages (w_db s) -> packages.id p = builds.pkg_id b -> Inv d' ->
    t_builds d' = replaced b (released (with_measurements report b) Failed (Some clock))
      (t_builds (w_db s)) ->
    let build := mkBuildRef (packages.name p) (builds.number b) in
    completes build_id report s (Ok Accepted)
      (World d' (w_trace s ++ reason_trace append_reason report build ++
        [Emit (BuildFailed build worker_name (reason report)); DiscardStaging build_id]))
| completes_interrupted b d' extra trace :
    b ∈ t_builds (w_db s) -> builds.id b = build_id -> owned_active w b ->
    report_outcome report = BuildOutcome.Interrupted -> Inv d' ->
    t_builds d' = replaced b (failed_row clock Interrupted (with_measurements report b))
      (t_builds (w_db s)) ++ extra ->
    (forall row, row ∈ extra -> retry_row (w_db s) row /\ slot_key row = slot_key b) ->
    length extra <= 1 ->
    completes build_id report s (Ok Accepted)
      (World d' (w_trace s ++ trace ++ [DiscardStaging build_id])).
End spec.

(** ** The code refines the decision *)

Lemma quiet_write cols d b :
  Inv d -> b ∈ t_builds d -> Forall quiet cols ->
  let d' := with_builds (updated cols (fun a => builds.id a = builds.id b) (t_builds d)) d in
  Inv d' /\ t_builds d' = replaced b (builds.assign cols b) (t_builds d).
Proof.
  intros Hd Hb Hq d'. split; [by apply inv_quiet|].
  apply (updated_replaced cols (fun a => builds.id a = builds.id b)); [apply Hd|done..].
Qed.

#[export] Instance record_measurements_steady id report : Steady (record_measurements id report).
Proof. unfold record_measurements. sql_class. Qed.
#[export] Instance record_sources_steady id m : Steady (record_build_vcs_sources id m).
Proof. unfold record_build_vcs_sources. sql_class. Qed.
#[export] Instance release_steady id w st t : Steady (release id w st t).
Proof. unfold release. sql_class. Qed.
#[export] Instance find_package_steady' id : Steady (find_package_by_id id).
Proof. apply _. Qed.
#[export] Instance record_failed_steady {A} named what (r : result ErrText A) :
  Steady (record_failed named what r).
Proof. unfold record_failed. sql_class. Qed.
#[export] Instance emit_named_steady named e : Steady (emit_named named e).
Proof. unfold emit_named. sql_class. Qed.
#[export] Instance report_abandoned_steady {E} answer a : Steady (report_abandoned (E := E) answer a).
Proof.
  unfold report_abandoned, explain, announce_retry, build_refs. sql_class.
Qed.

Lemma run_measurements d b report :
  Inv d -> b ∈ t_builds d ->
  exists d', run (record_measurements (builds.id b) report) d = (Ok tt, d') /\ Inv d' /\
    t_builds d' = replaced b (with_measurements report b) (t_builds d) /\
    t_packages d' = t_packages d /\ next_build_id d' = next_build_id d.
Proof.
  intros Hd Hb. unfold record_measurements, with_measurements. case_decide as Hm.
  - apply nil_length_inv in Hm. rewrite Hm. exists d. split_and!; try done.
    symmetry. apply replaced_same; [apply Hd|done].
  - unfold mbind, sql_mbind. rewrite run_bind by apply _.
    rewrite run_quiet by (done || apply measured_quiet).
    eexists. split; [done|]. split; [by apply inv_quiet, Hd; apply measured_quiet|].
    split; [|done]. by apply quiet_write, measured_quiet.
Qed.

Lemma measured_owned report b w :
  owned_active w (with_measurements report b) <-> owned_active w b.
Proof.
  unfold owned_active, with_measurements. pose proof (assign_quiet _ b (measured_quiet report)) as Hq.
  unfold decisive in Hq. by injection Hq as -> -> _ _ _ _ _.
Qed.

Lemma sources_owned report b w :
  owned_active w (with_sources report b) <-> owned_active w b.
Proof. unfold with_sources. by case_decide. Qed.

Lemma run_sources d b report (named : option BuildRef) tr :
  Inv d -> b ∈ t_builds d ->
  exists d', run (if decide (vcs_commits report = ∅) then mret tt
       else
         r ← attempt (on_db (record_build_vcs_sources (builds.id b) (vcs_commits report)));
         record_failed named "built VCS sources" (of_db r)) (World d tr) = (Ok tt, World d' tr) /\
    Inv d' /\ t_builds d' = replaced b (with_sources report b) (t_builds d) /\
    t_packages d' = t_packages d.
Proof.
  intros Hd Hb. unfold with_sources. case_decide as Hc.
  - exists d. split_and!; try done. symmetry. apply replaced_same; [apply Hd|done].
  - assert (run (record_build_vcs_sources (builds.id b) (vcs_commits report)) d = (Ok tt,
      with_builds (updated [builds.Set_vcs_sources (Some (vcs_commits report))]
        (fun a => builds.id a = builds.id b) (t_builds d)) d)) as Hrun.
    { unfold record_build_vcs_sources, mbind, sql_mbind. rewrite run_bind by apply _.
      rewrite run_quiet by (done || by repeat constructor). by rewrite decide_False. }
    unfold mbind, sql_mbind. rewrite run_bind by apply _.
    rewrite run_attempt, run_on_db. cbn [fst snd w_db w_trace]. rewrite Hrun.
    eexists. split; [done|]. split; [by apply inv_quiet; [repeat constructor|]|].
    split; [|done]. apply quiet_write; [done..|by repeat constructor].
Qed.

Section refine.
Context (clock max_attempts w : Z) (worker_name : string)
  (append_reason append_note : result string unit).

Abbreviation completes' := (completes clock w worker_name append_reason).

(** The package the events name the build by. *)
Lemma name_of_build d b :
  wf d -> b ∈ t_builds d ->
  exists p, p ∈ t_packages d /\ packages.id p = builds.pkg_id b /\
    run (find_package_by_id (builds.pkg_id b)) d = (Ok (Some p), d).
Proof.
  intros Hwf Hb. destruct (package_of_build d b Hwf Hb) as (p & Hp & ? & ?).
  exists p. split_and!; [done..|]. unfold find_package_by_id. by rewrite run_query, Hp.
Qed.

Lemma complete_success_refines d d1 tr b b1 report name :
  Inv d1 -> b ∈ t_builds d -> b1 ∈ t_builds d1 -> builds.id b1 = builds.id b ->
  t_builds d1 = replaced b b1 (t_builds d) -> owned_active w b1 ->
  let named := mkBuildRef name (builds.number b) in
  exists d2, run (complete_success w worker_name (builds.id b) report (Some named)) (World d1 tr) =
    (Ok Accepted, World d2 (tr ++ [Emit (BuildSucceeded named worker_name);
                                   SpawnPublish (builds.id b)])) /\
    Inv d2 /\
    t_builds d2 = replaced b (released (with_sources report b1) Publishing None) (t_builds d).
Proof.
  intros Hd1 Hb Hb1 Hid Hrows Ho named. unfold complete_success, mbind, sql_mbind.
  rewrite run_bind by sql_class. rewrite <- Hid.
  destruct (run_sources d1 b1 report (Some named) tr Hd1 Hb1) as (d2 & Hrun & Hd2 & Hrows2 & _).
  unfold mbind, sql_mbind in Hrun. rewrite Hrun.
  assert (builds.id (with_sources report b1) = builds.id b1) as Hid2.
  { unfold with_sources. case_decide; [done|apply assign_id]. }
  assert (with_sources report b1 ∈ t_builds d2) as Hb2.
  { rewrite Hrows2. by apply replaced_elem. }
  pose proof (run_release (with_sources report b1) w Publishing None d2 Hd2 Hb2) as Hrel.
  rewrite decide_True in Hrel by (by apply sources_owned).
  destruct Hrel as (d3 & Hrun3 & Hd3 & Hrows3); [by left|].
  rewrite run_bind by (apply on_db_steady, release_steady). rewrite run_on_db.
  unfold accept_for_publishing. cbn [fst snd w_db w_trace]. rewrite <- Hid2, Hrun3.
  cbn [fst snd]. exists d3. split.
  - rewrite run_bind by apply _. unfold emit_named. rewrite run_emit. cbn [w_db w_trace].
    rewrite run_bind by apply _. rewrite run_effect. cbn [w_db w_trace]. by rewrite <- app_assoc.
  - split; [done|]. by rewrite Hrows3, Hrows2, Hrows, !replaced_replaced by done.
Qed.

Lemma complete_otherwise_fails d d1 tr b b1 report name :
  Inv d1 -> b1 ∈ t_builds d1 -> builds.id b1 = builds.id b ->
  t_builds d1 = replaced b b1 (t_builds d) -> owned_active w b1 ->
  report_outcome report <> BuildOutcome.Interrupted ->
  let named := mkBuildRef name (builds.number b) in
  exists d2, run (complete_otherwise clock max_attempts w worker_name append_reason append_note b
                    report (Some name) (Some named)) (World d1 tr) =
    (Ok Accepted, World d2 (tr ++ reason_trace append_reason report named ++
       [Emit (BuildFailed named worker_name (reason report)); DiscardStaging (builds.id b)])) /\
    Inv d2 /\ t_builds d2 = replaced b (released b1 Failed (Some clock)) (t_builds d).
Proof.
  intros Hd1 Hb1 Hid Hrows Ho Hout named. unfold complete_otherwise, mbind, sql_mbind.
  rewrite run_bind by sql_class.
  assert (forall k, run (match reason report, Some name with
      | Some reason, Some pkgbase =>
          sql_bind (fun r => record_failed (Some named) "failure reason" (of_text r))
            (append_build_output append_reason pkgbase (builds.number b)
                ("worker reported failure: " +:+ reason +:+ newline))
      | _, _ => mret tt
      end) (World d1 k) = (Ok tt, World d1 (k ++ reason_trace append_reason report named))) as ->.
  { intros k. unfold reason_trace. destruct (reason report) as [r|]; [|by rewrite app_nil_r].
    rewrite run_bind by apply _. unfold append_build_output.
    by destruct append_reason as [[]|e]. }
  rewrite decide_False by done.
  pose proof (run_release b1 w Failed (Some clock) d1 Hd1 Hb1) as Hrel.
  rewrite decide_True in Hrel by done.
  destruct Hrel as (d2 & Hrun & Hd2 & Hrows2); [right; by split|].
  rewrite run_bind by (apply on_db_steady, release_steady). rewrite run_on_db.
  unfold complete_failure. cbn [fst snd w_db w_trace]. rewrite <- Hid, Hrun.
  cbn [fst snd]. exists d2. split.
  - rewrite run_bind by apply _. unfold emit_named. rewrite run_emit. cbn [w_db w_trace].
    rewrite run_bind by apply _. rewrite run_effect. cbn [w_db w_trace]. by rewrite <- !app_assoc.
  - split; [done|]. by rewrite Hrows2, Hrows, replaced_replaced.
Qed.
Lemma run_explain {E} answer a s :
  exists tr, run (explain (E := E) answer a) s = (Ok tt, World (w_db s) (w_trace s ++ tr)).
Proof.
  destruct s as [d tr]. unfold explain.
  destruct (ab_build_ref a) as [ref|]; [|exists []; by rewrite app_nil_r].
  unfold mbind, sql_mbind. rewrite run_bind by apply _. unfold append_build_output.
  destruct answer as [[]|e]; by eexists [_].
Qed.

Lemma run_announce {E} a s :
  exists tr, run (announce_retry (E := E) a) s = (Ok tt, World (w_db s) (w_trace s ++ tr)).
Proof.
  destruct s as [d tr]. unfold announce_retry.
  destruct (ab_build_ref a) as [ref|]; [|exists []; by rewrite app_nil_r].
  destruct (ab_retry a) as [id|id|]; [|exists []; by rewrite app_nil_r..].
  unfold mbind, sql_mbind.
  rewrite run_bind by (apply attempt_steady, on_db_steady; unfold build_refs; sql_class).
  rewrite run_attempt, run_on_db, run_emit. cbn [fst snd w_db w_trace].
  assert ((run (build_refs [id]) d).2 = d) as -> by done. by eexists [_].
Qed.

Lemma run_report {E} answer a s :
  exists tr, run (report_abandoned (E := E) answer a) s = (Ok tt, World (w_db s) (w_trace s ++ tr)).
Proof.
  unfold report_abandoned, mbind, sql_mbind.
  rewrite run_bind by (unfold explain; sql_class).
  destruct (run_explain (E := E) answer a s) as [tr ->].
  destruct (run_announce (E := E) a (World (w_db s) (w_trace s ++ tr))) as [tr' ->].
  exists (tr ++ tr'). by rewrite app_assoc.
Qed.

Lemma run_report_each {E} (answers : Z -> result string unit) l s :
  exists tr, run (for_each (E := E) (fun a => report_abandoned (answers (ab_build_id a)) a) l) s = (Ok tt, World (w_db s) tr).
Proof.
  revert s. induction l as [|a l IH]; intros s; [by exists (w_trace s); destruct s|].
  cbn [for_each]. unfold mbind, sql_mbind. rewrite run_bind by apply _.
  destruct (run_report (E := E) (answers (ab_build_id a)) a s) as [tr ->].
  exact (IH (World (w_db s) (w_trace s ++ tr))).
Qed.

Lemma complete_otherwise_interrupted d d1 tr b b1 report name :
  Inv d -> Inv d1 -> b ∈ t_builds d -> b1 ∈ t_builds d1 -> still_held b b1 ->
  known b d1 -> next_build_id d1 = next_build_id d ->
  t_builds d1 = replaced b b1 (t_builds d) ->
  report_outcome report = BuildOutcome.Interrupted ->
  let named := mkBuildRef name (builds.number b) in
  exists d2 extra trace,
    run (complete_otherwise clock max_attempts w worker_name append_reason append_note b
           report (Some name) (Some named)) (World d1 tr) =
      (Ok Accepted, World d2 (tr ++ trace ++ [DiscardStaging (builds.id b)])) /\
    Inv d2 /\
    t_builds d2 = replaced b (failed_row clock Interrupted b1) (t_builds d) ++ extra /\
    (forall row, row ∈ extra -> retry_row d row /\ slot_key row = slot_key b) /\
    length extra <= 1.
Proof.
  intros Hd Hd1 Hb Hb1 Hheld Hk Hnext Hrows Hout named.
  unfold complete_otherwise, mbind, sql_mbind. rewrite run_bind by sql_class.
  assert (exists t, run (match reason report, Some name with
      | Some reason, Some pkgbase =>
          sql_bind (fun r => record_failed (Some named) "failure reason" (of_text r))
            (append_build_output append_reason pkgbase (builds.number b)
                ("worker reported failure: " +:+ reason +:+ newline))
      | _, _ => mret tt
      end) (World d1 tr) = (Ok tt, World d1 (tr ++ t)))
    as [t ->].
  { destruct (reason report) as [r|]; [|exists []; by rewrite app_nil_r].
    rewrite run_bind by apply _. unfold append_build_output.
    destruct append_reason as [[]|e]; by eexists [_]. }
  rewrite decide_True by done.
  destruct (abandoned_db_spec clock b Interrupted max_attempts d1 b1 Hd1 Hk Hb1 Hheld)
    as (a & extra & Ha & _ & _ & _ & Hinv & Hrows2 & _ & Hretry).
  rewrite run_bind by (apply on_db_steady, lift_steady, abandon_build_steady).
  rewrite run_on_db, run_lift. cbn [fst snd w_db w_trace]. rewrite run_abandon by done. rewrite Ha.
  cbn [fst snd]. rewrite run_bind by apply _. rewrite run_from_result.
  rewrite run_bind by apply _.
  destruct (run_report (E := CompletionError) append_note a (World (abandoned_db clock b Interrupted max_attempts d1).2
    (tr ++ t))) as [tr' ->].
  rewrite run_bind by apply _. rewrite run_effect. cbn [w_db w_trace].
  exists (abandoned_db clock b Interrupted max_attempts d1).2, extra, (t ++ tr').
  split_and!; [by rewrite <- !app_assoc|done| | |].
  - rewrite Hrows2. f_equal. rewrite Hrows.
    rewrite <- (replaced_replaced b b1 (failed_row clock Interrupted b1)) by apply Hheld.
    rewrite <- Hrows. apply updated_replaced; [apply Hd1|done|done|].
    intros c (Hid & _). rewrite Hid. symmetry. apply Hheld.
  - intros row Hrow. destruct (ab_retry a); [|done|by subst; apply elem_of_nil in Hrow].
    destruct Hretry as (r & -> & (? & ? & ? & Hle) & _ & Hslot).
    apply list_elem_of_singleton in Hrow as ->. split; [|done].
    rewrite Hnext in Hle. by repeat split.
  - destruct (ab_retry a); [|done|by subst; simpl; lia].
    destruct Hretry as (r & -> & _). simpl. lia.
Qed.
Lemma measured_held report b : still_held b (with_measurements report b) <-> builds.status b = Active.
Proof.
  unfold still_held, with_measurements. rewrite assign_id.
  pose proof (assign_quiet _ b (measured_quiet report)) as Hq. unfold decisive in Hq.
  injection Hq as -> -> -> _ _ _ _. tauto.
Qed.

Lemma complete_refines build_id report s :
  Inv (w_db s) ->
  exists r s', run (complete clock max_attempts w worker_name append_reason append_note
                      build_id report) s = (r, s') /\
    completes' build_id report s r s'.
Proof.
  intros Hd. destruct s as [d tr]. simpl in Hd. pose proof (inv_wf d Hd) as Hwf.
  unfold complete, mbind, sql_mbind.
  rewrite run_bind by (apply on_db_steady, find_build_steady). rewrite run_on_db.
  cbn [fst snd w_db w_trace].
  destruct (filter (fun b => builds.id b = build_id) (t_builds d)) as [|b l] eqn:Hf.
  { assert (forall b, b ∈ t_builds d -> builds.id b <> build_id) as Hno
      by (intros b Hb; by apply (proj1 (filter_nil_iff _ _) Hf)).
    rewrite run_find_build_none by done. eexists _, _. split; [done|]. by apply completes_unknown. }
  assert (b ∈ filter (fun b => builds.id b = build_id) (t_builds d)) as Hb by (rewrite Hf; left).
  clear Hf l. apply list_elem_of_filter in Hb as [Hid Hb]. subst build_id.
  rewrite run_find_build by done. cbn [fst snd].
  pose proof (repeat_spec b report w) as Hrep. destruct (repeat b report w) as [[]|].
  { eexists _, _. split; [done|]. by eapply completes_abort_again. }
  { eexists _, _. split; [done|]. by eapply completes_success_again. }
  destruct Hrep as [Hna Hns]. rewrite run_bind by apply _. rewrite run_from_result.
  assert (check_owned_active w b =
    if decide (owned_active w b) then Ok tt else Err (LeaseLost (builds.id b) w)) as ->.
  { unfold check_owned_active, check_owned, owned_active, lease_lost.
    destruct (decide (builds.status b = Active)), (decide (builds.worker_id b = Some w));
      rewrite ?decide_True, ?decide_False by tauto; try done;
      rewrite ?decide_True, ?decide_False by tauto; done. }
  destruct (decide (owned_active w b)) as [Ho|Ho].
  2:{ eexists _, _. split; [done|]. by eapply completes_refused. }
  destruct (name_of_build d b Hwf Hb) as (p & Hp & Hpid & Hfind).
  rewrite run_bind by (apply attempt_steady, on_db_steady; apply _).
  rewrite run_attempt, run_on_db. cbn [fst snd w_db w_trace]. rewrite Hfind.
  cbn [fst snd]. cbv zeta.
  destruct (run_measurements d b report Hd Hb) as (d1 & Hrun1 & Hd1 & Hrows1 & Hpk1 & Hnext1).
  rewrite run_bind by (apply attempt_steady, on_db_steady; apply _).
  rewrite run_attempt, run_on_db. cbn [fst snd w_db w_trace]. rewrite Hrun1. cbn [fst snd].
  rewrite run_bind by apply _. unfold record_failed at 1. cbn [of_db]. unfold mret, sql_mret. rewrite run_ret.
  assert (with_measurements report b ∈ t_builds d1) as Hb1 by (rewrite Hrows1; by apply replaced_elem).
  assert (builds.id (with_measurements report b) = builds.id b) as Hid1 by apply assign_id.
  assert (owned_active w (with_measurements report b)) as Ho1 by (by apply measured_owned).
  destruct (decide (report_outcome report = BuildOutcome.Succeeded)) as [Hs|Hs].
  - destruct (complete_success_refines d d1 tr b _ report (packages.name p) Hd1 Hb Hb1 Hid1 Hrows1 Ho1)
      as (d2 & Hrun2 & Hd2 & Hrows2).
    eexists _, _. split; [exact Hrun2|]. by eapply completes_accepted.
  - destruct (decide (report_outcome report = BuildOutcome.Interrupted)) as [Hi|Hi].
    + assert (known b d1) as Hk.
      { pose proof (known_elem _ _ (inv_wf d1 Hd1) Hb1) as [Hlt Hkn]. rewrite Hid1 in *.
        split; [done|]. intros a Ha Haid. destruct (Hkn a Ha Haid) as [-> ->].
        split; apply assign_keys. }
      destruct (complete_otherwise_interrupted d d1 tr b _ report (packages.name p) Hd Hd1 Hb Hb1)
        as (d2 & extra & trace & Hrun2 & Hd2 & Hrows2 & Hextra & Hlen); try done.
      { apply measured_held, Ho. }
      eexists _, _. split; [exact Hrun2|]. by eapply completes_interrupted.
    + destruct (complete_otherwise_fails d d1 tr b _ report (packages.name p) Hd1 Hb1 Hid1 Hrows1 Ho1 Hi)
        as (d2 & Hrun2 & Hd2 & Hrows2).
      eexists _, _. split; [exact Hrun2|]. eapply completes_failed; try done.
      destruct (report_outcome report); tauto.
Qed.
End refine.

(** ** Sessions *)

Lemma triple_from_result' {E A} (P : database -> Prop) (r : result E A) :
  triple advances P (from_result r) (fun _ d => P d).
Proof. apply triple_from_result; [apply _|]. by intros. Qed.

Lemma triple_find_build_id id :
  triple advances Inv (find_build id) (fun b d => knows [b] d).
Proof.
  unfold find_build. eapply triple_bind; [apply _|apply triple_lift, triple_find_build|].
  intros [b|]; apply triple_from_result; [apply _| |apply _|done].
  by intros d a [Hk _] [= <-].
Qed.

Lemma triple_release id w status ended_at :
  released_to status ended_at ->
  triple advances Inv (release id w status ended_at) (fun _ d => Inv d).
Proof.
  intros Hto. unfold release. eapply triple_bind; [apply _|apply triple_find_build_id|].
  intros b. eapply triple_bind; [apply _| |intros m; apply triple_from_result'].
  apply triple_lift, triple_transition. intros d [Hd Hk]%knows_one. split; [done|].
  by apply release_good.
Qed.

Lemma triple_measurements id report :
  triple advances Inv (record_measurements id report) (fun _ d => Inv d).
Proof.
  unfold record_measurements. case_decide; [by apply triple_ret; [apply _|]|].
  eapply triple_bind; [apply _|apply triple_quiet, measured_quiet|].
  intros n. by apply triple_ret; [apply _|].
Qed.

Lemma triple_sources id m :
  triple advances Inv (record_build_vcs_sources id m) (fun _ d => Inv d).
Proof.
  unfold record_build_vcs_sources.
  eapply triple_bind; [apply _|apply triple_quiet; by repeat constructor|].
  intros n. by apply triple_ret; [apply _|].
Qed.

(** In the world: the trace never gets in the way. *)
Lemma triple_w_bind {E A B} (P : database -> Prop) (Q : A -> database -> Prop)
    (S : B -> database -> Prop) (m : Sql world E A) (f : A -> Sql world E B) :
  triple w_advances (fun s => P (w_db s)) m (fun a s => Q a (w_db s)) ->
  (forall a, triple w_advances (fun s => Q a (w_db s)) (f a) (fun b s => S b (w_db s))) ->
  triple w_advances (fun s => P (w_db s)) (mbind f m) (fun b s => S b (w_db s)).
Proof. intros Hm Hf. by eapply triple_bind; [apply _|exact Hm|exact Hf]. Qed.

Definition w_keeps {E A} (P : database -> Prop) (m : Sql world E A) : Prop :=
  triple w_advances (fun s => P (w_db s)) m (fun _ s => P (w_db s)).

Lemma keeps_bind {E A B} P (m : Sql world E A) (f : A -> Sql world E B) :
  w_keeps P m -> (forall a, w_keeps P (f a)) -> w_keeps P (mbind f m).
Proof. intros Hm Hf. by apply (triple_w_bind P (fun _ => P) (fun _ => P)). Qed.

Lemma keeps_ret {E A} P (a : A) : w_keeps (E := E) P (mret a).
Proof. by apply triple_ret; [apply _|]. Qed.

Lemma keeps_from_result {E A} P (r : result E A) : w_keeps P (from_result r).
Proof. apply triple_from_result; [apply _|]. by intros. Qed.

Lemma keeps_effect {E} P e : w_keeps (E := E) P (effect e).
Proof. apply (triple_effect P). Qed.

Lemma keeps_db {E A} l (m : Sql database E A) :
  triple advances Inv m (fun _ d => Inv d) -> w_keeps (knows l) (on_db m).
Proof.
  intros Hm left s Hs. destruct (Hm left (w_db s) (proj1 Hs)) as [Hr Hq].
  split; [exact Hr|]. intros a Ha. by apply (knows_stable l _ _ Hr).
Qed.

Lemma keeps_db_known {E A} l (m : Sql database E A) :
  triple advances (knows l) m (fun _ d => Inv d) -> w_keeps (knows l) (on_db m).
Proof.
  intros Hm left s Hs. destruct (Hm left (w_db s) Hs) as [Hr Hq].
  split; [exact Hr|]. intros a Ha. by apply (knows_stable l _ _ Hr).
Qed.

Lemma keeps_attempt {E F A} l (m : Sql world E A) :
  w_keeps (knows l) m -> w_keeps (knows l) (attempt (F := F) m).
Proof.
  intros Hm left s Hs. destruct (Hm left s Hs) as [Hr _]. split; [exact Hr|].
  intros a _. simpl. by apply (knows_stable l _ _ Hr).
Qed.

Lemma keeps_append {E} P answer p n t : w_keeps (E := E) P (append_build_output answer p n t).
Proof.
  unfold append_build_output. destruct answer; [|apply keeps_ret].
  apply keeps_bind; [apply keeps_effect|intros; apply keeps_ret].
Qed.

Ltac keeps :=
  repeat first
    [ progress intros
    | apply keeps_ret | apply keeps_from_result | apply keeps_effect | apply keeps_append
    | apply keeps_attempt
    | match goal with
      | |- w_keeps _ (mbind _ _) => apply keeps_bind
      | |- w_keeps _ (match ?x with _ => _ end) => destruct x
      | |- w_keeps _ (emit _) => apply keeps_effect
      | |- w_keeps _ (emit_named _ _) => unfold emit_named
      | |- w_keeps _ (record_failed _ _ _) => unfold record_failed
      | |- w_keeps _ (explain _ _) => unfold explain
      | |- w_keeps _ (announce_retry _) => unfold announce_retry
      | |- w_keeps _ (report_abandoned _ _) => unfold report_abandoned
      end ].

Lemma triple_build_refs ids : triple advances Inv (build_refs ids) (fun _ d => Inv d).
Proof.
  unfold build_refs. case_decide; [by apply triple_ret; [apply _|]|].
  by apply triple_query; [apply _|].
Qed.

Lemma triple_complete clock n w name ar an id report :
  triple w_advances w_inv (complete clock n w name ar an id report) (fun _ s => w_inv s).
Proof.
  unfold complete. apply (triple_w_bind Inv (fun b => knows [b]) (fun _ => Inv)).
  { apply (triple_on_db Inv (find_build id) (fun b d => knows [b] d)), triple_find_build_id. }
  intros b. cut (forall k : Sql world CompletionError Completion, w_keeps (knows [b]) k ->
    triple w_advances (fun s => knows [b] (w_db s)) k (fun _ s => Inv (w_db s))).
  { intros Hcut. apply Hcut. clear Hcut.
    unfold complete_success, complete_otherwise, accept_for_publishing, complete_failure. keeps.
    all: try (apply keeps_db; first
      [ apply triple_release; by (left + (right; split)) | apply triple_measurements
      | apply triple_sources | apply triple_build_refs
      | by apply triple_query; [apply _|] ]).
    apply keeps_db_known, triple_lift, triple_abandon. }
  intros k Hk. eapply triple_conseq; [exact Hk|done|]. by intros a s [Hs _].
Qed.

(** ** Properties: completion *)


Definition demo_report (outcome : BuildOutcome.BuildOutcome) (reason : option string) :
    CompleteReport :=
  mkReport outcome None reason (Some 4096%Z) None ∅ None.

Definition demo_world : world := World demo_db [].


(** The row a decision is about is the only one of its id. *)
Lemma row_unique d a b :
  Inv d -> a ∈ t_builds d -> b ∈ t_builds d -> builds.id a = builds.id b -> a = b.
Proof. intros Hd. apply ids_inj, Hd. Qed.

Lemma released_publishing_fields b :
  builds.id (released b Publishing None) = builds.id b /\
  builds.status (released b Publishing None) = Publishing /\
  builds.worker_id (released b Publishing None) = builds.worker_id b.
Proof. done. Qed.

(** A success reported again - its first answer lost - is acknowledged and
    changes nothing at all: not the rows, not the trace, and the build is not
    published twice. *)
Theorem success_report_repeats clock n w name ar an build_id report s s'
    clock' n' name' ar' an' report' :
  Inv (w_db s) ->
  report_outcome report = BuildOutcome.Succeeded ->
  report_outcome report' = BuildOutcome.Succeeded ->
  run (complete clock n w name ar an build_id report) s = (Ok Accepted, s') ->
  run (complete clock' n' w name' ar' an' build_id report') s' = (Ok AlreadyAccepted, s').
Proof.
  intros Hd Ho Ho' Hrun.
  destruct (complete_refines clock n w name ar an build_id report s Hd) as (r & s1 & Hr & Hc).
  rewrite Hrun in Hr. injection Hr as <- <-.
  inversion Hc as [| | | |b p d' Hb Hid Hown _ _ _ Hd' Hrows|b p d' _ _ _ Hor|
                   b d' extra trace _ _ _ Hi]; subst;
    [|by destruct Hor; congruence|congruence].
  set (b' := released (with_sources report (with_measurements report b)) Publishing None) in *.
  assert (b' ∈ t_builds d') as Hb' by (rewrite Hrows; by apply replaced_elem).
  assert (builds.id b' = builds.id b) as Hid'.
  { unfold b'. destruct (released_publishing_fields (with_sources report (with_measurements report b)))
      as (-> & _). unfold with_sources. case_decide; rewrite ?assign_id; apply assign_id. }
  assert (builds.worker_id b' = Some w) as Hw.
  { unfold b'. destruct (released_publishing_fields (with_sources report (with_measurements report b)))
      as (_ & _ & ->). by apply sources_owned, measured_owned. }
  set (s2 := World d' _). assert (Inv (w_db s2)) as Hd2 by done.
  destruct (complete_refines clock' n' w name' ar' an' (builds.id b) report' s2 Hd2)
    as (r2 & s3 & Hr2 & Hc2).
  rewrite Hr2. assert (repeats_success w report' b') as Hrep by (split_and!; auto).
  assert (forall c, c ∈ t_builds (w_db s2) -> builds.id c = builds.id b -> c = b') as Huniq.
  { intros c Hc' Hcid. apply (row_unique d'); [done..|congruence]. }
  inversion Hc2 as [Hno|c Hc' Hcid Ha|c|c Hc' Hcid _ _ Hns|c p' d2 Hc' Hcid [_ Hact]|
                    c p' d2 Hc' Hcid [_ Hact]|c d2 extra trace Hc' Hcid [_ Hact]]; subst.
  - by destruct (Hno b' Hb').
  - destruct Ha as (_ & _ & [|]); congruence.
  - done.
  - by rewrite (Huniq c Hc' Hcid) in Hns.
  - by rewrite (Huniq c Hc' Hcid) in Hact.
  - by rewrite (Huniq c Hc' Hcid) in Hact.
  - by rewrite (Huniq c Hc' Hcid) in Hact.
Qed.

Lemma success_report_repeats_witness :
  let report := demo_report BuildOutcome.Succeeded None in
  let s' := (run (complete 1050 3 2 "w2" (Ok tt) (Ok tt) 2 report) demo_world).2 in
  Inv (w_db demo_world) /\
  run (complete 1060 3 2 "w2" (Ok tt) (Ok tt) 2 report) s' = (Ok AlreadyAccepted, s').
Proof.
  split; [apply demo_inv|].
  apply (success_report_repeats 1050 3 2 "w2" (Ok tt) (Ok tt) 2
    (demo_report BuildOutcome.Succeeded None) demo_world _ 1060 3 "w2" (Ok tt) (Ok tt)
    (demo_report BuildOutcome.Succeeded None) demo_inv eq_refl eq_refl).
  vm_compute. reflexivity.
Defined.

(** A late report cannot clobber anyone: from a worker that does not hold
    the build active - its lease was reclaimed, the build cancelled, finished or
    handed to another worker - the report leaves every row as it was and starts
    no publication, whatever its outcome. *)
Theorem late_report_harmless clock n w name ar an build_id report s :
  Inv (w_db s) ->
  (forall b, b ∈ t_builds (w_db s) -> builds.id b = build_id -> ~ owned_active w b) ->
  exists r tr, run (complete clock n w name ar an build_id report) s =
      (r, World (w_db s) (w_trace s ++ tr)) /\
    r <> Ok Accepted /\ SpawnPublish build_id ∉ tr.
Proof.
  intros Hd Hno.
  destruct (complete_refines clock n w name ar an build_id report s Hd) as (r & s' & Hr & Hc).
  rewrite Hr. destruct s as [d tr].
  inversion Hc as [|b|b|b|b p d' Hb Hid Ho|b p d' Hb Hid Ho|b d' extra trace Hb Hid Ho]; subst;
    try match goal with H : owned_active w ?c |- _ => by destruct (Hno c) end.
  - exists (Err (NotFound build_id)), []. rewrite app_nil_r. split_and!; [done..|].
    by intros ?%elem_of_nil.
  - eexists _, _. split_and!; [done..|]. by intros ?%list_elem_of_singleton.
  - eexists _, []. rewrite app_nil_r. split_and!; [done..|]. by intros ?%elem_of_nil.
  - eexists _, []. rewrite app_nil_r. split_and!; [done..|]. by intros ?%elem_of_nil.
Qed.

Lemma late_report_harmless_witness :
  let report := demo_report BuildOutcome.Interrupted None in
  Inv (w_db demo_world) /\
  exists r tr, run (complete 1050 3 1 "w1" (Ok tt) (Ok tt) 2 report) demo_world =
      (r, World demo_db ([] ++ tr)) /\
    r <> Ok Accepted /\ SpawnPublish 2 ∉ tr.
Proof.
  split; [apply demo_inv|].
  apply (late_report_harmless 1050 3 1 "w1" (Ok tt) (Ok tt) 2
    (demo_report BuildOutcome.Interrupted None) demo_world demo_inv).
  intros b Hb Hid. apply (Forall_forall (fun b => builds.id b = 2%Z -> ~ owned_active 1 b)
    (t_builds demo_db)); [|exact Hb|exact Hid].
  repeat constructor; (intros ?; done) || (intros _ [? ?]; done).
Defined.
