(* ===== verification/Dependents.v ===== *)
(** * Letting dependents go

    That a published build frees exactly the builds that waited for it and now
    have everything they need ([trigger_dependents]), and that changing a
    package's dependencies re-decides its queue entries in both directions
    ([resync_pending_builds]). *)
From S2P Require Import Prelude BuildState Sql Schema Version BuildStatus Invariant Fixtures.
From S2P Require Import BuildEnqueue Leases Effects Completion CompletionSpec.
Open Scope string_scope. Open Scope list_scope.

(** ** What a move between pending states leaves alone *)

(** The columns of a package no build ever changes. *)
Definition pkg_view (p : packages.Model) := (packages.id p, packages.name p, packages.platforms p).

Lemma refreshed_views pkg_id d : pkg_view <$> t_packages (refreshed pkg_id d) = pkg_view <$> t_packages d.
Proof.
  unfold refreshed. destruct (head _); [|done]. destruct (shown _ _ _); [|done]. simpl.
  unfold set_status_of, updated_packages. rewrite <- list_fmap_compose. apply list_fmap_ext.
  intros i p _. simpl. by case_decide.
Qed.

(** A rewrite of rows that neither makes nor unmakes a success. *)
Definition keeps_successes (f : builds.Model -> builds.Model) (l : list builds.Model) : Prop :=
  forall b, b ∈ l -> f b = b \/ builds.status b <> Successful /\ builds.status (f b) <> Successful.

Lemma filter_fmap_stable {A} (f : A -> A) (P : A -> Prop) `{!forall x, Decision (P x)} (l : list A) :
  (forall x, x ∈ l -> f x = x \/ ~ P x /\ ~ P (f x)) -> filter P (f <$> l) = filter P l.
Proof.
  induction l as [|x l IH]; intros Hf; [done|]. csimpl. rewrite !filter_cons.
  rewrite IH by (intros y Hy; apply Hf; by right).
  destruct (Hf x (list_elem_of_here _ _)) as [->|[H1 H2]]; [done|].
  by rewrite !decide_False.
Qed.

Lemma dep_ready_fmap `{Alpm} f l platform dep :
  keeps_successes f l -> dep_ready (f <$> l) platform dep = dep_ready l platform dep.
Proof.
  intros Hf. unfold dep_ready, successful_version, newest_success.
  rewrite filter_fmap_stable; [done|]. intros b Hb.
  destruct (Hf b Hb) as [?|[H1 H2]]; [by left|right]. by split; intros (_ & ? & _).
Qed.

(** One slot's queue entry moved. *)
Definition move_slot (pkg_id : Z) (platform : Platform) (from to : BuildState) (b : builds.Model) :
    builds.Model :=
  if decide (slot_key b = (pkg_id, platform) /\ builds.status b = from)
  then builds.set (builds.Set_status to) b else b.

Lemma requeued_fmap pkg_id platform from to d d' :
  requeued pkg_id platform from to d d' <->
  t_builds d' = move_slot pkg_id platform from to <$> t_builds d.
Proof. done. Qed.

Lemma move_slot_keeps pkg_id platform from to l :
  from <> Successful -> to <> Successful -> keeps_successes (move_slot pkg_id platform from to) l.
Proof.
  intros Hf Ht b _. unfold move_slot. case_decide as H; [|by left]. right.
  destruct H as [_ ->]. done.
Qed.

(** ** One dependent *)

Definition supports (d : database) (pkg_id : Z) (platform : Platform) : Prop :=
  exists p, p ∈ t_packages d /\ packages.id p = pkg_id /\
    (default [] (packages.platforms p) = [] \/ platform ∈ default [] (packages.platforms p)).

#[export] Instance supports_dec d pkg_id platform : Decision (supports d pkg_id platform).
Proof.
  destruct (decide (Exists (fun p => packages.id p = pkg_id /\
    (default [] (packages.platforms p) = [] \/ platform ∈ default [] (packages.platforms p)))
    (t_packages d))) as [He|He]; [left|right].
  - apply Exists_exists in He as (p & ? & ? & ?). by exists p.
  - intros (p & ? & ? & ?). apply He, Exists_exists. by exists p.
Defined.

Lemma supports_view d d' pkg_id platform :
  pkg_view <$> t_packages d' = pkg_view <$> t_packages d ->
  supports d' pkg_id platform <-> supports d pkg_id platform.
Proof.
  assert (forall d d', pkg_view <$> t_packages d' = pkg_view <$> t_packages d ->
    supports d' pkg_id platform -> supports d pkg_id platform) as Himp.
  { intros e e' Hv (p & Hp & Hid & Hpl).
    assert (pkg_view p ∈ pkg_view <$> t_packages e) as Hin by (rewrite <- Hv; by apply list_elem_of_fmap_2).
    apply list_elem_of_fmap in Hin as (q & Hq & Hin). exists q. split; [done|].
    unfold pkg_view in Hq. injection Hq as <- _ <-. done. }
  intros Hv. split; apply Himp; [done|by symmetry].
Qed.

(** What promoting one dependent leaves of everything the next decision reads. *)
Record promoted_dependent (i : Z) (platform : Platform) (d d' : database) : Prop := {
  pd_inv : Inv d';
  pd_rows : (supports d i platform ->
               t_builds d' = move_slot i platform WaitingForDeps Enqueued <$> t_builds d) /\
            (~ supports d i platform -> t_builds d' = t_builds d);
  pd_views : pkg_view <$> t_packages d' = pkg_view <$> t_packages d;
  pd_deps : t_dependencies d' = t_dependencies d
}.

Lemma promoted_db_views pkg_id platform d :
  pkg_view <$> t_packages (promoted_db pkg_id platform d).2 = pkg_view <$> t_packages d /\
  t_dependencies (promoted_db pkg_id platform d).2 = t_dependencies d.
Proof.
  unfold promoted_db. destruct (waiting_row _ _ _); [|done]. simpl. unfold written.
  by rewrite refreshed_views, refreshed_dependencies.
Qed.

Lemma demoted_db_views pkg_id platform d :
  pkg_view <$> t_packages (demoted_db pkg_id platform d).2 = pkg_view <$> t_packages d /\
  t_dependencies (demoted_db pkg_id platform d).2 = t_dependencies d.
Proof.
  unfold demoted_db. case_decide; [done|]. simpl. unfold written.
  by rewrite refreshed_views, refreshed_dependencies.
Qed.

#[export] Instance promote_dependent_steady i platform : Steady (promote_dependent i platform).
Proof. unfold promote_dependent. sql_class. Qed.

Lemma run_promote_dependent i platform d :
  Inv d -> exists o d', run (promote_dependent i platform) d = (Ok o, d') /\
    promoted_dependent i platform d d'.
Proof.
  intros Hd. pose proof (inv_wf d Hd) as Hwf. unfold promote_dependent, mbind, sql_mbind.
  rewrite run_bind by apply _. unfold find_package_by_id. rewrite run_query.
  destruct (head _) as [p|] eqn:Hp.
  - apply head_filter_elem in Hp as [Hp Hid]. cbv zeta.
    assert (supports d i platform <-> ~ (default [] (packages.platforms p) <> [] /\
              platform ∉ default [] (packages.platforms p))) as Hsup.
    { split.
      - intros (q & Hq & Hqid & Hor) [H1 H2].
        assert (q = p) as ->; [|by destruct Hor].
        apply (NoDup_fmap_inj_elem packages.id (t_packages d)); [apply Hwf|congruence..].
      - intros Hno. exists p. split_and!; [done..|].
        destruct (decide (default [] (packages.platforms p) = [])); [by left|right].
        by apply dec_stable; intros ?; apply Hno. }
    case_decide as Hdec.
    + eexists _, d. split; [done|]. split; try done. split; [|done]. by rewrite Hsup.
    + subst i. rewrite run_bind by apply _. rewrite run_promote by done.
      eexists _, _. split; [done|]. destruct (promoted_db_views (packages.id p) platform d).
      split; [by apply promoted_inv|..]; [|done..]. split; [|by rewrite Hsup].
      intros _. by apply promoted_requeued.
  - eexists _, d. split; [done|]. split; try done. split; [|done].
    intros (p & Hin & Hid & _). by destruct (head_filter_None _ _ Hp p Hin).
Qed.

(** ** All of them *)

Definition deps_of (d : database) (i : Z) : list dependencies.Model :=
  filter (fun dep => dependencies.dependent_id dep = i) (t_dependencies d).

Section ready.
Context `{Alpm}.

(** Everything package [i] depends on is built on the platform, at a version
    that satisfies it. *)
Definition ready (d : database) (platform : Platform) (i : Z) : Prop :=
  forallb (dep_ready (t_builds d) platform) (deps_of d i) = true.

(** A build held behind its dependencies that may go. *)
Definition freed (d : database) (platform : Platform) (pkgs : list Z) (b : builds.Model) : Prop :=
  builds.status b = WaitingForDeps /\ builds.platform b = platform /\ builds.pkg_id b ∈ pkgs /\
  ready d platform (builds.pkg_id b) /\ supports d (builds.pkg_id b) platform.

#[export] Instance ready_dec d platform i : Decision (ready d platform i).
Proof. unfold ready. apply _. Defined.
#[export] Instance freed_dec d platform pkgs b : Decision (freed d platform pkgs b).
Proof. unfold freed. apply _. Defined.

Definition release_row (d : database) (platform : Platform) (pkgs : list Z) (b : builds.Model) :
    builds.Model :=
  if decide (freed d platform pkgs b) then builds.set (builds.Set_status Enqueued) b else b.

(** The freed builds are queued, every other row is as it was. *)
Record releases (platform : Platform) (pkgs : list Z) (d d' : database) : Prop := {
  rl_inv : Inv d';
  rl_rows : t_builds d' = release_row d platform pkgs <$> t_builds d;
  rl_views : pkg_view <$> t_packages d' = pkg_view <$> t_packages d;
  rl_deps : t_dependencies d' = t_dependencies d
}.

Lemma ready_fmap d d' platform i f :
  t_builds d' = f <$> t_builds d -> keeps_successes f (t_builds d) ->
  t_dependencies d' = t_dependencies d -> ready d' platform i <-> ready d platform i.
Proof.
  intros Hrows Hf Hdeps. unfold ready, deps_of. rewrite Hdeps, Hrows.
  assert (forall l, forallb (dep_ready (f <$> t_builds d) platform) l
    = forallb (dep_ready (t_builds d) platform) l) as ->; [|done].
  induction l as [|dep l IH]; simpl; [done|]. by rewrite IH, dep_ready_fmap.
Qed.

Lemma release_row_keeps d platform pkgs l : keeps_successes (release_row d platform pkgs) l.
Proof.
  intros b _. unfold release_row. case_decide as Hf; [|by left]. right.
  destruct Hf as (-> & _). done.
Qed.

Lemma release_row_keys d platform pkgs b :
  slot_key (release_row d platform pkgs b) = slot_key b.
Proof. unfold release_row. by case_decide. Qed.

#[export] Instance promote_if_satisfied_steady platform x : Steady (promote_if_satisfied platform x).
Proof.
  destruct x as [i deps]. unfold promote_if_satisfied. sql_class.
Qed.

(** One turn of the loop. *)
Lemma run_promote_if_satisfied i platform d :
  Inv d -> exists o d', run (promote_if_satisfied platform (i, deps_of d i)) d = (Ok o, d') /\
    releases platform [i] d d'.
Proof.
  intros Hd. unfold promote_if_satisfied, mbind, sql_mbind.
  rewrite run_bind by apply _. rewrite run_dependencies_satisfied.
  destruct (forallb _ _) eqn:Hr.
  - rewrite run_bind by apply _.
    destruct (run_promote_dependent i platform d Hd) as (o & d' & -> & [Hinv [Hrow1 Hrow2] Hv Hdp]).
    eexists _, d'. split; [done|].
    destruct (decide (supports d i platform)) as [Hs|Hs].
    + split; try done. rewrite (Hrow1 Hs). apply list_fmap_ext. intros k b _.
      unfold move_slot, release_row. apply decide_ext. rewrite slot_key_eq. unfold freed.
      rewrite list_elem_of_singleton. split.
      * intros [[<- <-] ->]. done.
      * intros (-> & <- & <- & _). done.
    + split; try done. rewrite (Hrow2 Hs). rewrite <- (list_fmap_id (t_builds d)) at 1.
      apply list_fmap_ext. intros k b _. unfold release_row. rewrite decide_False; [done|].
      intros (_ & _ & Hi%list_elem_of_singleton & _ & Hsup). by subst.
  - eexists _, d. split; [done|]. split; try done.
    rewrite <- (list_fmap_id (t_builds d)) at 1. apply list_fmap_ext. intros k b _.
    unfold release_row. rewrite decide_False; [done|].
    intros (_ & _ & Hi%list_elem_of_singleton & Hrd & _). subst. unfold ready in Hrd. congruence.
Qed.

(** The turns of the loop do not disturb each other. *)
Lemma releases_trans platform i pkgs d d1 d2 :
  i ∉ pkgs -> releases platform [i] d d1 -> releases platform pkgs d1 d2 ->
  releases platform (i :: pkgs) d d2.
Proof.
  intros Hi [I1 R1 V1 D1] [I2 R2 V2 D2]. split; [done| |congruence..].
  rewrite R2, R1, <- list_fmap_compose. apply list_fmap_ext. intros k b _. simpl.
  assert (forall j, ready d1 platform j <-> ready d platform j) as Hready.
  { intros j. eapply ready_fmap; [exact R1|apply release_row_keeps|done]. }
  assert (forall j, supports d1 j platform <-> supports d j platform) as Hsup.
  { intros j. by apply supports_view. }
  assert (forall c, freed d1 platform pkgs c <-> freed d platform pkgs c) as Hfr.
  { intros c. unfold freed. by rewrite Hready, Hsup. }
  unfold release_row. destruct (decide (freed d platform [i] b)) as [H1|H1].
  - rewrite decide_False by (by intros (? & _)). rewrite decide_True; [done|].
    destruct H1 as (? & ? & Hin%list_elem_of_singleton & ? & ?).
    split_and!; try done. rewrite Hin. left.
  - apply decide_ext. rewrite Hfr. split.
    + intros (? & ? & ? & ? & ?). split_and!; try done. by right.
    + intros (? & ? & Hin & ? & ?). split_and!; try done.
      apply elem_of_cons in Hin as [Hin|Hin]; [|done]. destruct H1. split_and!; try done.
      by apply list_elem_of_singleton.
Qed.

Lemma releases_nil platform d : Inv d -> releases platform [] d d.
Proof.
  intros Hd. split; try done. rewrite <- (list_fmap_id (t_builds d)) at 1.
  apply list_fmap_ext. intros k b _. unfold release_row. rewrite decide_False; [done|].
  by intros (_ & _ & ?%elem_of_nil & _).
Qed.

Lemma run_promotions platform l d :
  Inv d -> NoDup l.*1 -> (forall i deps, (i, deps) ∈ l -> deps = deps_of d i) ->
  exists refs d', run (for_collect (promote_if_satisfied platform) l) d = (Ok refs, d') /\
    releases platform l.*1 d d'.
Proof.
  revert d; induction l as [|[i deps] l IH]; intros d Hd Hnd Hdeps.
  { exists [], d. split; [done|by apply releases_nil]. }
  csimpl in Hnd. apply NoDup_cons in Hnd as [Hi Hnd].
  rewrite (Hdeps i deps) by left. cbn [for_collect]. unfold mbind, sql_mbind.
  rewrite run_bind by apply _.
  destruct (run_promote_if_satisfied i platform d Hd) as (o & d1 & -> & H1).
  destruct (IH d1) as (refs & d2 & Hrun & H2); [apply H1|done| |].
  { intros j deps' Hin. unfold deps_of. rewrite (rl_deps _ _ _ _ H1).
    apply Hdeps. by right. }
  rewrite run_bind by apply _. rewrite Hrun. eexists _, d2. split; [done|].
  csimpl. by eapply releases_trans.
Qed.
End ready.

(** ** The grouped dependencies *)

Lemma group_by_dependent_lookup deps i :
  group_by_dependent deps !! i =
    match filter (fun dep => dependencies.dependent_id dep = i) deps with
    | [] => None
    | l => Some l
    end.
Proof.
  unfold group_by_dependent.
  assert (forall (m : gmap Z (list dependencies.Model)),
    foldl (fun m dep => <[dependencies.dependent_id dep :=
        default [] (m !! dependencies.dependent_id dep) ++ [dep]]> m) m deps !! i =
      match filter (fun dep => dependencies.dependent_id dep = i) deps with
      | [] => m !! i
      | l => Some (default [] (m !! i) ++ l)
      end) as Hgen.
  { induction deps as [|dep deps IH]; intros m; simpl; [done|]. rewrite IH, filter_cons.
    rewrite lookup_insert. repeat case_decide; subst; try done.
    - destruct (filter _ deps); simpl; by rewrite <- ?app_assoc. }
  rewrite Hgen, lookup_empty. by destruct (filter _ deps).
Qed.

(** The packages that depend on [pkg_id]. *)
Definition dependents_of (d : database) (pkg_id : Z) : list Z :=
  dependencies.dependent_id <$>
    filter (fun dep => dependencies.dependee_id dep = pkg_id) (t_dependencies d).

Section trigger.
Context `{Alpm}.
Context (hash_order : gmap Z (list dependencies.Model) -> list (Z * list dependencies.Model)).
Context (hash_order_perm : forall m, hash_order m ≡ₚ map_to_list m).

Lemma run_load_dependencies pkg_id d :
  exists m, run (load_dependencies_for_dependents_of pkg_id) d = (Ok m, d) /\
    (forall i deps, m !! i = Some deps -> deps = deps_of d i) /\
    (forall i, is_Some (m !! i) <-> i ∈ dependents_of d pkg_id).
Proof.
  unfold load_dependencies_for_dependents_of, mbind, sql_mbind. rewrite run_bind by apply _.
  rewrite run_query. fold (dependents_of d pkg_id). case_decide as Hnil.
  - rewrite Hnil. exists ∅. split; [done|]. split; [done|]. intros i. rewrite elem_of_nil.
    split; [|done]. by intros [? ?].
  - rewrite run_bind by apply _. rewrite run_query.
    set (deps := filter (fun dep => dependencies.dependent_id dep ∈ _) (t_dependencies d)).
    exists (group_by_dependent deps). split; [done|].
    assert (forall i, i ∈ dependents_of d pkg_id ->
      filter (fun dep => dependencies.dependent_id dep = i) deps = deps_of d i) as Hall.
    { intros i Hi. unfold deps, deps_of. rewrite list_filter_filter. apply list_filter_iff.
      intros dep. split; [tauto|]. intros Hdep. by rewrite Hdep. }
    assert (forall i, i ∉ dependents_of d pkg_id ->
      filter (fun dep => dependencies.dependent_id dep = i) deps = []) as Hnone.
    { intros i Hi. apply filter_nil_iff. intros dep [Hin _]%list_elem_of_filter Hid.
      by rewrite Hid in Hin. }
    assert (forall i, i ∈ dependents_of d pkg_id -> deps_of d i <> []) as Hne.
    { intros i (dep & -> & [_ Hdep]%list_elem_of_filter)%list_elem_of_fmap Hf.
      by apply (proj1 (filter_nil_iff _ _) Hf dep Hdep). }
    split.
    + intros i l. rewrite group_by_dependent_lookup.
      destruct (decide (i ∈ dependents_of d pkg_id)) as [Hi|Hi].
      * rewrite (Hall i Hi). destruct (deps_of d i); [done|]. by intros [= <-].
      * by rewrite (Hnone i Hi).
    + intros i. rewrite group_by_dependent_lookup.
      destruct (decide (i ∈ dependents_of d pkg_id)) as [Hi|Hi].
      * rewrite (Hall i Hi). specialize (Hne i Hi). by destruct (deps_of d i).
      * rewrite (Hnone i Hi). split; [by intros [? ?]|done].
Qed.

Lemma releases_ext platform pkgs pkgs' d d' :
  (forall i, i ∈ pkgs <-> i ∈ pkgs') -> releases platform pkgs d d' -> releases platform pkgs' d d'.
Proof.
  intros Hext [I R V D]. split; [done| |done..]. rewrite R. apply list_fmap_ext. intros k b _.
  unfold release_row. apply decide_ext. unfold freed. by rewrite Hext.
Qed.

Lemma run_trigger_dependents pkg_id platform d :
  Inv d -> exists refs d', run (trigger_dependents hash_order pkg_id platform) d = (Ok refs, d') /\
    releases platform (dependents_of d pkg_id) d d'.
Proof.
  intros Hd. unfold trigger_dependents, mbind, sql_mbind.
  rewrite run_bind by (unfold load_dependencies_for_dependents_of; sql_class).
  destruct (run_load_dependencies pkg_id d) as (m & -> & Hdeps & Hdom).
  destruct (run_promotions platform (hash_order m) d Hd) as (refs & d' & Hrun & Hrel).
  { rewrite hash_order_perm. apply NoDup_fst_map_to_list. }
  { intros i deps. rewrite hash_order_perm, elem_of_map_to_list. apply Hdeps. }
  exists refs, d'. split; [done|]. eapply releases_ext; [|exact Hrel].
  intros i. rewrite <- Hdom, hash_order_perm, list_elem_of_fmap. split.
  - intros ([j deps] & -> & Hin%elem_of_map_to_list). by exists deps.
  - intros [deps Hi]. exists (i, deps). split; [done|]. by apply elem_of_map_to_list.
Qed.

Lemma triple_dependencies_satisfied deps platform :
  triple advances Inv (dependencies_satisfied deps platform) (fun _ d => Inv d).
Proof.
  induction deps as [|dep deps IH]; cbn [dependencies_satisfied]; [by apply triple_ret; [apply _|]|].
  apply (triple_bind advances _ _ _ (fun _ d => Inv d)); [|intros ok].
  - unfold dependency_satisfied, latest_successful_version, newest_success_query.
    apply (triple_bind advances _ _ _ (fun _ d => Inv d)); [|intros v; by apply triple_ret; [apply _|]].
    apply (triple_bind advances _ _ _ (fun _ d => Inv d)); [by apply triple_query; [apply _|]|].
    intros v. by apply triple_ret; [apply _|].
  - destruct ok; [exact IH|by apply triple_ret; [apply _|]].
Qed.

Lemma triple_promote_dependent i platform :
  triple advances Inv (promote_dependent i platform) (fun _ d => Inv d).
Proof.
  unfold promote_dependent.
  apply (triple_bind advances _ _ _ (fun _ d => Inv d)); [by apply triple_query; [apply _|]|].
  intros [p|]; [|by apply triple_ret; [apply _|]]. cbv zeta.
  case_decide; [by apply triple_ret; [apply _|]|].
  eapply triple_bind; [apply _|apply triple_promote|]. intros o. by apply triple_ret; [apply _|].
Qed.

Lemma triple_promote_if_satisfied platform x :
  triple advances Inv (promote_if_satisfied platform x) (fun _ d => Inv d).
Proof.
  destruct x as [i deps]. unfold promote_if_satisfied.
  eapply triple_bind; [apply _|apply triple_dependencies_satisfied|].
  intros []; [|by apply triple_ret; [apply _|]].
  eapply triple_bind; [apply _|apply triple_promote_dependent|].
  intros o. by apply triple_ret; [apply _|].
Qed.

Lemma triple_collect {A B} (f : A -> DB (list B)) l :
  (forall x, triple advances Inv (f x) (fun _ d => Inv d)) ->
  triple advances Inv (for_collect f l) (fun _ d => Inv d).
Proof.
  intros Hf. induction l as [|x l IH]; cbn [for_collect]; [by apply triple_ret; [apply _|]|].
  eapply triple_bind; [apply _|apply Hf|]. intros y.
  eapply triple_bind; [apply _|apply IH|]. intros ys. by apply triple_ret; [apply _|].
Qed.

Lemma triple_load_dependencies pkg_id :
  triple advances Inv (load_dependencies_for_dependents_of pkg_id) (fun _ d => Inv d).
Proof.
  unfold load_dependencies_for_dependents_of.
  apply (triple_bind advances _ _ _ (fun _ d => Inv d)); [by apply triple_query; [apply _|]|].
  intros ids. case_decide; [by apply triple_ret; [apply _|]|].
  apply (triple_bind advances _ _ _ (fun _ d => Inv d)); [by apply triple_query; [apply _|]|].
  intros deps. by apply triple_ret; [apply _|].
Qed.

Lemma triple_trigger_dependents pkg_id platform :
  triple advances Inv (trigger_dependents hash_order pkg_id platform) (fun _ d => Inv d).
Proof.
  unfold trigger_dependents. eapply triple_bind; [apply _|apply triple_load_dependencies|].
  intros m. apply triple_collect. apply triple_promote_if_satisfied.
Qed.

(** C27. Publishing a build frees exactly what waited for it: over a connection
    that holds, of all the builds on the platform, those that wait for their
    dependencies, belong to a package depending on the published one and built
    for the platform, and now find every dependency built at a version that
    satisfies it, become claimable; no other row changes, in whatever order the
    dependents are walked. Over any connection, wherever it breaks off, the
    invariant holds. *)
Theorem trigger_dependents_frees pkg_id platform d :
  Inv d ->
  (exists refs d', run (trigger_dependents hash_order pkg_id platform) d = (Ok refs, d') /\ Inv d' /\
     (forall b, b ∈ t_builds d -> freed d platform (dependents_of d pkg_id) b ->
        builds.set (builds.Set_status Enqueued) b ∈ t_builds d') /\
     (forall b, b ∈ t_builds d -> ~ freed d platform (dependents_of d pkg_id) b ->
        b ∈ t_builds d') /\
     length (t_builds d') = length (t_builds d)) /\
  (forall left, advances d (o_db (trigger_dependents hash_order pkg_id platform left d))).
Proof.
  intros Hd. split; [|intros left; by apply triple_trigger_dependents].
  destruct (run_trigger_dependents pkg_id platform d Hd) as (refs & d' & Hrun & [I R V D]).
  exists refs, d'. split_and!; [done..| | |].
  - intros b Hb Hf. rewrite R. apply list_elem_of_fmap. exists b. split; [|done].
    unfold release_row. by rewrite decide_True.
  - intros b Hb Hf. rewrite R. apply list_elem_of_fmap. exists b. split; [|done].
    unfold release_row. by rewrite decide_False.
  - by rewrite R, length_fmap.
Qed.
End trigger.

Lemma trigger_dependents_frees_witness :
  (Inv demo_built_db /\
   forall left, advances demo_built_db
     (o_db (trigger_dependents (H := demo_alpm) map_to_list 2 x86 left demo_built_db))) /\
  builds.status <$> t_builds
    (run (trigger_dependents (H := demo_alpm) map_to_list 2 x86) demo_built_db).2 =
    [Enqueued; Successful; Successful; Enqueued; Publishing].
Proof.
  split.
  - split; [apply demo_built_inv|].
    destruct (trigger_dependents_frees (H := demo_alpm) map_to_list (fun m => reflexivity _) 2 x86
      demo_built_db demo_built_inv) as [_ Hs]. exact Hs.
  - vm_compute. reflexivity.
Defined.

(** ** Re-deciding a package's queue *)

Section resync.
Context `{Alpm}.

(** What the queue should say of a pending build, given what is built. *)
Definition decided (d : database) (b : builds.Model) : BuildState :=
  if decide (ready d (builds.platform b) (builds.pkg_id b)) then Enqueued else WaitingForDeps.

Definition pending_of (pkg_id : Z) (b : builds.Model) : Prop :=
  builds.pkg_id b = pkg_id /\ builds.status b ∈ [Enqueued; WaitingForDeps].
#[export] Instance pending_of_dec pkg_id b : Decision (pending_of pkg_id b).
Proof. unfold pending_of. apply _. Defined.

Definition redecide (d : database) (ids : list Z) (b : builds.Model) : builds.Model :=
  if decide (builds.id b ∈ ids) then builds.set (builds.Set_status (decided d b)) b else b.

Lemma set_same_status b s : builds.status b = s -> builds.set (builds.Set_status s) b = b.
Proof. intros <-. by destruct b. Qed.

Lemma pending_progress pkg_id b : pending_of pkg_id b -> in_progress b.
Proof.
  intros [_ Hs]. unfold in_progress. apply elem_of_IN_PROGRESS.
  apply elem_of_cons in Hs as [->|Hs]; [done|]. by apply list_elem_of_singleton in Hs as ->.
Qed.

(** In the pending build's slot, moving the slot moves just it. *)
Lemma move_slot_one d b from to :
  wf d -> b ∈ t_builds d -> in_progress b -> builds.status b = from ->
  is_in_progress from = true ->
  move_slot (builds.pkg_id b) (builds.platform b) from to <$> t_builds d =
  replaced b (builds.set (builds.Set_status to) b) (t_builds d).
Proof.
  intros Hwf Hb Hp Hs Hfrom. unfold replaced, move_slot. apply list_fmap_ext.
  intros i a Ha%list_elem_of_lookup_2. destruct (decide (builds.id a = builds.id b)) as [Hid|Hid].
  - assert (a = b) as -> by (by apply (ids_inj (t_builds d)); [apply Hwf|..]).
    by rewrite decide_True.
  - rewrite decide_False; [done|]. intros [Hslot Hst]. apply Hid.
    rewrite (waiting_unique d a b); try done. apply elem_of_IN_PROGRESS. by rewrite Hst.
Qed.

#[export] Instance resync_one_steady pkg_id deps b : Steady (resync_one pkg_id deps b).
Proof.
  unfold resync_one. apply bind_steady; [apply _|]. intros r.
  destruct (builds.status b), r; sql_class.
Qed.

(** One turn. *)
Lemma run_resync_one d b :
  Inv d -> b ∈ t_builds d -> pending_of (builds.pkg_id b) b ->
  exists o d', run (resync_one (builds.pkg_id b) (deps_of d (builds.pkg_id b)) b) d = (Ok o, d') /\
    Inv d' /\ t_builds d' = replaced b (builds.set (builds.Set_status (decided d b)) b) (t_builds d) /\
    t_dependencies d' = t_dependencies d.
Proof.
  intros Hd Hb Hp. pose proof (inv_wf d Hd) as Hwf. pose proof (pending_progress _ _ Hp) as Hpr.
  unfold resync_one, mbind, sql_mbind. rewrite run_bind by apply _.
  rewrite run_dependencies_satisfied.
  assert (forallb (dep_ready (t_builds d) (builds.platform b)) (deps_of d (builds.pkg_id b)) =
    bool_decide (ready d (builds.platform b) (builds.pkg_id b))) as ->.
  { symmetry. destruct (forallb _ _) eqn:Hf; [by apply bool_decide_eq_true|].
    apply bool_decide_eq_false. unfold ready. by rewrite Hf. }
  destruct Hp as [_ Hs]. unfold decided. apply elem_of_cons in Hs as [Hs|Hs%list_elem_of_singleton].
  - rewrite Hs. case_bool_decide as Hr.
    + rewrite decide_True by done. eexists _, d. split; [done|]. split; [done|]. split; [|done].
      rewrite set_same_status by done. symmetry. by apply replaced_same; [apply Hwf|].
    + rewrite decide_False by done. rewrite run_bind by apply _. rewrite run_demote by done.
      eexists _, _. split; [done|]. split; [by apply demoted_inv|].
      split; [|by apply demoted_db_views].
      etrans; [exact (demoted_requeued (builds.pkg_id b) (builds.platform b) d)|].
      by apply (move_slot_one d b Enqueued WaitingForDeps).
  - rewrite Hs. case_bool_decide as Hr.
    + rewrite decide_True by done. rewrite run_bind by apply _. rewrite run_promote by done.
      eexists _, _. split; [done|]. split; [by apply promoted_inv|].
      split; [|by apply promoted_db_views].
      etrans; [exact (promoted_requeued (builds.pkg_id b) (builds.platform b) d Hwf)|].
      by apply (move_slot_one d b WaitingForDeps Enqueued).
    + rewrite decide_False by done. eexists _, d. split; [done|]. split; [done|]. split; [|done].
      rewrite set_same_status by done. symmetry. by apply replaced_same; [apply Hwf|].
Qed.

Lemma redecide_keeps d ids l :
  (forall b, b ∈ l -> builds.id b ∈ ids -> builds.status b <> Successful) ->
  keeps_successes (redecide d ids) l.
Proof.
  intros Hn b Hb. unfold redecide. case_decide as Hin; [|by left]. right. split; [by apply Hn|].
  unfold decided. simpl. by case_decide.
Qed.

Lemma run_resync_each pkg_id l d :
  Inv d -> NoDup (builds.id <$> l) -> Forall (fun b => b ∈ t_builds d /\ pending_of pkg_id b) l ->
  exists o d', run (for_collect (resync_one pkg_id (deps_of d pkg_id)) l) d = (Ok o, d') /\
    Inv d' /\ t_builds d' = redecide d (builds.id <$> l) <$> t_builds d.
Proof.
  revert d; induction l as [|b l IH]; intros d Hd Hnd Hl.
  { exists [], d. split; [done|]. split; [done|]. rewrite <- (list_fmap_id (t_builds d)) at 1.
    apply list_fmap_ext. intros i a _. unfold redecide. rewrite decide_False; [done|].
    by intros ?%elem_of_nil. }
  csimpl in Hnd. apply NoDup_cons in Hnd as [Hfresh Hnd].
  apply Forall_cons in Hl as [[Hb Hp] Hl]. pose proof Hp as [<- _].
  cbn [for_collect]. unfold mbind, sql_mbind. rewrite run_bind by apply _.
  destruct (run_resync_one d b Hd Hb Hp) as (o & d1 & -> & Hd1 & Hrows & Hdeps).
  assert (deps_of d (builds.pkg_id b) = deps_of d1 (builds.pkg_id b)) as ->.
  { unfold deps_of. by rewrite Hdeps. }
  assert (forall c, c ∈ l -> builds.id c <> builds.id b) as Hne.
  { intros c Hc Heq. apply Hfresh. rewrite <- Heq. by apply list_elem_of_fmap_2. }
  destruct (IH d1 Hd1 Hnd) as (o2 & d2 & Hrun & Hd2 & Hrows2).
  { apply Forall_forall. intros c Hc. pose proof (proj1 (Forall_forall _ _) Hl c Hc) as [Hcd ?].
    split; [|done]. rewrite Hrows. apply list_elem_of_fmap. exists c. rewrite decide_False; [done|].
    by apply Hne. }
  rewrite run_bind by apply _. rewrite Hrun. eexists _, d2. split; [done|]. split; [done|].
  rewrite Hrows2, Hrows. unfold replaced. rewrite <- list_fmap_compose.
  assert (forall c, ready d1 (builds.platform c) (builds.pkg_id c) <->
                    ready d (builds.platform c) (builds.pkg_id c)) as Hready.
  { intros c. eapply ready_fmap; [exact Hrows| |done]. intros a Ha. case_decide as Hid; [|by left].
    right. assert (a = b) as -> by (by apply (ids_inj (t_builds d)); [apply Hd|..]).
    split; [destruct Hp as [_ Hs]; intros Heq; by rewrite Heq in Hs; repeat
      (apply elem_of_cons in Hs as [?|Hs]; [done|]); apply elem_of_nil in Hs|].
    unfold decided. simpl. by case_decide. }
  assert (forall c, decided d1 c = decided d c) as Hdec.
  { intros c. unfold decided. apply decide_ext, Hready. }
  apply list_fmap_ext. intros i a Ha%list_elem_of_lookup_2. simpl. unfold redecide. csimpl.
  destruct (decide (builds.id a = builds.id b)) as [Hid|Hid].
  - assert (a = b) as -> by (by apply (ids_inj (t_builds d)); [apply Hd|..]).
    rewrite decide_False by done. by rewrite decide_True by left.
  - rewrite Hdec. apply decide_ext. rewrite elem_of_cons. split; [by right|by intros [?|?]].
Qed.

Lemma triple_resync_one pkg_id deps b :
  triple advances Inv (resync_one pkg_id deps b) (fun _ d => Inv d).
Proof.
  unfold resync_one. eapply triple_bind; [apply _|apply triple_dependencies_satisfied|].
  intros r. destruct (builds.status b), r; try (by apply triple_ret; [apply _|]).
  - eapply triple_bind; [apply _|apply triple_demote|]. intros m. by apply triple_ret; [apply _|].
  - eapply triple_bind; [apply _|apply triple_promote|]. intros m. by apply triple_ret; [apply _|].
Qed.

Lemma triple_resync pkg_id :
  triple advances Inv (resync_pending_builds pkg_id) (fun _ d => Inv d).
Proof.
  unfold resync_pending_builds.
  apply (triple_bind advances _ _ _ (fun _ d => Inv d)).
  { unfold find_builds. by apply triple_query; [apply _|]. }
  intros l. case_decide; [by apply triple_ret; [apply _|]|].
  apply (triple_bind advances _ _ _ (fun _ d => Inv d)); [by apply triple_query; [apply _|]|].
  intros deps. apply triple_collect. apply triple_resync_one.
Qed.

(** After a package's dependencies changed, its queue is re-decided in both
    directions: over a connection that holds, every build of the package that is
    queued or waiting - on whichever platform - ends up queued when everything
    the package now depends on is built there, and waiting otherwise; every
    other build, a running one included, is left alone. Over any connection the
    invariant holds wherever it breaks off. *)
Theorem resync_redecides pkg_id d :
  Inv d ->
  (exists o d', run (resync_pending_builds pkg_id) d = (Ok o, d') /\ Inv d' /\
     t_builds d' = (fun b => if decide (pending_of pkg_id b)
                             then builds.set (builds.Set_status (decided d b)) b else b)
                     <$> t_builds d) /\
  (forall left, advances d (o_db (resync_pending_builds pkg_id left d))).
Proof.
  intros Hd. split; [|intros left; by apply triple_resync].
  unfold resync_pending_builds, mbind, sql_mbind. rewrite run_bind by apply _.
  unfold find_builds. rewrite run_query.
  change (fun b => builds.pkg_id b = pkg_id /\ builds.status b ∈ [Enqueued; WaitingForDeps])
    with (pending_of pkg_id).
  set (l := filter (pending_of pkg_id) (t_builds d)).
  assert (forall b, b ∈ t_builds d -> builds.id b ∈ (builds.id <$> l) <-> pending_of pkg_id b) as Hin.
  { intros b Hb. split.
    - intros (c & Hid & [Hc Hcd]%list_elem_of_filter)%list_elem_of_fmap.
      by rewrite (ids_inj (t_builds d) b c) by (apply Hd || done).
    - intros Hp. apply list_elem_of_fmap_2. by apply list_elem_of_filter. }
  case_decide as Hnil.
  - eexists _, d. split; [done|]. split; [done|]. rewrite <- (list_fmap_id (t_builds d)) at 1.
    apply list_fmap_ext. intros i b Hb%list_elem_of_lookup_2. rewrite decide_False; [done|].
    intros Hp. apply Hin in Hp; [|done]. rewrite Hnil in Hp. by apply elem_of_nil in Hp.
  - rewrite run_bind by apply _. rewrite run_query. fold (deps_of d pkg_id).
    destruct (run_resync_each pkg_id l d Hd) as (o & d' & Hrun & Hd' & Hrows).
    { eapply sublist_NoDup; [apply (ids_unique _ (wf_indexes _ (inv_wf d Hd)))|].
      apply fmap_sublist, sublist_filter. }
    { apply Forall_forall. intros b [? ?]%list_elem_of_filter. done. }
    exists o, d'. split; [done|]. split; [done|]. rewrite Hrows. apply list_fmap_ext.
    intros i b Hb%list_elem_of_lookup_2. unfold redecide. apply decide_ext. by apply Hin.
Qed.
End resync.

Lemma resync_redecides_witness :
  (Inv demo_built_db /\
   forall left, advances demo_built_db
     (o_db (resync_pending_builds (H := demo_alpm) 3 left demo_built_db))) /\
  builds.status <$> t_builds (run (resync_pending_builds (H := demo_alpm) 3) demo_built_db).2 =
    [Enqueued; Successful; Successful; Enqueued; Publishing] /\
  builds.status <$> t_builds (run (resync_pending_builds (H := demo_alpm) 3) demo_db).2 =
    [Enqueued; Active; Successful; WaitingForDeps; Publishing].
Proof.
  split.
  - split; [apply demo_built_inv|].
    destruct (resync_redecides (H := demo_alpm) 3 demo_built_db demo_built_inv) as [_ Hs]. exact Hs.
  - split; vm_compute; reflexivity.
Defined.
