(* ===== verification/Cancel.v ===== *)
(** * Stopping and deleting builds

    [backend/aurcache-utils/src/cancel.rs] and [build_delete.rs]: one guarded
    write decides the race between an operator and everything else that moves a
    build. *)
From S2P Require Import Prelude BuildState Sql Schema BuildStatus Invariant Fixtures BuildEnqueue.
From S2P Require Import Leases Effects Completion CompletionSpec.
Open Scope string_scope. Open Scope list_scope.

Definition cancelled (clock : Z) (b : builds.Model) : builds.Model :=
  builds.assign (builds.Set_status Failed :: cancel_cols clock) b.

Lemma cancel_good clock build d :
  known build d ->
  good_write (builds.pkg_id build) (builds.Set_status Failed :: cancel_cols clock)
    (transition_guard build CANCELLABLE (fun _ => True)) d.
Proof.
  intros Hk. split.
  - intros a Ha (_ & Hid & _). by apply (known_pkg build d).
  - intros a _ _ Hp. by apply elem_of_IN_PROGRESS in Hp.
  - intros a _ _ _. unfold lifecycle_ok. simpl. split; [done|by eexists].
  - intros a _ (_ & _ & Hs). unfold CANCELLABLE in Hs. rewrite !elem_of_cons, elem_of_nil in Hs.
    split; [|done]. by destruct Hs as [-> | [-> | [-> | []]]].
Qed.

(** The write alone. *)
Lemma cancel_transition clock build left d :
  Inv d -> known build d ->
  let o := transition build CANCELLABLE Failed (cancel_cols clock) (fun _ => True) left d in
  Inv (o_db o) /\
  match o_result o with
  | Err _ => o_db o = d
  | Ok Unchanged => o_db o = d /\
      forall b, b ∈ t_builds d -> builds.id b = builds.id build -> builds.status b ∉ CANCELLABLE
  | Ok Moved => exists b, b ∈ t_builds d /\ builds.id b = builds.id build /\
      builds.status b ∈ CANCELLABLE /\ t_builds (o_db o) = replaced b (cancelled clock b) (t_builds d)
  end.
Proof. intros Hd Hk. by apply transition_decides, cancel_good. Qed.

(** C28. Cancelling races everything else on one write: over any connection,
    either an error and no row changed; or the build had settled, moved on to
    publishing or gone, and nothing changed; or it was queued, waiting or
    running, and it is now failed as cancelled, keeping the worker that ran it -
    no other row moves, no retry is queued, and a heartbeat of that worker no
    longer finds it. *)
Theorem cancel_is_final clock answer pkgbase build left s :
  Inv (w_db s) -> known build (w_db s) ->
  let o := cancel_build clock answer pkgbase build left s in
  Inv (w_db (o_db o)) /\
  match o_result o with
  | Err _ => o_db o = s
  | Ok Settled => o_db o = s /\ forall b, b ∈ t_builds (w_db s) ->
      builds.id b = builds.id build -> builds.status b ∉ CANCELLABLE
  | Ok Cancelled => exists b, b ∈ t_builds (w_db s) /\ builds.id b = builds.id build /\
      builds.status b ∈ CANCELLABLE /\
      t_builds (w_db (o_db o)) = replaced b (cancelled clock b) (t_builds (w_db s)) /\
      builds.worker_id (cancelled clock b) = builds.worker_id b /\
      builds.end_reason (cancelled clock b) = Some Canceled /\
      forall c w, c ∈ t_builds (w_db (o_db o)) -> builds.id c = builds.id build -> ~ owned_active w c
  end.
Proof.
  intros Hd Hk. destruct s as [d tr]. simpl in Hd, Hk.
  pose proof (cancel_transition clock build left d Hd Hk) as Ht. simpl in Ht.
  unfold cancel_build, mbind, sql_mbind, sql_bind, on_db. cbn [w_db w_trace o_result o_db o_left].
  destruct (o_result (transition _ _ _ _ _ left d)) as [m|e] eqn:Hr; cbn [o_result o_db w_db].
  2:{ destruct Ht as [Hinv Hdb]. by rewrite Hdb. }
  destruct Ht as [Hinv Ht]. destruct m.
  - rewrite decide_False by done. destruct Ht as (b & Hb & Hid & Hs & Hrows).
    assert (forall c w, c ∈ replaced b (cancelled clock b) (t_builds d) ->
      builds.id c = builds.id build -> ~ owned_active w c) as Hno.
    { intros c w (a & -> & Ha)%list_elem_of_fmap Hcid [_ Hact]. case_decide as Ha'; [done|].
      congruence. }
    destruct answer as [[]|e]; simpl; (split; [done|]); exists b; rewrite Hrows; by split_and!.
  - rewrite decide_True by done. destruct Ht as [Hdb Ht]. simpl. rewrite Hdb. by split_and!.
Qed.

Lemma cancel_is_final_witness :
  let o := cancel_build 1010 (Ok tt) "libfoo" demo_active None demo_world in
  ((Inv (w_db demo_world) /\ known demo_active (w_db demo_world)) /\ Inv (w_db (o_db o))) /\
  o_result o = Ok Cancelled /\
  o_result (cancel_build 1010 (Ok tt) "app" demo_publishing None demo_world) = Ok Settled.
Proof.
  assert (known demo_active (w_db demo_world)) as Hk.
  { apply known_elem; [apply demo_wf|]. vm_compute. right. left. }
  split.
  - split; [split; [apply demo_inv|exact Hk]|].
    destruct (cancel_is_final 1010 (Ok tt) "libfoo" demo_active None demo_world demo_inv Hk) as [H _].
    exact H.
  - split; vm_compute; reflexivity.
Defined.

(** ** Deleting *)

Definition without (build : builds.Model) (d : database) : database :=
  with_builds (filter (fun b => builds.id b <> builds.id build) (t_builds d)) d.

#[export] Instance delete_build_atomic build : Atomic (BuildStatus.delete_build build).
Proof. unfold BuildStatus.delete_build. sql_class. Qed.

Lemma run_delete_build build d :
  run (BuildStatus.delete_build build) d =
    (Ok tt, refreshed (builds.pkg_id build) (without build d)).
Proof.
  unfold BuildStatus.delete_build. rewrite run_transaction by sql_class.
  unfold mbind, sql_mbind. rewrite run_bind by apply _. unfold delete_build_row.
  rewrite run_statement. rewrite run_bind by apply _. by rewrite run_refresh.
Qed.

Lemma without_inv build d :
  Inv d -> known build d -> Inv (refreshed (builds.pkg_id build) (without build d)).
Proof.
  intros Hd Hk. apply inv_refresh, inv_delete; [by apply inv_except_of|].
  intros b Hb Hid. by apply (known_pkg build d).
Qed.

Lemma triple_delete build :
  triple advances (knows [build]) (BuildStatus.delete_build build) (fun _ d => Inv d).
Proof.
  apply triple_atomic; [apply _..|]. intros d a d' [Hd Hk]%knows_one.
  rewrite run_delete_build. intros [= <- <-]. pose proof (without_inv build d Hd Hk).
  split; [|done]. intros _. split; [done|]. apply grows_refreshed, grows_deleted.
Qed.

Lemma triple_cancel clock build :
  triple advances (knows [build])
    (transition build CANCELLABLE Failed (cancel_cols clock) (fun _ => True)) (fun _ d => Inv d).
Proof.
  apply triple_transition. intros d [Hd Hk]%knows_one. split; [done|]. by apply cancel_good.
Qed.

(** Deleting a build from the history removes that row and nothing else,
    with its log - and its package shows what is left - or does nothing at all:
    refused without a statement while the build, as it was read, is running or
    being published, and an error leaves the row and the log. *)
Theorem delete_removes_one pkgbase build left s :
  Inv (w_db s) -> known build (w_db s) ->
  let o := delete_build pkgbase build left s in
  Inv (w_db (o_db o)) /\
  match o_result o with
  | Err _ => o_db o = s
  | Ok Running => o_db o = s /\ builds.status build ∈ [Active; Publishing]
  | Ok Deleted =>
      builds.status build ∉ [Active; Publishing] /\
      t_builds (w_db (o_db o)) =
        filter (fun b => builds.id b <> builds.id build) (t_builds (w_db s)) /\
      w_trace (o_db o) = w_trace s ++ [RemoveLog pkgbase (builds.number build)]
  end.
Proof.
  intros Hd Hk. destruct s as [d tr]. simpl in Hd, Hk. unfold delete_build.
  case_decide as Hs; [by simpl|].
  pose proof (without_inv build d Hd Hk) as Hinv.
  unfold mbind, sql_mbind, sql_bind, on_db. cbn [w_db w_trace o_result o_db o_left].
  destruct (atomic_run (BuildStatus.delete_build build) left d _ _ (run_delete_build build d))
    as [(e & -> & ->)|[-> ->]]; simpl; [done|].
  split_and!; [done..| |done]. by rewrite refreshed_builds.
Qed.

Lemma delete_removes_one_witness :
  let o := delete_build "libfoo" demo_built None demo_world in
  ((Inv (w_db demo_world) /\ known demo_built (w_db demo_world)) /\ Inv (w_db (o_db o))) /\
  o_result o = Ok Deleted /\ builds.id <$> t_builds (w_db (o_db o)) = [1; 2; 4; 5]%Z.
Proof.
  assert (known demo_built (w_db demo_world)) as Hk.
  { apply known_elem; [apply demo_wf|]. vm_compute. right. right. left. }
  split.
  - split; [split; [apply demo_inv|exact Hk]|].
    destruct (delete_removes_one "libfoo" demo_built None demo_world demo_inv Hk) as [H _]. exact H.
  - split; vm_compute; reflexivity.
Defined.

(** C29. The refusal looks at the build as the caller read it, and the delete is
    not pinned to that reading: whenever a build read as queued has been claimed
    meanwhile, deleting it removes the row under the worker that is running it -
    the worker's completion then finds no build. *)
Theorem stale_delete_removes_running pkgbase build w s :
  Inv (w_db s) -> known build (w_db s) -> builds.status build = Enqueued ->
  (exists b, b ∈ t_builds (w_db s) /\ builds.id b = builds.id build /\ owned_active w b) ->
  exists s', run (delete_build pkgbase build) s = (Ok Deleted, s') /\
    forall b, b ∈ t_builds (w_db s') -> builds.id b <> builds.id build.
Proof.
  intros Hd Hk Hs _. destruct s as [d tr]. unfold delete_build. rewrite decide_False.
  2:{ rewrite Hs. intros Hin. repeat (apply elem_of_cons in Hin as [?|Hin]; [done|]).
      by apply elem_of_nil in Hin. }
  unfold mbind, sql_mbind.
  rewrite run_bind by (apply on_db_steady; unfold BuildStatus.delete_build; sql_class).
  rewrite run_on_db. cbn [w_db w_trace]. rewrite run_delete_build. cbn [fst snd].
  rewrite run_bind by apply _. rewrite run_effect. cbn [w_db w_trace].
  exists (World (refreshed (builds.pkg_id build) (without build d))
            (tr ++ [RemoveLog pkgbase (builds.number build)])).
  split; [done|]. cbn [w_db]. rewrite refreshed_builds. simpl.
  by intros b [? _]%list_elem_of_filter.
Qed.

Definition demo_read_queued : builds.Model :=
  builds.assign [builds.Set_status Enqueued; builds.Set_worker_id None;
                 builds.Set_lease_expires_at None] demo_active.

Lemma stale_delete_removes_running_witness :
  builds.status demo_read_queued = Enqueued /\ owned_active 2 demo_active /\
  exists s', run (delete_build "libfoo" demo_read_queued) demo_world = (Ok Deleted, s') /\
    forall b, b ∈ t_builds (w_db s') -> builds.id b <> builds.id demo_read_queued.
Proof.
  assert (demo_active ∈ t_builds demo_db) as Hin by (vm_compute; right; left).
  split; [reflexivity|]. split; [split; reflexivity|].
  apply (stale_delete_removes_running "libfoo" demo_read_queued 2 demo_world demo_inv); [|reflexivity|].
  - pose proof (known_elem _ _ demo_wf Hin) as [Hlt Hk]. split; [exact Hlt|exact Hk].
  - exists demo_active. split; [exact Hin|]. split; [reflexivity|split; reflexivity].
Defined.
