(* ===== verification/PkgFile.v ===== *)
(** * What a staged file is

    The naming half of [backend/aurcache-utils/src/publish.rs]: an Arch package
    file's name taken apart ([parse_arch_pkg]), and which files of an upload are
    published, dropped or refused ([artifact]); with the two other readings of
    such a name, [is_package_file] of [repository.rs] and
    [entry_dir_for_filename] of [pacman-repo-utils]. *)
From S2P Require Import Prelude Text Schema Lists.
From Stdlib Require Import Ascii.
#[local] Open Scope string_scope.
#[local] Open Scope list_scope.

(** What separates a package's name from its compression. *)
Definition archive_delimiter : string := ".pkg.tar.".

Record ParsedPkg := mkParsed {
  pp_name : string;
  pp_version : string
}.

#[export] Instance ParsedPkg_eq_dec : EqDecision ParsedPkg.
Proof. solve_decision. Defined.

(** [parts[parts.len() - k]] *)
Definition from_end (parts : list string) (k : nat) : string :=
  default "" (parts !! (length parts - k)).

Definition parse_arch_pkg (filename : string) : result string ParsedPkg :=
  match rsplit_once archive_delimiter filename with
  | None => Err ("Invalid pkg filename: " +:+ filename)
  | Some (base, _) =>
      let parts := split "-" base in
      if decide (length parts < 4)
      then Err ("Invalid pkg filename format: " +:+ filename)
      else
        let pkgrel := from_end parts 2 in
        let pkgver := from_end parts 3 in
        let name := join "-" (take (length parts - 3) parts) in
        Ok (mkParsed name (pkgver +:+ "-" +:+ pkgrel))
  end.

Definition expected_pkgnames (pkg : packages.Model) : list string :=
  foldl (fun names name => if decide (name ∈ (names : list string)) then names else names ++ [name])
    [packages.name pkg] (JsonList_entries (packages.split_packages pkg)).

Module Artifact.
Inductive Artifact :=
| Debug
| Package (parsed : ParsedPkg).

#[export] Instance Artifact_eq_dec : EqDecision Artifact.
Proof. solve_decision. Defined.
End Artifact.
Export (hints) Artifact.

Section artifact.
(** How a message shows the list of expected names ([{expected:?}]). *)
Context (debug : list string -> string).

Definition artifact (expected : list string) (filename : string) :
    result string Artifact.Artifact :=
  parsed ← parse_arch_pkg filename;
  if is_some_and (fun base => bool_decide (base ∈ expected))
       (strip_suffix "-debug" (pp_name parsed))
  then Ok Artifact.Debug
  else if decide (pp_name parsed ∈ expected) then Ok (Artifact.Package parsed)
  else Err ("artifact '" +:+ filename +:+ "' has pkgname '" +:+ pp_name parsed +:+
            "' not among expected " +:+ debug expected).
End artifact.

(** [repository.rs], [is_package_file] *)
Definition is_package_file (name : string) : bool :=
  negb (starts_with "." name) && contains_str archive_delimiter name.

(** [pacman-repo-utils/src/repo_database/db.rs], [entry_dir_for_filename] *)
Definition entry_dir_for_filename (filename : string) : string :=
  match rsplit_once "-" filename with Some (dir, _) => dir | None => filename end.

(** ** Lemmas *)

Lemma from_end_app l a b c k :
  1 <= k <= 3 ->
  from_end (l ++ [a; b; c]) k = match k with 1 => c | 2 => b | _ => a end.
Proof.
  intros Hk. unfold from_end. rewrite length_app. cbn [length].
  destruct k as [|[|[|[|k]]]]; try lia;
    (rewrite lookup_app_r by lia);
    match goal with |- context [_ !! ?i] =>
      first [replace i with 2 by lia | replace i with 1 by lia | replace i with 0 by lia]
    end; done.
Qed.

Lemma contains_char_join d l :
  d <> "-"%char -> Forall (fun w => contains_char d w = false) l ->
  contains_char d (join "-" l) = false.
Proof.
  intros Hd. induction 1 as [|w l Hw Hl IH]; [done|]. destruct l as [|v l]; [done|].
  change (join "-" (w :: v :: l)) with (w +:+ "-" +:+ join "-" (v :: l)).
  rewrite !contains_char_app, Hw, IH. simpl. by rewrite decide_False.
Qed.

(** The parts of a name that is one: at least a name part, then three. *)
Lemma parts_shape (parts : list string) :
  4 <= length parts ->
  exists l a b c, parts = l ++ [a; b; c] /\ l <> [] /\ length l = length parts - 3.
Proof.
  intros Hn. exists (take (length parts - 3) parts).
  assert (length (drop (length parts - 3) parts) = 3) as Hd by (rewrite length_drop; lia).
  destruct (drop (length parts - 3) parts) as [|a [|b [|c [|]]]] eqn:Hdrop; try done.
  exists a, b, c. rewrite <- Hdrop, take_drop. split; [done|].
  assert (length (take (length parts - 3) parts) = length parts - 3) as Hl
    by (rewrite length_take; lia).
  split; [|done]. intros Hnil. rewrite Hnil in Hl. simpl in Hl. lia.
Qed.

Lemma parse_parts l a b c :
  l <> [] ->
  (let parts := l ++ [a; b; c] in
   mkParsed (join "-" (take (length parts - 3) parts))
     (from_end parts 3 +:+ "-" +:+ from_end parts 2)) =
  mkParsed (join "-" l) (a +:+ "-" +:+ b).
Proof.
  intros Hl. cbv zeta. rewrite !from_end_app by lia.
  rewrite length_app. cbn [length]. replace (length l + 3 - 3) with (length l) by lia.
  by rewrite take_app_length.
Qed.

(** A file name as makepkg writes one. *)
Definition pkg_filename (name pkgver pkgrel arch compression : string) : string :=
  name +:+ "-" +:+ pkgver +:+ "-" +:+ pkgrel +:+ "-" +:+ arch +:+
  archive_delimiter +:+ compression.

Lemma rsplit_archive base ext :
  contains_char "." ext = false ->
  rsplit_once archive_delimiter (base +:+ archive_delimiter +:+ ext) = Some (base, ext).
Proof.
  intros Hext. unfold archive_delimiter. apply rsplit_once_app.
  assert (forall p, strip_prefix (String "p" p) (String "." ext) = None) as H1 by done.
  assert (strip_prefix ".pkg.tar." (String "." ext) = None) as H2.
  { destruct (strip_prefix _ _) as [r|] eqn:Hr; [|done]. apply strip_prefix_spec in Hr.
    injection Hr as ->. done. }
  assert (rsplit_once ".pkg.tar." (String "." ext) = None) as H3.
  { cbn [rsplit_once]. rewrite rsplit_once_None by done. by rewrite H2. }
  cbn [String.append rsplit_once]. fold (String.append). cbn [rsplit_once] in H3.
  repeat (cbn [String.append rsplit_once]; try rewrite H3; try done).
Qed.

Lemma split_append_sep (d : ascii) a s :
  split d (a +:+ String d s) = split d a ++ split d s.
Proof.
  induction a as [|c a IH]; simpl; [by rewrite decide_True|].
  rewrite IH. case_decide; [done|].
  pose proof (split_ne_nil d a). by destruct (split d a).
Qed.

Lemma pkg_filename_parsed name pkgver pkgrel arch compression :
  contains_char "-" pkgver = false -> contains_char "-" pkgrel = false ->
  contains_char "-" arch = false -> contains_char "." compression = false ->
  parse_arch_pkg (pkg_filename name pkgver pkgrel arch compression) =
    Ok (mkParsed name (pkgver +:+ "-" +:+ pkgrel)).
Proof.
  intros Hv Hr Ha Hc. unfold parse_arch_pkg, pkg_filename.
  assert (forall d x, name +:+ d +:+ pkgver +:+ d +:+ pkgrel +:+ d +:+ arch +:+ x =
    (name +:+ d +:+ pkgver +:+ d +:+ pkgrel +:+ d +:+ arch) +:+ x) as ->
    by (intros; by rewrite !append_assoc).
  rewrite rsplit_archive by done.
  assert (split "-" (name +:+ "-" +:+ pkgver +:+ "-" +:+ pkgrel +:+ "-" +:+ arch) =
    split "-" name ++ [pkgver; pkgrel; arch]) as ->.
  { assert (forall s, "-" +:+ s = String "-" s) as Hdash by done. rewrite !Hdash.
    rewrite split_append_sep. f_equal. do 2 rewrite split_app by done.
    by rewrite split_no_delim. }
  pose proof (split_ne_nil "-" name) as Hne. rewrite decide_False.
  - rewrite parse_parts by done. do 2 f_equal. apply (join_split "-").
  - rewrite length_app. destruct (split "-" name); simpl; [done|lia].
Qed.

(** What is parsed is what the name says, read from its end. *)
Lemma parse_arch_pkg_spec filename p :
  parse_arch_pkg filename = Ok p ->
  exists pkgver pkgrel arch compression,
    filename = pkg_filename (pp_name p) pkgver pkgrel arch compression /\
    pp_version p = pkgver +:+ "-" +:+ pkgrel.
Proof.
  unfold parse_arch_pkg. destruct (rsplit_once _ _) as [[base ext]|] eqn:Hs; [|done].
  case_decide as Hlen; [done|]. apply rsplit_once_spec in Hs as ->.
  destruct (parts_shape (split "-" base)) as (l & a & b & c & Hp & Hl & _); [lia|].
  rewrite Hp, parse_parts by done. intros [= <-]. exists a, b, c, ext. split; [|done].
  rewrite <- (join_split "-" base), Hp. unfold pkg_filename.
  change (String "-" "") with "-". rewrite join_app by done.
  change (join "-" [a; b; c]) with (a +:+ "-" +:+ b +:+ "-" +:+ c).
  by rewrite !append_assoc.
Qed.

(** ** Properties *)

(** Parsing undoes naming: whatever the package is called, the name and the
    version a file was named for are read back. *)
Theorem parse_arch_pkg_roundtrip name pkgver pkgrel arch compression :
  contains_char "-" pkgver = false -> contains_char "-" pkgrel = false ->
  contains_char "-" arch = false -> contains_char "." compression = false ->
  parse_arch_pkg (pkg_filename name pkgver pkgrel arch compression) =
    Ok (mkParsed name (pkgver +:+ "-" +:+ pkgrel)).
Proof. apply pkg_filename_parsed. Qed.

Lemma parse_arch_pkg_roundtrip_witness :
  parse_arch_pkg "my.pkg.tar.tool-1.0-1-x86_64.pkg.tar.zst" =
    Ok (mkParsed "my.pkg.tar.tool" "1.0-1").
Proof. apply (parse_arch_pkg_roundtrip "my.pkg.tar.tool" "1.0" "1" "x86_64" "zst"); done. Defined.

(** An upload is sorted by its name alone: a file is published exactly when
    it is named for an expected package, and then as that package; it is left out
    exactly when it is named for an expected package's debug package; every other
    file is refused. *)
Theorem artifact_decides debug expected filename :
  match artifact debug expected filename with
  | Ok (Artifact.Package p) =>
      pp_name p ∈ expected /\ (forall e, e ∈ expected -> pp_name p <> e +:+ "-debug") /\
      parse_arch_pkg filename = Ok p /\
      exists pkgver pkgrel arch compression,
        filename = pkg_filename (pp_name p) pkgver pkgrel arch compression
  | Ok Artifact.Debug =>
      exists e pkgver pkgrel arch compression, e ∈ expected /\
        filename = pkg_filename (e +:+ "-debug") pkgver pkgrel arch compression
  | Err _ =>
      forall e name pkgver pkgrel arch compression, e ∈ expected ->
        name = e \/ name = e +:+ "-debug" ->
        contains_char "-" pkgver = false -> contains_char "-" pkgrel = false ->
        contains_char "-" arch = false -> contains_char "." compression = false ->
        filename <> pkg_filename name pkgver pkgrel arch compression
  end.
Proof.
  unfold artifact, mbind, result_bind.
  destruct (parse_arch_pkg filename) as [p|] eqn:Hp.
  - pose proof (parse_arch_pkg_spec _ _ Hp) as (v & r & a & c & Hf & _).
    destruct (is_some_and _ _) eqn:Hd.
    + apply is_some_and_true in Hd as (e & He & Hin).
      apply strip_suffix_spec in He. apply bool_decide_eq_true in Hin.
      exists e, v, r, a, c. by rewrite <- He.
    + assert (forall e, e ∈ expected -> pp_name p <> e +:+ "-debug") as Hnd.
      { intros e He Hn. apply not_true_iff_false in Hd. apply Hd, is_some_and_true.
        exists e. rewrite Hn, strip_suffix_app. by rewrite bool_decide_eq_true_2. }
      case_decide as Hin; [by eauto 10|].
      intros e name v' r' a' c' He Hname Hv Hr Ha Hc ->.
      rewrite pkg_filename_parsed in Hp by done. injection Hp as <-. simpl in *.
      destruct Hname as [-> | ->]; [done|by apply (Hnd e)].
  - intros e0 name v r a c He Hname Hv Hr Ha Hc ->.
    by rewrite pkg_filename_parsed in Hp by done.
Qed.
