(* ===== verification/PkgDb.v ===== *)
(** * The repository's databases

    [backend/pacman-repo-utils/src]: a package's [.PKGINFO] read
    ([pkginfo/parser.rs]), its [desc] written ([repo_database/desc.rs]), the entry
    both make ([describe.rs]), and [repo.db] and [repo.files] rewritten and listed
    ([repo_database/db.rs]). An archive is the sequence of its members;
    compression, digests and base64 are other crates', and parameters here. *)
From stdpp Require Import pretty.
From Stdlib Require Import Ascii.
From S2P Require Import Prelude Text PkgFile.
#[local] Open Scope string_scope.
#[local] Open Scope list_scope.

(** ** [.PKGINFO] *)

Record Pkginfo := mkPkginfo {
  pi_groups : list string;
  pi_licenses : list string;
  pi_replaces : list string;
  pi_depends : list string;
  pi_conflicts : list string;
  pi_provides : list string;
  pi_optdepends : list string;
  pi_makedepends : list string;
  pi_checkdepends : list string;
  pi_pkgname : string;
  pi_pkgbase : string;
  pi_pkgver : string;
  pi_pkgdesc : string;
  pi_size : Z;
  pi_url : string;
  pi_arch : string;
  pi_builddate : string;
  pi_packager : string;
  pi_pgpsig : string
}.

Definition Pkginfo_new : Pkginfo :=
  mkPkginfo [] [] [] [] [] [] [] [] [] "" "" "" "" 0 "" "" "" "" "".

(** A field of the file, and what a line gives it. *)
Inductive pkginfo_field :=
| F_groups (v : string)
| F_licenses (v : string)
| F_replaces (v : string)
| F_depends (v : string)
| F_conflicts (v : string)
| F_provides (v : string)
| F_optdepends (v : string)
| F_makedepends (v : string)
| F_checkdepends (v : string)
| F_pkgname (v : string)
| F_pkgbase (v : string)
| F_pkgver (v : string)
| F_pkgdesc (v : string)
| F_size (v : Z)
| F_url (v : string)
| F_arch (v : string)
| F_builddate (v : string)
| F_packager (v : string)
| F_pgpsig (v : string).

Definition assign_field (p : Pkginfo) (a : pkginfo_field) : Pkginfo :=
  let '(mkPkginfo groups licenses replaces depends conflicts provides optdepends makedepends
      checkdepends pkgname pkgbase pkgver pkgdesc size url arch builddate packager pgpsig) := p
      in
  match a with
  | F_groups v => mkPkginfo (groups ++ [v]) licenses replaces depends conflicts provides
      optdepends makedepends checkdepends pkgname pkgbase pkgver pkgdesc size url arch builddate
      packager pgpsig
  | F_licenses v => mkPkginfo groups (licenses ++ [v]) replaces depends conflicts provides
      optdepends makedepends checkdepends pkgname pkgbase pkgver pkgdesc size url arch builddate
      packager pgpsig
  | F_replaces v => mkPkginfo groups licenses (replaces ++ [v]) depends conflicts provides
      optdepends makedepends checkdepends pkgname pkgbase pkgver pkgdesc size url arch builddate
      packager pgpsig
  | F_depends v => mkPkginfo groups licenses replaces (depends ++ [v]) conflicts provides
      optdepends makedepends checkdepends pkgname pkgbase pkgver pkgdesc size url arch builddate
      packager pgpsig
  | F_conflicts v => mkPkginfo groups licenses replaces depends (conflicts ++ [v]) provides
      optdepends makedepends checkdepends pkgname pkgbase pkgver pkgdesc size url arch builddate
      packager pgpsig
  | F_provides v => mkPkginfo groups licenses replaces depends conflicts (provides ++ [v])
      optdepends makedepends checkdepends pkgname pkgbase pkgver pkgdesc size url arch builddate
      packager pgpsig
  | F_optdepends v => mkPkginfo groups licenses replaces depends conflicts provides (optdepends
      ++ [v]) makedepends checkdepends pkgname pkgbase pkgver pkgdesc size url arch builddate
      packager pgpsig
  | F_makedepends v => mkPkginfo groups licenses replaces depends conflicts provides optdepends
      (makedepends ++ [v]) checkdepends pkgname pkgbase pkgver pkgdesc size url arch builddate
      packager pgpsig
  | F_checkdepends v => mkPkginfo groups licenses replaces depends conflicts provides optdepends
      makedepends (checkdepends ++ [v]) pkgname pkgbase pkgver pkgdesc size url arch builddate
      packager pgpsig
  | F_pkgname v => mkPkginfo groups licenses replaces depends conflicts provides optdepends
      makedepends checkdepends v pkgbase pkgver pkgdesc size url arch builddate packager pgpsig
  | F_pkgbase v => mkPkginfo groups licenses replaces depends conflicts provides optdepends
      makedepends checkdepends pkgname v pkgver pkgdesc size url arch builddate packager pgpsig
  | F_pkgver v => mkPkginfo groups licenses replaces depends conflicts provides optdepends
      makedepends checkdepends pkgname pkgbase v pkgdesc size url arch builddate packager pgpsig
  | F_pkgdesc v => mkPkginfo groups licenses replaces depends conflicts provides optdepends
      makedepends checkdepends pkgname pkgbase pkgver v size url arch builddate packager pgpsig
  | F_size v => mkPkginfo groups licenses replaces depends conflicts provides optdepends
      makedepends checkdepends pkgname pkgbase pkgver pkgdesc v url arch builddate packager
      pgpsig
  | F_url v => mkPkginfo groups licenses replaces depends conflicts provides optdepends
      makedepends checkdepends pkgname pkgbase pkgver pkgdesc size v arch builddate packager
      pgpsig
  | F_arch v => mkPkginfo groups licenses replaces depends conflicts provides optdepends
      makedepends checkdepends pkgname pkgbase pkgver pkgdesc size url v builddate packager
      pgpsig
  | F_builddate v => mkPkginfo groups licenses replaces depends conflicts provides optdepends
      makedepends checkdepends pkgname pkgbase pkgver pkgdesc size url arch v packager pgpsig
  | F_packager v => mkPkginfo groups licenses replaces depends conflicts provides optdepends
      makedepends checkdepends pkgname pkgbase pkgver pkgdesc size url arch builddate v pgpsig
  | F_pgpsig v => mkPkginfo groups licenses replaces depends conflicts provides optdepends
      makedepends checkdepends pkgname pkgbase pkgver pkgdesc size url arch builddate packager v
  end.

(** The [match key] of [parse_line]; [None] is its error, a size that is no
    [u64]. *)
Definition pkginfo_assignment (key value : string) : option (option pkginfo_field) :=
  if decide (key = "group") then Some (Some (F_groups value))
  else if decide (key = "license") then Some (Some (F_licenses value))
  else if decide (key = "replaces") then Some (Some (F_replaces value))
  else if decide (key = "depend") then Some (Some (F_depends value))
  else if decide (key = "conflict") then Some (Some (F_conflicts value))
  else if decide (key = "provides") then Some (Some (F_provides value))
  else if decide (key = "optdepend") then Some (Some (F_optdepends value))
  else if decide (key = "makedepend") then Some (Some (F_makedepends value))
  else if decide (key = "checkdepend") then Some (Some (F_checkdepends value))
  else if decide (key = "pkgname") then Some (Some (F_pkgname value))
  else if decide (key = "pkgbase") then Some (Some (F_pkgbase value))
  else if decide (key = "pkgver") then Some (Some (F_pkgver value))
  else if decide (key = "pkgdesc") then Some (Some (F_pkgdesc value))
  else if decide (key = "size") then (fun size => Some (F_size size)) <$> parse_uint u64_max value
  else if decide (key = "url") then Some (Some (F_url value))
  else if decide (key = "arch") then Some (Some (F_arch value))
  else if decide (key = "builddate") then Some (Some (F_builddate value))
  else if decide (key = "packager") then Some (Some (F_packager value))
  else Some None.

Definition parse_line (p : Pkginfo) (line : string) : option Pkginfo :=
  if starts_with "#" line then Some p
  else match split_once "=" line with
       | None => Some p
       | Some (key, value) =>
           a ← pkginfo_assignment (trim key) (trim value);
           Some (match a with Some a => assign_field p a | None => p end)
       end.

(** [Pkginfo::parse], of a file's content. *)
Definition parse (p : Pkginfo) (content : string) : option Pkginfo :=
  foldl (fun p line => p ← p; parse_line p line) (Some p) (lines content).

Definition valid (p : Pkginfo) : bool :=
  negb (is_empty (pi_pkgname p)) && negb (is_empty (pi_pkgver p)).

(** ** [desc] *)

(** What a [Desc] holds besides the [Pkginfo] it is made from. *)
Record Desc := mkDesc {
  desc_filename : string;
  desc_md5sum : string;
  desc_csize : string;
  desc_sha256sum : string;
  desc_info : Pkginfo
}.

Definition newline : string := String line_feed "".

Definition write_entry (header value : string) : string :=
  if is_empty value then ""
  else "%" +:+ to_uppercase header +:+ "%" +:+ newline +:+ value +:+ newline +:+ newline.

Definition write_entries (header : string) (values : list string) : string :=
  match values with
  | [] => ""
  | [value] => if is_empty value then "" else write_entry header (join newline values)
  | _ => write_entry header (join newline values)
  end.

(** The sections of a [desc] in the order they are written, with the values of
    each. *)
Definition desc_rest (d : Desc) : list (string * (string + list string)) :=
  let p := desc_info d in
  [("name", inl (pi_pkgname p)); ("base", inl (pi_pkgbase p)); ("version", inl (pi_pkgver p));
   ("desc", inl (pi_pkgdesc p)); ("groups", inr (pi_groups p)); ("csize", inl (desc_csize d));
   ("isize", inl (pretty (pi_size p))); ("md5sum", inl (desc_md5sum d));
   ("sha256sum", inl (desc_sha256sum d)); ("pgpsig", inl (pi_pgpsig p)); ("url", inl (pi_url p));
   ("license", inr (pi_licenses p)); ("arch", inl (pi_arch p));
   ("builddate", inl (pi_builddate p)); ("packager", inl (pi_packager p));
   ("replaces", inr (pi_replaces p)); ("conflicts", inr (pi_conflicts p));
   ("provides", inr (pi_provides p)); ("depends", inr (pi_depends p));
   ("optdepends", inr (pi_optdepends p)); ("makedepends", inr (pi_makedepends p));
   ("checkdepends", inr (pi_checkdepends p))].

Definition write_section (section : string * (string + list string)) : string :=
  match section.2 with
  | inl value => write_entry section.1 value
  | inr values => write_entries section.1 values
  end.

(** [impl Display for Desc] *)
Definition desc_to_string (d : Desc) : string :=
  foldr (fun section rest => write_section section +:+ rest) ""
    (("filename", inl (desc_filename d)) :: desc_rest d).

(** ** Archives *)

Record member := mkMember {
  m_path : string;
  m_content : string
}.

#[export] Instance member_eq_dec : EqDecision member.
Proof. solve_decision. Defined.

Record PackageEntry := mkEntry {
  pe_filename : string;
  dir_name : string;
  pe_desc : string;
  pe_files : string
}.

#[export] Instance PackageEntry_eq_dec : EqDecision PackageEntry.
Proof. solve_decision. Defined.

(** [Path::components]: repeated and trailing separators and inner [.] are
    nothing. *)
Definition components (path : string) : list string :=
  match split "/" path with
  | "" :: parts => (if is_empty path then [] else ["/"]) ++
      filter (fun part => part <> "" /\ part <> ".") parts
  | first :: parts => first :: filter (fun part => part <> "" /\ part <> ".") parts
  | [] => []
  end.

(** [path.starts_with(dir)] *)
Definition path_starts_with (dir path : string) : bool :=
  bool_decide (components dir `prefix_of` components path).

(** [path.file_name()] *)
Definition file_name (path : string) : option string :=
  option_filter (fun name => bool_decide (name <> ".." /\ name <> "/" /\ name <> "."))
    (last (components path)).

Definition rewrite_archive (input : list member) (superseded : string -> bool)
    (fill : list member) : list member :=
  filter (fun m => superseded (m_path m) = false) input ++ fill.

Definition append_dir (dir : string) : list member := [mkMember dir ""].
Definition append_file (dir name content : string) : list member :=
  [mkMember (dir +:+ "/" +:+ name) content].

Definition superseded (remove : list string) (add : list PackageEntry) (path : string) : bool :=
  existsb (fun dir => path_starts_with dir path)
    ((entry_dir_for_filename <$> remove) ++ (dir_name <$> add)).

(** What an entry puts in [repo.db] and in [repo.files]. *)
Definition db_members (e : PackageEntry) : list member :=
  append_dir (dir_name e) ++ append_file (dir_name e) "desc" (pe_desc e).
Definition files_members (e : PackageEntry) : list member :=
  append_dir (dir_name e) ++ append_file (dir_name e) "desc" (pe_desc e) ++
  append_file (dir_name e) "files" (pe_files e).

(** [write_updated_databases], of the two archives' members. *)
Definition write_updated_databases (db files : list member) (remove : list string)
    (add : list PackageEntry) : list member * list member :=
  (rewrite_archive db (superseded remove add) (add ≫= db_members),
   rewrite_archive files (superseded remove add) (add ≫= files_members)).

(** The [while] of [listed_filenames], over a [desc]'s lines. *)
Fixpoint listed_lines (l : list string) : list string :=
  match l with
  | [] => []
  | line :: l =>
      if decide (line = "%FILENAME%") then
        match l with
        | filename :: l => trim filename :: listed_lines l
        | [] => []
        end
      else listed_lines l
  end.

Definition listed_filenames (db : list member) : list string :=
  db ≫= fun m =>
    if decide (file_name (m_path m) = Some "desc") then listed_lines (lines (m_content m)) else [].

(** ** [describe_package] *)

Section describe.
(** What a package file holds once it is decompressed, its digests and size, and
    the detached signature beside it with its base64: other crates and the file
    system. *)
Context (unpacked : option (list member)) (md5 sha256 csize : string)
  (signature : option string) (base64 : string -> string).

Definition MAX_SIGNATURE_BYTES : Z := 16384.

Definition set_signature (p : Pkginfo) : option Pkginfo :=
  match signature with
  | None => Some p
  | Some data =>
      if starts_with "-----BEGIN PGP SIGNATURE-----" data then None
      else if decide (MAX_SIGNATURE_BYTES < Z.of_nat (String.length data))%Z then None
      else Some (assign_field p (F_pgpsig (base64 data)))
  end.

(** The members of the archive, each named or read as [.PKGINFO]. *)
Definition describe_member (acc : option (list string * Pkginfo)) (m : member) :
    option (list string * Pkginfo) :=
  '(files, p) ← acc;
  let files := if starts_with "." (m_path m) then files else files ++ [m_path m] in
  p ← (if decide (components (m_path m) = [".PKGINFO"]) then parse p (m_content m) else Some p);
  Some (files, p).

Definition describe_members (members : list member) : option (list string * Pkginfo) :=
  foldl describe_member (Some ([], Pkginfo_new)) members.

Definition describe_package (filename : string) : option PackageEntry :=
  _ ← (if ends_with ".zst" filename || ends_with ".xz" filename then Some tt else None);
  members ← unpacked;
  '(files, p) ← describe_members members;
  _ ← (if valid p then Some tt else None);
  p ← set_signature p;
  let desc := mkDesc filename md5 csize sha256 p in
  Some (mkEntry filename (pi_pkgname p +:+ "-" +:+ pi_pkgver p) (desc_to_string desc)
          ("%FILES%" +:+ newline +:+ join newline (merge_sort String.le files))).
End describe.

(** ** Lines *)

Lemma drop_last_empty_app l m :
  m <> [] -> drop_last_empty (l ++ m) = l ++ drop_last_empty m.
Proof.
  intros Hm. induction l as [|w l IH]; [done|]. cbn [app]. rewrite <- IH.
  destruct (l ++ m) eqn:Hlm; [|done]. by apply app_eq_nil in Hlm as [_ ->].
Qed.

Lemma lines_app a b :
  lines (a +:+ newline +:+ b) = (strip_cr <$> split line_feed a) ++ lines b.
Proof.
  unfold lines, newline. change (String line_feed "" +:+ b) with (String line_feed b).
  rewrite split_append_sep, drop_last_empty_app by apply split_ne_nil. by rewrite fmap_app.
Qed.

Lemma strip_cr_plain s : contains_char "013" s = false -> strip_cr s = s.
Proof.
  intros Hs. unfold strip_cr. destruct (strip_suffix carriage_return s) as [r|] eqn:Hr; [|done].
  apply strip_suffix_spec in Hr as ->. rewrite contains_char_app in Hs.
  apply orb_false_iff in Hs as [_ Hs]. done.
Qed.

(** A line without a line feed is one line. *)
Lemma lines_plain s b :
  contains_char line_feed s = false -> contains_char "013" s = false ->
  lines (s +:+ newline +:+ b) = s :: lines b.
Proof. intros Hs Hr. rewrite lines_app, split_no_delim by done. csimpl. by rewrite strip_cr_plain. Qed.

Lemma listed_lines_app l m :
  "%FILENAME%" ∉ l -> listed_lines (l ++ m) = listed_lines m.
Proof.
  induction l as [|w l IH]; [done|]. rewrite not_elem_of_cons. intros [Hw Hl].
  cbn [app listed_lines]. rewrite decide_False by congruence. by apply IH.
Qed.

(** ** Sections *)

(** The text a section shows. *)
Definition section_value (section : string * (string + list string)) : string :=
  match section.2 with inl value => value | inr values => join newline values end.

(** No line of a section reads as the header [listed_filenames] looks for. *)
Definition tame (section : string * (string + list string)) : Prop :=
  "%FILENAME%" ∉ (strip_cr <$> split line_feed (section_value section)).
#[export] Instance tame_dec section : Decision (tame section).
Proof. unfold tame. apply _. Defined.

Lemma write_section_entry section :
  write_section section = "" \/
  write_section section = write_entry section.1 (section_value section).
Proof.
  unfold write_section, section_value. destruct section as [h [v|vs]]; simpl; [by right|].
  unfold write_entries. destruct vs as [|v [|w vs]]; [by left| |by right].
  destruct (is_empty v); [by left|by right].
Qed.

(** The lines a written section comes to, before [rest]. *)
Definition section_header (section : string * (string + list string)) : string :=
  "%" +:+ to_uppercase section.1 +:+ "%".

Lemma lines_section section rest :
  section.1 ∈ "filename" :: (fst <$> desc_rest (mkDesc "" "" "" "" Pkginfo_new)) ->
  write_section section = "" \/
  lines (write_section section +:+ rest) =
    section_header section :: (strip_cr <$> split line_feed (section_value section)) ++ "" :: lines rest.
Proof.
  intros Hh. destruct (write_section_entry section) as [->| ->]; [by left|].
  unfold write_entry. destruct (is_empty (section_value section)); [by left|right].
  assert (contains_char line_feed (section_header section) = false /\
    contains_char "013" (section_header section) = false) as [Hlf Hcr].
  { apply (Forall_forall (fun h => contains_char line_feed ("%" +:+ to_uppercase h +:+ "%") = false /\
      contains_char "013" ("%" +:+ to_uppercase h +:+ "%") = false)
      ("filename" :: (fst <$> desc_rest (mkDesc "" "" "" "" Pkginfo_new)))); [|done].
    repeat constructor; discriminate. }
  assert (forall a b c d, (("%" +:+ a +:+ "%" +:+ b +:+ c +:+ b +:+ b) +:+ d) =
    ("%" +:+ a +:+ "%") +:+ b +:+ (c +:+ b +:+ ("" +:+ b +:+ d))) as ->
    by (intros; by rewrite !append_assoc).
  fold (section_header section). rewrite lines_plain by done. by rewrite lines_app, lines_plain by done.
Qed.

Lemma section_header_other section :
  section.1 ∈ (fst <$> desc_rest (mkDesc "" "" "" "" Pkginfo_new)) -> section_header section <> "%FILENAME%".
Proof.
  intros Hh. apply (Forall_forall (fun h => "%" +:+ to_uppercase h +:+ "%" <> "%FILENAME%")
    (fst <$> desc_rest (mkDesc "" "" "" "" Pkginfo_new))); [|done].
  repeat constructor; discriminate.
Qed.

Lemma listed_section section rest :
  tame section -> section.1 ∈ (fst <$> desc_rest (mkDesc "" "" "" "" Pkginfo_new)) ->
  listed_lines (lines (write_section section +:+ rest)) = listed_lines (lines rest).
Proof.
  intros Ht Hh. destruct (lines_section section rest) as [->| ->]; [by right|done|].
  change (section_header section :: (strip_cr <$> split line_feed (section_value section)) ++ "" :: lines rest)
    with ([section_header section] ++ (strip_cr <$> split line_feed (section_value section)) ++ [""] ++ lines rest).
  rewrite listed_lines_app by (rewrite list_elem_of_singleton; by apply not_eq_sym, section_header_other).
  rewrite listed_lines_app by exact Ht. by rewrite listed_lines_app by set_solver.
Qed.

Lemma listed_sections sections rest :
  Forall tame sections ->
  Forall (fun h => h ∈ (fst <$> desc_rest (mkDesc "" "" "" "" Pkginfo_new))) (fst <$> sections) ->
  listed_lines (lines (foldr (fun s rest => write_section s +:+ rest) rest sections)) =
    listed_lines (lines rest).
Proof.
  induction sections as [|s sections IH]; [done|]. csimpl. rewrite !Forall_cons.
  intros [Hs Ht] [Hh Hhs]. rewrite listed_section by done. by apply IH.
Qed.

(** A file's name a line can hold. *)
Definition line_name (filename : string) : Prop :=
  filename <> "" /\ contains_char line_feed filename = false /\
  contains_char "013" filename = false /\ trim filename = filename.

Lemma desc_lists d :
  line_name (desc_filename d) -> Forall tame (desc_rest d) ->
  listed_lines (lines (desc_to_string d)) = [desc_filename d].
Proof.
  intros (Hne & Hlf & Hcr & Htrim) Ht. unfold desc_to_string. cbn [foldr].
  unfold write_section at 1. cbn [fst snd]. unfold write_entry.
  assert (is_empty (desc_filename d) = false) as -> by by destruct (desc_filename d).
  set (rest := foldr _ _ _). change ("%" +:+ to_uppercase "filename" +:+ "%" +:+ newline +:+
    desc_filename d +:+ newline +:+ newline) with ("%FILENAME%" +:+ newline +:+
    desc_filename d +:+ newline +:+ newline).
  rewrite !append_assoc, lines_plain by done. rewrite lines_plain by done.
  cbn [listed_lines]. rewrite decide_True by done. rewrite Htrim. f_equal.
  change (newline +:+ rest) with ("" +:+ newline +:+ rest). rewrite lines_plain by done.
  cbn [listed_lines]. rewrite decide_False by done.
  unfold rest. rewrite listed_sections; [done|done|]. cbn [fmap].
  apply Forall_forall. by destruct d as [????[]].
Qed.

(** ** Entries *)

(** A directory's name that is one path component. *)
Definition simple_dir (dir : string) : Prop := dir <> "" /\ contains_char "/" dir = false.
#[export] Instance simple_dir_dec dir : Decision (simple_dir dir).
Proof. unfold simple_dir. apply _. Defined.

Lemma components_simple dir : simple_dir dir -> components dir = [dir].
Proof.
  intros [Hne Hs]. unfold components. rewrite split_no_delim by done. by destruct dir.
Qed.

Lemma components_file dir name :
  simple_dir dir -> simple_dir name -> name <> "." -> components (dir +:+ "/" +:+ name) = [dir; name].
Proof.
  intros [Hne Hs] [Hne' Hs'] Hdot. unfold components.
  change (dir +:+ "/" +:+ name) with (dir +:+ String "/" name).
  rewrite split_app, split_no_delim by done. destruct dir; [done|].
  by rewrite filter_cons, decide_True by done.
Qed.

Lemma starts_with_simple x path dir rest :
  simple_dir x -> components path = dir :: rest ->
  path_starts_with x path = bool_decide (dir = x).
Proof.
  intros Hx Hp. unfold path_starts_with. rewrite components_simple, Hp by done.
  apply bool_decide_ext. split.
  - intros Hpre. by apply prefix_cons_inv_1 in Hpre.
  - intros ->. by apply prefix_cons, prefix_nil.
Qed.

Lemma superseded_under remove add path dir rest :
  Forall simple_dir ((entry_dir_for_filename <$> remove) ++ (dir_name <$> add)) ->
  components path = dir :: rest ->
  superseded remove add path =
    bool_decide (dir ∈ (entry_dir_for_filename <$> remove) ++ (dir_name <$> add)).
Proof.
  unfold superseded. generalize ((entry_dir_for_filename <$> remove) ++ (dir_name <$> add)).
  intros dirs Hs Hp. induction Hs as [|x dirs Hx Hs IH]; cbn [existsb].
  - rewrite bool_decide_eq_false_2; [done|apply not_elem_of_nil].
  - rewrite IH, (starts_with_simple x path dir rest) by done.
    apply eq_bool_prop_intro. rewrite orb_True, !bool_decide_spec, elem_of_cons. done.
Qed.

(** An archive in the shape every update writes: each entry's members together. *)
Definition kept_entries (remove : list string) (add es : list PackageEntry) : list PackageEntry :=
  filter (fun e => dir_name e ∉ (entry_dir_for_filename <$> remove) ++ (dir_name <$> add)) es.

Lemma rewrite_entries (shape : PackageEntry -> list member) remove add es :
  Forall simple_dir ((entry_dir_for_filename <$> remove) ++ (dir_name <$> add)) ->
  (forall e m, simple_dir (dir_name e) -> m ∈ shape e ->
     exists rest, components (m_path m) = dir_name e :: rest) ->
  Forall (fun e => simple_dir (dir_name e)) es ->
  rewrite_archive (es ≫= shape) (superseded remove add) (add ≫= shape) =
    (kept_entries remove add es ++ add) ≫= shape.
Proof.
  intros Hs Hshape Hes. unfold rewrite_archive, kept_entries. rewrite bind_app. f_equal.
  induction Hes as [|e es He Hes IH]; [done|]. csimpl.
  rewrite filter_app, filter_cons, IH.
  assert (forall m, m ∈ shape e -> superseded remove add (m_path m) =
    bool_decide (dir_name e ∈ (entry_dir_for_filename <$> remove) ++ (dir_name <$> add))) as Hm.
  { intros m Hm. destruct (Hshape e m He Hm) as [rest Hr]. by eapply superseded_under. }
  destruct (decide (dir_name e ∈ (entry_dir_for_filename <$> remove) ++ (dir_name <$> add)))
    as [Hk|Hk].
  - rewrite (decide_False (P := _ ∉ _)) by auto.
    rewrite (proj2 (filter_nil_iff _ (shape e))); [done|]. intros m ? Hf.
    rewrite Hm in Hf by done. by apply bool_decide_eq_false in Hf.
  - rewrite (decide_True (P := _ ∉ _)) by done. csimpl. f_equal. apply filter_all. intros m ?.
    rewrite Hm by done. by apply bool_decide_eq_false.
Qed.

Lemma db_members_dir e m :
  simple_dir (dir_name e) -> m ∈ db_members e ->
  exists rest, components (m_path m) = dir_name e :: rest.
Proof.
  intros He Hm. apply elem_of_cons in Hm as [-> | ->%list_elem_of_singleton]; simpl.
  - exists []. by apply components_simple.
  - exists ["desc"]. by apply components_file.
Qed.

Lemma files_members_dir e m :
  simple_dir (dir_name e) -> m ∈ files_members e ->
  exists rest, components (m_path m) = dir_name e :: rest.
Proof.
  intros He Hm. apply elem_of_cons in Hm as [-> |[-> | ->%list_elem_of_singleton]%elem_of_cons]; simpl.
  - exists []. by apply components_simple.
  - exists ["desc"]. by apply components_file.
  - exists ["files"]. by apply components_file.
Qed.

Lemma file_name_in dir name :
  simple_dir dir -> simple_dir name -> name <> "." -> name <> ".." ->
  file_name (dir +:+ "/" +:+ name) = Some name.
Proof.
  intros Hd Hn Hdot Hdots. unfold file_name. rewrite components_file by done. simpl.
  rewrite bool_decide_eq_true_2; [done|]. split_and!; [done| |done].
  intros ->. by destruct Hn.
Qed.

(** An entry whose [desc] lists the file it is for, and nothing else, under a
    name that is a directory's own and is not [desc]. *)
Record entry_ok (e : PackageEntry) : Prop := {
  entry_dir : simple_dir (dir_name e);
  entry_not_desc : dir_name e <> "desc";
  entry_lists : listed_lines (lines (pe_desc e)) = [pe_filename e]
}.

#[export] Instance entry_ok_dec e : Decision (entry_ok e).
Proof.
  destruct (decide (simple_dir (dir_name e) /\ dir_name e <> "desc" /\
    listed_lines (lines (pe_desc e)) = [pe_filename e])) as [(?&?&?)|H].
  - by left.
  - right. intros [???]. by apply H.
Defined.

Lemma listed_entries es :
  Forall entry_ok es -> listed_filenames (es ≫= db_members) = pe_filename <$> es.
Proof.
  induction 1 as [|e es [Hd Hn Hl] Hes IH]; [done|]. csimpl. rewrite <- IH.
  unfold listed_filenames at 1. unfold db_members at 1. cbn [append_dir append_file app].
  cbn [mbind list_bind m_path m_content].
  rewrite decide_False.
  - rewrite decide_True by (by apply file_name_in). by rewrite Hl.
  - unfold file_name. rewrite components_simple by done. simpl.
    destruct (bool_decide _); congruence.
Qed.

Lemma kept_entries_ok remove add es :
  Forall entry_ok es -> Forall entry_ok (kept_entries remove add es).
Proof. apply Forall_filter_of. Qed.

(** ** What a package can put in its [desc] *)

(** A value on one line that is not the header [listed_filenames] looks for. *)
Definition plain (v : string) : Prop :=
  contains_char line_feed v = false /\ strip_cr v = v /\ v <> "%FILENAME%".

Definition info_values (p : Pkginfo) : list string :=
  pi_groups p ++ pi_licenses p ++ pi_replaces p ++ pi_depends p ++ pi_conflicts p ++
  pi_provides p ++ pi_optdepends p ++ pi_makedepends p ++ pi_checkdepends p ++
  [pi_pkgname p; pi_pkgbase p; pi_pkgver p; pi_pkgdesc p; pi_url p; pi_arch p;
   pi_builddate p; pi_packager p; pi_pgpsig p].

Definition field_values (a : pkginfo_field) : list string :=
  match a with
  | F_groups v | F_licenses v | F_replaces v | F_depends v | F_conflicts v | F_provides v
  | F_optdepends v | F_makedepends v | F_checkdepends v | F_pkgname v | F_pkgbase v
  | F_pkgver v | F_pkgdesc v | F_url v | F_arch v | F_builddate v | F_packager v
  | F_pgpsig v => [v]
  | F_size _ => []
  end.

Lemma plain_empty : plain "".
Proof. done. Qed.

Lemma plain_no_percent v :
  contains_char line_feed v = false -> contains_char "013" v = false ->
  contains_char "%" v = false -> plain v.
Proof. intros Hl Hr Hp. split_and!; [done|by apply strip_cr_plain|]. by intros ->. Qed.

Lemma info_values_plain p :
  Forall plain (info_values p) <->
  (Forall plain (pi_groups p) /\ Forall plain (pi_licenses p) /\ Forall plain (pi_replaces p) /\
   Forall plain (pi_depends p) /\ Forall plain (pi_conflicts p) /\ Forall plain (pi_provides p) /\
   Forall plain (pi_optdepends p) /\ Forall plain (pi_makedepends p) /\
   Forall plain (pi_checkdepends p)) /\
  (plain (pi_pkgname p) /\ plain (pi_pkgbase p) /\ plain (pi_pkgver p) /\ plain (pi_pkgdesc p) /\
   plain (pi_url p) /\ plain (pi_arch p) /\ plain (pi_builddate p) /\ plain (pi_packager p) /\
   plain (pi_pgpsig p)).
Proof.
  unfold info_values. rewrite !Forall_app, !Forall_cons, Forall_nil.
  tauto.
Qed.

Lemma assign_plain p a :
  Forall plain (info_values p) -> Forall plain (field_values a) ->
  Forall plain (info_values (assign_field p a)).
Proof.
  rewrite !info_values_plain.
  intros [(H1 & H2 & H3 & H4 & H5 & H6 & H7 & H8 & H9)
          (H10 & H11 & H12 & H13 & H14 & H15 & H16 & H17 & H18)] Hv.
  destruct p, a; simpl in *; rewrite ?Forall_singleton in Hv;
    split_and!; try assumption; by apply Forall_app_2; [|apply Forall_singleton].
Qed.

Lemma tame_one header v : plain v -> tame (header, inl v).
Proof.
  intros (Hl & Hr & Hn). unfold tame. unfold section_value. simpl. rewrite split_no_delim by done.
  csimpl. rewrite Hr. intros ?%list_elem_of_singleton. congruence.
Qed.

Lemma tame_many header vs : Forall plain vs -> tame (header, inr vs).
Proof.
  intros Hvs. unfold tame, section_value. cbn [snd]. destruct vs as [|v vs]; [by intros ?%list_elem_of_singleton|].
  unfold newline. rewrite split_join; [|done|eapply Forall_impl; [exact Hvs|by intros ? [? _]]].
  rewrite list_elem_of_fmap. intros (w & Hw & Hin).
  rewrite Forall_forall in Hvs. destruct (Hvs w Hin) as (_ & Hs & Hn). congruence.
Qed.

(** What a number is written with. *)
Definition digits : list ascii := ["0"; "1"; "2"; "3"; "4"; "5"; "6"; "7"; "8"; "9"]%char.

Lemma pretty_N_char_digit n : pretty_N_char n ∈ digits.
Proof.
  unfold pretty_N_char, digits.
  repeat case_match; repeat first [apply list_elem_of_here | apply list_elem_of_further].
Qed.

Lemma pretty_N_go_chars c m s :
  contains_char c (pretty_N_go m s) = true -> contains_char c s = true \/ c ∈ digits.
Proof.
  revert s. induction (N.lt_wf_0 m) as [m _ IH]. intros s.
  destruct (decide (0 < m)%N) as [Hm|Hm].
  - rewrite pretty_N_go_step by done. intros Hin. apply IH in Hin; [|by apply N.div_lt].
    destruct Hin as [Hin|]; [|by right]. cbn [contains_char] in Hin.
    case_decide as Hd; [|by left]. right. rewrite <- Hd. apply pretty_N_char_digit.
  - assert (m = 0%N) as -> by lia. rewrite pretty_N_go_0. by left.
Qed.

Lemma pretty_N_chars c (n : N) : contains_char c (pretty n) = true -> c ∈ digits.
Proof.
  unfold pretty, pretty_N. case_decide.
  - cbn [contains_char]. case_decide as Hc; [intros _; rewrite <- Hc; left|done].
  - intros Hin. by apply pretty_N_go_chars in Hin as [?|?].
Qed.

Lemma pretty_Z_chars c (n : Z) : contains_char c (pretty n) = true -> c = "-"%char \/ c ∈ digits.
Proof.
  destruct n as [|p|p].
  - intros Hin. right. by apply (pretty_N_chars c 0).
  - intros Hin. right. by apply (pretty_N_chars c (Npos p)).
  - change (pretty (Zneg p)) with (String "-" (pretty (Npos p))). cbn [contains_char].
    case_decide as Hc; [by left|]. intros Hin. right. by apply (pretty_N_chars c (Npos p)).
Qed.

Lemma pretty_plain (n : Z) : plain (pretty n).
Proof.
  assert (forall c, c <> "-"%char -> c ∉ digits -> contains_char c (pretty n) = false) as Hn.
  { intros c Hd Hni. apply not_true_iff_false. intros Ht.
    by apply pretty_Z_chars in Ht as [?|?]. }
  apply plain_no_percent; apply Hn; unfold digits; set_unfold; intuition discriminate.
Qed.

(** A [.PKGINFO] none of whose values is that header. *)
Definition line_value (line : string) : string :=
  match split_once "=" line with Some (_, value) => trim value | None => "" end.
Definition tame_info (content : string) : Prop :=
  Forall (fun line => line_value line <> "%FILENAME%") (lines content).
#[export] Instance tame_info_dec content : Decision (tame_info content).
Proof. unfold tame_info. apply _. Defined.

Lemma pkginfo_assignment_value key value a :
  pkginfo_assignment key value = Some (Some a) -> field_values a ⊆ [value].
Proof.
  unfold pkginfo_assignment.
  repeat (case_decide; [first [intros [= <-]; done | destruct (parse_uint _ _); [|done];
                               intros [= <-]; apply list_subseteq_nil]|]).
  done.
Qed.

Lemma parse_line_plain p line q :
  contains_char line_feed line = false -> line_value line <> "%FILENAME%" ->
  Forall plain (info_values p) -> parse_line p line = Some q -> Forall plain (info_values q).
Proof.
  intros Hl Hv Hp. unfold parse_line. destruct (starts_with _ _); [by intros [= <-]|].
  unfold line_value in Hv. destruct (split_once "=" line) as [[k v]|] eqn:Hs; [|by intros [= <-]].
  destruct (pkginfo_assignment _ _) as [[a|]|] eqn:Ha; intros [= <-]; [|done].
  apply assign_plain; [done|]. apply Forall_forall. intros w Hw.
  apply pkginfo_assignment_value in Ha. apply Ha, list_elem_of_singleton in Hw as ->.
  apply split_once_spec in Hs as [-> _]. split_and!; [|apply strip_cr_trim|done].
  apply contains_char_trim. rewrite contains_char_app in Hl. apply orb_false_iff in Hl as [_ Hl].
  cbn [contains_char] in Hl. by case_decide.
Qed.

Lemma parse_plain p content q :
  tame_info content -> Forall plain (info_values p) -> parse p content = Some q ->
  Forall plain (info_values q).
Proof.
  unfold tame_info, parse. pose proof (lines_no_feed content) as Hl. revert p.
  induction (lines content) as [|line l IH]; intros p Ht Hp Hq; cbn [foldl] in Hq.
  - congruence.
  - apply Forall_cons in Ht as [Hv Ht]. apply Forall_cons in Hl as [Hlf Hl].
    change (p0 ← Some p; parse_line p0 line) with (parse_line p line) in Hq.
    destruct (parse_line p line) as [r|] eqn:Hr.
    + apply (IH Hl r); [done| |done]. by eapply parse_line_plain.
    + exfalso. clear -Hq. induction l; [done|by apply IHl].
Qed.

Lemma describe_fold_plain members fs r files p :
  Forall plain (info_values r) ->
  Forall (fun m => components (m_path m) = [".PKGINFO"] -> tame_info (m_content m)) members ->
  foldl describe_member (Some (fs, r)) members = Some (files, p) -> Forall plain (info_values p).
Proof.
  revert fs r. induction members as [|m members IH]; intros fs r Hr Hm Hd; cbn [foldl] in Hd.
  { by simplify_eq. }
  apply Forall_cons in Hm as [Hm Hms].
  unfold describe_member at 2 in Hd. cbn [mbind option_bind] in Hd.
  case_decide as Hc; [|by eapply IH; [|done|exact Hd]].
  destruct (parse r (m_content m)) as [q|] eqn:Hq.
  - eapply IH; [|done|exact Hd]. eapply parse_plain; [by apply Hm|done|exact Hq].
  - exfalso. clear -Hd. simpl in Hd. induction members; [done|by apply IHmembers].
Qed.

Lemma describe_members_plain members files p :
  Forall (fun m => components (m_path m) = [".PKGINFO"] -> tame_info (m_content m)) members ->
  describe_members members = Some (files, p) -> Forall plain (info_values p).
Proof.
  intros Hm. apply describe_fold_plain; [repeat constructor; apply plain_empty|done].
Qed.

Lemma desc_rest_tame filename md5 csize sha p :
  plain md5 -> plain csize -> plain sha -> Forall plain (info_values p) ->
  Forall tame (desc_rest (mkDesc filename md5 csize sha p)).
Proof.
  intros Hm Hc Hs Hp. unfold info_values in Hp. rewrite !Forall_app, !Forall_cons in Hp.
  unfold desc_rest. simpl. repeat apply Forall_cons_2; try apply Forall_nil_2;
    (apply tame_one || apply tame_many); try done; try apply pretty_plain; tauto.
Qed.

(** ** Properties *)

(** C30. Rewriting the databases is exactly an update of their entries: the entries
    whose directory a removed file or an added package names are dropped whole,
    the added ones follow, both archives agree, and [listed_filenames] then lists
    the files of the entries kept and of those added -- no entry whose name is
    merely a prefix or an extension of a removed one is touched. *)
Theorem databases_updated es remove add :
  Forall entry_ok es -> Forall entry_ok add ->
  Forall simple_dir (entry_dir_for_filename <$> remove) ->
  let kept := kept_entries remove add es in
  let '(db, files) :=
    write_updated_databases (es ≫= db_members) (es ≫= files_members) remove add in
  db = (kept ++ add) ≫= db_members /\ files = (kept ++ add) ≫= files_members /\
  listed_filenames db = (pe_filename <$> kept) ++ (pe_filename <$> add) /\
  Forall entry_ok (kept ++ add) /\
  forall e, e ∈ kept <->
    e ∈ es /\ dir_name e ∉ (dir_name <$> add) /\
    forall f, f ∈ remove -> dir_name e <> entry_dir_for_filename f.
Proof.
  intros Hes Hadd Hrem kept. unfold write_updated_databases.
  assert (Forall simple_dir ((entry_dir_for_filename <$> remove) ++ (dir_name <$> add))) as Hs.
  { apply Forall_app. split; [done|]. apply Forall_fmap. eapply Forall_impl; [exact Hadd|].
    by intros e [? _ _]. }
  assert (Forall (fun e => simple_dir (dir_name e)) es) as Hdirs
    by (eapply Forall_impl; [exact Hes|by intros e [? _ _]]).
  rewrite (rewrite_entries db_members), (rewrite_entries files_members)
    by first [done | apply db_members_dir | apply files_members_dir].
  assert (Forall entry_ok (kept ++ add)) as Hok
    by (apply Forall_app; split; [by apply kept_entries_ok|done]).
  split_and!; [done|done| |done|].
  - fold kept. rewrite listed_entries by done. by rewrite fmap_app.
  - intros e. unfold kept, kept_entries. rewrite list_elem_of_filter, not_elem_of_app.
    rewrite (list_elem_of_fmap _ remove). split.
    + intros [[Hr Ha] He]. split_and!; [done..|]. intros f Hf Heq. apply Hr. by exists f.
    + intros (He & Ha & Hr). split_and!; [|done..]. intros (f & Heq & Hf). by apply (Hr f).
Qed.

(** The entry made of a package file lists that file and nothing else, under
    the directory its name and version give -- whatever the package's own fields
    hold, as long as none of them is itself the header of a file name. *)
Theorem described_lists_itself members md5 sha256 csize signature base64 filename e :
  line_name filename -> plain md5 -> plain csize -> plain sha256 ->
  (forall data, plain (base64 data)) ->
  Forall (fun m => components (m_path m) = [".PKGINFO"] -> tame_info (m_content m)) members ->
  describe_package (Some members) md5 sha256 csize signature base64 filename = Some e ->
  pe_filename e = filename /\ listed_lines (lines (pe_desc e)) = [filename] /\
  exists files p, describe_members members = Some (files, p) /\
    dir_name e = pi_pkgname p +:+ "-" +:+ pi_pkgver p /\
    pi_pkgname p <> "" /\ pi_pkgver p <> "".
Proof.
  intros Hf Hmd Hcs Hsha Hb Hm. unfold describe_package.
  destruct (_ || _); [|done]. cbn [mbind option_bind].
  destruct (describe_members members) as [[files p]|] eqn:Hd; [|done].
  cbn [mbind option_bind].
  destruct (valid p) eqn:Hv; [|done].
  cbn [mbind option_bind].
  destruct (set_signature signature base64 p) as [q|] eqn:Hs; [|done]. intros [= <-]. simpl.
  pose proof (describe_members_plain _ _ _ Hm Hd) as Hp.
  assert (Forall plain (info_values q) /\ pi_pkgname q = pi_pkgname p /\ pi_pkgver q = pi_pkgver p)
    as (Hq & Hn & Hver).
  { unfold set_signature in Hs. destruct signature as [data|]; [|by simplify_eq].
    destruct (starts_with _ data); [done|]. case_decide; simplify_eq.
    split; [|by destruct p]. apply assign_plain; [done|]. apply Forall_singleton. apply Hb. }
  split_and!; [done| |].
  - apply desc_lists; [done|]. by apply desc_rest_tame.
  - exists files, p. rewrite Hn, Hver. unfold valid in Hv.
    apply andb_true_iff in Hv as [Hv1 Hv2]. split_and!; [done..| |].
    + by intros Heq; rewrite Heq in Hv1.
    + by intros Heq; rewrite Heq in Hv2.
Qed.

(** ** Examples *)

Definition demo_entry (name version : string) : PackageEntry :=
  let filename := name +:+ "-" +:+ version +:+ "-x86_64.pkg.tar.zst" in
  mkEntry filename (name +:+ "-" +:+ version)
    ("%FILENAME%" +:+ newline +:+ filename +:+ newline +:+ newline) "%FILES%".

Lemma databases_updated_witness :
  listed_filenames (write_updated_databases
    ([demo_entry "foo" "1.0-1"; demo_entry "foo" "1.0-10"] ≫= db_members)
    ([demo_entry "foo" "1.0-1"; demo_entry "foo" "1.0-10"] ≫= files_members)
    ["foo-1.0-1-x86_64.pkg.tar.zst"] [demo_entry "bar" "2-1"]).1 =
  ["foo-1.0-10-x86_64.pkg.tar.zst"; "bar-2-1-x86_64.pkg.tar.zst"].
Proof.
  destruct (databases_updated [demo_entry "foo" "1.0-1"; demo_entry "foo" "1.0-10"]
    ["foo-1.0-1-x86_64.pkg.tar.zst"] [demo_entry "bar" "2-1"]) as (_ & _ & H & _).
  - apply (bool_decide_unpack _). vm_compute. exact I.
  - apply (bool_decide_unpack _). vm_compute. exact I.
  - apply (bool_decide_unpack _). vm_compute. exact I.
  - exact H.
Defined.

Definition demo_pkginfo : string :=
  "# by makepkg" +:+ newline +:+ "pkgname = hello" +:+ newline +:+ "pkgver = 2.12-1" +:+ newline +:+
  "size = 1024" +:+ newline +:+ "depend = glibc" +:+ newline +:+ "depend = sh" +:+ newline.

Lemma described_lists_itself_witness :
  exists e, describe_package (Some [mkMember ".PKGINFO" demo_pkginfo; mkMember "usr/bin/hello" ""])
    "0af3" "77ee" "512" None (fun _ => "") "hello-2.12-1-x86_64.pkg.tar.zst" = Some e /\
  listed_lines (lines (pe_desc e)) = ["hello-2.12-1-x86_64.pkg.tar.zst"].
Proof.
  eexists. split; [vm_compute; reflexivity|].
  apply (described_lists_itself [mkMember ".PKGINFO" demo_pkginfo; mkMember "usr/bin/hello" ""]
    "0af3" "77ee" "512" None (fun _ => "") "hello-2.12-1-x86_64.pkg.tar.zst").
  - split_and!; done.
  - by apply plain_no_percent.
  - by apply plain_no_percent.
  - by apply plain_no_percent.
  - intros _. apply plain_empty.
  - apply Forall_cons_2; [|apply Forall_cons_2; [|apply Forall_nil_2]];
      intros _; apply (bool_decide_unpack _); vm_compute; exact I.
  - vm_compute. reflexivity.
Defined.
