(* ===== verification/RepoFiles.v ===== *)
(** * The repository's files

    The file-system half of [backend/aurcache-utils/src/repository.rs]: what an
    update adds and retires ([Changes]), the durable plan made of it
    ([Finalization]: [stage], [discard], [finish]) and the file operations both
    are made of. A file system is a map from paths to files; an operation is
    answered, or refused where the environment says so: a session is given its
    answers, one per operation, and answers everything once they are used up. *)
From S2P Require Import Prelude Text Schema Lists PkgFile PkgDb.
#[local] Open Scope string_scope.
#[local] Open Scope list_scope.

(** ** Files *)

(** A path, as its components. *)
Abbreviation path := (list string).

Inductive file :=
| Bytes (content : string)
| Archive (members : list member).

Abbreviation fsys := (gmap path file).

Inductive IoError := NotFound | Refused | BadArchive.
#[export] Instance IoError_eq_dec : EqDecision IoError.
Proof. solve_decision. Defined.

Inductive FileAction := Move | Remove.

Inductive RepoEvent :=
| RepoFileFailed (action : FileAction) (p : path)
| RepoCommitRetried (attempt : nat)
| RepoSwept (files : list string).

Record disk := Disk {
  d_files : fsys;
  d_log : list RepoEvent
}.

(** ** Sessions *)

Record io_out (E A : Type) := IoOut {
  io_result : result E A;
  io_answers : list bool;
  io_disk : disk
}.
Global Arguments IoOut {_ _} _ _ _.
Global Arguments io_result {_ _} _.
Global Arguments io_answers {_ _} _.
Global Arguments io_disk {_ _} _.

Definition Io (E A : Type) : Type := list bool -> disk -> io_out E A.

Definition io_ret {E A} (a : A) : Io E A := fun answers d => IoOut (Ok a) answers d.
Definition io_bind {E A B} (f : A -> Io E B) (m : Io E A) : Io E B :=
  fun answers d =>
    let o := m answers d in
    match io_result o with
    | Ok a => f a (io_answers o) (io_disk o)
    | Err e => IoOut (Err e) (io_answers o) (io_disk o)
    end.
#[export] Instance io_mret {E} : MRet (Io E) := fun A a => io_ret a.
#[export] Instance io_mbind {E} : MBind (Io E) := fun A B f m => io_bind f m.

(** One operation. Refused, it may still leave something behind ([torn]). *)
Definition op {A} (f : fsys -> result IoError A * fsys) (torn : fsys -> fsys) : Io IoError A :=
  fun answers d =>
    match answers with
    | false :: answers => IoOut (Err Refused) answers (Disk (torn (d_files d)) (d_log d))
    | _ => let '(r, fs) := f (d_files d) in IoOut r (tail answers) (Disk fs (d_log d))
    end.

(** A look that cannot be refused: [Path::exists], [Path::is_file]. *)
Definition look {E A : Type} (q : fsys -> A) : Io E A := fun answers d => IoOut (Ok (q (d_files d))) answers d.

Definition note {E : Type} (e : RepoEvent) : Io E unit :=
  fun answers d => IoOut (Ok tt) answers (Disk (d_files d) (d_log d ++ [e])).

(** [match m { Ok(..) => .., Err(..) => .. }] *)
Definition attempt_io {E F A : Type} (m : Io E A) : Io F (result E A) :=
  fun answers d =>
    let o := m answers d in IoOut (Ok (io_result o)) (io_answers o) (io_disk o).

Definition throw {E A : Type} (e : E) : Io E A := fun answers d => IoOut (Err e) answers d.

Definition map_err {E F A : Type} (f : E -> F) (m : Io E A) : Io F A :=
  fun answers d =>
    let o := m answers d in
    IoOut (match io_result o with Ok a => Ok a | Err e => Err (f e) end)
      (io_answers o) (io_disk o).

(** ** Operations *)

Definition exists_file (p : path) (fs : fsys) : bool := bool_decide (is_Some (fs !! p)).

Definition remove_file (p : path) : Io IoError unit :=
  op (fun fs => match fs !! p with
                | Some _ => (Ok tt, delete p fs)
                | None => (Err NotFound, fs)
                end) id.

(** A name already there is refused. *)
Definition hard_link (source destination : path) : Io IoError unit :=
  op (fun fs => match fs !! source, fs !! destination with
                | Some f, None => (Ok tt, <[destination := f]> fs)
                | None, _ => (Err NotFound, fs)
                | Some _, Some _ => (Err Refused, fs)
                end) id.

(** A copy that breaks leaves part of the file. *)
Definition copy (source destination : path) : Io IoError unit :=
  op (fun fs => match fs !! source with
                | Some f => (Ok tt, <[destination := f]> fs)
                | None => (Err NotFound, fs)
                end) (<[destination := Bytes ""]>).

Definition rename (source destination : path) : Io IoError unit :=
  op (fun fs => match fs !! source with
                | Some f => (Ok tt, <[destination := f]> (delete source fs))
                | None => (Err NotFound, fs)
                end) id.

(** [File::open(p)?.sync_all()?]; a directory is there as long as it was made. *)
Definition sync_file (p : path) : Io IoError unit :=
  op (fun fs => (if decide (is_Some (fs !! p)) then Ok tt else Err NotFound, fs)) id.
Definition sync_dir : Io IoError unit := op (fun fs => (Ok tt, fs)) id.
Definition create_dir_all : Io IoError unit := op (fun fs => (Ok tt, fs)) id.

(** [fn sync] *)
Definition sync (p : path) : Io IoError unit := _ ← sync_file p; sync_dir.

Definition link_or_copy (source destination : path) : Io IoError unit :=
  linked ← attempt_io (hard_link source destination);
  match linked with
  | Ok _ => mret tt
  | Err _ => copy source destination
  end.

(** [with_suffix]: after the last component. *)
Fixpoint with_suffix (p : path) (suffix : string) : path :=
  match p with
  | [] => [suffix]
  | [name] => [name +:+ suffix]
  | dir :: p => dir :: with_suffix p suffix
  end.

(** ** Changes *)

Record Retirement := mkRetirement {
  ret_platform : Platform;
  ret_filename : string
}.

Record Addition := mkAddition {
  add_platform : Platform;
  add_staged : path;
  add_entry : PackageEntry
}.

Record Changes := mkChanges {
  ch_add : list Addition;
  ch_retire : list Retirement
}.

Definition changes_add (c : Changes) (platform : Platform) (staged : path) (entry : PackageEntry) :
    Changes :=
  mkChanges (ch_add c ++ [mkAddition platform staged entry]) (ch_retire c).

Definition changes_retire (c : Changes) (platform : Platform) (filename : string) : Changes :=
  mkChanges (ch_add c) (ch_retire c ++ [mkRetirement platform filename]).

Definition changes_platforms (c : Changes) : list Platform :=
  dedup (merge_sort platform_le ((add_platform <$> ch_add c) ++ (ret_platform <$> ch_retire c))).

(** ** The plan *)

Record FileMove := mkMove {
  source : path;
  destination : path
}.

Record Finalization := mkPlan {
  moves : list FileMove;
  retired : list path
}.

#[export] Instance FileMove_eq_dec : EqDecision FileMove.
Proof. solve_decision. Defined.
#[export] Instance Finalization_eq_dec : EqDecision Finalization.
Proof. solve_decision. Defined.

Definition push_move (plan : Finalization) (source destination : path) : Finalization :=
  mkPlan (moves plan ++ [mkMove source destination]) (retired plan).

(** A step of staging: an error comes with what was planned so far. *)
Abbreviation Staging := (Io (IoError * Finalization)).

Definition planned {A} (plan : Finalization) (m : Io IoError A) : Staging A :=
  map_err (fun e => (e, plan)) m.

Definition DB_ARCHIVE : string := "repo.db.tar.gz".
Definition FILES_ARCHIVE : string := "repo.files.tar.gz".
Definition next_name (archive : string) : string := "." +:+ archive +:+ ".next".

Section root.
Context (root : path).

Definition platform_dir (platform : Platform) : path := root ++ [Platform.as_str platform].

Definition stage_file (plan : Finalization) (source destination : path) : Staging Finalization :=
  let pending := with_suffix source ".publishing" in
  there ← look (exists_file pending);
  _ ← planned plan (if there : bool then remove_file pending else mret tt);
  _ ← planned plan (link_or_copy source pending);
  let plan := push_move plan pending destination in
  _ ← planned plan (sync pending);
  mret plan.

(** [rewrite_archive] of files: the output is created before the input is read. *)
Definition rewrite_file (input output : path) (superseded : string -> bool) (fill : list member) :
    Io IoError unit :=
  op (fun fs => match fs !! input with
                | Some (Archive members) =>
                    (Ok tt, <[output := Archive (rewrite_archive members superseded fill)]> fs)
                | None => (Ok tt, <[output := Archive (rewrite_archive [] superseded fill)]> fs)
                | Some (Bytes _) => (Err BadArchive, <[output := Bytes ""]> fs)
                end) (<[output := Bytes ""]>).

Definition write_databases (db files : path) (remove : list string) (add : list PackageEntry)
    (db_out files_out : path) : Io IoError unit :=
  _ ← rewrite_file db db_out (superseded remove add) (add ≫= db_members);
  rewrite_file files files_out (superseded remove add) (add ≫= files_members).

Definition removed_on (c : Changes) (platform : Platform) : list string :=
  ret_filename <$> filter (fun r => ret_platform r = platform) (ch_retire c).
Definition added_on (c : Changes) (platform : Platform) : list PackageEntry :=
  add_entry <$> filter (fun a => add_platform a = platform) (ch_add c).

Definition stage_databases (c : Changes) (plan : Finalization) (platform : Platform) :
    Staging Finalization :=
  let dir := platform_dir platform in
  _ ← planned plan create_dir_all;
  let db := dir ++ [DB_ARCHIVE] in
  let db_next := dir ++ [next_name DB_ARCHIVE] in
  let files := dir ++ [FILES_ARCHIVE] in
  let files_next := dir ++ [next_name FILES_ARCHIVE] in
  let plan := push_move (push_move plan db_next db) files_next files in
  _ ← planned plan (write_databases db files (removed_on c platform) (added_on c platform)
                      db_next files_next);
  _ ← planned plan (sync db_next);
  _ ← planned plan (sync files_next);
  mret plan.

(** [for x in l { plan.step(x)?; }] *)
Fixpoint stage_each {A} (step : Finalization -> A -> Staging Finalization) (plan : Finalization)
    (l : list A) : Staging Finalization :=
  match l with
  | [] => mret plan
  | x :: l => plan ← step plan x; stage_each step plan l
  end.

Definition stage_addition (plan : Finalization) (addition : Addition) : Staging Finalization :=
  let filename := pe_filename (add_entry addition) in
  let dir := platform_dir (add_platform addition) in
  let sig := with_suffix (add_staged addition) ".sig" in
  signed ← look (exists_file sig);
  plan ← stage_file plan (add_staged addition) (dir ++ [filename]);
  if signed : bool then stage_file plan sig (dir ++ [filename +:+ ".sig"]) else mret plan.

Definition retired_paths (c : Changes) : list path :=
  ch_retire c ≫= fun r =>
    if decide ((ret_platform r, ret_filename r) ∈
                 ((fun a => (add_platform a, pe_filename (add_entry a))) <$> ch_add c))
    then []
    else let p := platform_dir (ret_platform r) ++ [ret_filename r] in [with_suffix p ".sig"; p].

Definition stage_all (c : Changes) (plan : Finalization) : Staging Finalization :=
  plan ← stage_each stage_addition plan (ch_add c);
  plan ← stage_each (stage_databases c) plan (changes_platforms c);
  mret (mkPlan (moves plan) (retired plan ++ retired_paths c)).

(** [let _ = remove_file(..)]: what it answers changes nothing. *)
Fixpoint discard_moves {E : Type} (l : list FileMove) : Io E unit :=
  match l with
  | [] => mret tt
  | m :: l => _ ← attempt_io (remove_file (source m)); discard_moves l
  end.

Definition discard {E : Type} (plan : Finalization) : Io E unit := discard_moves (moves plan).

Definition stage (c : Changes) : Io IoError Finalization :=
  r ← attempt_io (stage_all c (mkPlan [] []));
  match r with
  | Ok plan => mret plan
  | Err (e, plan) => _ ← discard plan; throw e
  end.
End root.

(** The loop of [finish]. *)
Fixpoint finish_moves (l : list FileMove) : Io IoError unit :=
  match l with
  | [] => mret tt
  | m :: l =>
      r ← attempt_io (rename (source m) (destination m));
      there ← look (exists_file (source m));
      arrived ← look (exists_file (destination m));
      match r with
      | Ok _ => _ ← sync_dir; finish_moves l
      | Err e =>
          if bool_decide (e = NotFound) && negb there && arrived
          then _ ← sync_dir; finish_moves l
          else if bool_decide (e = NotFound) && negb there
          then _ ← note (RepoFileFailed Move (source m)); finish_moves l
          else _ ← note (RepoFileFailed Move (source m)); throw e
      end
  end.

Definition finish (plan : Finalization) : Io IoError (list path) :=
  _ ← finish_moves (moves plan);
  mret (retired plan).

(** ** What a plan does *)

Definition apply_move (fs : fsys) (m : FileMove) : fsys :=
  match fs !! source m with
  | Some f => <[destination m := f]> (delete (source m) fs)
  | None => fs
  end.

(** The files once [l] is done, whatever of it was done before. *)
Definition apply_moves (l : list FileMove) (fs : fsys) : fsys := foldl apply_move fs l.

Lemma apply_moves_app l k fs : apply_moves (l ++ k) fs = apply_moves k (apply_moves l fs).
Proof. apply foldl_app. Qed.

(** Where no move goes to or comes from, nothing changes. *)
Lemma apply_moves_other l fs p :
  p ∉ (source <$> l) -> p ∉ (destination <$> l) -> apply_moves l fs !! p = fs !! p.
Proof.
  revert fs; induction l as [|m l IH]; intros fs; csimpl; [done|].
  rewrite !not_elem_of_cons. intros [Hs Hs'] [Hd Hd']. cbn [apply_moves foldl].
  fold (apply_moves l (apply_move fs m)). rewrite IH by done. unfold apply_move.
  destruct (fs !! source m); [|done]. by rewrite lookup_insert_ne, lookup_delete_ne by congruence.
Qed.

(** A move is for good: what it came from is not there again. *)
Lemma apply_moves_source_gone l fs p :
  fs !! p = None -> p ∉ (destination <$> l) -> apply_moves l fs !! p = None.
Proof.
  revert fs; induction l as [|m l IH]; intros fs Hp; csimpl; [done|].
  rewrite not_elem_of_cons. intros [Hd Hd']. cbn [apply_moves foldl].
  fold (apply_moves l (apply_move fs m)). apply IH; [|done]. unfold apply_move.
  destruct (fs !! source m); [|done]. rewrite lookup_insert_ne by congruence.
  destruct (decide (source m = p)) as [->|]; [apply lookup_delete_eq|by rewrite lookup_delete_ne].
Qed.

(** No file is ever lost from where it goes. *)
Lemma apply_moves_present l fs p :
  is_Some (fs !! p) -> p ∉ (source <$> l) -> is_Some (apply_moves l fs !! p).
Proof.
  revert fs; induction l as [|m l IH]; intros fs Hp; csimpl; [done|].
  rewrite not_elem_of_cons. intros [Hs Hs']. cbn [apply_moves foldl].
  fold (apply_moves l (apply_move fs m)). apply IH; [|done]. unfold apply_move.
  destruct (fs !! source m); [|done].
  destruct (decide (destination m = p)) as [->|]; [by rewrite lookup_insert_eq|].
  by rewrite lookup_insert_ne, lookup_delete_ne by congruence.
Qed.

(** The paths of a plan: nothing is moved from where something is moved to. *)
Definition plan_ok (l : list FileMove) : Prop :=
  NoDup (source <$> l) /\ forall p, p ∈ (source <$> l) -> p ∉ (destination <$> l).

#[export] Instance plan_ok_dec l : Decision (plan_ok l).
Proof.
  destruct (decide (NoDup (source <$> l) /\
    Forall (fun p => p ∉ (destination <$> l)) (source <$> l))) as [[? H]|H].
  - left. split; [done|]. by rewrite Forall_forall in H.
  - right. intros [? Hp]. apply H. split; [done|]. by apply Forall_forall.
Defined.

(** Doing the first moves again changes nothing. *)
Lemma apply_moves_again l fs :
  (forall p, p ∈ (source <$> l) -> fs !! p = None) -> apply_moves l fs = fs.
Proof.
  induction l as [|m l IH]; intros Hl; [done|]. cbn [apply_moves foldl].
  unfold apply_move at 2. rewrite Hl by (csimpl; left).
  apply IH. intros p Hp. apply Hl. csimpl. by right.
Qed.

Lemma apply_moves_done l fs p :
  plan_ok l -> p ∈ (source <$> l) -> apply_moves l fs !! p = None.
Proof.
  intros [Hnd Hp] Hin. revert fs Hnd Hin. induction l as [|m l IH]; intros fs Hnd Hin; csimpl in *.
  { by apply not_elem_of_nil in Hin. }
  apply NoDup_cons in Hnd as [Hm Hnd]. cbn [apply_moves foldl]. fold (apply_moves l (apply_move fs m)).
  assert (forall q, q ∈ (source <$> l) -> q ∉ (destination <$> l)) as Hl.
  { intros q Hq. specialize (Hp q ltac:(by right)).
    by apply not_elem_of_cons in Hp as [_ ?]. }
  apply elem_of_cons in Hin as [->|Hin]; [|by apply IH].
  specialize (Hp (source m) ltac:(by left)). apply not_elem_of_cons in Hp as [Hd Hp].
  apply apply_moves_source_gone; [|done]. unfold apply_move.
  destruct (fs !! source m) eqn:Hs; [|done]. rewrite lookup_insert_ne by congruence.
  apply lookup_delete_eq.
Qed.

Lemma plan_ok_app l k : plan_ok (l ++ k) -> plan_ok l.
Proof.
  unfold plan_ok. rewrite !fmap_app. intros [Hnd Hp]. apply NoDup_app in Hnd as (Hnd & _ & _).
  split; [done|]. intros p Hin Hd. apply (Hp p); apply elem_of_app; by left.
Qed.

(** Replaying a plan that was begun: as if it were done once. *)
Lemma apply_moves_replay l k fs :
  plan_ok l -> apply_moves l (apply_moves (take k l) fs) = apply_moves l fs.
Proof.
  intros Hl. rewrite <- (take_drop k l) in Hl. rewrite <- (take_drop k l) at 1.
  rewrite apply_moves_app, (apply_moves_again (take k l)).
  - by rewrite <- apply_moves_app, take_drop.
  - intros p Hp. apply apply_moves_done; [by eapply plan_ok_app|done].
Qed.

(** A part of it, replayed: the longer of the two. *)
Lemma apply_moves_replay_part l j k fs :
  plan_ok l -> apply_moves (take j l) (apply_moves (take k l) fs) = apply_moves (take (j `max` k) l) fs.
Proof.
  intros Hl. assert (forall i, plan_ok (take i l)) as Ht.
  { intros i. rewrite <- (take_drop i l) in Hl. by apply plan_ok_app in Hl. }
  destruct (decide (k <= j)) as [Hk|Hk].
  - rewrite Nat.max_l by done. rewrite <- (apply_moves_replay (take j l) k fs) by done.
    by rewrite take_take, Nat.min_l.
  - rewrite Nat.max_r by lia. apply apply_moves_again. intros p Hp.
    apply apply_moves_done; [done|]. apply list_elem_of_fmap in Hp as (m & -> & Hm).
    apply list_elem_of_fmap_2. apply (subseteq_take j (take k l)).
    by rewrite take_take, Nat.min_l by lia.
Qed.

(** ** Sessions as triples *)

(** Whatever is answered or refused: where [m] ends well, [Q]; where it ends in
    an error, [R]. *)
Definition io_triple {E A : Type} (P : disk -> Prop) (m : Io E A) (Q : A -> disk -> Prop)
    (R : E -> disk -> Prop) : Prop :=
  forall answers d, P d ->
    match io_result (m answers d) with
    | Ok a => Q a (io_disk (m answers d))
    | Err e => R e (io_disk (m answers d))
    end.

Section io_rules.
Context {E A B : Type}.
Implicit Types (P : disk -> Prop) (R : E -> disk -> Prop).

Lemma io_triple_ret P (a : A) (Q : A -> disk -> Prop) R :
  (forall d, P d -> Q a d) -> io_triple P (mret a) Q R.
Proof. intros H answers d Hd. by apply H. Qed.

Lemma io_triple_bind P (m : Io E A) (f : A -> Io E B) Q S R :
  io_triple P m Q R -> (forall a, io_triple (Q a) (f a) S R) -> io_triple P (mbind f m) S R.
Proof.
  intros Hm Hf answers d Hd. specialize (Hm answers d Hd).
  unfold mbind, io_mbind, io_bind. destruct (io_result (m answers d)) as [a|e]; simpl; [|done].
  by apply Hf.
Qed.

Lemma io_triple_look P (q : fsys -> A) (Q : A -> disk -> Prop) R :
  (forall d, P d -> Q (q (d_files d)) d) -> io_triple P (look q) Q R.
Proof. intros H answers d Hd. by apply H. Qed.

Lemma io_triple_throw P (e : E) (Q : A -> disk -> Prop) R :
  (forall d, P d -> R e d) -> io_triple P (throw e) Q R.
Proof. intros H answers d Hd. by apply H. Qed.

Lemma io_triple_note P (e : RepoEvent) (Q : unit -> disk -> Prop) R :
  (forall d, P d -> Q tt (Disk (d_files d) (d_log d ++ [e]))) -> io_triple P (note e) Q R.
Proof. intros H answers d Hd. by apply H. Qed.

Lemma io_triple_conseq P P' (m : Io E A) (Q Q' : A -> disk -> Prop) R R' :
  io_triple P' m Q' R' -> (forall d, P d -> P' d) -> (forall a d, Q' a d -> Q a d) ->
  (forall e d, R' e d -> R e d) -> io_triple P m Q R.
Proof.
  intros Hm HP HQ HR answers d Hd. specialize (Hm answers d (HP d Hd)).
  destruct (io_result (m answers d)); auto.
Qed.

Lemma io_triple_attempt {F : Type} P (m : Io E A) (Q : result E A -> disk -> Prop)
    (R : F -> disk -> Prop) :
  io_triple P m (fun a d => Q (Ok a) d) (fun e d => Q (Err e) d) ->
  io_triple P (attempt_io m) Q R.
Proof.
  intros Hm answers d Hd. specialize (Hm answers d Hd). unfold attempt_io. simpl.
  by destruct (io_result (m answers d)).
Qed.

Lemma io_triple_map_err {F : Type} P (f : E -> F) (m : Io E A) Q (R : F -> disk -> Prop) :
  io_triple P m Q (fun e d => R (f e) d) -> io_triple P (map_err f m) Q R.
Proof.
  intros Hm answers d Hd. specialize (Hm answers d Hd). unfold map_err. simpl.
  by destruct (io_result (m answers d)).
Qed.
End io_rules.

Lemma io_triple_op {A} (P : disk -> Prop) (f : fsys -> result IoError A * fsys) torn
    (Q : A -> disk -> Prop) (R : IoError -> disk -> Prop) :
  (forall d a fs, P d -> f (d_files d) = (Ok a, fs) -> Q a (Disk fs (d_log d))) ->
  (forall d e fs, P d -> f (d_files d) = (Err e, fs) -> R e (Disk fs (d_log d))) ->
  (forall d, P d -> R Refused (Disk (torn (d_files d)) (d_log d))) ->
  io_triple P (op f torn) Q R.
Proof.
  intros HQ HR HT answers d Hd. unfold op. destruct answers as [|[] answers]; simpl;
    try (destruct (f (d_files d)) as [[a|e] fs] eqn:Hf; simpl; eauto); auto.
Qed.

(** Files as they were. *)
Abbreviation same fs := (fun d : disk => d_files d = fs).

Lemma sync_dir_spec fs : io_triple (same fs) sync_dir (fun _ => same fs) (fun _ => same fs).
Proof. apply io_triple_op; [..|done]; intros d a fs' Hd [= <- <-]; done. Qed.

Lemma rename_spec fs source destination :
  io_triple (same fs) (rename source destination)
    (fun _ d => d_files d = apply_move fs (mkMove source destination))
    (fun e d => d_files d = fs /\ (e = NotFound -> fs !! source = None)).
Proof.
  apply io_triple_op; intros d; [intros a fs' -> |intros e fs' -> |intros ->].
  - unfold apply_move. simpl. destruct (fs !! source) eqn:Hs; [|done].
    by intros [= <-].
  - destruct (fs !! source) eqn:Hs; [done|]. by intros [= <- <-].
  - done.
Qed.

(** Wherever [finish] stops, the files are as some first part of its moves leaves
    them; where it ends, as all of them do. *)
Lemma finish_moves_spec l fs :
  io_triple (same fs) (finish_moves l)
    (fun _ d => d_files d = apply_moves l fs)
    (fun _ d => exists k, d_files d = apply_moves (take k l) fs).
Proof.
  revert fs; induction l as [|m l IH]; intros fs; cbn [finish_moves].
  { by apply io_triple_ret. }
  apply (io_triple_bind _ _ _ (fun r d => match r with
    | Ok _ => d_files d = apply_move fs m
    | Err e => d_files d = fs /\ (e = NotFound -> fs !! source m = None)
    end)).
  { apply io_triple_attempt. destruct m as [s t]. apply rename_spec. }
  assert (io_triple (same (apply_move fs m)) (_ ← sync_dir; finish_moves l)
    (fun _ d => d_files d = apply_moves (m :: l) fs)
    (fun _ d => exists k, d_files d = apply_moves (take k (m :: l)) fs)) as Hgo.
  { apply (io_triple_bind _ _ _ (fun _ => same (apply_move fs m))).
    - eapply io_triple_conseq; [apply (sync_dir_spec (apply_move fs m))|done..|].
      intros e d Hd. by exists 1.
    - intros _. eapply io_triple_conseq; [apply (IH (apply_move fs m))|done..|].
      intros e d [k Hk]. by exists (S k). }
  intros [[]|e].
  - apply (io_triple_bind _ _ _ (fun _ => same (apply_move fs m))); [by apply io_triple_look|].
    intros there. apply (io_triple_bind _ _ _ (fun _ => same (apply_move fs m)));
      [by apply io_triple_look|]. intros arrived. exact Hgo.
  - apply (io_triple_bind _ _ _ (fun _ d => d_files d = fs /\ (e = NotFound -> fs !! source m = None)));
      [by apply io_triple_look|]. intros there.
    apply (io_triple_bind _ _ _ (fun _ d => d_files d = fs /\ (e = NotFound -> fs !! source m = None)));
      [by apply io_triple_look|]. intros arrived.
    assert (e = NotFound -> fs !! source m = None -> apply_move fs m = fs) as Hid
      by (intros _ Hs; unfold apply_move; by rewrite Hs).
    destruct (bool_decide (e = NotFound) && negb there && arrived) eqn:Ha;
      [|destruct (bool_decide (e = NotFound) && negb there) eqn:Hb].
    + rewrite !andb_true_iff, bool_decide_eq_true in Ha. destruct Ha as [[He _] _].
      eapply io_triple_conseq; [exact Hgo| |done..]. intros d [-> Hs]. by rewrite Hid by auto.
    + rewrite andb_true_iff, bool_decide_eq_true in Hb. destruct Hb as [He _].
      apply (io_triple_bind _ _ _ (fun _ => same (apply_move fs m))).
      * apply io_triple_note. intros d [Hd Hs]. simpl. by rewrite Hid by auto.
      * intros _. eapply io_triple_conseq; [apply (IH (apply_move fs m))|done..|].
        intros e' d [k Hk]. by exists (S k).
    + apply (io_triple_bind _ _ _ (fun _ => same fs)).
      * apply io_triple_note. by intros d [Hd _].
      * intros _. apply io_triple_throw. intros d Hd. by exists 0.
Qed.

Lemma finish_spec plan fs :
  io_triple (same fs) (finish plan)
    (fun r d => r = retired plan /\ d_files d = apply_moves (moves plan) fs)
    (fun _ d => exists k, d_files d = apply_moves (take k (moves plan)) fs).
Proof.
  unfold finish. apply (io_triple_bind _ _ _ (fun _ d => d_files d = apply_moves (moves plan) fs));
    [apply finish_moves_spec|]. intros _. by apply io_triple_ret.
Qed.
