(* ===== verification/RepoStage.v ===== *)
(** * What staging makes of an update

    [Finalization::stage] of [repository.rs], wherever it is refused: everything it
    writes is private -- nothing the file server serves changes -- and a plan it
    hands out is complete: each of its moves has its file ready, the packages come
    before the databases, and each platform's new database lists what the update
    says. [discard] leaves nothing public behind either. *)
From S2P Require Import Prelude Text Schema Lists PkgFile PkgDb RepoFiles.
#[local] Open Scope string_scope.
#[local] Open Scope list_scope.

(** ** Private paths *)

(** What staging writes: a replacement beside what it replaces. *)
Definition private_name (name : string) : bool :=
  ends_with ".publishing" name || starts_with "." name.
Definition private (p : path) : Prop := is_some_and private_name (last p) = true.
#[export] Instance private_dec p : Decision (private p).
Proof. unfold private. apply _. Defined.

Lemma with_suffix_snoc dir name suffix : with_suffix (dir ++ [name]) suffix = dir ++ [name +:+ suffix].
Proof.
  induction dir as [|x dir IH]; [done|]. simpl. rewrite IH. by destruct dir.
Qed.

Lemma private_snoc dir name : private (dir ++ [name]) <-> private_name name = true.
Proof. unfold private. by rewrite last_snoc. Qed.

Lemma ends_with_app s t : ends_with s (t +:+ s) = true.
Proof. unfold ends_with. by rewrite strip_suffix_app. Qed.

Lemma append_inj_l a b s : a +:+ s = b +:+ s -> a = b.
Proof. intros Heq. apply (f_equal (strip_suffix s)) in Heq. rewrite !strip_suffix_app in Heq. congruence. Qed.

Lemma private_publishing dir name : private (dir ++ [name +:+ ".publishing"]).
Proof. apply private_snoc. unfold private_name. by rewrite ends_with_app. Qed.

Lemma private_next dir archive : private (dir ++ [next_name archive]).
Proof. apply private_snoc. unfold private_name. by rewrite orb_true_r. Qed.

(** A file name an update may add: a package file's, and not a signature's. *)
Definition publishable (filename : string) : Prop :=
  is_package_file filename = true /\ ends_with ".sig" filename = false /\
  ends_with ".publishing" filename = false.
#[export] Instance publishable_dec filename : Decision (publishable filename).
Proof. unfold publishable. apply _. Defined.

Lemma publishable_dotless filename : publishable filename -> starts_with "." filename = false.
Proof.
  intros [Hf _]. unfold is_package_file in Hf. apply andb_true_iff in Hf as [Hf _].
  by apply negb_true_iff in Hf.
Qed.

Lemma publishable_public filename dir : publishable filename -> ~ private (dir ++ [filename]).
Proof.
  intros Hf. rewrite private_snoc. unfold private_name.
  rewrite (publishable_dotless _ Hf). destruct Hf as (_ & _ & ->). done.
Qed.

Lemma starts_with_dot_app s t : s <> "" -> starts_with "." (s +:+ t) = starts_with "." s.
Proof.
  destruct s as [|c s]; [done|]. intros _. unfold starts_with.
  change (String c s +:+ t) with (String c (s +:+ t)). cbn [strip_prefix]. by case_decide.
Qed.

Lemma publishable_ne filename : publishable filename -> filename <> "".
Proof. by intros [Hf _] ->. Qed.

Lemma signature_public filename dir : publishable filename -> ~ private (dir ++ [filename +:+ ".sig"]).
Proof.
  intros Hf. rewrite private_snoc. unfold private_name.
  rewrite starts_with_dot_app, (publishable_dotless _ Hf) by by apply publishable_ne.
  rewrite orb_false_r. unfold ends_with.
  destruct (strip_suffix ".publishing" (filename +:+ ".sig")) as [r|] eqn:Hr; [|done].
  apply strip_suffix_spec in Hr.
  assert ((filename +:+ ".si") +:+ "g" = (r +:+ ".publishin") +:+ "g") as H1
    by (rewrite !append_assoc; exact Hr).
  apply append_inj_l in H1.
  assert ((filename +:+ ".s") +:+ "i" = (r +:+ ".publishi") +:+ "n") as H2
    by (rewrite !append_assoc; exact H1).
  by apply append_last_inj in H2.
Qed.

Lemma db_public dir : ~ private (dir ++ [DB_ARCHIVE]).
Proof. by rewrite private_snoc. Qed.
Lemma files_public dir : ~ private (dir ++ [FILES_ARCHIVE]).
Proof. by rewrite private_snoc. Qed.

(** A package file is not a database. *)
Lemma publishable_not_db filename :
  publishable filename -> filename <> DB_ARCHIVE /\ filename +:+ ".sig" <> DB_ARCHIVE.
Proof.
  intros [Hf _]. split.
  - by intros ->.
  - intros Heq.
    assert ((filename +:+ ".si") +:+ "g" = "repo.db.tar.g" +:+ "z") as H
      by (rewrite append_assoc; exact Heq).
    by apply append_last_inj in H.
Qed.

(** ** Staged plans *)

Section root.
Context (root : path).

Definition db_path (platform : Platform) : path := platform_dir root platform ++ [DB_ARCHIVE].
Definition db_next (platform : Platform) : path :=
  platform_dir root platform ++ [next_name DB_ARCHIVE].
Definition file_path (platform : Platform) (filename : string) : path :=
  platform_dir root platform ++ [filename].

Definition members_at (fs : fsys) (p : path) : list member :=
  match fs !! p with Some (Archive members) => members | _ => [] end.

(** A platform's database after the update. *)
Definition new_db (c : Changes) (fs : fsys) (platform : Platform) : list member :=
  (write_updated_databases (members_at fs (db_path platform)) []
     (removed_on c platform) (added_on c platform)).1.

(** Public files as they were. *)
Definition unseen (fs fs' : fsys) : Prop := forall p, ~ private p -> fs' !! p = fs !! p.

Record plan_private (plan : Finalization) : Prop := {
  pp_sources : Forall (fun m => private (source m)) (moves plan);
  pp_destinations : Forall (fun m => ~ private (destination m)) (moves plan)
}.

(** The plan so far, of an update [c] of the files [fs0]. *)
Record staged_ok (c : Changes) (fs0 : fsys) (plan : Finalization) (fs : fsys) : Prop := {
  st_unseen : unseen fs0 fs;
  st_private : plan_private plan;
  st_nodup : NoDup (source <$> moves plan);
  st_ready : Forall (fun m => is_Some (fs !! source m)) (moves plan);
  st_dbs : Forall (fun m => forall platform, destination m = db_path platform ->
    fs !! source m = Some (Archive (new_db c fs0 platform))) (moves plan)
}.

(** What an error leaves: whatever was planned, nothing public changed. *)
Definition left_over (fs0 : fsys) (e : IoError * Finalization) (d : disk) : Prop :=
  unseen fs0 (d_files d) /\ plan_private e.2.

Definition agree_off (q : path) (fs fs' : fsys) : Prop := forall p, p <> q -> fs' !! p = fs !! p.

Lemma agree_insert q f fs : agree_off q fs (<[q := f]> fs).
Proof. intros p Hp. by rewrite lookup_insert_ne. Qed.
Lemma agree_delete q fs : agree_off q fs (delete q fs).
Proof. intros p Hp. by rewrite lookup_delete_ne. Qed.
Lemma agree_refl q fs : agree_off q fs fs.
Proof. done. Qed.

Lemma unseen_agree q fs0 fs fs' : private q -> agree_off q fs fs' -> unseen fs0 fs -> unseen fs0 fs'.
Proof. intros Hq Ha Hu p Hp. rewrite Ha; [by apply Hu|]. by intros ->. Qed.

Lemma staged_ok_agree c fs0 plan fs fs' q :
  private q -> q ∉ (source <$> moves plan) -> agree_off q fs fs' ->
  staged_ok c fs0 plan fs -> staged_ok c fs0 plan fs'.
Proof.
  intros Hq Hin Ha [Hu Hp Hn Hr Hd]. rewrite list_elem_of_fmap in Hin.
  assert (forall m, m ∈ moves plan -> fs' !! source m = fs !! source m) as Hs.
  { intros m Hm. apply Ha. intros Heq. apply Hin. by exists m. }
  split; [by eapply unseen_agree|done|done| |].
  - rewrite Forall_forall in *. intros m Hm. rewrite Hs by done. by apply Hr.
  - rewrite Forall_forall in *. intros m Hm platform Hdst. rewrite Hs by done. by apply Hd.
Qed.

Lemma staged_ok_push c fs0 plan fs q dest :
  private q -> q ∉ (source <$> moves plan) -> ~ private dest -> is_Some (fs !! q) ->
  (forall platform, dest = db_path platform ->
     fs !! q = Some (Archive (new_db c fs0 platform))) ->
  staged_ok c fs0 plan fs -> staged_ok c fs0 (push_move plan q dest) fs.
Proof.
  intros Hq Hin Hdest Hsome Hdb [Hu [Hps Hpd] Hn Hr Hd]. unfold push_move.
  split; [done|split|..]; cbn [moves]; rewrite ?fmap_app, ?Forall_app, ?Forall_singleton; try done.
  apply NoDup_app. split_and!; [done| |apply NoDup_singleton].
  intros p Hp Heq%list_elem_of_singleton. by subst.
Qed.

Lemma plan_private_push plan q dest :
  plan_private plan -> private q -> ~ private dest -> plan_private (push_move plan q dest).
Proof.
  intros [Hs Hd] Hq Hdest. split; cbn [moves push_move]; rewrite Forall_app, Forall_singleton; done.
Qed.

(** An operation that writes one private path. *)
Lemma op_private {A} (f : fsys -> result IoError A * fsys) torn (P : disk -> Prop) q
    (Q : A -> disk -> Prop) fs0 :
  private q -> (forall d, P d -> unseen fs0 (d_files d)) ->
  (forall fs, agree_off q fs (f fs).2) -> (forall fs, agree_off q fs (torn fs)) ->
  (forall d a fs, P d -> f (d_files d) = (Ok a, fs) -> agree_off q (d_files d) fs ->
     Q a (Disk fs (d_log d))) ->
  io_triple P (op f torn) Q (fun _ d => unseen fs0 (d_files d)).
Proof.
  intros Hq HP Hf Ht HQ. apply io_triple_op.
  - intros d a fs Hd Hfd. eapply HQ; [done..|]. pose proof (Hf (d_files d)) as Ha.
    by rewrite Hfd in Ha.
  - intros d e fs Hd Hfd. simpl. pose proof (Hf (d_files d)) as Ha.
    rewrite Hfd in Ha. eapply unseen_agree; [exact Hq|exact Ha|by apply HP].
  - intros d Hd. simpl. eapply unseen_agree; [exact Hq|apply Ht|by apply HP].
Qed.

Lemma planned_spec {A} plan (m : Io IoError A) P (Q : A -> disk -> Prop) fs0 :
  plan_private plan -> io_triple P m Q (fun _ d => unseen fs0 (d_files d)) ->
  io_triple P (planned plan m) Q (left_over fs0).
Proof.
  intros Hp Hm. apply io_triple_map_err. eapply io_triple_conseq; [exact Hm|done..|].
  by intros e d Hd.
Qed.

Section stage_file.
Context (c : Changes) (fs0 : fsys) (plan : Finalization) (q : path).
Hypothesis (Hq : private q) (Hfresh : q ∉ (source <$> moves plan)).

Abbreviation ok := (fun d : disk => staged_ok c fs0 plan (d_files d)).
Abbreviation ready := (fun d : disk => staged_ok c fs0 plan (d_files d) /\ is_Some (d_files d !! q)).

Lemma ok_unseen d : ok d -> unseen fs0 (d_files d).
Proof. by intros [? _ _ _ _]. Qed.

Lemma ok_agree fs fs' log :
  staged_ok c fs0 plan fs -> agree_off q fs fs' -> ok (Disk fs' log).
Proof. intros Hok Ha. simpl. by eapply staged_ok_agree. Qed.

Lemma remove_file_spec :
  io_triple ok (remove_file q) (fun _ => ok) (fun _ d => unseen fs0 (d_files d)).
Proof.
  apply (op_private _ _ _ q); [done|apply ok_unseen| | |].
  - intros fs. destruct (fs !! q); [apply agree_delete|apply agree_refl].
  - intros fs. apply agree_refl.
  - intros d a fs Hd _ Ha. by eapply ok_agree.
Qed.

Lemma copy_spec s : io_triple ok (copy s q) (fun _ => ready) (fun _ d => unseen fs0 (d_files d)).
Proof.
  apply (op_private _ _ _ q); [done|apply ok_unseen| | |].
  - intros fs. destruct (fs !! s); [apply agree_insert|apply agree_refl].
  - intros fs. apply agree_insert.
  - intros d a fs Hd Hf Ha. split; [by eapply ok_agree|]. simpl.
    simpl in Hf. destruct (d_files d !! s); simplify_eq. by rewrite (lookup_insert_eq (d_files d)).
Qed.

Lemma hard_link_spec s : io_triple ok (hard_link s q) (fun _ => ready) (fun _ => ok).
Proof.
  apply io_triple_op.
  - intros d a fs Hd Hf. simpl in Hf. destruct (d_files d !! s), (d_files d !! q); simplify_eq.
    split; [|simpl; by rewrite (lookup_insert_eq (d_files d))]. eapply ok_agree; [exact Hd|apply agree_insert].
  - intros d e fs Hd Hf. simpl in Hf. destruct (d_files d !! s), (d_files d !! q); simplify_eq; done.
  - done.
Qed.

Lemma link_or_copy_spec s :
  io_triple ok (link_or_copy s q) (fun _ => ready) (fun _ d => unseen fs0 (d_files d)).
Proof.
  unfold link_or_copy. apply (io_triple_bind _ _ _ (fun r => match r with Ok _ => ready | Err _ => ok end)).
  - apply io_triple_attempt. apply hard_link_spec.
  - intros [[]|e]; [by apply io_triple_ret|apply copy_spec].
Qed.

(** Flushing changes no file. *)
Lemma sync_spec (P : disk -> Prop) p :
  (forall d log, P d -> P (Disk (d_files d) log)) -> (forall d, P d -> unseen fs0 (d_files d)) ->
  io_triple P (sync p) (fun _ => P) (fun _ d => unseen fs0 (d_files d)).
Proof.
  intros HP Hu. unfold sync. apply (io_triple_bind _ _ _ (fun _ => P)).
  - apply io_triple_op; intros d; [intros a fs Hd [= _ <-]|intros e fs Hd [= _ <-]|intros Hd];
      simpl; auto.
  - intros _. apply io_triple_op; intros d; [intros a fs Hd [= _ <-]|intros e fs Hd [= ]|intros Hd];
      simpl; auto.
Qed.
End stage_file.

Lemma stage_file_spec c fs0 plan dir name dest :
  dir ++ [name +:+ ".publishing"] ∉ (source <$> moves plan) ->
  ~ private dest -> (forall platform, dest <> db_path platform) ->
  io_triple (fun d => staged_ok c fs0 plan (d_files d)) (stage_file plan (dir ++ [name]) dest)
    (fun plan' d => plan' = push_move plan (dir ++ [name +:+ ".publishing"]) dest /\
                    staged_ok c fs0 plan' (d_files d))
    (left_over fs0).
Proof.
  intros Hfresh Hdest Hdb. unfold stage_file. rewrite with_suffix_snoc.
  pose proof (private_publishing dir name) as Hq. set (q := dir ++ [name +:+ ".publishing"]) in *.
  set (ok := fun d => staged_ok c fs0 plan (d_files d)).
  set (ok' := fun d => staged_ok c fs0 (push_move plan q dest) (d_files d)).
  intros answers d Hd. assert (plan_private plan) as Hplan by apply Hd. revert answers d Hd.
  change (io_triple ok (mbind (M := Io (IoError * Finalization)) (fun there : bool =>
    _ ← planned plan (if there then remove_file q else mret tt);
    _ ← planned plan (link_or_copy (dir ++ [name]) q);
    _ ← planned (push_move plan q dest) (sync q);
    mret (push_move plan q dest)) (look (exists_file q)))
    (fun plan' d => plan' = push_move plan q dest /\ staged_ok c fs0 plan' (d_files d))
    (left_over fs0)).
  apply (io_triple_bind _ _ _ (fun _ => ok)); [by apply io_triple_look|]. intros there.
  apply (io_triple_bind _ _ _ (fun _ => ok)).
  { apply planned_spec; [done|]. destruct there; [by apply remove_file_spec|by apply io_triple_ret]. }
  intros _. apply (io_triple_bind _ _ _ (fun _ => ok')).
  { apply planned_spec; [done|].
    eapply io_triple_conseq; [by apply (link_or_copy_spec c fs0 plan q)|done| |done].
    intros _ d [Hok Hsome]. apply staged_ok_push; [done..| |done].
    intros platform Heq. by destruct (Hdb platform). }
  intros _. apply (io_triple_bind _ _ _ (fun _ => ok')).
  { apply planned_spec; [by apply plan_private_push|]. apply sync_spec; [done|].
    intros d [Hu _ _ _ _]. exact Hu. }
  intros _. apply io_triple_ret. by intros d Hd.
Qed.

(** ** Additions *)

(** An addition publishing makes: the staged file is named as its entry is. *)
Record addition_ok (a : Addition) : Prop := {
  ao_staged : exists dir, add_staged a = dir ++ [pe_filename (add_entry a)];
  ao_name : publishable (pe_filename (add_entry a));
  ao_entry : entry_ok (add_entry a)
}.

Record changes_ok (c : Changes) : Prop := {
  co_additions : Forall addition_ok (ch_add c);
  co_staged : NoDup (add_staged <$> ch_add c)
}.

(** Where an addition is moved from: the staged file's second name, and its
    signature's. *)
Definition add_sources (a : Addition) : list path :=
  [with_suffix (add_staged a) ".publishing"; with_suffix (with_suffix (add_staged a) ".sig") ".publishing"].

Lemma pending_ne_sig a b dir dir' :
  publishable (pe_filename (add_entry a)) ->
  dir ++ [pe_filename (add_entry a) +:+ ".publishing"] <>
  dir' ++ [(pe_filename (add_entry b) +:+ ".sig") +:+ ".publishing"].
Proof.
  intros (_ & Hs & _) [_ Heq]%app_inj_2; [|done]. injection Heq as Heq.
  apply append_inj_l in Heq. rewrite Heq, ends_with_app in Hs. done.
Qed.

Lemma add_sources_disjoint a b p :
  addition_ok a -> addition_ok b -> add_staged a <> add_staged b ->
  p ∈ add_sources a -> p ∉ add_sources b.
Proof.
  intros [[dir Ha] Hna _] [[dir' Hb] Hnb _] Hne. unfold add_sources.
  rewrite Ha, Hb in *. rewrite !with_suffix_snoc.
  rewrite !elem_of_cons, !elem_of_nil. intros [-> |[-> |[]]] [Heq|[Heq|[]]].
  - apply app_inj_2 in Heq as [-> Heq]; [|done]. injection Heq as Heq.
    apply append_inj_l in Heq. congruence.
  - by apply pending_ne_sig in Heq.
  - symmetry in Heq. by apply pending_ne_sig in Heq.
  - apply app_inj_2 in Heq as [-> Heq]; [|done]. injection Heq as Heq.
    apply append_inj_l, append_inj_l in Heq. congruence.
Qed.

(** The plan while additions are staged: moved from [srcs] only, to no database,
    and to each of [dests]. *)
Record added (c : Changes) (fs0 : fsys) (srcs dests : list path) (plan : Finalization) (d : disk) :
    Prop := {
  ad_staged : staged_ok c fs0 plan (d_files d);
  ad_sources : forall m, m ∈ moves plan -> source m ∈ srcs;
  ad_no_db : forall m platform, m ∈ moves plan -> destination m <> db_path platform;
  ad_moved : forall p, p ∈ dests -> p ∈ (destination <$> moves plan)
}.

Lemma added_weaken c fs0 srcs srcs' dests dests' plan d :
  srcs ⊆ srcs' -> dests' ⊆ dests -> added c fs0 srcs dests plan d -> added c fs0 srcs' dests' plan d.
Proof. intros Hs Hd [Hok Hsrc Hdb Hm]. split; auto. Qed.

Lemma stage_file_added c fs0 srcs dests plan dir name dest :
  dir ++ [name +:+ ".publishing"] ∉ srcs ->
  ~ private dest -> (forall platform, dest <> db_path platform) ->
  io_triple (added c fs0 srcs dests plan) (stage_file plan (dir ++ [name]) dest)
    (fun plan' => added c fs0 (srcs ++ [dir ++ [name +:+ ".publishing"]]) (dests ++ [dest]) plan')
    (left_over fs0).
Proof.
  intros Hq Hdest Hdb answers d [Hok Hsrc Hno Hm].
  assert (dir ++ [name +:+ ".publishing"] ∉ (source <$> moves plan)) as Hfresh.
  { intros (m & Heq & Hin)%list_elem_of_fmap. apply Hq. rewrite Heq. by apply Hsrc. }
  pose proof (stage_file_spec c fs0 plan dir name dest Hfresh Hdest Hdb answers d Hok) as Hs.
  destruct (io_result _) as [plan'|e]; [|exact Hs]. destruct Hs as [-> Hok']. split; [done|..].
  - intros m. cbn [moves push_move]. rewrite !elem_of_app.
    intros [Hin| ->%list_elem_of_singleton]; [left; auto|right; left].
  - intros m platform. cbn [moves push_move]. rewrite elem_of_app.
    intros [Hin| ->%list_elem_of_singleton]; [auto|apply Hdb].
  - intros p. cbn [moves push_move]. rewrite fmap_app, !elem_of_app.
    intros [Hin| ->%list_elem_of_singleton]; [left; auto|right; left].
Qed.

(** The additions [done]: where they are moved from and where they end up. *)
Definition sources_of (done : list Addition) : list path := done ≫= add_sources.
Definition dest_of (a : Addition) : path := file_path (add_platform a) (pe_filename (add_entry a)).

Lemma file_path_not_db platform platform' name :
  name <> DB_ARCHIVE -> file_path platform name <> db_path platform'.
Proof. intros Hn [_ Heq]%app_inj_2; [|done]. by injection Heq. Qed.

Lemma sources_of_new done a p :
  addition_ok a -> Forall addition_ok done -> add_staged a ∉ (add_staged <$> done) ->
  p ∈ add_sources a -> p ∉ sources_of done.
Proof.
  intros Ha Hdone Hfresh Hp (b & Hb & Hin)%list_elem_of_bind. rewrite Forall_forall in Hdone.
  apply (add_sources_disjoint a b p) in Hp; auto. intros Heq. apply Hfresh. rewrite Heq.
  by apply list_elem_of_fmap_2.
Qed.

Lemma stage_addition_spec c fs0 done a plan :
  addition_ok a -> Forall addition_ok done -> add_staged a ∉ (add_staged <$> done) ->
  io_triple (added c fs0 (sources_of done) (dest_of <$> done) plan) (stage_addition root plan a)
    (fun plan' => added c fs0 (sources_of (done ++ [a])) (dest_of <$> (done ++ [a])) plan')
    (left_over fs0).
Proof.
  intros Ha Hdone Hfresh. pose proof Ha as [[dir Hdir] Hname _].
  pose proof (sources_of_new done a) as Hnew. unfold stage_addition, add_sources in *.
  set (fn := pe_filename (add_entry a)) in *. rewrite Hdir, !with_suffix_snoc in *.
  destruct (publishable_not_db fn Hname) as [Hdb1 Hdb2].
  assert (sources_of done ++ [dir ++ [fn +:+ ".publishing"]] ++ [dir ++ [(fn +:+ ".sig") +:+ ".publishing"]]
    = sources_of (done ++ [a])) as Hsrc.
  { unfold sources_of. rewrite bind_app. f_equal. unfold mbind, list_bind, add_sources.
    by rewrite Hdir, !with_suffix_snoc, app_nil_r. }
  assert (dest_of <$> (done ++ [a]) = (dest_of <$> done) ++ [file_path (add_platform a) fn]) as Hdst
    by (by rewrite fmap_app).
  rewrite <- Hsrc, Hdst.
  apply (io_triple_bind _ _ _ (fun _ => added c fs0 (sources_of done) (dest_of <$> done) plan));
    [by apply io_triple_look|]. intros signed.
  eapply io_triple_bind.
  { apply stage_file_added.
    - apply Hnew; [done..|left].
    - by apply publishable_public.
    - intros platform. by apply file_path_not_db. }
  intros plan1. rewrite app_assoc. destruct signed.
  - eapply io_triple_conseq; [apply stage_file_added|done| |done].
    + rewrite elem_of_app. intros [Hin|Heq%list_elem_of_singleton].
      * revert Hin. apply Hnew; [done..|right; left].
      * symmetry in Heq. by apply (pending_ne_sig a a) in Heq.
    + by apply signature_public.
    + intros platform. by apply file_path_not_db.
    + intros plan2 d. apply added_weaken; [done|]. intros p Hp. apply elem_of_app. by left.
  - apply io_triple_ret. intros d. apply added_weaken; [|done]. intros p Hp. apply elem_of_app.
    by left.
Qed.

Lemma stage_each_from {A} (step : Finalization -> A -> Staging Finalization)
    (I : list A -> Finalization -> disk -> Prop) R (before l : list A) plan :
  (forall done x todo plan, before ++ l = done ++ x :: todo ->
     io_triple (I done plan) (step plan x) (fun plan' => I (done ++ [x]) plan') R) ->
  io_triple (I before plan) (stage_each step plan l) (fun plan' => I (before ++ l) plan') R.
Proof.
  revert before plan. induction l as [|x l IH]; intros before plan Hstep; cbn [stage_each].
  - apply io_triple_ret. intros d. by rewrite app_nil_r.
  - eapply io_triple_bind; [by eapply Hstep|]. intros plan'.
    rewrite (cons_middle x before l), app_assoc in *. by apply IH.
Qed.

Lemma stage_each_spec {A} (step : Finalization -> A -> Staging Finalization)
    (I : list A -> Finalization -> disk -> Prop) R (l : list A) plan :
  (forall done x todo plan, l = done ++ x :: todo ->
     io_triple (I done plan) (step plan x) (fun plan' => I (done ++ [x]) plan') R) ->
  io_triple (I [] plan) (stage_each step plan l) (fun plan' => I l plan') R.
Proof. apply (stage_each_from step I R []). Qed.

(** ** Databases *)

Definition files_archive (platform : Platform) : path :=
  platform_dir root platform ++ [FILES_ARCHIVE].
Definition files_next (platform : Platform) : path :=
  platform_dir root platform ++ [next_name FILES_ARCHIVE].

Lemma platform_path_inj p q name name' :
  platform_dir root p ++ [name] = platform_dir root q ++ [name'] -> p = q /\ name = name'.
Proof.
  intros [Hp Hn]%app_inj_2; [|done]. apply app_inj_2 in Hp as [_ Hp]; [|done].
  injection Hp as Hp. injection Hn as ->. by apply Platform.as_str_inj in Hp.
Qed.

(** The plan once the databases of [done] are staged too. *)
Record complete (c : Changes) (fs0 : fsys) (done : list Platform) (plan : Finalization) (d : disk) :
    Prop := {
  cp_staged : staged_ok c fs0 plan (d_files d);
  cp_shape : exists packages databases, moves plan = packages ++ databases /\
    (forall m, m ∈ packages -> source m ∈ sources_of (ch_add c)) /\
    (forall m platform, m ∈ packages -> destination m <> db_path platform) /\
    (forall a, a ∈ ch_add c -> dest_of a ∈ (destination <$> packages)) /\
    databases = done ≫= (fun platform =>
      [mkMove (db_next platform) (db_path platform);
       mkMove (files_next platform) (files_archive platform)])
}.

Lemma added_complete c fs0 plan d :
  added c fs0 (sources_of (ch_add c)) (dest_of <$> ch_add c) plan d -> complete c fs0 [] plan d.
Proof.
  intros [Hok Hsrc Hno Hm]. split; [done|]. exists (moves plan), [].
  rewrite app_nil_r. split_and!; [done..| |done].
  intros a Ha. apply Hm. by apply list_elem_of_fmap_2.
Qed.

Lemma source_publishing a p :
  addition_ok a -> p ∈ add_sources a -> exists dir name, p = dir ++ [name +:+ ".publishing"].
Proof.
  intros [[dir Hd] _ _]. unfold add_sources. rewrite Hd, !with_suffix_snoc.
  intros [-> | ->%list_elem_of_singleton]%elem_of_cons; eauto.
Qed.

Lemma next_not_source c archive platform :
  Forall addition_ok (ch_add c) -> ends_with ".publishing" (next_name archive) = false ->
  platform_dir root platform ++ [next_name archive] ∉ sources_of (ch_add c).
Proof.
  intros Hc Hn (a & Hin & Ha)%list_elem_of_bind. rewrite Forall_forall in Hc.
  destruct (source_publishing a _ (Hc a Ha) Hin) as (dir & name & Heq).
  apply app_inj_2 in Heq as [_ Heq]; [|done]. injection Heq as Heq.
  by rewrite Heq, ends_with_app in Hn.
Qed.

Lemma next_fresh c fs0 done plan d platform :
  Forall addition_ok (ch_add c) -> platform ∉ done -> complete c fs0 done plan d ->
  db_next platform ∉ (source <$> moves plan) /\ files_next platform ∉ (source <$> moves plan).
Proof.
  intros Hc Hp [_ (packages & databases & -> & Hsrc & _ & _ & ->)].
  split; intros (m & Heq & Hm)%list_elem_of_fmap; apply elem_of_app in Hm as [Hm|Hm].
  - apply Hsrc in Hm. rewrite <- Heq in Hm. by eapply next_not_source in Hm.
  - apply list_elem_of_bind in Hm as (q & Hm & Hq).
    apply elem_of_cons in Hm as [-> | ->%list_elem_of_singleton]; apply platform_path_inj in Heq as [-> Heq]; done.
  - apply Hsrc in Hm. rewrite <- Heq in Hm. by eapply next_not_source in Hm.
  - apply list_elem_of_bind in Hm as (q & Hm & Hq).
    apply elem_of_cons in Hm as [-> | ->%list_elem_of_singleton]; apply platform_path_inj in Heq as [-> Heq]; done.
Qed.

(** Writing an archive beside the one it replaces. *)
Lemma rewrite_file_spec (P : disk -> Prop) fs0 input output superseded fill :
  private output -> ~ private input -> (forall d, P d -> unseen fs0 (d_files d)) ->
  io_triple P (rewrite_file input output superseded fill)
    (fun _ d' => exists d, P d /\ agree_off output (d_files d) (d_files d') /\
       d_files d' !! output = Some (Archive (rewrite_archive (members_at fs0 input) superseded fill)))
    (fun _ d => unseen fs0 (d_files d)).
Proof.
  intros Ho Hi Hu. apply (op_private _ _ _ output); [done..| | |].
  - intros fs. destruct (fs !! input) as [[]|]; apply agree_insert.
  - intros fs. apply agree_insert.
  - intros d a fs Hd Hf Ha. exists d. split_and!; [done..|]. simpl in Hf |- *. unfold members_at.
    pose proof (Hu d Hd input Hi) as <-.
    destruct (d_files d !! input) as [[]|]; simplify_eq; by rewrite (lookup_insert_eq (d_files d)).
Qed.

(** Both archives of a platform are ready, and nothing else of the plan changed. *)
Definition databases_ready (c : Changes) (fs0 : fsys) (plan : Finalization) (platform : Platform)
    (d : disk) : Prop :=
  staged_ok c fs0 plan (d_files d) /\
  d_files d !! db_next platform = Some (Archive (new_db c fs0 platform)) /\
  is_Some (d_files d !! files_next platform).

Lemma next_names_differ p : db_next p <> files_next p.
Proof. by intros [_ Heq]%platform_path_inj. Qed.

Lemma write_databases_spec c fs0 plan platform :
  db_next platform ∉ (source <$> moves plan) -> files_next platform ∉ (source <$> moves plan) ->
  io_triple (fun d => staged_ok c fs0 plan (d_files d))
    (write_databases (db_path platform) (files_archive platform) (removed_on c platform)
       (added_on c platform) (db_next platform) (files_next platform))
    (fun _ => databases_ready c fs0 plan platform) (fun _ d => unseen fs0 (d_files d)).
Proof.
  intros Hd Hf. unfold write_databases.
  set (P := fun d => staged_ok c fs0 plan (d_files d) /\
    d_files d !! db_next platform = Some (Archive (new_db c fs0 platform))).
  apply (io_triple_bind _ _ _ (fun _ => P)).
  - eapply io_triple_conseq; [apply (rewrite_file_spec (fun d => staged_ok c fs0 plan (d_files d)) fs0)| | |];
      [apply private_next|apply db_public|by intros d [? _ _ _ _]|done| |done].
    intros _ d' (d & Hok & Ha & Hnew). split; [|done].
    eapply staged_ok_agree; [apply (private_next (platform_dir root platform) DB_ARCHIVE)|done..].
  - intros _.
    eapply io_triple_conseq; [apply (rewrite_file_spec P fs0)| | |];
      [apply private_next|apply files_public|by intros d [[? _ _ _ _] _]|done| |done].
    intros _ d' (d & [Hok Hdb] & Ha & Hnew). split_and!.
    + eapply staged_ok_agree; [apply (private_next (platform_dir root platform) FILES_ARCHIVE)|done..].
    + rewrite Ha; [done|apply next_names_differ].
    + by rewrite Hnew.
Qed.

Lemma complete_push c fs0 done plan d0 d platform :
  Forall addition_ok (ch_add c) -> platform ∉ done -> complete c fs0 done plan d0 ->
  databases_ready c fs0 plan platform d ->
  complete c fs0 (done ++ [platform])
    (push_move (push_move plan (db_next platform) (db_path platform)) (files_next platform)
       (files_archive platform)) d.
Proof.
  intros Hc Hp Hcp (Hok & Hdb & Hfiles).
  destruct (next_fresh c fs0 done plan d0 platform Hc Hp Hcp) as [Hn1 Hn2].
  destruct Hcp as [_ (packages & databases & Hm & Hsrc & Hno & Hmv & ->)]. split.
  - apply staged_ok_push; [apply private_next| |apply files_public|done| |].
    + cbn [moves push_move]. rewrite fmap_app, elem_of_app.
      intros [?|Heq%list_elem_of_singleton]; [done|]. by apply (next_names_differ platform).
    + intros q Heq. by apply platform_path_inj in Heq as [_ Heq].
    + apply staged_ok_push; [apply private_next|done|apply db_public|by rewrite Hdb| |done].
      intros q Heq. by apply platform_path_inj in Heq as [<- _].
  - exists packages, ((done ++ [platform]) ≫= (fun p => [mkMove (db_next p) (db_path p);
      mkMove (files_next p) (files_archive p)])).
    cbn [moves push_move]. rewrite Hm. split_and!; try done.
    rewrite bind_app, <- !app_assoc. done.
Qed.

Lemma stage_databases_spec c fs0 done plan platform :
  Forall addition_ok (ch_add c) -> platform ∉ done ->
  io_triple (complete c fs0 done plan) (stage_databases root c plan platform)
    (fun plan' => complete c fs0 (done ++ [platform]) plan') (left_over fs0).
Proof.
  intros Hc Hp answers d Hd. assert (plan_private plan) as Hplan by apply Hd.
  destruct (next_fresh c fs0 done plan d platform Hc Hp Hd) as [Hn1 Hn2].
  set (plan' := push_move (push_move plan (db_next platform) (db_path platform))
    (files_next platform) (files_archive platform)).
  assert (plan_private plan') as Hplan'.
  { apply plan_private_push; [apply plan_private_push|..];
      try done; [apply private_next|apply db_public|apply private_next|apply files_public]. }
  set (P := databases_ready c fs0 plan platform).
  assert (forall p, io_triple P (planned plan' (sync p)) (fun _ => P) (left_over fs0)) as Hsync.
  { intros p. apply planned_spec; [done|]. apply sync_spec; [done|]. by intros d' [[? _ _ _ _] _]. }
  assert (io_triple (fun d => staged_ok c fs0 plan (d_files d)) (stage_databases root c plan platform)
    (fun r d' => r = plan' /\ P d') (left_over fs0)) as Hs.
  { unfold stage_databases. eapply io_triple_bind.
    { apply planned_spec; [done|].
      apply (io_triple_op _ _ _ (fun _ d => staged_ok c fs0 plan (d_files d)));
        [intros d' a fs Hok [= <- <-]|intros d' e fs Hok [=]|intros d' Hok; apply Hok]; done. }
    intros ?. eapply io_triple_bind.
    { apply planned_spec; [done|]. by apply write_databases_spec. }
    intros ?. eapply io_triple_bind; [apply Hsync|]. intros ?.
    eapply io_triple_bind; [apply Hsync|]. intros ?. by apply io_triple_ret. }
  specialize (Hs answers d ltac:(apply Hd)). destruct (io_result _); [|done].
  destruct Hs as [-> Hready]. by eapply complete_push.
Qed.

(** ** The whole of it *)

Lemma added_nil c fs0 d :
  d_files d = fs0 -> added c fs0 (sources_of []) (dest_of <$> []) (mkPlan [] []) d.
Proof.
  intros <-. split.
  - split; [done|split; apply Forall_nil_2|apply NoDup_nil_2|apply Forall_nil_2..].
  - by intros m ?%not_elem_of_nil.
  - by intros m p ?%not_elem_of_nil.
  - by intros p ?%not_elem_of_nil.
Qed.

Lemma stage_all_spec c fs0 :
  changes_ok c ->
  io_triple (same fs0) (stage_all root c (mkPlan [] []))
    (fun plan d => complete c fs0 (changes_platforms c) plan d) (left_over fs0).
Proof.
  intros [Hadd Hnd]. unfold stage_all.
  apply (io_triple_bind _ _ _
    (fun plan => added c fs0 (sources_of (ch_add c)) (dest_of <$> ch_add c) plan)).
  { eapply io_triple_conseq; [|apply added_nil|done|done].
    apply (stage_each_spec (stage_addition root)
      (fun done => added c fs0 (sources_of done) (dest_of <$> done))).
    intros done a todo plan Heq. rewrite Heq in Hadd, Hnd.
    apply Forall_app in Hadd as [Hdone [Ha _]%Forall_cons]. apply stage_addition_spec; [done..|].
    rewrite fmap_app in Hnd. csimpl in Hnd. apply NoDup_app in Hnd as (_ & Hd & _).
    intros Hin. apply (Hd _ Hin). left. }
  intros plan. apply (io_triple_bind _ _ _ (fun plan => complete c fs0 (changes_platforms c) plan)).
  { eapply io_triple_conseq; [|apply added_complete|done|done].
    apply (stage_each_spec (stage_databases root c) (fun done => complete c fs0 done)).
    intros done p todo plan' Heq. apply stage_databases_spec; [done|].
    assert (NoDup (changes_platforms c)) as Hp by apply (Platforms_new_normal _).
    rewrite Heq in Hp. apply NoDup_app in Hp as (_ & Hd & _). intros Hin. apply (Hd _ Hin). left. }
  intros plan'. apply io_triple_ret. intros d [[Hu [Hs Hds] Hn Hr Hdb] Hshape]. by repeat split.
Qed.

(** Discarding a plan touches only what staging wrote. *)
Lemma discard_moves_spec {E : Type} fs0 l (R : E -> disk -> Prop) :
  Forall (fun m => private (source m)) l ->
  io_triple (fun d => unseen fs0 (d_files d)) (discard_moves l)
    (fun _ d => unseen fs0 (d_files d)) R.
Proof.
  induction l as [|m l IH]; cbn [discard_moves]; intros Hl; [by apply io_triple_ret|].
  apply Forall_cons in Hl as [Hm Hl].
  apply (io_triple_bind _ _ _ (fun _ d => unseen fs0 (d_files d))); [|intros _; by apply IH].
  apply io_triple_attempt. apply (op_private _ _ _ (source m)); [done|done| |done|].
  - intros fs. destruct (fs !! source m); [apply agree_delete|done].
  - intros d a fs Hd _ Ha. eapply unseen_agree; [exact Hm|exact Ha|exact Hd].
Qed.

Lemma stage_spec c fs0 :
  changes_ok c ->
  io_triple (same fs0) (stage root c)
    (fun plan d => complete c fs0 (changes_platforms c) plan d)
    (fun _ d => unseen fs0 (d_files d)).
Proof.
  intros Hc. unfold stage. apply (io_triple_bind _ _ _ (fun r d => match r with
    | Ok plan => complete c fs0 (changes_platforms c) plan d
    | Err e => left_over fs0 e d
    end)).
  { apply io_triple_attempt. by apply stage_all_spec. }
  intros [plan|[e plan]]; [by apply io_triple_ret|].
  intros answers d [Hu Hp]. revert answers d Hu.
  change (io_triple (fun d => unseen fs0 (d_files d)) (_ ← discard plan; throw e)
    (fun plan d => complete c fs0 (changes_platforms c) plan d) (fun _ d => unseen fs0 (d_files d))).
  apply (io_triple_bind _ _ _ (fun _ d => unseen fs0 (d_files d))).
  - by apply discard_moves_spec, Hp.
  - intros _. by apply io_triple_throw.
Qed.
End root.
