(* ===== verification/Repository.v ===== *)
(** * The repository

    [backend/aurcache-utils/src/repository.rs]: an update's commit -- the files
    staged, the caller's statements and the plan in one transaction, then the moves
    -- with its retries and its recovery, and the sweep of retired files. The
    repository lock makes these the atomic steps of one state: the database, the
    one row of [repository_updates], the files, and when each retired file stopped
    being listed. *)
From S2P Require Import Prelude Text Sql Schema Lists Fixtures.
From S2P Require Import PkgFile PkgDb RepoFiles.
From S2P Require Import RepoStage.
#[local] Open Scope string_scope.
#[local] Open Scope list_scope.

Record repo := Repo {
  r_db : database;
  r_plan : option Finalization;
  r_disk : disk;
  r_retired : gmap path Z
}.

Definition r_files (s : repo) : fsys := d_files (r_disk s).
Definition with_disk (s : repo) (d : disk) : repo := Repo (r_db s) (r_plan s) d (r_retired s).
Definition log_event (s : repo) (e : RepoEvent) : repo :=
  with_disk s (Disk (r_files s) (d_log (r_disk s) ++ [e])).

(** ** Finalizing and recovering *)

(** How an operation of the repository ends: done, refused with nothing changed
    for good, or committed and still to be finished ([FinalizationPending]). *)
Inductive ended (A : Type) :=
| Done (a : A)
| RefusedWith (e : DbErr)
| FinalizationPending.
Global Arguments Done {_} _.
Global Arguments RefusedWith {_} _.
Global Arguments FinalizationPending {_}.

(** [note_retired] *)
Definition note_retired (paths : list path) (now : Z) (known : gmap path Z) : gmap path Z :=
  foldl (fun m p => <[p := now]> m) known paths.

(** What the environment answers a finalization: its file operations, the
    statement that deletes the plan, and the time. *)
Record finalize_env := mkFinalizeEnv {
  fe_io : list bool;
  fe_delete : bool;
  fe_now : Z
}.

(** [finalize], as [commit] and [recover_locked] call it. *)
Definition finalize (env : finalize_env) (plan : Finalization) (s : repo) : ended unit * repo :=
  let o := finish plan (fe_io env) (r_disk s) in
  let s := with_disk s (io_disk o) in
  match io_result o with
  | Err _ => (FinalizationPending, s)
  | Ok retired =>
      if fe_delete env
      then (Done tt, Repo (r_db s) None (r_disk s) (note_retired retired (fe_now env) (r_retired s)))
      else (FinalizationPending, s)
  end.

(** [recover_locked]; [reads] is whether the plan can be read. *)
Definition recover (reads : bool) (env : finalize_env) (s : repo) : ended unit * repo :=
  if reads then
    match r_plan s with
    | Some plan => finalize env plan s
    | None => (Done tt, s)
    end
  else (RefusedWith Connection, s).

(** ** Committing *)

Definition COMMIT_ATTEMPTS : nat := 3.

(** How the statement [COMMIT] ends: answered, refused, or applied with the answer
    lost. *)
Inductive commit_answer := CommitAnswered | CommitRefused | CommitLost.

Record attempt_env := mkAttemptEnv {
  ae_left : option nat;
  ae_commit : commit_answer;
  ae_read : bool
}.

Inductive attempted (A : Type) :=
| Committed (a : A)
| AttemptFailed (e : DbErr)
| Unknown.
Global Arguments Committed {_} _.
Global Arguments AttemptFailed {_} _.
Global Arguments Unknown {_}.

Section commit.
Context {A : Type} (body : DB A).

(** The statements of one attempt, up to its [COMMIT]: [begin], the caller's, and
    the plan's row, whose key is taken while an earlier plan is there. *)
Definition attempt_body (plan : option Finalization) : DB A :=
  _ ← query (fun _ => tt);
  done ← body;
  _ ← statement (fun d => match plan with Some _ => Err Constraint | None => Ok (tt, d) end);
  mret done.

(** One turn of the loop. *)
Definition attempt_commit (plan : Finalization) (env : attempt_env) (s : repo) :
    attempted A * repo :=
  let o := attempt_body (r_plan s) (ae_left env) (r_db s) in
  match o_result o with
  | Err e => (AttemptFailed e, s)
  | Ok done =>
      let committed := Repo (o_db o) (Some plan) (r_disk s) (r_retired s) in
      match ae_commit env with
      | CommitAnswered => (Committed done, committed)
      | CommitRefused =>
          if ae_read env then
            (if decide (r_plan s = Some plan) then (Committed done, s)
             else (AttemptFailed Connection, s))
          else (Unknown, s)
      | CommitLost => if ae_read env then (Committed done, committed) else (Unknown, committed)
      end
  end.

(** The loop: [attempt] counts from 1; an attempt the environment gives no answers
    for is answered. *)
Fixpoint commit_loop (attempts attempt : nat) (plan : Finalization) (envs : list attempt_env)
    (s : repo) : attempted A * repo :=
  match attempts with
  | 0 => (Unknown, s)
  | S attempts =>
      let env := default (mkAttemptEnv None CommitAnswered true) (head envs) in
      match attempt_commit plan env s with
      | (AttemptFailed e, s) =>
          match attempts with
          | 0 => (AttemptFailed e, s)
          | S _ =>
              commit_loop attempts (S attempt) plan (tail envs)
                (log_event s (RepoCommitRetried attempt))
          end
      | r => r
      end
  end.

Record commit_env := mkCommitEnv {
  ce_stage : list bool;
  ce_attempts : list attempt_env;
  ce_discard : list bool;
  ce_finalize : finalize_env
}.

(** [Update::commit] *)
Definition commit (root : path) (c : Changes) (env : commit_env) (s : repo) : ended A * repo :=
  if forallb (fun a => bool_decide (root `prefix_of` add_staged a)) (ch_add c) then
    let o := stage root c (ce_stage env) (r_disk s) in
    let s := with_disk s (io_disk o) in
    match io_result o with
    | Err _ => (RefusedWith (Custom "staging"), s)
    | Ok plan =>
        match commit_loop COMMIT_ATTEMPTS 1 plan (ce_attempts env) s with
        | (Unknown, s) => (FinalizationPending, s)
        | (AttemptFailed e, s) =>
            (RefusedWith e,
             with_disk s (io_disk (discard (E := IoError) plan (ce_discard env) (r_disk s))))
        | (Committed done, s) =>
            match finalize (ce_finalize env) plan s with
            | (Done _, s) => (Done done, s)
            | (_, s) => (FinalizationPending, s)
            end
        end
    end
  else (RefusedWith (Custom "not staged under the repository"), s).
End commit.

(** ** Sweeping *)

Section sweep.
Context (root : path) (now grace : Z).

(** The time a [saturating_duration_since] gives. *)
Definition elapsed (since : Z) : Z := Z.max 0 (now - since).

Record swept := mkSwept {
  still_retired : gmap path Z;
  deleted : list string;
  sw_known : gmap path Z
}.

(** One entry of a platform directory, [listed] being what its database lists. *)
Definition sweep_entry (dir : path) (listed : list string) (acc : swept) (name : string) :
    Io IoError swept :=
  if negb (is_package_file name) then mret acc
  else
    let package := default name (strip_suffix ".sig" name) in
    if decide (package ∈ listed) then mret acc
    else
      let p := dir ++ [name] in
      let since := default now (sw_known acc !! p) in
      let known := delete p (sw_known acc) in
      if decide (grace <= elapsed since)%Z then
        removed ← attempt_io (remove_file p);
        match removed with
        | Ok _ => mret (mkSwept (still_retired acc) (deleted acc ++ [name]) known)
        | Err NotFound => mret (mkSwept (still_retired acc) (deleted acc) known)
        | Err _ =>
            _ ← note (RepoFileFailed Remove p);
            mret (mkSwept (<[p := since]> (still_retired acc)) (deleted acc) known)
        end
      else mret (mkSwept (<[p := since]> (still_retired acc)) (deleted acc) known).

Fixpoint sweep_entries (dir : path) (listed : list string) (acc : swept) (names : list string) :
    Io IoError swept :=
  match names with
  | [] => mret acc
  | name :: names => acc ← sweep_entry dir listed acc name; sweep_entries dir listed acc names
  end.

(** A directory under the root: its name, and the names [read_dir] lists in it. A
    directory whose [repo.db] cannot be read is left alone. *)
Definition sweep_dir (acc : swept) (entry : string * list string) : Io IoError swept :=
  let '(name, names) := entry in
  let dir := root ++ [name] in
  if starts_with "." name then mret acc
  else
    db ← look (fun fs : fsys => fs !! (dir ++ [DB_ARCHIVE]));
    match db with
    | Some (Archive members) => sweep_entries dir (listed_filenames members) acc names
    | _ => mret acc
    end.

(** [sweep_retired]: [dirs] is what [read_dir] lists, in its order. *)
Fixpoint sweep_retired (dirs : list (string * list string)) (acc : swept) : Io IoError swept :=
  match dirs with
  | [] => mret acc
  | entry :: dirs => acc ← sweep_dir acc entry; sweep_retired dirs acc
  end.

(** [sweep_at]. *)
Definition sweep (reads : bool) (env : finalize_env) (dirs : list (string * list string))
    (io : list bool) (s : repo) : ended nat * repo :=
  match recover reads env s with
  | (Done _, s) =>
      let o := sweep_retired dirs (mkSwept ∅ [] (r_retired s)) io (r_disk s) in
      match io_result o with
      | Ok acc =>
          let s := Repo (r_db s) (r_plan s) (io_disk o) (still_retired acc) in
          (Done (length (deleted acc)),
           if decide (deleted acc = []) then s else log_event s (RepoSwept (deleted acc)))
      | Err _ => (FinalizationPending, with_disk s (io_disk o))
      end
  | (RefusedWith e, s) => (RefusedWith e, s)
  | (FinalizationPending, s) => (FinalizationPending, s)
  end.
End sweep.

(** ** What clients see *)

(** Every platform's database lists package files only, and each of them is there. *)
Definition listed_ok (root : path) (fs : fsys) : Prop :=
  forall platform f, f ∈ listed_filenames (members_at fs (db_path root platform)) ->
    publishable f /\ is_Some (fs !! file_path root platform f).

Definition pending (s : repo) : list FileMove :=
  match r_plan s with Some plan => moves plan | None => [] end.

(** Wherever the recovery of a pending plan stops, nothing listed is missing. *)
Record repo_ok (root : path) (s : repo) : Prop := {
  ro_plan : plan_ok (pending s);
  ro_private : Forall (fun m => private (source m)) (pending s);
  ro_listed : forall k, listed_ok root (apply_moves (take k (pending s)) (r_files s))
}.

Section files.
Context (root : path).

Lemma members_agree fs fs' p : fs' !! p = fs !! p -> members_at fs' p = members_at fs p.
Proof. intros Heq. unfold members_at. by rewrite Heq. Qed.

Lemma listed_ok_unseen fs fs' : unseen fs fs' -> listed_ok root fs -> listed_ok root fs'.
Proof.
  intros Hu Hl platform f. rewrite (members_agree fs) by (apply Hu, db_public). intros Hf.
  destruct (Hl platform f Hf) as [Hp Hsome]. split; [done|].
  rewrite Hu; [done|by apply publishable_public].
Qed.

Lemma take_moves k (l : list FileMove) m : m ∈ take k l -> m ∈ l.
Proof. intros Hm. by apply (subseteq_take k). Qed.

Lemma take_sources k (l : list FileMove) p : p ∈ (source <$> take k l) -> p ∈ (source <$> l).
Proof. intros (m & -> & Hm)%list_elem_of_fmap. apply list_elem_of_fmap_2. by eapply take_moves. Qed.

Lemma plan_ok_take k l : plan_ok l -> plan_ok (take k l).
Proof. intros Hl. rewrite <- (take_drop k l) in Hl. by apply plan_ok_app in Hl. Qed.

(** A move that is done put its file where it goes. *)
Lemma apply_moves_at l1 m l2 fs f :
  plan_ok (l1 ++ m :: l2) -> destination m ∉ (destination <$> l2) -> fs !! source m = Some f ->
  apply_moves (l1 ++ m :: l2) fs !! destination m = Some f.
Proof.
  intros [Hnd Hp] Hd Hf. rewrite fmap_app in Hnd. csimpl in Hnd.
  assert (source m ∈ (source <$> (l1 ++ m :: l2))) as Hm
    by (rewrite fmap_app, elem_of_app; right; left).
  assert (destination m ∉ (source <$> (l1 ++ m :: l2))) as Hdm.
  { intros Hin. apply (Hp _ Hin). rewrite fmap_app, elem_of_app. right. left. }
  specialize (Hp _ Hm). rewrite fmap_app, not_elem_of_app in Hp. destruct Hp as [Hp1 Hp2].
  apply NoDup_app in Hnd as (_ & Hd1 & _).
  rewrite apply_moves_app. cbn [apply_moves foldl].
  fold (apply_moves l2 (apply_move (apply_moves l1 fs) m)).
  rewrite fmap_app, not_elem_of_app in Hdm. csimpl in Hdm. destruct Hdm as [_ Hdm].
  apply not_elem_of_cons in Hdm as [Hdm0 Hdm2].
  rewrite apply_moves_other by done. unfold apply_move.
  rewrite (apply_moves_other l1).
  - rewrite Hf. apply lookup_insert_eq.
  - intros Hin. apply (Hd1 _ Hin). left.
  - done.
Qed.

Lemma last_move_to l p :
  p ∈ (destination <$> l) ->
  exists l1 m l2, l = l1 ++ m :: l2 /\ destination m = p /\ p ∉ (destination <$> l2).
Proof.
  induction l as [|m l IH]; [by intros ?%not_elem_of_nil|]. csimpl. intros Hp.
  destruct (decide (p ∈ (destination <$> l))) as [Hin|Hin].
  - destruct (IH Hin) as (l1 & m' & l2 & -> & Hd & Hn). by exists (m :: l1), m', l2.
  - apply elem_of_cons in Hp as [->|?]; [|done]. by exists [], m, l.
Qed.

(** Where a move goes there is a file: its own, or a later one's. *)
Lemma apply_moves_arrived l fs p :
  plan_ok l -> Forall (fun m => is_Some (fs !! source m)) l -> p ∈ (destination <$> l) ->
  exists m, m ∈ l /\ destination m = p /\ apply_moves l fs !! p = fs !! source m.
Proof.
  intros Hl Hs Hp. destruct (last_move_to l p Hp) as (l1 & m & l2 & -> & Hd & Hn).
  rewrite Forall_app, Forall_cons in Hs. destruct Hs as (_ & [f Hf] & _).
  exists m. split_and!; [apply elem_of_app; right; left|done|].
  rewrite Hf, <- Hd. apply apply_moves_at; [done|by rewrite Hd|done].
Qed.

Lemma staged_plan_ok c fs0 plan fs : staged_ok root c fs0 plan fs -> plan_ok (moves plan).
Proof.
  intros [_ [Hs Hd] Hn _ _]. split; [done|]. rewrite Forall_forall in *.
  intros p (m & -> & Hm)%list_elem_of_fmap (m' & Heq & Hm')%list_elem_of_fmap.
  apply (Hd m' Hm'). rewrite <- Heq. by apply Hs.
Qed.

Lemma public_not_source c fs0 plan fs p :
  staged_ok root c fs0 plan fs -> ~ private p -> p ∉ (source <$> moves plan).
Proof.
  intros [_ [Hs _] _ _ _] Hp (m & -> & Hm)%list_elem_of_fmap. rewrite Forall_forall in Hs. auto.
Qed.

(** What a new database lists: what the old one did, or an addition. *)
Lemma new_db_lists c fs0 platform f :
  changes_ok c -> f ∈ listed_filenames (new_db root c fs0 platform) ->
  f ∈ listed_filenames (members_at fs0 (db_path root platform)) \/
  exists a, a ∈ ch_add c /\ add_platform a = platform /\ pe_filename (add_entry a) = f.
Proof.
  intros [Hc _]. unfold new_db, write_updated_databases. cbn [fst]. unfold rewrite_archive.
  assert (forall l k, listed_filenames (l ++ k) = listed_filenames l ++ listed_filenames k) as Happ
    by (intros; unfold listed_filenames; apply bind_app).
  rewrite Happ, elem_of_app. intros [Hf|Hf].
  - left. unfold listed_filenames in *. apply list_elem_of_bind in Hf as (m & Hf & Hm).
    apply list_elem_of_bind. exists m. split; [done|]. by apply list_elem_of_filter in Hm as [_ ?].
  - right. rewrite listed_entries in Hf.
    + apply list_elem_of_fmap in Hf as (e & -> & He). unfold added_on in He.
      apply list_elem_of_fmap in He as (a & -> & Ha). apply list_elem_of_filter in Ha as [Hp Ha].
      by exists a.
    + unfold added_on. apply Forall_fmap, Forall_filter_of. eapply Forall_impl; [exact Hc|].
      by intros a [_ _ He].
Qed.

(** At every point of a complete plan, nothing listed is missing. *)
Lemma complete_listed c fs0 platforms plan d k :
  changes_ok c -> listed_ok root fs0 -> complete root c fs0 platforms plan d ->
  listed_ok root (apply_moves (take k (moves plan)) (d_files d)).
Proof.
  intros Hc Hl [Hok (packages & databases & Hm & _ & Hno & Hmv & _)].
  pose proof (staged_plan_ok _ _ _ _ Hok) as Hplan.
  pose proof (plan_ok_take k _ Hplan) as Hplank.
  assert (forall m, m ∈ take k (moves plan) -> is_Some (d_files d !! source m)) as Hready.
  { intros m Hin%take_moves. destruct Hok as [_ _ _ Hr _]. rewrite Forall_forall in Hr. auto. }
  assert (forall p, ~ private p -> p ∉ (source <$> take k (moves plan))) as Hns.
  { intros p Hp Hin%take_sources. by eapply public_not_source in Hin. }
  assert (forall p, ~ private p -> is_Some (fs0 !! p) ->
    is_Some (apply_moves (take k (moves plan)) (d_files d) !! p)) as Hold.
  { intros p Hp Hsome. apply apply_moves_present; [|by apply Hns].
    by rewrite (st_unseen _ _ _ _ _ Hok). }
  intros platform f.
  destruct (decide (db_path root platform ∈ (destination <$> take k (moves plan)))) as [Hdb|Hdb].
  - destruct (apply_moves_arrived (take k (moves plan)) (d_files d) (db_path root platform) Hplank)
      as (m & Hin & Hdst & Hval); [by apply Forall_forall|exact Hdb|].
    unfold members_at at 1. rewrite Hval.
    pose proof (st_dbs _ _ _ _ _ Hok) as Hdbs. rewrite Forall_forall in Hdbs.
    rewrite (Hdbs m (take_moves k _ _ Hin) platform Hdst).
    intros [Hf|(a & Ha & <- & <-)]%new_db_lists; [| |done].
    + destruct (Hl platform f Hf) as [Hpub Hsome]. split; [done|].
      apply Hold; [by apply publishable_public|done].
    + pose proof (co_additions _ Hc) as Hadd. rewrite Forall_forall in Hadd.
      pose proof (ao_name _ (Hadd a Ha)) as Hpub. split; [done|].
      destruct (apply_moves_arrived (take k (moves plan)) (d_files d) (dest_of root a) Hplank)
        as (m' & Hin' & Hdst' & Hval'); [by apply Forall_forall| |].
      * assert (packages `prefix_of` take k (moves plan)) as [rest ->];
          [|rewrite fmap_app; apply elem_of_app; left; by apply Hmv].
        rewrite Hm, take_app. destruct (decide (k <= length packages)) as [Hk|Hk].
        -- exfalso. rewrite Hm, take_app_le in Hin by done. apply take_moves in Hin.
           by apply (Hno m (add_platform a)) in Hin.
        -- rewrite take_ge by lia. by exists (take (k - length packages) databases).
      * change (file_path root (add_platform a) (pe_filename (add_entry a))) with (dest_of root a).
        rewrite Hval'. by apply Hready.
  - rewrite (members_agree fs0).
    + intros Hf. destruct (Hl platform f Hf) as [Hpub Hsome]. split; [done|].
      apply Hold; [by apply publishable_public|done].
    + rewrite apply_moves_other; [by apply (st_unseen _ _ _ _ _ Hok), db_public| |done].
      apply Hns, db_public.
Qed.
End files.

(** ** Finalizing *)

(** The same but for what was logged. *)
Definition same_repo (s s' : repo) : Prop :=
  r_db s' = r_db s /\ r_plan s' = r_plan s /\ r_files s' = r_files s /\ r_retired s' = r_retired s.

#[export] Instance same_repo_preorder : PreOrder same_repo.
Proof. split; [done|]. intros s1 s2 s3 (?&?&?&?) (?&?&?&?). repeat split; congruence. Qed.

(** What is left once a plan's finalization was begun and maybe ended. *)
Inductive finalized (plan : Finalization) (s : repo) : ended unit -> repo -> Prop :=
| finalized_done s' :
    r_db s' = r_db s -> r_plan s' = None -> r_files s' = apply_moves (moves plan) (r_files s) ->
    finalized plan s (Done tt) s'
| finalized_part s' k :
    r_db s' = r_db s -> r_plan s' = r_plan s ->
    r_files s' = apply_moves (take k (moves plan)) (r_files s) ->
    finalized plan s FinalizationPending s'.

Lemma finalize_spec env plan s :
  finalized plan s (finalize env plan s).1 (finalize env plan s).2.
Proof.
  unfold finalize. pose proof (finish_spec plan (r_files s) (fe_io env) (r_disk s) eq_refl) as H.
  destruct (io_result _) as [l|e]; simpl.
  - destruct H as [-> Hf]. destruct (fe_delete env); simpl; [by constructor|].
    apply (finalized_part _ _ _ (length (moves plan))); [done..|]. unfold r_files; simpl.
    by rewrite take_ge.
  - destruct H as [k Hf]. by apply (finalized_part _ _ _ k).
Qed.

(** With every operation answered, a finalization ends. *)
Lemma op_answered {A} (f : fsys -> result IoError A * fsys) torn d :
  op f torn [] d = IoOut (f (d_files d)).1 [] (Disk (f (d_files d)).2 (d_log d)).
Proof. unfold op. by destruct (f (d_files d)). Qed.

Lemma rename_answered s t d :
  exists d', rename s t [] d = IoOut (if decide (is_Some (d_files d !! s)) then Ok tt
    else Err NotFound) [] d' /\ (d_files d !! s = None -> d_files d' !! s = None).
Proof.
  exists (Disk (apply_move (d_files d) (mkMove s t)) (d_log d)).
  unfold rename, apply_move. rewrite op_answered. simpl.
  by destruct (d_files d !! s) as [f|] eqn:Hs; simpl; rewrite ?Hs.
Qed.

Lemma finish_moves_answered l d :
  exists d', finish_moves l [] d = IoOut (Ok tt) [] d'.
Proof.
  revert d; induction l as [|m l IH]; intros d; [by eexists|]. cbn [finish_moves].
  destruct (rename_answered (source m) (destination m) d) as (d1 & Hr & Hgone).
  unfold mbind, io_mbind, io_bind, attempt_io. rewrite Hr. cbn [io_result io_answers io_disk look].
  destruct (IH d1) as [d2 H2]. destruct (IH (Disk (d_files d1) (d_log d1 ++ [RepoFileFailed Move (source m)])))
    as [d3 H3].
  case_decide as Hs; cbn; [by destruct d1; eauto|].
  unfold exists_file. rewrite Hgone by (by apply eq_None_not_Some).
  rewrite (bool_decide_eq_true_2 (NotFound = NotFound)) by done.
  rewrite (bool_decide_eq_false_2 (is_Some None)) by apply is_Some_None. cbn.
  destruct (bool_decide (is_Some (d_files d1 !! destination m))); cbn;
    [by destruct d1; eauto|by eauto].
Qed.

Lemma finalize_answered now plan s : (finalize (mkFinalizeEnv [] true now) plan s).1 = Done tt.
Proof.
  unfold finalize, finish. cbn [fe_io fe_delete]. unfold mbind, io_mbind, io_bind.
  destruct (finish_moves_answered (moves plan) (r_disk s)) as [d ->]. done.
Qed.

(** ** Committing *)

Section commit_spec.
Context {A : Type} (body : DB A) `{!Transparent body, !Steady body}.

#[local] Instance attempt_body_transparent plan : Transparent (attempt_body body plan).
Proof. unfold attempt_body. destruct plan; sql_class. Qed.

Lemma attempt_body_run plan left d a :
  o_result (attempt_body body plan left d) = Ok a ->
  plan = None /\ run body d = (Ok a, o_db (attempt_body body plan left d)).
Proof.
  intros Ha. pose proof (transparent (m := attempt_body body plan) left d a Ha) as Ht.
  assert (run (attempt_body body plan) d = (Ok a, o_db (attempt_body body plan left d))) as Hrun
    by (unfold run; by rewrite Ht).
  revert Hrun. generalize (o_db (attempt_body body plan left d)). clear Ht Ha. intros d2 Hrun.
  unfold attempt_body, mbind, sql_mbind in Hrun. rewrite run_bind, run_query in Hrun by apply _.
  rewrite run_bind in Hrun by apply _. destruct (run body d) as [[b|e] d']; [|done].
  rewrite run_bind, run_statement in Hrun by apply _. destruct plan; [done|].
  unfold mret, sql_mret in Hrun. rewrite run_ret in Hrun. split; [done|]. congruence.
Qed.

(** What an attempt may answer, and what it then left. *)
Inductive attempt_ok (plan : Finalization) (s : repo) : attempted A -> repo -> Prop :=
| attempt_committed a s' :
    run body (r_db s) = (Ok a, r_db s') -> r_plan s' = Some plan -> r_files s' = r_files s ->
    attempt_ok plan s (Committed a) s'
| attempt_failed e s' : same_repo s s' -> attempt_ok plan s (AttemptFailed e) s'
| attempt_unknown_no s' : same_repo s s' -> attempt_ok plan s Unknown s'
| attempt_unknown_yes a s' :
    run body (r_db s) = (Ok a, r_db s') -> r_plan s' = Some plan -> r_files s' = r_files s ->
    attempt_ok plan s Unknown s'.

Lemma attempt_commit_spec plan env s :
  r_plan s = None ->
  attempt_ok plan s (attempt_commit body plan env s).1 (attempt_commit body plan env s).2.
Proof.
  intros Hs. unfold attempt_commit. rewrite Hs.
  destruct (o_result (attempt_body body None (ae_left env) (r_db s))) as [a|e] eqn:Ha; simpl;
    [|by constructor].
  apply attempt_body_run in Ha as [_ Hrun].
  destruct (ae_commit env); [|destruct (ae_read env)|destruct (ae_read env)]; simpl.
  - by apply attempt_committed.
  - by constructor.
  - by apply attempt_unknown_no.
  - by apply attempt_committed.
  - by eapply attempt_unknown_yes.
Qed.

Lemma attempt_ok_same plan s s1 r s2 :
  same_repo s s1 -> attempt_ok plan s1 r s2 -> attempt_ok plan s r s2.
Proof.
  intros Hs [a s' Hr Hp Hf|e s' H|s' H|a s' Hr Hp Hf].
  - pose proof Hs as (Hd & _ & Hfs & _). apply attempt_committed; congruence.
  - apply attempt_failed. by etrans.
  - apply attempt_unknown_no. by etrans.
  - pose proof Hs as (Hd & _ & Hfs & _). apply (attempt_unknown_yes _ _ a); congruence.
Qed.

Lemma commit_loop_spec attempts attempt plan envs s :
  r_plan s = None ->
  attempt_ok plan s (commit_loop body attempts attempt plan envs s).1
    (commit_loop body attempts attempt plan envs s).2.
Proof.
  revert attempt envs s; induction attempts as [|n IH]; intros attempt envs s Hs; cbn [commit_loop].
  { by apply attempt_unknown_no. }
  pose proof (attempt_commit_spec plan (default (mkAttemptEnv None CommitAnswered true) (head envs))
    s Hs) as Hspec.
  destruct (attempt_commit _ _ _ s) as [[a|e|] s1]; cbn [fst snd] in *; [done| |done].
  inversion Hspec as [|e' s' Hsame| |]; subst. destruct n as [|n]; [done|].
  eapply attempt_ok_same; [|apply IH].
  - etrans; [exact Hsame|]. done.
  - destruct Hsame as (_ & Hp & _). simpl. congruence.
Qed.
End commit_spec.

(** ** Committing an update *)

(** Staged completely from the files of [s], and committed: what is left to do is
    the rest of the plan. *)
Definition mid_commit (root : path) (c : Changes) (s : repo) (plan : Finalization) (s' : repo)
    (k : nat) : Prop :=
  exists d, complete root c (r_files s) (changes_platforms c) plan d /\
    r_files s' = apply_moves (take k (moves plan)) (d_files d).

Section commit_outcome.
Context {A : Type} (body : DB A) `{!Transparent body, !Steady body}.
Context (root : path) (c : Changes).

(** The three ways a commit ends. *)
Inductive commit_outcome (s : repo) : ended A -> repo -> Prop :=
| outcome_done a s' plan :
    run body (r_db s) = (Ok a, r_db s') -> r_plan s' = None ->
    mid_commit root c s plan s' (length (moves plan)) -> commit_outcome s (Done a) s'
| outcome_refused e s' :
    r_db s' = r_db s -> r_plan s' = None -> unseen (r_files s) (r_files s') ->
    commit_outcome s (RefusedWith e) s'
| outcome_unknown s' :
    r_db s' = r_db s -> r_plan s' = None -> unseen (r_files s) (r_files s') ->
    commit_outcome s FinalizationPending s'
| outcome_pending a s' plan k :
    run body (r_db s) = (Ok a, r_db s') -> r_plan s' = Some plan ->
    mid_commit root c s plan s' k -> commit_outcome s FinalizationPending s'.

Lemma commit_spec env s :
  changes_ok c -> r_plan s = None ->
  commit_outcome s (commit body root c env s).1 (commit body root c env s).2.
Proof.
  intros Hc Hs. unfold commit. destruct (forallb _ _); [|by apply outcome_refused].
  pose proof (stage_spec root c (r_files s) Hc (ce_stage env) (r_disk s) eq_refl) as Hstage.
  destruct (io_result (stage _ _ _ _)) as [plan|e]; [|by apply outcome_refused].
  set (d := io_disk (stage root c (ce_stage env) (r_disk s))) in *.
  pose proof (commit_loop_spec body COMMIT_ATTEMPTS 1 plan (ce_attempts env) (with_disk s d) Hs)
    as Hloop.
  pose proof (st_unseen _ _ _ _ _ (cp_staged _ _ _ _ _ _ Hstage)) as Hu.
  pose proof (st_private _ _ _ _ _ (cp_staged _ _ _ _ _ _ Hstage)) as [Hpriv _].
  destruct (commit_loop _ _ _ _ _ _) as [r s1]. cbn [fst snd] in Hloop.
  inversion Hloop as [a s2 Hrun Hp Hf|e s2 (Hd & Hp & Hf & _)|s2 (Hd & Hp & Hf & _)|a s2 Hrun Hp Hf];
    subst; cbn in *.
  - assert (Hmid : forall s2 k, r_files s2 = apply_moves (take k (moves plan)) (r_files s1) ->
      mid_commit root c s plan s2 k).
    { intros s2 k Hk. exists d. split; [done|]. rewrite Hk. by rewrite Hf. }
    pose proof (finalize_spec (ce_finalize env) plan s1) as Hfin.
    destruct (finalize _ _ _) as [r s2]; cbn [fst snd] in Hfin.
    inversion Hfin as [s3 Hd3 Hp3 Hf3|s3 k Hd3 Hp3 Hf3]; subst; cbn.
    + apply (outcome_done _ a _ plan); [by rewrite Hd3|done|]. apply Hmid. by rewrite take_ge.
    + apply (outcome_pending _ a _ plan k); [by rewrite Hd3|by rewrite Hp3|by apply Hmid].
  - apply outcome_refused; [done|by etrans; [exact Hp|exact Hs]|].
    pose proof (discard_moves_spec (E := IoError) (r_files s) (moves plan) (fun _ _ => True) Hpriv
      (ce_discard env) (r_disk s1)) as Hdis.
    assert (forall (l : list FileMove) an d0, exists d1 an1,
      discard_moves (E := IoError) l an d0 = IoOut (Ok tt) an1 d1) as Hok.
    { induction l as [|m l IH]; intros an d0; [by eexists _, _|]. cbn [discard_moves].
      unfold mbind, io_mbind, io_bind, attempt_io. cbn. apply IH. }
    unfold discard. destruct (Hok (moves plan) (ce_discard env) (r_disk s1)) as (d1 & an1 & Heq).
    rewrite Heq in *. cbn in *. apply Hdis. unfold r_files in Hf. by rewrite Hf.
  - apply outcome_unknown; [done|congruence|]. by rewrite Hf.
  - apply (outcome_pending _ a _ plan 0); [done..|]. exists d. split; [done|]. by rewrite Hf.
Qed.
End commit_outcome.

(** ** Steps *)

(** What happens to the repository, one lock holder at a time; a crash is a
    session in which everything after some point is refused. *)
Inductive repo_step (root : path) : repo -> repo -> Prop :=
| step_commit {A} (body : DB A) (c : Changes) env s r s' :
    Transparent body -> Steady body -> changes_ok c -> r_plan s = None ->
    commit body root c env s = (r, s') -> repo_step root s s'
| step_recover reads env s r s' :
    recover reads env s = (r, s') -> repo_step root s s'
| step_sweep now grace reads env dirs io s r s' :
    sweep root now grace reads env dirs io s = (r, s') -> repo_step root s s'
| step_staging s d :
    (** An upload arrives or a staging directory goes; what a pending plan is to
        move stays. *)
    (forall p, ~ (root ++ [".staging"] `prefix_of` p) \/ p ∈ (source <$> pending s) ->
       d_files d !! p = r_files s !! p) ->
    repo_step root s (with_disk s d)
| step_restart s :
    (** What was only in memory is gone. *)
    repo_step root s (Repo (r_db s) (r_plan s) (r_disk s) ∅)
| step_database s d :
    (** Everything else the server does to its database. *)
    repo_step root s (Repo d (r_plan s) (r_disk s) (r_retired s)).

Section steps.
Context (root : path).

Lemma repo_ok_none s : r_plan s = None -> listed_ok root (r_files s) -> repo_ok root s.
Proof.
  intros Hp Hl. unfold pending. split; unfold pending; rewrite Hp; [|apply Forall_nil_2|].
  - split; [apply NoDup_nil_2|]. by intros p ?%not_elem_of_nil.
  - intros k. by rewrite take_nil.
Qed.

Lemma repo_ok_files s : repo_ok root s -> listed_ok root (r_files s).
Proof. intros Hok. apply (ro_listed _ _ Hok 0). Qed.

(** A plan partly done, once more partly done. *)
Lemma repo_ok_part s s' k :
  repo_ok root s -> r_plan s' = r_plan s ->
  r_files s' = apply_moves (take k (pending s)) (r_files s) -> repo_ok root s'.
Proof.
  intros [Hp Hs Hl] Hplan Hf. assert (pending s' = pending s) as Heq
    by (unfold pending; by rewrite Hplan).
  split; rewrite Heq; [done|done|]. intros j. rewrite Hf, apply_moves_replay_part by done.
  apply Hl.
Qed.

Lemma recover_ok reads env s :
  repo_ok root s -> repo_ok root (recover reads env s).2 /\
    ((recover reads env s).1 = Done tt -> r_plan (recover reads env s).2 = None).
Proof.
  intros Hok. unfold recover. destruct reads; [|by split].
  destruct (r_plan s) as [plan|] eqn:Hp; [|by split].
  assert (pending s = moves plan) as Hpend by (unfold pending; by rewrite Hp).
  destruct (finalize_spec env plan s) as [s' Hd Hp' Hf|s' k Hd Hp' Hf].
  - split; [|done]. apply repo_ok_none; [done|]. rewrite Hf.
    pose proof (ro_listed _ _ Hok (length (moves plan))) as Hl. by rewrite Hpend, take_ge in Hl.
  - split; [|done]. apply (repo_ok_part s s' k); [done|done|]. by rewrite Hpend.
Qed.

Lemma commit_ok {A} (body : DB A) c env s :
  Transparent body -> Steady body -> changes_ok c -> r_plan s = None -> repo_ok root s ->
  repo_ok root (commit body root c env s).2.
Proof.
  intros Ht Hst Hc Hp Hok. pose proof (repo_ok_files s Hok) as Hl.
  destruct (commit_spec body root c env s Hc Hp)
    as [a s' plan Hrun Hp' (d & Hcp & Hf)|e s' Hd Hp' Hu|s' Hd Hp' Hu|a s' plan k Hrun Hp' (d & Hcp & Hf)].
  - apply repo_ok_none; [done|]. rewrite Hf. by eapply complete_listed.
  - apply repo_ok_none; [done|]. by eapply listed_ok_unseen.
  - apply repo_ok_none; [done|]. by eapply listed_ok_unseen.
  - pose proof (cp_staged _ _ _ _ _ _ Hcp) as Hst'.
    split; unfold pending; rewrite Hp'.
    + by eapply staged_plan_ok.
    + apply (st_private _ _ _ _ _ Hst').
    + intros j. rewrite Hf, apply_moves_replay_part by by eapply staged_plan_ok.
      by eapply complete_listed.
Qed.

(** Files that agree where they matter stay so along the moves. *)
Lemma apply_moves_agree (S : path -> Prop) l fs fs' :
  (forall p, p ∈ (source <$> l) -> S p) -> (forall p, S p -> fs' !! p = fs !! p) ->
  forall p, S p -> apply_moves l fs' !! p = apply_moves l fs !! p.
Proof.
  revert fs fs'; induction l as [|m l IH]; intros fs fs' Hs Ha; [done|].
  csimpl in Hs. cbn [apply_moves foldl]. fold (apply_moves l (apply_move fs m)).
  fold (apply_moves l (apply_move fs' m)). apply IH; [intros p Hp; apply Hs; by right|].
  intros p Hp. unfold apply_move. rewrite (Ha (source m)) by (apply Hs; left).
  destruct (fs !! source m) as [f|]; [|by apply Ha].
  destruct (decide (destination m = p)) as [->|]; [by rewrite !lookup_insert_eq|].
  rewrite !lookup_insert_ne by done.
  destruct (decide (source m = p)) as [->|]; [by rewrite !lookup_delete_eq|].
  rewrite !lookup_delete_ne by done. by apply Ha.
Qed.

Lemma not_staging platform name :
  ~ (root ++ [".staging"] `prefix_of` platform_dir root platform ++ [name]).
Proof.
  unfold platform_dir. rewrite <- app_assoc. intros Hp%prefix_app_inv.
  apply prefix_cons_inv_1 in Hp. by destruct platform.
Qed.

Lemma staging_ok s d :
  (forall p, ~ (root ++ [".staging"] `prefix_of` p) \/ p ∈ (source <$> pending s) ->
     d_files d !! p = r_files s !! p) ->
  repo_ok root s -> repo_ok root (with_disk s d).
Proof.
  intros Ha [Hp Hs Hl]. split; [done|done|]. intros k platform f. unfold pending, r_files. cbn.
  fold (pending s).
  assert (forall name, apply_moves (take k (pending s)) (d_files d) !!
    (platform_dir root platform ++ [name]) =
    apply_moves (take k (pending s)) (r_files s) !! (platform_dir root platform ++ [name])) as Heq.
  { intros name.
    apply (apply_moves_agree (fun p => ~ (root ++ [".staging"] `prefix_of` p) \/
      p ∈ (source <$> pending s))); [|done|left; apply not_staging].
    intros p Hin. right. by eapply take_sources. }
  unfold db_path, file_path. rewrite Heq. rewrite (members_agree (apply_moves (take k (pending s)) (r_files s)))
    by apply Heq. apply (Hl k platform f).
Qed.
End steps.

(** ** Sweeping *)

Section sweeping.
Context (root : path) (now grace : Z).

(** While a directory whose database lists [listed] is swept. *)
Definition sweeping (name : string) (members : list member) (d : disk) : Prop :=
  listed_ok root (d_files d) /\ d_files d !! (root ++ [name; DB_ARCHIVE]) = Some (Archive members).

Lemma package_file_not_db name : is_package_file name = true -> name <> DB_ARCHIVE.
Proof. by intros Hn ->. Qed.

(** Removing a package file its directory's database does not list. *)
Lemma sweeping_remove dir members d name log :
  sweeping dir members d -> is_package_file name = true ->
  default name (strip_suffix ".sig" name) ∉ listed_filenames members ->
  sweeping dir members (Disk (delete (root ++ [dir; name]) (d_files d)) log).
Proof.
  intros [Hl Hdb] Hname Hn. unfold sweeping. cbn [d_files].
  assert (forall p, p <> root ++ [dir; name] ->
    delete (root ++ [dir; name]) (d_files d) !! p = d_files d !! p) as Hd
    by (intros p Hp; by rewrite lookup_delete_ne).
  assert (forall platform, db_path root platform <> root ++ [dir; name]) as Hne.
  { intros platform. unfold db_path, platform_dir. rewrite <- app_assoc.
    intros [_ Heq]%app_inj_1; [|done]. injection Heq as _ Heq.
    by apply package_file_not_db in Hname. }
  split.
  - intros platform f. rewrite (members_agree (d_files d)) by apply Hd, Hne. intros Hf.
    destruct (Hl platform f Hf) as [Hp Hsome]. split; [done|]. rewrite Hd; [done|].
    unfold file_path, platform_dir. rewrite <- app_assoc. intros [_ Heq]%app_inj_1; [|done].
    injection Heq as <- <-. apply Hn. destruct Hp as (_ & Hsig & _). unfold ends_with in Hsig.
    destruct (strip_suffix ".sig" f); [done|]. cbn.
    unfold members_at, db_path, platform_dir in Hf. rewrite <- app_assoc in Hf. cbn in Hf.
    by rewrite Hdb in Hf.
  - rewrite Hd; [done|]. intros [_ Heq]%app_inj_1; [|done]. injection Heq as Heq.
    by apply package_file_not_db in Hname.
Qed.

Lemma sweep_entry_spec dir members acc name :
  io_triple (sweeping dir members)
    (sweep_entry now grace (root ++ [dir]) (listed_filenames members) acc name)
    (fun _ => sweeping dir members) (fun _ => sweeping dir members).
Proof.
  unfold sweep_entry. destruct (is_package_file name) eqn:Hn; [|by apply io_triple_ret].
  cbn [negb]. case_decide as Hl; [by apply io_triple_ret|].
  case_decide; [|by apply io_triple_ret].
  apply (io_triple_bind _ _ _ (fun _ => sweeping dir members)).
  - apply io_triple_attempt. rewrite <- app_assoc. apply io_triple_op.
    + intros d a fs Hd Hf. destruct (d_files d !! _); simplify_eq. by apply sweeping_remove.
    + intros d e fs Hd Hf. destruct (d_files d !! _); by simplify_eq.
    + by intros d Hd.
  - intros [u|[]]; [by apply io_triple_ret..| |];
      (apply (io_triple_bind _ _ _ (fun _ => sweeping dir members));
        [by apply io_triple_note|intros _; by apply io_triple_ret]).
Qed.

Lemma sweep_entries_spec dir members acc names :
  io_triple (sweeping dir members)
    (sweep_entries now grace (root ++ [dir]) (listed_filenames members) acc names)
    (fun _ => sweeping dir members) (fun _ => sweeping dir members).
Proof.
  revert acc; induction names as [|name names IH]; intros acc; cbn [sweep_entries];
    [by apply io_triple_ret|].
  apply (io_triple_bind _ _ _ (fun _ => sweeping dir members)); [apply sweep_entry_spec|].
  intros acc'. apply IH.
Qed.

Abbreviation all_listed := (fun d : disk => listed_ok root (d_files d)).

Lemma sweep_dir_spec acc entry :
  io_triple all_listed (sweep_dir root now grace acc entry) (fun _ => all_listed)
    (fun _ => all_listed).
Proof.
  destruct entry as [name names]. unfold sweep_dir.
  destruct (starts_with "." name); [by apply io_triple_ret|].
  apply (io_triple_bind _ _ _ (fun db d =>
    listed_ok root (d_files d) /\ d_files d !! (root ++ [name; DB_ARCHIVE]) = db)).
  { apply io_triple_look. intros d Hd. split; [done|]. by rewrite <- app_assoc. }
  intros [[content|members]|].
  - apply io_triple_ret. by intros d [? _].
  - eapply io_triple_conseq; [apply (sweep_entries_spec name members)|done|by intros a d [? _]..].
  - apply io_triple_ret. by intros d [? _].
Qed.

Lemma sweep_retired_spec acc dirs :
  io_triple all_listed (sweep_retired root now grace dirs acc) (fun _ => all_listed)
    (fun _ => all_listed).
Proof.
  revert acc; induction dirs as [|entry dirs IH]; intros acc; cbn [sweep_retired];
    [by apply io_triple_ret|].
  apply (io_triple_bind _ _ _ (fun _ => all_listed)); [apply sweep_dir_spec|].
  intros acc'. apply IH.
Qed.

Lemma recover_db reads env s : r_db (recover reads env s).2 = r_db s.
Proof.
  unfold recover. destruct reads; [|done]. destruct (r_plan s) as [plan|]; [|done].
  by destruct (finalize_spec env plan s).
Qed.

Lemma sweep_db reads env dirs io s : r_db (sweep root now grace reads env dirs io s).2 = r_db s.
Proof.
  unfold sweep. pose proof (recover_db reads env s) as Hdb.
  destruct (recover reads env s) as [[[]|e|] s1]; cbn [fst snd] in *; [|done..].
  destruct (io_result _); [|done]. by case_decide.
Qed.

Lemma sweep_ok reads env dirs io s :
  repo_ok root s -> repo_ok root (sweep root now grace reads env dirs io s).2.
Proof.
  intros Hok. unfold sweep. destruct (recover_ok root reads env s Hok) as [Hok' Hnone].
  destruct (recover reads env s) as [[[]|e|] s1]; cbn [fst snd] in *; [|done..].
  specialize (Hnone eq_refl).
  pose proof (sweep_retired_spec (mkSwept ∅ [] (r_retired s1)) dirs io (r_disk s1)
    (repo_ok_files root s1 Hok')) as Hs.
  destruct (io_result _) as [acc|e]; cbn [snd].
  - case_decide; apply repo_ok_none; done.
  - by apply repo_ok_none.
Qed.
End sweeping.

(** ** Recovering *)

(** The plan, begun or ended, of the files [files]. *)
Definition recovering (plan : Finalization) (files : fsys) (d : database) (s : repo) : Prop :=
  r_db s = d /\
  ((r_plan s = Some plan /\ exists k, r_files s = apply_moves (take k (moves plan)) files) \/
   (r_plan s = None /\ r_files s = apply_moves (moves plan) files)).

Lemma recovering_step plan files d reads env s :
  plan_ok (moves plan) -> recovering plan files d s ->
  recovering plan files d (recover reads env s).2.
Proof.
  intros Hok [Hd Hs]. unfold recover. destruct reads; [|done].
  destruct Hs as [[Hp [k Hf]]|[Hp Hf]]; rewrite Hp; [|by split; [|right]].
  destruct (finalize_spec env plan s) as [s' Hd' Hp' Hf'|s' j Hd' Hp' Hf'];
    (split; [congruence|]).
  - right. split; [done|]. by rewrite Hf', Hf, apply_moves_replay.
  - left. split; [congruence|]. exists (j `max` k). by rewrite Hf', Hf, apply_moves_replay_part.
Qed.

Lemma recovering_steps plan files d (envs : list (bool * finalize_env)) s :
  plan_ok (moves plan) -> recovering plan files d s ->
  recovering plan files d (foldl (fun s env => (recover env.1 env.2 s).2) s envs).
Proof.
  intros Hok. revert s; induction envs as [|env envs IH]; intros s Hs; [done|].
  apply IH. by apply recovering_step.
Qed.

Lemma recovering_answered plan files d now s :
  plan_ok (moves plan) -> recovering plan files d s ->
  (recover true (mkFinalizeEnv [] true now) s).1 = Done tt /\
  r_plan (recover true (mkFinalizeEnv [] true now) s).2 = None /\
  r_db (recover true (mkFinalizeEnv [] true now) s).2 = d /\
  r_files (recover true (mkFinalizeEnv [] true now) s).2 = apply_moves (moves plan) files.
Proof.
  intros Hok [Hd Hs]. unfold recover. destruct Hs as [[Hp [k Hf]]|[Hp Hf]]; rewrite Hp; [|done].
  pose proof (finalize_answered now plan s) as Hdone.
  destruct (finalize_spec (mkFinalizeEnv [] true now) plan s) as [s' Hd' Hp' Hf'|]; [|done].
  split_and!; [done..|congruence|]. by rewrite Hf', Hf, apply_moves_replay.
Qed.

(** ** Properties *)

(** C5. An update is all or nothing, however its transaction and its file
    operations are answered. Done: the caller's statements and nothing else were
    committed, no plan is left, and every file of the plan is in place. Refused:
    the database is untouched and nothing the file server serves changed. Pending:
    either that, or the caller's statements are committed together with the plan,
    and the files are as some first part of that plan leaves them. *)
Theorem commit_all_or_nothing {A} (body : DB A) root c env s :
  Transparent body -> Steady body -> changes_ok c -> r_plan s = None ->
  let '(r, s') := commit body root c env s in
  let untouched := r_db s' = r_db s /\ r_plan s' = None /\ unseen (r_files s) (r_files s') in
  match r with
  | Done a => run body (r_db s) = (Ok a, r_db s') /\ r_plan s' = None /\
      exists plan, mid_commit root c s plan s' (length (moves plan))
  | RefusedWith _ => untouched
  | FinalizationPending => untouched \/
      exists a plan k, run body (r_db s) = (Ok a, r_db s') /\ r_plan s' = Some plan /\
        mid_commit root c s plan s' k
  end.
Proof.
  intros Ht Hst Hc Hp. pose proof (commit_spec body root c env s Hc Hp) as Hspec.
  destruct (commit body root c env s) as [r s']; cbn [fst snd] in Hspec.
  destruct Hspec; [by eauto| |by left|right]; [done|].
  by exists a, plan, k.
Qed.


(** C25. A crash anywhere in a finalization costs nothing: however many recoveries
    were begun and broken off, wherever each stopped, the first one that is
    answered leaves exactly the files an undisturbed finalization would have, the
    same database, and no plan. *)
Theorem recovery_converges (envs : list (bool * finalize_env)) now s plan k files :
  plan_ok (moves plan) -> r_plan s = Some plan ->
  r_files s = apply_moves (take k (moves plan)) files ->
  let '(r, s') := recover true (mkFinalizeEnv [] true now)
    (foldl (fun s env => (recover env.1 env.2 s).2) s envs) in
  r = Done tt /\ r_plan s' = None /\ r_db s' = r_db s /\ r_files s' = apply_moves (moves plan) files.
Proof.
  intros Hok Hp Hf. assert (recovering plan files (r_db s) s) as Hs by (split; [done|left; eauto]).
  apply (recovering_steps plan files (r_db s) envs s Hok) in Hs.
  pose proof (recovering_answered plan files (r_db s) now _ Hok Hs) as Ha.
  by destruct (recover true _ _) as [r s'].
Qed.

(** C8. A client is never sent to a file that is not there: whatever updates,
    recoveries, sweeps, uploads, restarts and crashes a repository goes through,
    every file one of its databases lists is in that platform's directory, at every
    moment -- and will be at every moment of the recovery of a pending plan. *)
Theorem listed_files_exist root s s' :
  repo_ok root s -> rtc (repo_step root) s s' ->
  repo_ok root s' /\
  forall platform f, f ∈ listed_filenames (members_at (r_files s') (db_path root platform)) ->
    is_Some (r_files s' !! file_path root platform f).
Proof.
  intros Hok Hsteps. assert (repo_ok root s') as Hok'.
  { induction Hsteps as [s|s s1 s2 Hstep Hsteps IH]; [done|]. apply IH. clear IH Hsteps.
    destruct Hstep as [A body c env s r s' Ht Hst Hc Hp Heq|reads env s r s' Heq
      |now grace reads env dirs io s r s' Heq|s d Ha|s|s d].
    - pose proof (commit_ok root body c env s Ht Hst Hc Hp Hok) as H. by rewrite Heq in H.
    - pose proof (proj1 (recover_ok root reads env s Hok)) as H. by rewrite Heq in H.
    - pose proof (sweep_ok root now grace reads env dirs io s Hok) as H. by rewrite Heq in H.
    - by apply staging_ok.
    - by destruct Hok.
    - by destruct Hok. }
  split; [done|]. intros platform f Hf. by apply (repo_ok_files root s' Hok').
Qed.

(** ** Examples *)

Definition demo_root : path := ["repo"].
Definition demo_upload : path := ["repo"; ".staging"; "7"; "hello-2-1-x86_64.pkg.tar.zst"].

Definition demo_changes : Changes :=
  mkChanges [mkAddition x86 demo_upload (demo_entry "hello" "2-1")]
    [mkRetirement x86 "hello-1-1-x86_64.pkg.tar.zst"].

(** [hello] at its first version, its second one uploaded. *)
Definition demo_repo : repo :=
  Repo demo_db None
    (Disk (list_to_map
       [(["repo"; "x86_64"; DB_ARCHIVE], Archive (db_members (demo_entry "hello" "1-1")));
        (["repo"; "x86_64"; "hello-1-1-x86_64.pkg.tar.zst"], Bytes "one");
        (demo_upload, Bytes "two")]) [])
    ∅.

Lemma demo_changes_ok : changes_ok demo_changes.
Proof.
  split; [|apply (bool_decide_unpack _); vm_compute; exact I].
  apply Forall_singleton. split; [by exists ["repo"; ".staging"; "7"]|..];
    apply (bool_decide_unpack _); vm_compute; exact I.
Defined.

(** The server is stopped right after the transaction. *)
Definition demo_env (finalize : list bool) : commit_env :=
  mkCommitEnv [] [mkAttemptEnv None CommitRefused true] [] (mkFinalizeEnv finalize true 100).

Definition demo_commit (finalize : list bool) : ended unit * repo :=
  commit (query (fun _ => tt)) demo_root demo_changes (demo_env finalize) demo_repo.

Lemma commit_all_or_nothing_witness :
  (demo_commit []).1 = Done tt /\
  (exists plan, mid_commit demo_root demo_changes demo_repo plan (demo_commit []).2
     (length (moves plan))) /\
  listed_filenames (members_at (r_files (demo_commit []).2) ["repo"; "x86_64"; DB_ARCHIVE]) =
    ["hello-2-1-x86_64.pkg.tar.zst"].
Proof.
  assert ((demo_commit []).1 = Done tt) as Hr by (vm_compute; reflexivity).
  split_and!; [done| |vm_compute; reflexivity]. unfold demo_commit in *.
  pose proof (commit_all_or_nothing (query (fun _ => tt)) demo_root demo_changes (demo_env [])
    demo_repo _ _ demo_changes_ok eq_refl) as H.
  destruct (commit (query (fun _ => tt)) demo_root demo_changes (demo_env []) demo_repo) as [r s'].
  cbn [fst snd] in *. subst r. by destruct H as (_ & _ & H).
Defined.

(** A move of the demonstration's plan. *)
Definition demo_plan : Finalization :=
  mkPlan [mkMove ["repo"; ".staging"; "7"; "a.publishing"] ["repo"; "x86_64"; "a"];
          mkMove ["repo"; "x86_64"; ".next"] ["repo"; "x86_64"; "db"]] [].

Lemma recovery_converges_witness :
  let files : fsys := list_to_map [(["repo"; ".staging"; "7"; "a.publishing"], Bytes "a");
                                   (["repo"; "x86_64"; ".next"], Bytes "new");
                                   (["repo"; "x86_64"; "db"], Bytes "old")] in
  let s := Repo demo_db (Some demo_plan) (Disk files []) ∅ in
  let broken := foldl (fun s env => (recover env.1 env.2 s).2) s
    [(true, mkFinalizeEnv [true; true; false] true 1); (true, mkFinalizeEnv [false] true 2)] in
  r_files broken !! ["repo"; "x86_64"; "db"] = Some (Bytes "old") /\
  r_files (recover true (mkFinalizeEnv [] true 3) broken).2 = apply_moves (moves demo_plan) files.
Proof.
  intros files s broken. split; [vm_compute; reflexivity|].
  pose proof (recovery_converges
    [(true, mkFinalizeEnv [true; true; false] true 1); (true, mkFinalizeEnv [false] true 2)]
    3 s demo_plan 0 files ltac:(apply (bool_decide_unpack _); vm_compute; exact I) eq_refl eq_refl)
    as H.
  fold broken in H. destruct (recover true _ broken) as [r s']. by destruct H as (_ & _ & _ & H).
Defined.

Lemma demo_repo_ok : repo_ok demo_root demo_repo.
Proof.
  apply repo_ok_none; [done|]. intros platform f Hf.
  destruct platform; try (vm_compute in Hf; by apply not_elem_of_nil in Hf).
  vm_compute in Hf. apply list_elem_of_singleton in Hf as ->.
  split; apply (bool_decide_unpack _); vm_compute; exact I.
Defined.

(** The update is committed and the server stops before any file is moved. *)
Lemma listed_files_exist_witness :
  r_plan (demo_commit [false]).2 <> None /\
  repo_ok demo_root (demo_commit [false]).2.
Proof.
  split; [vm_compute; discriminate|].
  destruct (listed_files_exist demo_root demo_repo (demo_commit [false]).2 demo_repo_ok) as [H _].
  - apply rtc_once. apply (step_commit demo_root (query (fun _ => tt)) demo_changes (demo_env [false])
      demo_repo (demo_commit [false]).1).
    + apply _.
    + apply _.
    + exact demo_changes_ok.
    + reflexivity.
    + apply surjective_pairing.
  - exact H.
Defined.
