(* ===== verification/Publish.v ===== *)
(** * Publishing a build: what the database is told

    [backend/aurcache-utils/src/publish.rs]: who owns each published file and what
    goes stale ([plan]), the one transaction that records a published build
    ([record]), and the two ways a build leaves PUBLISHING ([settle], [fail]); with
    the reads of [repository.rs] they are decided from. *)
From S2P Require Import Prelude Text BuildState Sql Schema Lists BuildStatus Invariant Fixtures.
From S2P Require Import CompletionSpec.
#[local] Open Scope string_scope.
#[local] Open Scope list_scope.

(** ** Statements on [files] *)

(** The key of the unique index on [files]. *)
Definition file_key (f : files.Model) : string * Platform := (files.filename f, files.platform f).

(** A new row, before it has an id. *)
Record NewFile := mkNewFile {
  nf_filename : string;
  nf_platform : Platform;
  nf_package_id : Z;
  nf_size : option Z
}.

Fixpoint numbered (next : Z) (rows : list NewFile) : list files.Model :=
  match rows with
  | [] => []
  | r :: rows =>
      files.mk (nf_filename r) next (nf_platform r) (nf_package_id r) (nf_size r) ::
      numbered (next + 1) rows
  end.

(** [files::Entity::insert_many(rows).exec(db)] *)
Definition insert_files (rows : list NewFile) : DB unit :=
  statement (fun d =>
    let l := t_files d ++ numbered (next_file_id d) rows in
    if decide (NoDup (file_key <$> l))
    then Ok (tt, Database (t_builds d) (t_packages d) (t_workers d) (t_dependencies d) l
                   (next_build_id d) (next_file_id d + Z.of_nat (length rows)) (t_worker_settings d) (t_settings d)
                   (next_worker_id d) (next_worker_setting_id d)
    (next_setting_id d) (t_vcs_sources d))
    else Err Constraint).

(** The rows an [UPDATE] of [files] by id leaves. *)
Definition updated_file (id : Z) (cols : list files.col_expr) (l : list files.Model) :
    list files.Model :=
  (fun f => if decide (files.id f = id) then files.assign cols f else f) <$> l.

(** [files::ActiveModel { id, .. }.update(db)]: a row that is gone is an error. *)
Definition update_file (id : Z) (cols : list files.col_expr) : DB unit :=
  statement (fun d =>
    if decide (id ∈ (files.id <$> t_files d))
    then Ok (tt, with_files (updated_file id cols (t_files d)) d)
    else Err (Custom "None of the records are updated")).

(** [Files::delete_many().filter(Id.is_in(ids)).exec(db)] *)
Definition delete_files (ids : list Z) : DB unit :=
  statement (fun d =>
    Ok (tt, with_files (filter (fun f => files.id f ∉ (ids : list Z)) (t_files d)) d)).

(** ** What an update reads ([repository.rs]) *)

Definition published_files (platform : Platform) (filenames : list string) :
    DB (gmap string files.Model) :=
  if decide (filenames = []) then mret ∅
  else
    rows ← query (fun d =>
      filter (fun f => files.filename f ∈ (filenames : list string) /\ files.platform f = platform)
        (t_files d));
    mret (collect_map ((fun row => (files.filename row, row)) <$> rows)).

Definition published_files_of (pkg_ids : list Z) : DB (list files.Model) :=
  query (fun d => filter (fun f => files.package_id f ∈ (pkg_ids : list Z)) (t_files d)).

(** ** [plan] *)

(** A staged file that was described: its name and its size. *)
Record StagedFile := mkStaged {
  sf_filename : string;
  sf_size : Z
}.

Record FileRow := mkFileRow {
  fr_filename : string;
  fr_existing : option Z;
  fr_size : Z
}.

Record Plan := mkPublishPlan {
  pl_rows : list FileRow;
  pl_stale : list files.Model;
  pl_version : string;
  pl_total_size : Z
}.

(** [i64] addition as a release build computes it. *)
Definition i64_wrap (n : Z) : Z := (n + 9223372036854775808) mod 18446744073709551616 - 9223372036854775808.
Definition total_size (described : list StagedFile) : Z :=
  foldl (fun sum staged => i64_wrap (sum + sf_size staged)) 0%Z described.

(** One turn of the loop over the staged files. *)
Definition plan_row (pkg_id : Z) (known : gmap string files.Model) (staged : StagedFile) :
    DB (list FileRow) :=
  let existing := known !! sf_filename staged in
  _ ← match existing with
      | Some row =>
          if decide (files.package_id row <> pkg_id) then
            owners ← query (fun d => length (filter
              (fun p => packages.id p = files.package_id row) (t_packages d)));
            depends ← query (fun d => length (filter
              (fun e => dependencies.dependent_id e = files.package_id row /\
                        dependencies.dependee_id e = pkg_id) (t_dependencies d)));
            if decide (0 < owners /\ depends = 0)
            then sql_fail (Custom ("File '" +:+ sf_filename staged +:+
                   "' is already produced by another package"))
            else mret tt
          else mret tt
      | None => mret tt
      end;
  mret [mkFileRow (sf_filename staged) (files.id <$> existing) (sf_size staged)].

Definition plan (pkg : packages.Model) (platform : Platform) (described : list StagedFile)
    (version : string) : DB Plan :=
  known ← published_files platform (sf_filename <$> described);
  rows ← for_collect (plan_row (packages.id pkg) known) described;
  published ← published_files_of [packages.id pkg];
  let stale := filter (fun file => files.platform file = platform /\
                         files.filename file ∉ (sf_filename <$> described)) published in
  mret (mkPublishPlan rows stale version (total_size described)).

(** ** [record] *)

Section record.
Context (clock build_id : Z) (pkg : packages.Model) (platform : Platform) (p : Plan).

Definition record_cols : list builds.col_expr :=
  [builds.Set_version (pl_version p); builds.Set_size (Some (pl_total_size p));
   builds.Set_end_time (Some clock)].

Definition new_rows : list NewFile :=
  (fun row => mkNewFile (fr_filename row) platform (packages.id pkg) (Some (fr_size row))) <$>
    filter (fun row => fr_existing row = None) (pl_rows p).

Definition update_row (row : FileRow) : DB unit :=
  match fr_existing row with
  | Some id =>
      update_file id [files.Set_package_id (packages.id pkg); files.Set_size (Some (fr_size row))]
  | None => mret tt
  end.

Definition record : DB unit :=
  marked ← update_builds record_cols (fun b => builds.id b = build_id /\ builds.status b = Publishing);
  if decide (marked = 0)
  then sql_fail (Custom "the build is no longer being published")
  else
    _ ← (if decide (new_rows = []) then mret tt else insert_files new_rows);
    _ ← for_each update_row (pl_rows p);
    _ ← (if decide (pl_stale p = []) then mret tt else delete_files (files.id <$> pl_stale p));
    _ ← update_packages
          [packages.Set_out_of_date false; packages.Set_upstream_version (Some (pl_version p))]
          (fun q => packages.id q = packages.id pkg);
    refresh_package_status (packages.id pkg).
End record.

(** ** Leaving PUBLISHING *)

Definition recorded (build : builds.Model) : bool := bool_decide (is_Some (builds.size build)).

Definition settle (build : builds.Model) : DB Transition :=
  transition build [Publishing] Successful [] (fun _ => True).

Definition fail (clock : Z) (build : builds.Model) : DB Transition :=
  transition build [Publishing] Failed [builds.Set_end_time (Some clock)] (fun _ => True).

(** [interrupted]: [staged] is what [read_dir] lists of the staging root, read as
    build ids. *)
Definition interrupted (staged : list Z) : DB (list Z) :=
  publishing ← find_builds (fun b => builds.status b = Publishing);
  successful ← for_collect (fun id =>
      build ← find_build_by_id id;
      mret (match build with
            | Some b => if decide (builds.status b = Successful) then [id] else []
            | None => []
            end)) staged;
  mret (Lists.dedup (merge_sort Z.le ((builds.id <$> publishing) ++ successful))).

(** ** Rows of [files] *)

(** What the table's primary key and unique index require of it. *)
Record files_ok (d : database) : Prop := {
  fk_keys : NoDup (file_key <$> t_files d);
  fk_ids : NoDup (files.id <$> t_files d);
  fk_fresh : Forall (fun f => files.id f < next_file_id d)%Z (t_files d)
}.

Lemma numbered_ids next rows f : f ∈ numbered next rows -> (next <= files.id f)%Z.
Proof.
  revert next; induction rows as [|r rows IH]; intros next; [by intros ?%not_elem_of_nil|].
  intros [-> |Hf]%elem_of_cons; [done|]. apply IH in Hf. lia.
Qed.

Lemma numbered_bound next rows f :
  f ∈ numbered next rows -> (files.id f < next + Z.of_nat (length rows))%Z.
Proof.
  revert next; induction rows as [|r rows IH]; intros next; [by intros ?%not_elem_of_nil|].
  intros [-> |Hf]%elem_of_cons; cbn [length]; [simpl; lia|]. apply IH in Hf. lia.
Qed.

Lemma numbered_NoDup next rows : NoDup (files.id <$> numbered next rows).
Proof.
  revert next; induction rows as [|r rows IH]; intros next; csimpl; [apply NoDup_nil_2|].
  apply NoDup_cons. split; [|apply IH]. intros (f & Heq & Hf)%list_elem_of_fmap.
  apply numbered_ids in Hf. lia.
Qed.

Lemma numbered_elem next rows f :
  f ∈ numbered next rows -> exists r, r ∈ rows /\ files.filename f = nf_filename r /\
    files.platform f = nf_platform r /\ files.package_id f = nf_package_id r.
Proof.
  revert next; induction rows as [|r rows IH]; intros next; [by intros ?%not_elem_of_nil|].
  intros [-> |Hf]%elem_of_cons; [exists r; split; [left|done]|].
  destruct (IH _ Hf) as (r' & Hr & ?). exists r'. split; [by right|done].
Qed.

Lemma numbered_of next rows r :
  r ∈ rows -> exists f, f ∈ numbered next rows /\ files.filename f = nf_filename r /\
    files.platform f = nf_platform r /\ files.package_id f = nf_package_id r.
Proof.
  revert next; induction rows as [|r' rows IH]; intros next; [by intros ?%not_elem_of_nil|].
  intros [-> |Hr]%elem_of_cons; cbn [numbered].
  - eexists. split; [left|done].
  - destruct (IH (next + 1)%Z Hr) as (f & Hf & ?). exists f. split; [by right|done].
Qed.

Lemma numbered_keys next rows :
  file_key <$> numbered next rows = (fun r => (nf_filename r, nf_platform r)) <$> rows.
Proof. revert next; induction rows as [|r rows IH]; intros next; csimpl; [done|]. by rewrite IH. Qed.

(** What the loop of updates makes of one row. *)
Definition rehomed (pkg_id : Z) (rows : list FileRow) (f : files.Model) : files.Model :=
  foldl (fun f row =>
    match fr_existing row with
    | Some id =>
        if decide (files.id f = id)
        then files.assign [files.Set_package_id pkg_id; files.Set_size (Some (fr_size row))] f else f
    | None => f
    end) f rows.

Lemma rehomed_keeps pkg_id rows f :
  files.id (rehomed pkg_id rows f) = files.id f /\ file_key (rehomed pkg_id rows f) = file_key f.
Proof.
  revert f; induction rows as [|row rows IH]; intros f; [done|]. cbn [rehomed foldl].
  fold (rehomed pkg_id rows). destruct (fr_existing row) as [i|]; [|apply IH].
  case_decide; [|apply IH].
  exact (IH (files.assign [files.Set_package_id pkg_id; files.Set_size (Some (fr_size row))] f)).
Qed.

Lemma rehomed_owner pkg_id rows f :
  files.package_id f = pkg_id -> files.package_id (rehomed pkg_id rows f) = pkg_id.
Proof.
  revert f; induction rows as [|row rows IH]; intros f Hf; [done|]. cbn [rehomed foldl].
  fold (rehomed pkg_id rows). apply IH. destruct (fr_existing row); [|done]. by case_decide.
Qed.

Lemma rehomed_in pkg_id rows f :
  Some (files.id f) ∈ (fr_existing <$> rows) -> files.package_id (rehomed pkg_id rows f) = pkg_id.
Proof.
  revert f; induction rows as [|row rows IH]; intros f; csimpl; [by intros ?%not_elem_of_nil|].
  cbn [rehomed foldl]. fold (rehomed pkg_id rows). rewrite elem_of_cons. intros [Heq|Hin].
  - rewrite <- Heq, decide_True by done. by apply rehomed_owner.
  - apply IH. destruct (fr_existing row); [|done]. by case_decide.
Qed.

Lemma rehomed_out pkg_id rows f :
  Some (files.id f) ∉ (fr_existing <$> rows) -> rehomed pkg_id rows f = f.
Proof.
  induction rows as [|row rows IH]; csimpl; [done|]. rewrite not_elem_of_cons. intros [Hne Hin].
  cbn [rehomed foldl]. fold (rehomed pkg_id rows).
  destruct (fr_existing row) as [i|]; [|by apply IH].
  rewrite decide_False by congruence. by apply IH.
Qed.

Lemma rehomed_cons pkg_id row rows f :
  rehomed pkg_id (row :: rows) f =
    rehomed pkg_id rows
      match fr_existing row with
      | Some id =>
          if decide (files.id f = id)
          then files.assign [files.Set_package_id pkg_id; files.Set_size (Some (fr_size row))] f else f
      | None => f
      end.
Proof. done. Qed.

Lemma run_update_rows pkg rows d :
  (forall row id, row ∈ rows -> fr_existing row = Some id -> id ∈ (files.id <$> t_files d)) ->
  run (for_each (update_row pkg) rows) d =
    (Ok tt, with_files (rehomed (packages.id pkg) rows <$> t_files d) d).
Proof.
  revert d; induction rows as [|row rows IH]; intros d Hin.
  { cbn [for_each]. unfold mret, sql_mret. rewrite run_ret. f_equal.
    assert (rehomed (packages.id pkg) [] <$> t_files d = t_files d) as ->; [|by destruct d].
    apply list_fmap_id. }
  assert (forall row, Steady (update_row pkg row)) as Hst.
  { intros r. unfold update_row, update_file. destruct (fr_existing r); apply _. }
  cbn [for_each]. unfold mbind, sql_mbind. rewrite run_bind by apply _.
  unfold update_row at 1, update_file. destruct (fr_existing row) as [i|] eqn:He.
  - rewrite run_statement, decide_True by (apply (Hin row); [left|done]). rewrite IH.
    + f_equal. unfold with_files, updated_file. cbn. f_equal. rewrite <- list_fmap_compose.
      apply list_fmap_ext. intros _ f _. by rewrite rehomed_cons, He.
    + intros r j Hr Hj. cbn. specialize (Hin r j ltac:(by right) Hj).
      unfold updated_file. rewrite <- list_fmap_compose.
      apply list_elem_of_fmap in Hin as (f & -> & Hf). apply list_elem_of_fmap. exists f.
      split; [|done]. cbn. by case_decide.
  - unfold mret, sql_mret. rewrite run_ret, IH by (intros r j Hr; apply Hin; by right).
    do 2 f_equal. apply list_fmap_ext. intros _ f _. by rewrite rehomed_cons, He.
Qed.

(** ** Planning *)

Section planning.
Context (pkg : packages.Model) (platform : Platform) (described : list StagedFile)
  (version : string).

Abbreviation names := (sf_filename <$> described).

(** The row that holds a name on the platform. *)
Definition file_at (d : database) (name : string) : option files.Model :=
  head (filter (fun f => files.filename f = name /\ files.platform f = platform) (t_files d)).

(** A file this package may publish: nobody's, its own, a package's that is gone,
    or a package's that depends on this one. *)
Definition may_take (d : database) (staged : StagedFile) : Prop :=
  match file_at d (sf_filename staged) with
  | None => True
  | Some row =>
      files.package_id row = packages.id pkg \/
      files.package_id row ∉ (packages.id <$> t_packages d) \/
      exists e, e ∈ t_dependencies d /\ dependencies.dependent_id e = files.package_id row /\
        dependencies.dependee_id e = packages.id pkg
  end.

Definition row_of (d : database) (staged : StagedFile) : FileRow :=
  mkFileRow (sf_filename staged) (files.id <$> file_at d (sf_filename staged)) (sf_size staged).

Definition stale_of (d : database) : list files.Model :=
  filter (fun f => files.platform f = platform /\ files.filename f ∉ names)
    (filter (fun f => files.package_id f ∈ [packages.id pkg]) (t_files d)).

Definition the_plan (d : database) : Plan :=
  mkPublishPlan (row_of d <$> described) (stale_of d) version (total_size described).

Lemma file_at_Some d name f :
  file_at d name = Some f -> f ∈ t_files d /\ files.filename f = name /\ files.platform f = platform.
Proof. unfold file_at. by intros [? [? ?]]%head_filter_elem. Qed.

Lemma file_at_elem d f :
  NoDup (file_key <$> t_files d) -> f ∈ t_files d -> files.platform f = platform ->
  file_at d (files.filename f) = Some f.
Proof.
  intros Hnd Hf Hp. destruct (file_at d (files.filename f)) as [g|] eqn:Hg.
  - apply file_at_Some in Hg as (Hg & Hn & Hq).
    f_equal. apply (NoDup_fmap_inj_elem file_key (t_files d)); [done..|].
    unfold file_key. congruence.
  - exfalso. eapply (head_filter_None _ _ Hg f); [exact Hf|done].
Qed.

Lemma file_at_None d name f :
  file_at d name = None -> f ∈ t_files d -> files.platform f = platform -> files.filename f <> name.
Proof. intros Hn Hf Hp Heq. by apply (head_filter_None _ _ Hn f Hf). Qed.

(** The names that are known, by the one query. *)
Lemma run_published_files d :
  NoDup (file_key <$> t_files d) ->
  exists known, run (published_files platform names) d = (Ok known, d) /\
    forall name, name ∈ names -> known !! name = file_at d name.
Proof.
  intros Hnd. unfold published_files. case_decide as He.
  { exists ∅. split; [done|]. rewrite He. by intros name ?%not_elem_of_nil. }
  unfold mbind, sql_mbind. rewrite run_bind, run_query by apply _.
  unfold mret, sql_mret. rewrite run_ret. eexists. split; [done|]. intros name Hname.
  set (l := filter _ (t_files d)).
  assert (forall f, f ∈ l <-> f ∈ t_files d /\ files.filename f ∈ names /\ files.platform f = platform)
    as Hl by (intros f; unfold l; rewrite list_elem_of_filter; tauto).
  assert (NoDup ((fun row => (files.filename row, row)) <$> l).*1) as Hk.
  { rewrite <- list_fmap_compose. assert (l `sublist_of` t_files d) as Hsub by apply sublist_filter.
    assert (NoDup (file_key <$> l)) as Hnl by (eapply sublist_NoDup; [exact Hnd|by apply fmap_sublist]).
    clear -Hnl Hl. assert (Forall (fun f => files.platform f = platform) l) as Hp
      by (apply Forall_forall; intros f Hf; by apply Hl).
    clear Hl. induction l as [|f l IH]; csimpl in *; [apply NoDup_nil_2|].
    apply NoDup_cons in Hnl as [Hf Hnl]. apply Forall_cons in Hp as [Hp Hps].
    apply NoDup_cons. split; [|by apply IH]. intros (g & Heq & Hg)%list_elem_of_fmap. apply Hf.
    apply list_elem_of_fmap. exists g. rewrite Forall_forall in Hps. split; [|done].
    unfold file_key. rewrite Hp, (Hps g Hg). f_equal. exact Heq. }
  destruct (file_at d name) as [f|] eqn:Hf.
  - apply collect_map_lookup; [done|]. apply file_at_Some in Hf as (Hf & <- & Hp).
    apply list_elem_of_fmap. exists f. split; [done|]. by apply Hl.
  - destruct (collect_map _ !! name) as [f|] eqn:Hm; [|done].
    apply collect_map_lookup in Hm; [|done]. apply list_elem_of_fmap in Hm as (g & [= -> ->] & Hg).
    apply Hl in Hg as (Hg & _ & Hp). by destruct (file_at_None d _ g Hf Hg Hp).
Qed.

Lemma length_filter_pos {A} (P : A -> Prop) `{!forall x, Decision (P x)} (l : list A) :
  0 < length (filter P l) <-> exists x, x ∈ l /\ P x.
Proof.
  split.
  - destruct (filter P l) as [|x k] eqn:Hf; simpl; [lia|]. intros _. exists x.
    apply and_comm. apply (list_elem_of_filter P l x). rewrite Hf. left.
  - intros (x & Hx & HP). assert (x ∈ filter P l) as Hin by by apply list_elem_of_filter.
    destruct (filter P l); [by apply not_elem_of_nil in Hin|simpl; lia].
Qed.

Lemma run_plan_row known staged d :
  known !! sf_filename staged = file_at d (sf_filename staged) ->
  (may_take d staged /\ run (plan_row (packages.id pkg) known staged) d = (Ok [row_of d staged], d)) \/
  (~ may_take d staged /\ exists e, run (plan_row (packages.id pkg) known staged) d = (Err e, d)).
Proof.
  intros Hk. unfold plan_row, may_take, row_of. rewrite Hk.
  destruct (file_at d (sf_filename staged)) as [row|]; [|by left].
  unfold mbind, sql_mbind. rewrite run_bind by sql_class.
  destruct (decide (files.package_id row = packages.id pkg)) as [Hp|Hp].
  { left. split; [by left|]. by rewrite (decide_False (P := _ <> _)) by auto. }
  rewrite (decide_True (P := _ <> _)) by done.
  rewrite run_bind, run_query by sql_class. rewrite run_bind, run_query by sql_class.
  case_decide as Ht.
  - right. split; [|by eexists]. destruct Ht as [Ho Hd].
    apply length_filter_pos in Ho as (q & Hq & Hid). intros [?|[Hn|(e & He & Hdep)]]; [done| |].
    + apply Hn. rewrite <- Hid. by apply list_elem_of_fmap_2.
    + assert (0 < length (filter (fun e => dependencies.dependent_id e = files.package_id row /\
        dependencies.dependee_id e = packages.id pkg) (t_dependencies d)))
        by (apply length_filter_pos; eauto). lia.
  - left. split; [|done]. right. apply not_and_l in Ht as [Ht|Ht].
    + left. intros (q & Heq & Hq)%list_elem_of_fmap. apply Ht, length_filter_pos. by exists q.
    + right. destruct (decide (0 < length (filter (fun e => dependencies.dependent_id e =
        files.package_id row /\ dependencies.dependee_id e = packages.id pkg) (t_dependencies d))))
        as [Hpos|]; [|lia].
      apply length_filter_pos in Hpos as (e & He & ?). eauto.
Qed.

Lemma run_plan_rows known l d :
  (forall staged, staged ∈ l -> known !! sf_filename staged = file_at d (sf_filename staged)) ->
  (Forall (may_take d) l /\
     run (for_collect (plan_row (packages.id pkg) known) l) d = (Ok (row_of d <$> l), d)) \/
  (Exists (fun staged => ~ may_take d staged) l /\
     exists e, run (for_collect (plan_row (packages.id pkg) known) l) d = (Err e, d)).
Proof.
  assert (forall staged, Steady (plan_row (packages.id pkg) known staged)) as Hst.
  { intros staged. unfold plan_row. sql_class. }
  induction l as [|staged l IH]; intros Hk; [by left|]. cbn [for_collect].
  unfold mbind, sql_mbind. rewrite run_bind by apply _.
  destruct (run_plan_row known staged d (Hk staged ltac:(left))) as [[Hm ->]|[Hm [e ->]]].
  - rewrite run_bind by apply _. destruct IH as [[Hl ->]|[Hl [e ->]]].
    + intros x Hx. apply Hk. by right.
    + left. split; [by constructor|done].
    + right. split; [by right|by eexists].
  - right. split; [by left|by eexists].
Qed.

(** Planning reads only; it succeeds exactly where every file may be taken. *)
Lemma run_plan d :
  NoDup (file_key <$> t_files d) ->
  (Forall (may_take d) described /\
     run (plan pkg platform described version) d = (Ok (the_plan d), d)) \/
  (Exists (fun staged => ~ may_take d staged) described /\
     exists e, run (plan pkg platform described version) d = (Err e, d)).
Proof.
  intros Hnd. destruct (run_published_files d Hnd) as (known & Hrun & Hk).
  assert (Steady (published_files platform names)) as Hs1.
  { unfold published_files. sql_class. }
  assert (Steady (for_collect (plan_row (packages.id pkg) known) described)) as Hs2.
  { apply for_collect_steady. intros staged. unfold plan_row. sql_class. }
  unfold plan, mbind, sql_mbind. rewrite run_bind, Hrun by apply _.
  rewrite run_bind by apply _. unfold published_files_of.
  destruct (run_plan_rows known described d) as [[Hm ->]|[Hm [e ->]]].
  - intros staged Hs. apply Hk. by apply list_elem_of_fmap_2.
  - left. split; [done|]. rewrite run_bind, run_query by apply _. done.
  - right. eauto.
Qed.
End planning.

(** ** Recording *)

(** The same builds, packages and dependencies, with other files. *)
Definition with_new_files (l : list files.Model) (n : Z) (d : database) : database :=
  Database (t_builds d) (t_packages d) (t_workers d) (t_dependencies d) l (next_build_id d)
    (next_file_id d + n) (t_worker_settings d) (t_settings d)
    (next_worker_id d) (next_worker_setting_id d)
    (next_setting_id d) (t_vcs_sources d).

Lemma inv_files pkg_id l n d : Inv_except pkg_id d -> Inv_except pkg_id (with_new_files l n d).
Proof. intros [Hwf Hl Hs]. split; [|exact Hl|exact Hs]. by destruct Hwf. Qed.

Section recording.
Context (clock build_id : Z) (pkg : packages.Model) (platform : Platform) (p : Plan).

Definition record_guard (b : builds.Model) : Prop :=
  builds.id b = build_id /\ builds.status b = Publishing.
#[local] Instance record_guard_dec b : Decision (record_guard b).
Proof. unfold record_guard. apply _. Defined.

Definition recorded_files (d : database) : list files.Model :=
  filter (fun f => files.id f ∉ (files.id <$> pl_stale p))
    (rehomed (packages.id pkg) (pl_rows p) <$>
       (t_files d ++ numbered (next_file_id d) (new_rows pkg platform p))).

Definition package_cols : list packages.col_expr :=
  [packages.Set_out_of_date false; packages.Set_upstream_version (Some (pl_version p))].

Definition recorded_db (d : database) : database :=
  let d := with_builds (updated (record_cols clock p) record_guard (t_builds d)) d in
  let d := with_new_files (recorded_files d) (Z.of_nat (length (new_rows pkg platform p))) d in
  refreshed (packages.id pkg)
    (with_packages (updated_packages package_cols (fun q => packages.id q = packages.id pkg)
       (t_packages d)) d).

Lemma record_good d b :
  wf d -> b ∈ t_builds d -> builds.id b = build_id -> builds.pkg_id b = packages.id pkg ->
  good_write (packages.id pkg) (record_cols clock p) record_guard d.
Proof.
  intros [[Hi _ _] _ _ _ _] Hb Hid Hpk. split.
  - intros a Ha [Haid _]. rewrite (ids_inj (t_builds d) a b); [done..|congruence].
  - intros a Ha [_ Hst]. cbn. unfold in_progress. rewrite Hst. by intros ?.
  - intros a Ha [_ Hst]. unfold lifecycle_ok. cbn. rewrite Hst.
    intros (Hw & Hl & Hr & _). by split_and!.
  - intros a _ [_ Hst]. split; [cbn; by rewrite Hst|by eexists].
Qed.

Lemma run_record d :
  builds_indexes (updated (record_cols clock p) record_guard (t_builds d)) ->
  filter record_guard (t_builds d) <> [] ->
  NoDup (file_key <$> (t_files d ++ numbered (next_file_id d) (new_rows pkg platform p))) ->
  (forall row id, row ∈ pl_rows p -> fr_existing row = Some id -> id ∈ (files.id <$> t_files d)) ->
  run (record clock build_id pkg platform p) d = (Ok tt, recorded_db d).
Proof.
  intros Hi Hf Hk He. unfold record, mbind, sql_mbind.
  assert (forall row, Steady (update_row pkg row)) as Hst.
  { intros r. unfold update_row, update_file. destruct (fr_existing r); apply _. }
  rewrite run_bind by apply _. rewrite run_update_builds by done.
  change (fun b => builds.id b = build_id /\ builds.status b = Publishing) with record_guard.
  rewrite decide_False by (destruct (filter record_guard (t_builds d)); done).
  set (d1 := with_builds _ d). set (l := t_files d ++ _) in *.
  assert (run (if decide (new_rows pkg platform p = []) then mret tt
    else insert_files (new_rows pkg platform p)) d1 =
    (Ok tt, with_new_files l (Z.of_nat (length (new_rows pkg platform p))) d1)) as Hins.
  { case_decide as Hn; [|unfold insert_files; by rewrite run_statement, decide_True].
    unfold l. rewrite Hn. cbn [numbered length]. rewrite app_nil_r. unfold with_new_files.
    rewrite Z.add_0_r. unfold mret, sql_mret. rewrite run_ret. by destruct d. }
  rewrite run_bind, Hins by (case_decide; apply _). set (d2 := with_new_files l _ d1).
  rewrite run_bind by apply _. rewrite run_update_rows.
  2:{ intros row i Hr Hex. cbn. unfold l. rewrite fmap_app. apply elem_of_app. left. by eapply He. }
  set (d3 := with_files _ d2).
  assert (run (if decide (pl_stale p = []) then mret tt else delete_files (files.id <$> pl_stale p)) d3 =
    (Ok tt, with_files (recorded_files d) d3)) as Hdel.
  { destruct (decide (pl_stale p = [])) as [Hn|Hn]; [|done].
    unfold mret, sql_mret. rewrite run_ret. unfold recorded_files. rewrite Hn.
    rewrite filter_all; [by destruct d|]. intros f _. csimpl. apply not_elem_of_nil. }
  rewrite run_bind, Hdel by (case_decide; apply _).
  rewrite run_bind by apply _. rewrite run_update_packages, run_refresh. done.
Qed.

(** No row to mark: nothing is recorded. *)
Lemma run_record_refused d :
  builds_indexes (t_builds d) -> filter record_guard (t_builds d) = [] ->
  exists e, run (record clock build_id pkg platform p) d = (Err e, d).
Proof.
  intros Hi Hf. pose proof (updated_none (record_cols clock p) record_guard _ Hf) as Hsame.
  pose proof (run_update_builds (record_cols clock p) record_guard d) as Hu.
  rewrite Hsame, Hf in Hu. specialize (Hu Hi).
  unfold record, mbind, sql_mbind. rewrite run_bind by apply _.
  match goal with |- context [run ?m d] =>
    replace (run m d) with (Ok (E := DbErr) 0, with_builds (t_builds d) d) by (symmetry; exact Hu)
  end.
  rewrite decide_True by done. eexists. rewrite run_fail. by destruct d.
Qed.

Lemma recorded_db_files d : t_files (recorded_db d) = recorded_files d.
Proof. unfold recorded_db, refreshed. repeat case_match; done. Qed.

Lemma recorded_db_builds d :
  t_builds (recorded_db d) = updated (record_cols clock p) record_guard (t_builds d).
Proof. unfold recorded_db. by rewrite refreshed_builds. Qed.

Lemma recorded_inv d b :
  Inv d -> b ∈ t_builds d -> builds.id b = build_id -> builds.pkg_id b = packages.id pkg ->
  Inv (recorded_db d).
Proof.
  intros Hd Hb Hid Hpk. unfold recorded_db. apply inv_refresh.
  apply inv_packages; [by intros []..|]. apply inv_files.
  apply good_write_except; [by apply inv_except_of|]. by eapply record_good; [apply Hd|..].
Qed.
End recording.

(** ** What is published afterwards *)

Section published.
Context (pkg : packages.Model) (platform : Platform) (described : list StagedFile)
  (version : string) (d : database).
Context (Hok : files_ok d) (Hnames : NoDup (sf_filename <$> described)).

Abbreviation p := (the_plan pkg platform described version d).
Abbreviation fresh := (new_rows pkg platform p).
Abbreviation all_rows := (t_files d ++ numbered (next_file_id d) fresh).

Lemma fresh_elem r :
  r ∈ fresh <-> exists staged, staged ∈ described /\ file_at platform d (sf_filename staged) = None /\
    r = mkNewFile (sf_filename staged) platform (packages.id pkg) (Some (sf_size staged)).
Proof.
  unfold new_rows, the_plan. cbn [pl_rows]. rewrite list_elem_of_fmap. split.
  - intros (row & -> & [Hn Hr]%list_elem_of_filter).
    apply list_elem_of_fmap in Hr as (staged & -> & Hs). exists staged. split; [done|].
    cbn in Hn. split; [by destruct (file_at _ _ _)|done].
  - intros (staged & Hs & Hn & ->). exists (row_of platform d staged). split; [done|].
    apply list_elem_of_filter. split; [cbn; by rewrite Hn|]. by apply list_elem_of_fmap_2.
Qed.

Lemma existing_elem i :
  Some i ∈ (fr_existing <$> pl_rows p) <-> exists staged f, staged ∈ described /\
    file_at platform d (sf_filename staged) = Some f /\ files.id f = i.
Proof.
  unfold the_plan. cbn [pl_rows]. rewrite <- list_fmap_compose, list_elem_of_fmap. split.
  - intros (staged & Heq & Hs). cbn in Heq.
    destruct (file_at platform d (sf_filename staged)) as [f|] eqn:Hf; [|done].
    injection Heq as ->. eauto.
  - intros (staged & f & Hs & Hf & <-). exists staged. split; [|done]. cbn. by rewrite Hf.
Qed.

Lemma stale_elem f :
  f ∈ pl_stale p <-> f ∈ t_files d /\ files.package_id f = packages.id pkg /\
    files.platform f = platform /\ files.filename f ∉ (sf_filename <$> described).
Proof.
  unfold the_plan, stale_of. cbn [pl_stale].
  rewrite !list_elem_of_filter, list_elem_of_singleton. tauto.
Qed.

Lemma stale_id f :
  f ∈ t_files d -> files.id f ∈ (files.id <$> pl_stale p) -> f ∈ pl_stale p.
Proof.
  intros Hf (g & Heq & Hg)%list_elem_of_fmap. rewrite <- (NoDup_fmap_inj_elem files.id (t_files d) g f);
    [done|apply Hok|by apply stale_elem|done|done].
Qed.

Lemma fresh_keys : NoDup (file_key <$> all_rows).
Proof.
  rewrite fmap_app, numbered_keys. apply NoDup_app. split_and!; [apply Hok| |].
  - intros k (f & -> & Hf)%list_elem_of_fmap (r & Heq & Hr)%list_elem_of_fmap.
    apply fresh_elem in Hr as (staged & Hs & Hn & ->). injection Heq as Hname Hp.
    by apply (file_at_None _ _ _ f Hn).
  - unfold new_rows, the_plan. cbn [pl_rows]. rewrite <- list_fmap_compose.
    clear Hok. induction described as [|staged l IH]; csimpl in *; [apply NoDup_nil_2|].
    apply NoDup_cons in Hnames as [Hs Hl]. rewrite filter_cons. specialize (IH Hl).
    case_decide; [|done]. csimpl. apply NoDup_cons. split; [|done].
    intros (row & Heq & [_ Hr]%list_elem_of_filter)%list_elem_of_fmap.
    apply list_elem_of_fmap in Hr as (staged' & -> & Hs'). cbn in Heq. injection Heq as Heq.
    apply Hs. rewrite Heq. by apply list_elem_of_fmap_2.
Qed.

Lemma existing_there row i :
  row ∈ pl_rows p -> fr_existing row = Some i -> i ∈ (files.id <$> t_files d).
Proof.
  intros Hr He. assert (Some i ∈ (fr_existing <$> pl_rows p)) as Hin
    by (rewrite <- He; by apply list_elem_of_fmap_2).
  apply existing_elem in Hin as (staged & f & _ & Hf & <-). apply file_at_Some in Hf as [Hf _].
  by apply list_elem_of_fmap_2.
Qed.

(** After the recording, on this platform the package publishes exactly the names
    described. *)
Lemma recorded_names name :
  (exists f, f ∈ recorded_files pkg platform p d /\ files.filename f = name /\
     files.platform f = platform /\ files.package_id f = packages.id pkg) <->
  name ∈ (sf_filename <$> described).
Proof.
  unfold recorded_files. split.
  - intros (f & Hf & <- & Hp & Hown). apply list_elem_of_filter in Hf as [Hst Hf].
    apply list_elem_of_fmap in Hf as (g & -> & Hg).
    destruct (rehomed_keeps (packages.id pkg) (pl_rows p) g) as [Hid Hkey].
    rewrite Hid in Hst. unfold file_key in Hkey. apply pair_equal_spec in Hkey as [Hname Hpl].
    rewrite Hname. rewrite Hpl in Hp. apply elem_of_app in Hg as [Hg|Hg].
    + destruct (decide (files.filename g ∈ (sf_filename <$> described))) as [|Hn]; [done|].
      exfalso. rewrite rehomed_out in Hown.
      * apply Hst, list_elem_of_fmap_2. apply stale_elem. by split_and!.
      * intros Hin. apply existing_elem in Hin as (staged & f & Hs & Hf & Hid').
        apply file_at_Some in Hf as (Hf & Hfn & _).
        assert (f = g) as -> by (by apply (NoDup_fmap_inj_elem files.id (t_files d)); [apply Hok|..]).
        apply Hn. rewrite Hfn. by apply list_elem_of_fmap_2.
    + apply numbered_elem in Hg as (r & Hr & -> & _). apply fresh_elem in Hr as (staged & Hs & _ & ->).
      cbn [nf_filename]. by apply list_elem_of_fmap_2.
  - intros (staged & -> & Hs)%list_elem_of_fmap.
    destruct (file_at platform d (sf_filename staged)) as [f|] eqn:Hf.
    + pose proof (file_at_Some _ _ _ _ Hf) as (Hin & Hn & Hp).
      destruct (rehomed_keeps (packages.id pkg) (pl_rows p) f) as [Hid Hkey].
      unfold file_key in Hkey. apply pair_equal_spec in Hkey as [Hname Hpl].
      exists (rehomed (packages.id pkg) (pl_rows p) f). split_and!; [|congruence..|].
      * apply list_elem_of_filter. split.
        -- rewrite Hid. intros Hst%stale_id; [|done]. apply stale_elem in Hst as (_ & _ & _ & Hst).
           apply Hst. rewrite Hn. by apply list_elem_of_fmap_2.
        -- apply list_elem_of_fmap_2, elem_of_app. by left.
      * apply rehomed_in, existing_elem. eauto.
    + assert (mkNewFile (sf_filename staged) platform (packages.id pkg) (Some (sf_size staged)) ∈ fresh)
        as Hr by (apply fresh_elem; eauto).
      destruct (numbered_of (next_file_id d) _ _ Hr) as (f & Hin & Hn & Hp & Ho). cbn in Hn, Hp, Ho.
      destruct (rehomed_keeps (packages.id pkg) (pl_rows p) f) as [Hid Hkey].
      unfold file_key in Hkey. apply pair_equal_spec in Hkey as [Hname Hpl].
      exists (rehomed (packages.id pkg) (pl_rows p) f). split_and!; [|congruence..|by apply rehomed_owner].
      apply list_elem_of_filter. split.
      * rewrite Hid. intros (g & Heq & Hg)%list_elem_of_fmap. apply stale_elem in Hg as (Hg & _).
        pose proof (fk_fresh d Hok) as Hfr. rewrite Forall_forall in Hfr. specialize (Hfr g Hg).
        apply numbered_ids in Hin. simpl in Hfr. lia.
      * apply list_elem_of_fmap_2, elem_of_app. by right.
Qed.

(** Everyone else's files are as they were. *)
Lemma recorded_others f :
  files.platform f <> platform \/
  (files.package_id f <> packages.id pkg /\ files.filename f ∉ (sf_filename <$> described)) ->
  f ∈ t_files d -> f ∈ recorded_files pkg platform p d.
Proof.
  intros Hother Hf. unfold recorded_files. apply list_elem_of_filter. split.
  - intros Hst%stale_id; [|done]. apply stale_elem in Hst as (_ & Ho & Hp & _).
    by destruct Hother as [?|[? _]].
  - apply list_elem_of_fmap. exists f. split; [|apply elem_of_app; by left].
    rewrite rehomed_out; [done|]. intros (staged & g & Hs & Hg & Hid)%existing_elem.
    apply file_at_Some in Hg as (Hg & Hn & Hp).
    assert (g = f) as -> by (by apply (NoDup_fmap_inj_elem files.id (t_files d)); [apply Hok|..]).
    destruct Hother as [?|[_ Hnn]]; [done|]. apply Hnn. rewrite Hn. by apply list_elem_of_fmap_2.
Qed.

Lemma recorded_files_ok clock build_id :
  files_ok (recorded_db clock build_id pkg platform p d).
Proof.
  assert (forall i d, t_files (refreshed i d) = t_files d /\ next_file_id (refreshed i d) = next_file_id d)
    as Href by (intros i e; unfold refreshed; repeat case_match; done).
  unfold recorded_db. split.
  - rewrite (proj1 (Href _ _)). cbn. unfold recorded_files. cbn.
    eapply sublist_NoDup; [|apply fmap_sublist, sublist_filter].
    rewrite <- list_fmap_compose. rewrite (list_fmap_ext _ file_key all_rows); [apply fresh_keys|].
    intros _ f _. by apply rehomed_keeps.
  - rewrite (proj1 (Href _ _)). cbn. unfold recorded_files. cbn.
    eapply sublist_NoDup; [|apply fmap_sublist, sublist_filter].
    rewrite <- list_fmap_compose, (list_fmap_ext _ files.id all_rows);
      [|intros _ f _; by apply rehomed_keeps].
    rewrite fmap_app. apply NoDup_app. split_and!; [apply Hok| |apply numbered_NoDup].
    intros i (f & -> & Hf)%list_elem_of_fmap (g & Heq & Hg)%list_elem_of_fmap.
    pose proof (fk_fresh d Hok) as Hfr. rewrite Forall_forall in Hfr. specialize (Hfr f Hf).
    apply numbered_ids in Hg. simpl in Hfr. lia.
  - rewrite (proj1 (Href _ _)), (proj2 (Href _ _)). cbn. unfold recorded_files. cbn.
    apply Forall_forall. intros f [_ (g & -> & Hg)%list_elem_of_fmap]%list_elem_of_filter.
    pose proof (proj1 (rehomed_keeps (packages.id pkg) (pl_rows p) g)) as Hid.
    cbn [compose pl_rows the_plan] in *. rewrite Hid.
    apply elem_of_app in Hg as [Hg|Hg].
    + pose proof (fk_fresh d Hok) as Hfr. rewrite Forall_forall in Hfr. specialize (Hfr g Hg).
      simpl in Hfr. lia.
    + by apply numbered_bound in Hg.
Qed.
End published.

(** ** Leaving PUBLISHING *)

Lemma settle_good build d :
  known build d ->
  (forall b, b ∈ t_builds d -> builds.id b = builds.id build -> is_Some (builds.size b)) ->
  good_write (builds.pkg_id build) [builds.Set_status Successful]
    (transition_guard build [Publishing] (fun _ => True)) d.
Proof.
  intros Hk Hsz. split.
  - intros a Ha (_ & Hid & _). by apply (known_pkg build d).
  - intros a _ _ Hp. by apply elem_of_IN_PROGRESS in Hp.
  - intros a Ha (_ & Hid & Hs%list_elem_of_singleton). unfold lifecycle_ok. rewrite Hs. cbn.
    specialize (Hsz a Ha Hid). tauto.
  - intros a _ (_ & _ & Hs%list_elem_of_singleton). split; [by rewrite Hs|done].
Qed.

Lemma fail_good clock build d :
  known build d ->
  good_write (builds.pkg_id build) [builds.Set_status Failed; builds.Set_end_time (Some clock)]
    (transition_guard build [Publishing] (fun _ => True)) d.
Proof.
  intros Hk. split.
  - intros a Ha (_ & Hid & _). by apply (known_pkg build d).
  - intros a _ _ Hp. by apply elem_of_IN_PROGRESS in Hp.
  - intros a _ (_ & _ & Hs%list_elem_of_singleton). unfold lifecycle_ok. rewrite Hs. cbn.
    intros (_ & Hl & _). by split.
  - intros a _ (_ & _ & Hs%list_elem_of_singleton). split; [by rewrite Hs|done].
Qed.

Definition settled (b : builds.Model) : builds.Model :=
  builds.assign [builds.Set_status Successful] b.
Definition failed_at (clock : Z) (b : builds.Model) : builds.Model :=
  builds.assign [builds.Set_status Failed; builds.Set_end_time (Some clock)] b.

(** ** Properties *)

(** [app]'s old file on ARM, and a file of [libfoo]'s that [app], depending on it,
    may not take - [libfoo] may take [app]'s. *)
Definition demo_files_db : database :=
  Database (t_builds demo_db) (t_packages demo_db) (t_workers demo_db) (t_dependencies demo_db)
    [files.mk "app-2.9-1-aarch64.pkg.tar.zst" 1 arm 3 (Some 10%Z);
     files.mk "libfoo-2.0-1-aarch64.pkg.tar.zst" 2 arm 2 (Some 20%Z);
     files.mk "app-data-3.0-1-any.pkg.tar.zst" 3 arm 3 None]
    6 4 (t_worker_settings demo_db) (t_settings demo_db) 4 3 2 (t_vcs_sources demo_db).

Definition demo_app : packages.Model := demo_package 3 "app" Publishing None [x86; arm].
Definition demo_described : list StagedFile :=
  [mkStaged "app-3.0-1-aarch64.pkg.tar.zst" 11; mkStaged "app-data-3.0-1-any.pkg.tar.zst" 5].

#[export] Instance files_ok_dec d : Decision (files_ok d).
Proof.
  destruct (decide (NoDup (file_key <$> t_files d) /\ NoDup (files.id <$> t_files d) /\
    Forall (fun f => files.id f < next_file_id d)%Z (t_files d))) as [H|H].
  - left. by destruct H as (?&?&?).
  - right. intros [???]. by apply H.
Defined.

(** Planning a publication reads and changes nothing, and it succeeds exactly
    where every file the build produced is free for it: unpublished on the
    platform, already the package's own, left behind by a package that is gone, or
    a package's that depends on the one being published. One file another package
    produces refuses the whole build. *)
Theorem plan_takes_only_its_own pkg platform described version d :
  files_ok d ->
  let o := run (plan pkg platform described version) d in
  o.2 = d /\
  (Forall (may_take pkg platform d) described <-> exists p, o.1 = Ok p) /\
  forall p, o.1 = Ok p -> pl_version p = version /\
    pl_rows p = row_of platform d <$> described /\
    forall f, f ∈ pl_stale p <-> f ∈ t_files d /\ files.package_id f = packages.id pkg /\
      files.platform f = platform /\ files.filename f ∉ (sf_filename <$> described).
Proof.
  intros Hok. destruct (run_plan pkg platform described version d (fk_keys d Hok))
    as [[Hm ->]|[Hm [e ->]]]; cbn [fst snd]; (split; [done|]); split.
  - split; [by eexists|done].
  - intros p [= <-]. split_and!; [done..|]. apply stale_elem.
  - split; [|by intros [? ?]]. intros Hall. exfalso.
    apply Exists_exists in Hm as (x & Hx & Hn). rewrite Forall_forall in Hall. by apply Hn, Hall.
  - done.
Qed.

Lemma plan_takes_only_its_own_witness :
  files_ok demo_files_db /\
  (run (plan demo_app arm demo_described "3.0-1") demo_files_db).2 = demo_files_db /\
  is_ok (run (plan demo_app arm demo_described "3.0-1") demo_files_db).1 = true /\
  is_ok (run (plan demo_app arm [mkStaged "libfoo-2.0-1-aarch64.pkg.tar.zst" 7] "3.0-1")
    demo_files_db).1 = false.
Proof.
  assert (files_ok demo_files_db) as Hok by (apply (bool_decide_unpack _); vm_compute; exact I).
  split; [exact Hok|]. split; [|split; vm_compute; reflexivity].
  destruct (plan_takes_only_its_own demo_app arm demo_described "3.0-1" demo_files_db Hok) as [H _].
  exact H.
Defined.

(** C9. A build being published is recorded whole: once its files are planned, the
    transaction that records them succeeds; afterwards the package publishes
    exactly the described names on that platform - the new ones inserted, the known
    ones taken over, the stale ones gone - every other package's and platform's file
    is as it was, the build holds its version, its size and its end, still
    publishing, and the tables stay well formed. A build no longer publishing is
    refused, and nothing of it is recorded. *)
Theorem record_publishes_exactly clock pkg platform described version d p b :
  Inv d -> files_ok d -> NoDup (sf_filename <$> described) ->
  b ∈ t_builds d -> builds.pkg_id b = packages.id pkg ->
  run (plan pkg platform described version) d = (Ok p, d) ->
  let o := run (record clock (builds.id b) pkg platform p) d in
  (builds.status b = Publishing ->
     o.1 = Ok tt /\ Inv o.2 /\ files_ok o.2 /\
     (forall name, (exists f, f ∈ t_files o.2 /\ files.filename f = name /\
        files.platform f = platform /\ files.package_id f = packages.id pkg) <->
        name ∈ (sf_filename <$> described)) /\
     (forall f, f ∈ t_files d -> files.platform f <> platform \/
        files.package_id f <> packages.id pkg /\ files.filename f ∉ (sf_filename <$> described) ->
        f ∈ t_files o.2) /\
     t_builds o.2 = replaced b (builds.assign (record_cols clock p) b) (t_builds d)) /\
  (builds.status b <> Publishing -> (exists e, o.1 = Err e) /\ o.2 = d).
Proof.
  intros Hd Hok Hnames Hb Hpk Hplan.
  destruct (run_plan pkg platform described version d (fk_keys d Hok)) as [[_ Hr]|[_ [e Hr]]];
    rewrite Hplan in Hr; [|done]. injection Hr as ->.
  assert (forall a, a ∈ t_builds d -> builds.id a = builds.id b -> a = b) as Hinj
    by (intros a Ha; by apply (ids_inj (t_builds d)); [apply Hd|..]).
  split; intros Hst.
  - set (p := the_plan _ _ _ _ _).
    pose proof (record_good clock (builds.id b) pkg p d b (inv_wf d Hd) Hb eq_refl Hpk) as Hgw.
    rewrite run_record.
    + cbn [fst snd]. split_and!; [done|by eapply recorded_inv|by apply recorded_files_ok| | |].
      * intros name. rewrite recorded_db_files. by apply recorded_names.
      * intros f Hf Ho. rewrite recorded_db_files. by apply recorded_others.
      * rewrite recorded_db_builds.
        apply (updated_replaced (record_cols clock p) (record_guard (builds.id b)));
          [apply Hd|done|done|]. by intros a [? _].
    + apply (good_write_indexes (packages.id pkg)); [apply Hd|exact Hgw].
    + intros Hf. by apply (proj1 (filter_nil_iff _ _) Hf b Hb).
    + by apply fresh_keys.
    + apply existing_there.
  - destruct (run_record_refused clock (builds.id b) pkg platform
      (the_plan pkg platform described version d) d) as [e ->];
      [apply Hd| |cbn [fst snd]; by eauto].
    apply filter_nil_iff. intros a Ha [Hid Hs]. apply Hst. by rewrite <- (Hinj a Ha Hid).
Qed.

Definition demo_plan : Plan :=
  the_plan demo_app arm demo_described "3.0-1" demo_files_db.

Lemma record_publishes_exactly_witness :
  (Inv demo_files_db /\ files_ok demo_files_db) /\
  Inv (run (record 980 5 demo_app arm demo_plan) demo_files_db).2 /\
  t_files (run (record 980 5 demo_app arm demo_plan) demo_files_db).2 =
    [files.mk "libfoo-2.0-1-aarch64.pkg.tar.zst" 2 arm 2 (Some 20%Z);
     files.mk "app-data-3.0-1-any.pkg.tar.zst" 3 arm 3 (Some 5%Z);
     files.mk "app-3.0-1-aarch64.pkg.tar.zst" 4 arm 3 (Some 11%Z)].
Proof.
  assert (Inv demo_files_db) as Hd by (apply check_inv_sound; vm_compute; reflexivity).
  assert (files_ok demo_files_db) as Hok by (apply (bool_decide_unpack _); vm_compute; exact I).
  split; [by split|]. split; [|vm_compute; reflexivity].
  destruct (record_publishes_exactly 980 demo_app arm demo_described "3.0-1" demo_files_db demo_plan
    demo_publishing Hd Hok) as [H _].
  - apply (bool_decide_unpack _); vm_compute; exact I.
  - apply (bool_decide_unpack _); vm_compute; exact I.
  - vm_compute; reflexivity.
  - vm_compute; reflexivity.
  - destruct (H eq_refl) as (_ & Hi & _). exact Hi.
Defined.

(** A build leaves PUBLISHING once, whichever way. Over any connection,
    marking it successful (its files recorded) or failed either reports an error
    and changes nothing, or finds it no longer publishing and changes nothing, or
    writes exactly that row: the size and the end it was recorded with kept on
    success, the end set on failure. The invariant holds throughout. *)
Theorem publishing_ends_once clock build left d :
  Inv d -> known build d ->
  let gone o := o_db o = d /\
    forall b, b ∈ t_builds d -> builds.id b = builds.id build -> builds.status b ∉ [Publishing] in
  let moved f o := exists b, b ∈ t_builds d /\ builds.id b = builds.id build /\
    builds.status b ∈ [Publishing] /\ t_builds (o_db o) = replaced b (f b) (t_builds d) in
  let decides f o := Inv (o_db o) /\
    match o_result o with
    | Err _ => o_db o = d
    | Ok Unchanged => gone o
    | Ok Moved => moved f o
    end in
  ((forall b, b ∈ t_builds d -> builds.id b = builds.id build -> is_Some (builds.size b)) ->
     decides settled (settle build left d)) /\
  decides (failed_at clock) (fail clock build left d).
Proof.
  intros Hd Hk. cbv zeta. split; [intros Hsz|].
  - exact (transition_decides build [Publishing] Successful [] left d Hd (settle_good build d Hk Hsz)).
  - exact (transition_decides build [Publishing] Failed [builds.Set_end_time (Some clock)] left d Hd
      (fail_good clock build d Hk)).
Qed.

Lemma publishing_ends_once_witness :
  (Inv demo_db /\ known demo_publishing demo_db) /\
  Inv (o_db (fail 990 demo_publishing None demo_db)) /\
  o_result (fail 990 demo_publishing None demo_db) = Ok Moved /\
  o_result (fail 990 demo_built None demo_db) = Ok Unchanged.
Proof.
  assert (known demo_publishing demo_db) as Hk.
  { apply known_elem; [apply demo_wf|]. apply (bool_decide_unpack _); vm_compute; exact I. }
  split; [split; [apply demo_inv|exact Hk]|]. split; [|split; vm_compute; reflexivity].
  destruct (publishing_ends_once 990 demo_publishing None demo_db demo_inv Hk) as [_ [H _]].
  exact H.
Defined.
