(* ===== verification/FirstBuilds.v ===== *)
(** * Queueing what has no build yet

    [backend/aurcache-utils/src/package/enqueue.rs]: the builds a package starts
    with when it is added ([trigger_initial_builds]) and the scan at startup that
    queues or releases whatever was left behind
    ([enqueue_missing_buildable_packages]). *)
From S2P Require Import Prelude Text BuildState Sql Schema Version Lists BuildStatus.
From S2P Require Import Invariant Fixtures BuildEnqueue Effects Completion CompletionSpec Dependents.
#[local] Open Scope string_scope.
#[local] Open Scope list_scope.

(** The pairs of a list of numbers a loop adds up. *)
Definition sum (l : list nat) : nat := foldr Nat.add 0 l.

Definition build_exists_for_platform (pkg_id : Z) (platform : Platform) : DB bool :=
  n ← query (fun d => length (filter (fun b => builds.pkg_id b = pkg_id /\
                                       builds.platform b = platform) (t_builds d)));
  mret (bool_decide (n <> 0)).

Section first.
Context `{Alpm} (clock : Z).

(** [enqueue.rs]'s own [dependencies_satisfied]. *)
Definition satisfied_for (dependent_id : Z) (platform : Platform) : DB bool :=
  deps ← query (fun d => filter (fun dep => dependencies.dependent_id dep = dependent_id)
                           (t_dependencies d));
  dependencies_satisfied deps platform.

(** One turn of the loop over the platforms: the build it inserted, if it did. *)
Definition trigger_one (pkg : packages.Model) (pending : Pending.Pending) (platform : Platform) :
    Sql world DbErr (list BuildRef) :=
  enqueue_result ← on_db (enqueue_build_if_missing (packages.id pkg) platform
    (default "" (packages.upstream_version pkg)) clock pending User);
  mret (if decide (enq_queued enqueue_result = Inserted)
        then [mkBuildRef (packages.name pkg) (builds.number (enq_build enqueue_result))] else []).

(** The count is of the inserted builds that can start. *)
Definition trigger_build_for_package (platforms : list Platform) (pkg : packages.Model)
    (pending : Pending.Pending) : Sql world DbErr nat :=
  inserted ← for_collect (trigger_one pkg pending) platforms;
  _ ← (if decide (inserted = []) then mret tt
       else emit (BuildQueued (packages.name pkg) QueueCause.First inserted
                    (packages.upstream_version pkg) None None));
  mret (match pending with Pending.Enqueued => length inserted | Pending.WaitingForDeps => 0 end).

(** ** [trigger_initial_builds] *)

(** Whether the package can start on the platform. *)
Definition can_start (has_deps : list Z) (pkg : packages.Model) (platform : Platform) :
    Sql world DbErr bool :=
  if decide (packages.id pkg ∉ has_deps) then mret true
  else on_db (satisfied_for (packages.id pkg) platform).

Definition trigger_pkgbase (platforms : list Platform) (pkgs : gmap string packages.Model)
    (has_deps : list Z) (pkgbase : string) : Sql world DbErr unit :=
  match pkgs !! pkgbase with
  | None => mret tt
  | Some pkg =>
      split ← for_collect (fun platform =>
        ok ← can_start has_deps pkg platform; mret [(platform, ok)]) platforms;
      let ready := (filter (fun p => p.2 = true) split).*1 in
      let waiting := (filter (fun p => p.2 = false) split).*1 in
      for_each (fun batch =>
        if decide (batch.1 = []) then mret tt
        else _ ← trigger_build_for_package batch.1 pkg batch.2; mret tt)
        [(ready, Pending.Enqueued); (waiting, Pending.WaitingForDeps)]
  end.

Definition trigger_initial_builds (platforms : list Platform) (pkgbases : list string) :
    Sql world DbErr unit :=
  if decide (pkgbases = []) then mret tt
  else
    pkgs ← on_db (query (fun d => collect_map ((fun p => (packages.name p, p)) <$>
             filter (fun p => packages.name p ∈ (pkgbases : list string)) (t_packages d))));
    if decide (pkgs = (∅ : gmap string packages.Model)) then mret tt
    else
      has_deps ← on_db (query (fun d => dependencies.dependent_id <$>
        filter (fun dep => dependencies.dependent_id dep ∈
                 ((fun kv => packages.id kv.2) <$> map_to_list pkgs)) (t_dependencies d)));
      for_each (trigger_pkgbase platforms pkgs has_deps) pkgbases.

(** ** [enqueue_missing_buildable_packages] *)

Definition scan_one (pkg : packages.Model) (platform : Platform) : Sql world DbErr nat :=
  deps_ok ← on_db (satisfied_for (packages.id pkg) platform);
  pending ← on_db (pending_build (packages.id pkg) platform);
  match pending with
  | Some b =>
      if decide (builds.status b = WaitingForDeps) then
        if (deps_ok : bool) then
          promoted ← on_db (promote_waiting_build (packages.id pkg) platform);
          match promoted with
          | None => mret 0
          | Some promoted =>
              _ ← emit (BuildUnblocked (mkBuildRef (packages.name pkg) (builds.number promoted)) None);
              mret 1
          end
        else mret 0
      else mret 0
  | None =>
      exists_ ← on_db (build_exists_for_platform (packages.id pkg) platform);
      if (exists_ : bool) then mret 0
      else trigger_build_for_package [platform] pkg
             (if deps_ok then Pending.Enqueued else Pending.WaitingForDeps)
  end.

(** Every package on every platform it is configured for. *)
Definition slots_of (l : list packages.Model) : list (packages.Model * Platform) :=
  l ≫= fun pkg => (pkg,.) <$> default [] (packages.platforms pkg).

Definition enqueue_missing_buildable_packages : Sql world DbErr nat :=
  packages ← on_db (query t_packages);
  queued ← for_collect (fun slot => n ← scan_one slot.1 slot.2; mret [n]) (slots_of packages);
  mret (sum queued).

(** ** What a scan leaves *)

(** Waiting builds that could go do, the rest stay; a new build waits only where it
    must. *)
Record scans (d d' : database) : Prop := {
  sc_inv : Inv d';
  sc_views : pkg_view <$> t_packages d' = pkg_view <$> t_packages d;
  sc_deps : t_dependencies d' = t_dependencies d;
  sc_ready : forall platform i, ready d' platform i <-> ready d platform i;
  sc_old : forall b, b ∈ t_builds d -> b ∈ t_builds d' \/
    (builds.status b = WaitingForDeps /\ ready d (builds.platform b) (builds.pkg_id b) /\
     builds.set (builds.Set_status Enqueued) b ∈ t_builds d');
  sc_new : forall a, a ∈ t_builds d' -> builds.status a = WaitingForDeps ->
    a ∈ t_builds d \/ ~ ready d (builds.platform a) (builds.pkg_id a)
}.

Lemma scans_refl d : Inv d -> scans d d.
Proof. intros Hd. split; auto. Qed.

Lemma scans_trans d d1 d2 : scans d d1 -> scans d1 d2 -> scans d d2.
Proof.
  intros [I1 V1 D1 R1 O1 N1] [I2 V2 D2 R2 O2 N2]. split; [done|congruence|congruence|..].
  - intros platform i. by rewrite R2.
  - intros b Hb. destruct (O1 b Hb) as [Hb1|(Hw & Hr & Hb1)].
    + destruct (O2 b Hb1) as [?|(Hw & Hr & ?)]; [by left|]. right. by rewrite <- R1.
    + right. split_and!; [done..|]. destruct (O2 _ Hb1) as [?|(Hw' & _)]; [done|]. done.
  - intros a Ha Hw. destruct (N2 a Ha Hw) as [Ha1|Hn]; [by apply N1|]. right. by rewrite <- R1.
Qed.

(** The slot has a build, and none that waits without need. *)
Definition settled_slot (d : database) (i : Z) (platform : Platform) : Prop :=
  (exists b, b ∈ t_builds d /\ slot_key b = (i, platform)) /\
  forall a, a ∈ t_builds d -> slot_key a = (i, platform) -> builds.status a = WaitingForDeps ->
    ~ ready d platform i.

Lemma settled_scans d d' i platform : scans d d' -> settled_slot d i platform -> settled_slot d' i platform.
Proof.
  intros Hs [(b & Hb & Hk) Hw]. split.
  - destruct (sc_old _ _ Hs b Hb) as [?|(_ & _ & ?)]; eauto.
  - intros a Ha Hka Hst. rewrite (sc_ready _ _ Hs).
    destruct (sc_new _ _ Hs a Ha Hst) as [?|Hn]; [eauto|].
    apply slot_key_eq in Hka as [<- <-]. done.
Qed.

(** ** The operations *)

Lemma run_satisfied_for i platform d :
  run (satisfied_for i platform) d =
    (Ok (forallb (dep_ready (t_builds d) platform) (deps_of d i)), d).
Proof.
  unfold satisfied_for, mbind, sql_mbind. rewrite run_bind, run_query by apply _.
  by rewrite run_dependencies_satisfied.
Qed.

#[local] Instance satisfied_steady i platform : Steady (satisfied_for i platform).
Proof. unfold satisfied_for. sql_class. Qed.
#[local] Instance trigger_one_steady pkg pending platform : Steady (trigger_one pkg pending platform).
Proof. unfold trigger_one. sql_class. Qed.
#[local] Instance exists_steady i platform : Steady (build_exists_for_platform i platform).
Proof. unfold build_exists_for_platform. sql_class. Qed.
#[local] Instance pending_build_steady i platform : Steady (pending_build i platform).
Proof. unfold pending_build. apply _. Qed.
#[local] Instance trigger_build_steady platforms pkg pending :
  Steady (trigger_build_for_package platforms pkg pending).
Proof. unfold trigger_build_for_package. sql_class. Qed.
#[local] Instance scan_one_steady pkg platform : Steady (scan_one pkg platform).
Proof. unfold scan_one. sql_class. Qed.

Lemma ready_appended d d' row platform i :
  t_builds d' = t_builds d ++ [row] -> builds.status row <> Successful ->
  t_dependencies d' = t_dependencies d -> ready d' platform i <-> ready d platform i.
Proof.
  intros Hrows Hst Hdeps. unfold ready, deps_of. rewrite Hdeps, Hrows.
  assert (forall dep, dep_ready (t_builds d ++ [row]) platform dep = dep_ready (t_builds d) platform dep)
    as Heq.
  { intros dep. unfold dep_ready, successful_version, newest_success.
    rewrite filter_app, filter_cons, decide_False by (intros (_ & ? & _); done).
    by rewrite filter_nil, app_nil_r. }
  assert (forall l, forallb (dep_ready (t_builds d ++ [row]) platform) l
    = forallb (dep_ready (t_builds d) platform) l) as ->; [|done].
  induction l as [|dep l IH]; simpl; [done|]. by rewrite IH, Heq.
Qed.

(** Inserting the first build of a slot. *)
Lemma scans_appended pkg platform pending d :
  Inv d -> packages.id pkg ∈ (packages.id <$> t_packages d) ->
  pending_row (t_builds d) (packages.id pkg) platform = None ->
  (pending = Pending.WaitingForDeps -> ~ ready d platform (packages.id pkg)) ->
  (pending = Pending.Enqueued -> ready d platform (packages.id pkg)) ->
  let e := enqueued_db d (packages.id pkg) platform (default "" (packages.upstream_version pkg))
             clock pending User in
  scans d e.2 /\
  ((forall b, b ∈ t_builds d -> slot_key b <> (packages.id pkg, platform)) ->
     settled_slot e.2 (packages.id pkg) platform).
Proof.
  intros Hd Hpkg Hnone Hwait Hok. cbv zeta.
  pose proof (enqueued_keeps_inv (packages.id pkg) platform (default "" (packages.upstream_version pkg))
    clock pending User d Hd Hpkg) as Hinv.
  pose proof (enqueued_builds (packages.id pkg) platform (default "" (packages.upstream_version pkg))
    clock pending User d) as Hrows. rewrite Hnone in Hrows.
  set (row := fresh_row d _ _ _ _ _ _) in *. set (d' := (enqueued_db _ _ _ _ _ _ _).2) in *.
  assert (slot_key row = (packages.id pkg, platform) /\ builds.status row = Pending.state pending)
    as [Hk Hst] by done.
  assert (pkg_view <$> t_packages d' = pkg_view <$> t_packages d /\
    t_dependencies d' = t_dependencies d) as [Hv Hdp].
  { unfold d', enqueued_db. rewrite Hnone. cbn [snd].
    by rewrite refreshed_views, refreshed_dependencies. }
  assert (forall platform' i, ready d' platform' i <-> ready d platform' i) as Hr
    by (intros platform' i; apply (ready_appended d d' row); [done| |done]; rewrite Hst; by destruct pending).
  split.
  - split; [done..| |].
    + intros b Hb. left. rewrite Hrows. apply elem_of_app. by left.
    + intros a. rewrite Hrows, elem_of_app, list_elem_of_singleton. intros [Ha| ->] Ha'; [by left|].
      right. apply slot_key_eq in Hk as [-> ->]. apply Hwait. rewrite Hst in Ha'.
      by destruct pending.
  - intros Hempty. split.
    + exists row. split; [|done]. rewrite Hrows. apply elem_of_app. right. left.
    + intros a. rewrite Hrows, elem_of_app, list_elem_of_singleton, Hr. intros [Ha| ->] Hka Ha'.
      * by destruct (Hempty a Ha).
      * apply Hwait. rewrite Hst in Ha'. by destruct pending.
Qed.

(** Releasing what waits in a slot that is ready. *)
Lemma scans_promoted i platform d :
  Inv d -> ready d platform i -> scans d (promoted_db i platform d).2.
Proof.
  intros Hd Hr. pose proof (promoted_db_views i platform d) as [Hv Hdp].
  pose proof (promoted_requeued i platform d (inv_wf d Hd)) as Hrows.
  rewrite requeued_fmap in Hrows. split; [by apply promoted_inv|done|done|..].
  - intros platform' j. eapply ready_fmap; [exact Hrows|by apply move_slot_keeps|done].
  - intros b Hb. unfold move_slot in Hrows.
    destruct (decide (slot_key b = (i, platform) /\ builds.status b = WaitingForDeps)) as [[Hk Hst]|Hn].
    + right. apply slot_key_eq in Hk as [<- <-]. split_and!; [done..|]. rewrite Hrows.
      apply list_elem_of_fmap. exists b. split; [|done]. by rewrite decide_True.
    + left. rewrite Hrows. apply list_elem_of_fmap. exists b. split; [|done]. by rewrite decide_False.
  - intros a. rewrite Hrows. intros (b & -> & Hb)%list_elem_of_fmap Hst. left.
    unfold move_slot in *. by case_decide.
Qed.

(** After which nothing there waits. *)
Lemma promoted_none_waits i platform d a :
  Inv d -> a ∈ t_builds (promoted_db i platform d).2 -> slot_key a = (i, platform) ->
  builds.status a <> WaitingForDeps.
Proof.
  intros Hd. pose proof (promoted_requeued i platform d (inv_wf d Hd)) as Hrows.
  rewrite requeued_fmap in Hrows. rewrite Hrows. unfold move_slot.
  intros (b & -> & Hb)%list_elem_of_fmap Hk. case_decide as Hc; [done|]. intros Hst. by apply Hc.
Qed.

Lemma pending_row_other d b a i platform :
  Inv d -> pending_row (t_builds d) i platform = Some b -> a ∈ t_builds d ->
  slot_key a = (i, platform) -> builds.status a = WaitingForDeps -> a = b.
Proof.
  intros Hd (Hb & Hpk & Hpl & Hp)%head_filter_elem Ha [Hapk Hapl]%slot_key_eq Hst.
  apply (waiting_unique d); [apply Hd|done|done| |by apply elem_of_IN_PROGRESS; rewrite Hst|done].
  unfold slot_key. congruence.
Qed.

Lemma run_trigger_single pkg platform pending w :
  Inv (w_db w) -> packages.id pkg ∈ (packages.id <$> t_packages (w_db w)) ->
  exists n tr, run (trigger_build_for_package [platform] pkg pending) w =
    (Ok n, World (enqueued_db (w_db w) (packages.id pkg) platform
                    (default "" (packages.upstream_version pkg)) clock pending User).2 tr).
Proof.
  intros Hd Hpkg. unfold trigger_build_for_package. unfold mbind at 1, sql_mbind.
  rewrite run_bind by (apply for_collect_steady; apply _).
  assert (exists refs, run (for_collect (trigger_one pkg pending) [platform]) w =
    (Ok refs, World (enqueued_db (w_db w) (packages.id pkg) platform
                    (default "" (packages.upstream_version pkg)) clock pending User).2 (w_trace w)))
    as [refs ->].
  { cbn [for_collect]. unfold mbind, sql_mbind. rewrite run_bind by apply _.
    unfold trigger_one, mbind, sql_mbind. rewrite run_bind by apply _.
    rewrite run_on_db, run_enqueue by (apply Hd || done). cbn [fst snd].
    by eexists. }
  unfold mbind, sql_mbind. rewrite run_bind by (case_decide; apply _).
  case_decide; [by eexists _, _|]. rewrite run_emit. by eexists _, _.
Qed.

(** A slot whose pending build, if it has one, already started. *)
Lemma settled_pending d b i platform :
  Inv d -> pending_row (t_builds d) i platform = Some b ->
  (builds.status b = WaitingForDeps -> ~ ready d platform i) -> settled_slot d i platform.
Proof.
  intros Hd Hp Hw. pose proof (head_filter_elem _ _ _ Hp) as (Hb & Hpk & Hpl & _). split.
  - exists b. by rewrite slot_key_eq.
  - intros a Ha Hk Hst. apply Hw. by rewrite <- (pending_row_other d b a i platform Hd Hp Ha Hk Hst).
Qed.

(** One turn of the scan. *)
Lemma run_scan_one pkg platform w :
  Inv (w_db w) -> packages.id pkg ∈ (packages.id <$> t_packages (w_db w)) ->
  exists n w', run (scan_one pkg platform) w = (Ok n, w') /\
    scans (w_db w) (w_db w') /\ settled_slot (w_db w') (packages.id pkg) platform.
Proof.
  intros Hd Hpkg. destruct w as [d tr]. cbn [w_db] in *. set (i := packages.id pkg) in *.
  unfold scan_one, mbind, sql_mbind. fold i.
  rewrite run_bind, run_on_db, run_satisfied_for by apply _. cbn [fst snd w_db w_trace].
  rewrite run_bind, run_on_db by apply _. cbn [w_db w_trace].
  assert (run (pending_build i platform) d = (Ok (pending_row (t_builds d) i platform), d)) as -> by done.
  cbn [fst snd w_db w_trace].
  destruct (pending_row (t_builds d) i platform) as [b|] eqn:Hp.
  - destruct (decide (builds.status b = WaitingForDeps)) as [Hst|Hst].
    2:{ exists 0, (World d tr). split; [done|]. split; [by apply scans_refl|].
        apply (settled_pending d b); [done..|]. by intros ?. }
    destruct (forallb _ _) eqn:Hr.
    2:{ exists 0, (World d tr). split; [done|]. split; [by apply scans_refl|].
        apply (settled_pending d b); [done..|]. unfold ready. rewrite Hr. by intros _ ?. }
    rewrite run_bind, run_on_db by apply _. cbn [w_db w_trace]. rewrite run_promote by apply Hd.
    cbn [fst snd].
    assert (scans d (promoted_db i platform d).2 /\
      settled_slot (promoted_db i platform d).2 i platform) as [Hs Hset].
    { pose proof (scans_promoted i platform d Hd Hr) as Hs. split; [done|]. split.
      - pose proof (head_filter_elem _ _ _ Hp) as (Hb & Hpk & Hpl & _).
        destruct (sc_old _ _ Hs b Hb) as [Hb'|(_ & _ & Hb')]; eexists; (split; [exact Hb'|]);
          by rewrite slot_key_eq.
      - intros a Ha Hk Hw. by destruct (promoted_none_waits i platform d a Hd Ha Hk). }
    destruct (promoted_db i platform d) as [[q|] d'] eqn:Hq; cbn [fst snd] in *.
    + rewrite run_bind, run_emit by apply _. eexists _, _. by split.
    + eexists _, _. by split.
  - rewrite run_bind, run_on_db by apply _. cbn [w_db w_trace].
    unfold build_exists_for_platform, mbind, sql_mbind. rewrite run_bind, run_query by apply _.
    unfold mret, sql_mret. rewrite run_ret. cbn [fst snd w_db w_trace].
    destruct (filter (fun b => builds.pkg_id b = i /\ builds.platform b = platform) (t_builds d))
      as [|b l] eqn:Hf.
    + rewrite bool_decide_eq_false_2 by (intros Hz; by apply Hz).
      destruct (run_trigger_single pkg platform (if forallb (dep_ready (t_builds d) platform) (deps_of d i)
        then Pending.Enqueued else Pending.WaitingForDeps) (World d tr) Hd Hpkg) as (n & tr' & ->).
      eexists n, _. split; [done|]. cbn [w_db].
      destruct (scans_appended pkg platform (if forallb (dep_ready (t_builds d) platform) (deps_of d i)
        then Pending.Enqueued else Pending.WaitingForDeps) d Hd Hpkg Hp) as [Hs Hset].
      * unfold ready. fold i. by destruct (forallb _ _).
      * unfold ready. fold i. by destruct (forallb _ _).
      * split; [done|]. apply Hset. intros a Ha Hk%slot_key_eq.
        by apply (proj1 (filter_nil_iff _ _) Hf a Ha).
    + rewrite bool_decide_eq_true_2 by done. exists 0, (World d tr). split; [done|].
      split; [by apply scans_refl|].
      assert (b ∈ filter (fun b => builds.pkg_id b = i /\ builds.platform b = platform) (t_builds d))
        as [Hk Hb]%list_elem_of_filter by (rewrite Hf; left).
      split; [exists b; by rewrite slot_key_eq|]. intros a Ha [Hapk Hapl]%slot_key_eq Hst.
      destruct (head_filter_None _ _ Hp a Ha). split_and!; [done..|].
      by apply elem_of_IN_PROGRESS; rewrite Hst.
Qed.

(** The whole scan. *)
Lemma run_scan slots w :
  Inv (w_db w) ->
  (forall slot, slot ∈ slots -> packages.id slot.1 ∈ (packages.id <$> t_packages (w_db w))) ->
  exists l w', run (for_collect (fun slot => n ← scan_one slot.1 slot.2; mret [n]) slots) w = (Ok l, w') /\
    scans (w_db w) (w_db w') /\
    forall slot, slot ∈ slots -> settled_slot (w_db w') (packages.id slot.1) slot.2.
Proof.
  revert w; induction slots as [|slot slots IH]; intros w Hd Hids.
  { exists [], w. split; [done|]. split; [by apply scans_refl|]. by intros slot ?%not_elem_of_nil. }
  destruct (run_scan_one slot.1 slot.2 w Hd (Hids slot ltac:(left))) as (n & w1 & Hrun & Hs1 & Hset).
  destruct (IH w1) as (l & w2 & Hrun2 & Hs2 & Hall).
  { apply Hs1. }
  { intros x Hx. assert (forall d d', pkg_view <$> t_packages d' = pkg_view <$> t_packages d ->
      packages.id <$> t_packages d' = packages.id <$> t_packages d) as Hv.
    { intros e e' Heq. apply (f_equal (fmap (fun v => v.1.1))) in Heq.
      by rewrite <- !list_fmap_compose in Heq. }
    rewrite (Hv _ _ (sc_views _ _ Hs1)). apply Hids. by right. }
  exists (n :: l), w2. split.
  - cbn [for_collect]. unfold mbind, sql_mbind. rewrite run_bind by sql_class.
    rewrite run_bind, Hrun by apply _. unfold mret, sql_mret. rewrite run_ret.
    rewrite run_bind by (apply for_collect_steady; intros; sql_class).
    change (sql_bind (fun n0 => sql_ret [n0])) with (mbind (M := Sql world DbErr) (fun n0 : nat => mret [n0])).
    rewrite Hrun2. done.
  - split; [by eapply scans_trans|]. intros x [-> |Hx]%elem_of_cons; [|by apply Hall].
    by eapply settled_scans.
Qed.

(** ** Properties *)

End first.


(** ** Over any connection *)

Section keeps.
Context `{Alpm} (clock : Z).

Lemma keeps_query {A} (q : database -> A) : w_keeps (knows []) (on_db (E := DbErr) (query q)).
Proof. apply keeps_db. by apply triple_query; [apply _|]. Qed.

Lemma satisfied_keeps i platform : w_keeps (knows []) (on_db (satisfied_for i platform)).
Proof.
  apply keeps_db. unfold satisfied_for. apply (triple_bind advances _ _ _ (fun _ d => Inv d)).
  - by apply triple_query; [apply _|].
  - intros deps. apply triple_dependencies_satisfied.
Qed.

Lemma keeps_collect {A B} (f : A -> Sql world DbErr (list B)) l :
  (forall x, w_keeps (knows []) (f x)) -> w_keeps (knows []) (for_collect f l).
Proof.
  intros Hf. induction l as [|x l IH]; cbn [for_collect]; [apply keeps_ret|].
  apply keeps_bind; [apply Hf|]. intros y. apply keeps_bind; [exact IH|]. intros ys. apply keeps_ret.
Qed.

Lemma keeps_each {A} (f : A -> Sql world DbErr unit) l :
  (forall x, w_keeps (knows []) (f x)) -> w_keeps (knows []) (for_each f l).
Proof.
  intros Hf. induction l as [|x l IH]; cbn [for_each]; [apply keeps_ret|].
  apply keeps_bind; [apply Hf|]. intros y. exact IH.
Qed.

Lemma trigger_build_keeps platforms pkg pending :
  w_keeps (knows []) (trigger_build_for_package clock platforms pkg pending).
Proof.
  apply keeps_bind; [apply keeps_collect; intros platform|intros inserted].
  - apply keeps_bind; [|intros e; apply keeps_ret]. apply keeps_db.
    eapply triple_conseq; [apply triple_enqueue|done|]. by intros e d [Hd _].
  - apply keeps_bind; [case_decide; [apply keeps_ret|apply keeps_effect]|]. intros u. apply keeps_ret.
Qed.

Lemma scan_one_keeps pkg platform : w_keeps (knows []) (scan_one clock pkg platform).
Proof.
  apply keeps_bind; [apply satisfied_keeps|intros ok].
  apply keeps_bind; [apply keeps_query|intros [b|]].
  - case_decide; [|apply keeps_ret]. destruct ok; [|apply keeps_ret].
    apply keeps_bind; [apply keeps_db, triple_promote|intros [p|]; [|apply keeps_ret]].
    apply keeps_bind; [apply keeps_effect|]. intros u. apply keeps_ret.
  - apply keeps_bind; [|intros [|]; [apply keeps_ret|apply trigger_build_keeps]].
    apply keeps_db. unfold build_exists_for_platform.
    apply (triple_bind advances _ _ _ (fun _ d => Inv d)); [by apply triple_query; [apply _|]|].
    intros n. by apply triple_ret; [apply _|].
Qed.

Lemma scan_keeps : w_keeps (knows []) (enqueue_missing_buildable_packages clock).
Proof.
  apply keeps_bind; [apply keeps_query|intros pkgs].
  apply keeps_bind; [|intros l; apply keeps_ret]. apply keeps_collect. intros slot.
  apply keeps_bind; [apply scan_one_keeps|]. intros n. apply keeps_ret.
Qed.

Lemma initial_keeps platforms pkgbases :
  w_keeps (knows []) (trigger_initial_builds clock platforms pkgbases).
Proof.
  unfold trigger_initial_builds. case_decide; [apply keeps_ret|].
  apply keeps_bind; [apply keeps_query|intros pkgs]. case_decide; [apply keeps_ret|].
  apply keeps_bind; [apply keeps_query|intros has_deps]. apply keeps_each. intros pkgbase.
  unfold trigger_pkgbase. destruct (pkgs !! pkgbase) as [pkg|]; [|apply keeps_ret].
  apply keeps_bind.
  - apply keeps_collect. intros platform. apply keeps_bind; [|intros ok; apply keeps_ret].
    unfold can_start. case_decide; [apply keeps_ret|apply satisfied_keeps].
  - intros split. apply keeps_each. intros batch. case_decide; [apply keeps_ret|].
    apply keeps_bind; [apply trigger_build_keeps|]. intros n. apply keeps_ret.
Qed.
End keeps.
