(* ===== verification/Enrol.v ===== *)
(** * Enrolling workers

    [backend/aurcache-utils/src/worker_enroll.rs]: what a registration leaves, and the
    policy that approves a worker nobody has looked at. The certificate authority
    ([aurcache-ca]) and [serde_json] are parameters, as is whether the enrollment
    volume holds a file. *)
From S2P Require Import Prelude Text Sql Schema Lists WorkerConfig Invariant Fixtures.
From S2P Require Import BuildEnqueue WorkerJobs Claim Leases Effects Registry.
From Stdlib Require Import Ascii.
Open Scope string_scope.
Open Scope list_scope.

(** ** [aurcache-common/src/worker.rs]: what a registration carries *)

Record ProtocolRange := mkRange { range_min : Z; range_max : Z }.
Definition PROTOCOLS : ProtocolRange := mkRange 1 1.

(** The newest protocol both ranges hold, if they share any. *)
Definition negotiate (self other : ProtocolRange) : option Z :=
  let newest := Z.min (range_max self) (range_max other) in
  if decide (Z.max (range_min self) (range_min other) <= newest)%Z then Some newest else None.

Section enrol.
Context `{Float64}.

Record RegisterRequest := mkRequest {
  protocols : ProtocolRange;
  req_name : string;
  req_arches : list string;
  req_version : string;
  req_kind : string;
  csr_pem : string;
  enrollment_token : option string;
  req_embedded_secret : option string;
  affinity : list string;
  req_priority : Z;
  req_concurrency : Z;
  req_settings : list SettingDecl
}.

(** What the server has around it: the authority's operations, the JSON of a
    declaration, and the files of the enrollment volume. *)
Class Site := {
  fingerprint_from_csr_pem : string -> result string string;
  issued : string -> bool;
  sign_worker_csr : string -> result string (string * Z);
  declaration_to_json : list SettingDecl -> result string string;
  is_file : string -> bool
}.

Context `{Site}.

(** ** [EnrollmentPolicy] *)

Record EnrollmentPolicy := mkPolicy {
  pol_dir : option string;
  preapproved : list string;
  pol_token : option string;
  embedded_secret : option string
}.

Definition secret_matches (provided expected : option string) : bool :=
  match provided, expected with
  | Some p, Some e => negb (is_empty e) && bool_decide (p = e)
  | _, _ => false
  end.

Definition approves (policy : EnrollmentPolicy) (status : ApprovalStatus) (fingerprint : string)
    (token : option string) : bool :=
  if decide (status <> Pending) then false
  else
    is_some_and (fun dir => is_file (dir +:+ "/" +:+ fingerprint +:+ ".csr")) (pol_dir policy) ||
    existsb (fun f => bool_decide (f = fingerprint)) (preapproved policy) ||
    secret_matches token (pol_token policy).

Definition is_embedded (policy : EnrollmentPolicy) (secret : option string) : bool :=
  secret_matches secret (embedded_secret policy).

Definition parse_preapproved (raw : string) : list string :=
  filter (fun fp => fp <> "") ((fun fp => to_lowercase (trim fp)) <$> split "," raw).

(** ** [register] *)

Inductive Registered :=
| Agreed (fingerprint : string) (protocol : Z)
| InvalidCsr (error : string)
| NoCommonProtocol.

Inductive RegisterError :=
| RegisterDb (e : DbErr)
| SigningFailed (error : string)
| Vanished.
#[export] Instance RegisterError_from : FromDbErr RegisterError := RegisterDb.

(** [i32::try_from(concurrency.max(1)).unwrap_or(i32::MAX)] *)
Definition clamped_concurrency (n : Z) : Z := Z.min (Z.max n 1) i32_max.

Definition registration_of (input : RegisterRequest) (fingerprint declaration : string) : WorkerRegistration := {|
  reg_name := req_name input;
  reg_fingerprint := fingerprint;
  reg_arches := req_arches input;
  reg_version := req_version input;
  reg_kind := req_kind input;
  reg_package_affinity := affinity input;
  reg_priority := req_priority input;
  reg_concurrency := clamped_concurrency (req_concurrency input);
  reg_settings_declaration := declaration
|}.

(** [adopt_0_5_limits]: a failure costs a log line. *)
Definition adopt_limits (name : string) (id : Z) (declared : list SettingDecl) : Sql world RegisterError () :=
  adopted ← attempt (on_db (Registry.adopt_0_5_limits id declared));
  match adopted with
  | Err _ => mret tt
  | Ok adopted =>
      let saved := adopted_saved adopted in
      if decide (saved_set saved = [] /\ saved_reset saved = []) then mret tt
      else emit (WorkerSettingsSaved name (saved_set saved) (saved_reset saved))
  end.

(** The certificate to hand out: the one there is, unless this authority did not
    sign it. *)
Definition ensure_certificate (csr : string) (worker : workers.Model) : Sql world RegisterError () :=
  if negb (is_some_and issued (workers.signed_cert worker)) then
    signed ← from_result (match sign_worker_csr csr with Ok s => Ok s | Err e => Err (SigningFailed e) end);
    stored ← on_db (lift (store_signed_cert (workers.id worker) (fst signed) (snd signed)));
    match stored with Some _ => mret tt | None => sql_fail Vanished end
  else mret tt.

Definition approve_by_policy (policy : EnrollmentPolicy) (fingerprint : string) (token : option string)
    (worker : workers.Model) : Sql world RegisterError () :=
  if approves policy (workers.status worker) fingerprint token then
    approved ← on_db (lift (approve_worker (workers.id worker)));
    match approved with
    | Some _ => emit (WorkerApproved (workers.name worker))
    | None => sql_fail Vanished
    end
  else mret tt.

(** What follows once the request has a fingerprint and a protocol. *)
Definition register_agreed (clock : Z) (policy : EnrollmentPolicy) (input : RegisterRequest)
    (fingerprint : string) (protocol : Z) : Sql world RegisterError Registered :=
  let embedded := is_embedded policy (req_embedded_secret input) in
  _ ← (if embedded then on_db (lift (rekey_embedded fingerprint)) else mret Known);
  known ← on_db (lift (find_worker_by_fingerprint fingerprint));
  declaration ←
    match declaration_to_json (req_settings input) with
    | Ok json => mret json
    | Err e => _ ← emit (WorkerReportFailed (req_name input) Declaration (OfText e)); mret "[]"
    end;
  worker ← on_db (lift (register_worker clock (registration_of input fingerprint declaration)));
  _ ← (if embedded && negb (workers.embedded worker)
       then on_db (lift (mark_embedded (workers.id worker))) else mret tt);
  _ ← (if embedded then adopt_limits (workers.name worker) (workers.id worker) (req_settings input)
       else mret tt);
  _ ← emit (if decide (is_Some known)
            then WorkerRegistered (workers.name worker)
                   (if is_empty (req_version input) then None else Some (req_version input))
            else WorkerEnrolled (workers.name worker));
  _ ← ensure_certificate (csr_pem input) worker;
  _ ← approve_by_policy policy fingerprint (enrollment_token input) worker;
  mret (Agreed fingerprint protocol).

Definition register (clock : Z) (policy : EnrollmentPolicy) (input : RegisterRequest)
  : Sql world RegisterError Registered :=
  match fingerprint_from_csr_pem (csr_pem input) with
  | Err e => mret (InvalidCsr e)
  | Ok fingerprint =>
      match negotiate PROTOCOLS (protocols input) with
      | None => mret NoCommonProtocol
      | Some protocol => register_agreed clock policy input fingerprint protocol
      end
  end.

(** ** Who a registration may let in *)

Definition nobody (i : Z) (s : ApprovalStatus) : Prop := False.

Definition w_regards (A : Z -> ApprovalStatus -> Prop) (w w' : world) : Prop :=
  regards A (w_db w) (w_db w').
#[export] Instance w_regards_preorder A : PreOrder (w_regards A).
Proof. unfold w_regards. split; [intros w; reflexivity|]. intros a b c H1 H2. by etrans. Qed.

Lemma regards_nobody A d d' : regards nobody d d' -> regards A d d'.
Proof. intros [H1 H2 H3]. split; [done..|]. intros w Hw. by destruct (H3 w Hw) as [[]|?]; right. Qed.

(** What a precondition says beyond the state holds throughout. *)
Lemma triple_pure {D E B} (R : relation D) (P : D -> Prop) (phi : Prop) (P' : D -> Prop) (m : Sql D E B) Q :
  (forall w, P' w -> P w /\ phi) -> (phi -> triple R P m Q) -> triple R P' m Q.
Proof. intros HP Hm left w Hw. destruct (HP w Hw) as [HPw Hphi]. by apply Hm. Qed.

Section steps.
Context (A : Z -> ApprovalStatus -> Prop) (d0 : database).

(** Nothing so far has changed anyone's approval. *)
Definition unmoved (w : world) : Prop := regards nobody d0 (w_db w).

Lemma step_on_db {E B} (m : Sql database E B) :
  triple (regards nobody) (fun _ => True) m (fun _ _ => True) ->
  triple (w_regards A) unmoved (on_db m) (fun _ => unmoved).
Proof.
  intros Hm left w Hw. destruct (Hm left (w_db w) I) as [Hr _]. split; [by apply regards_nobody|].
  intros a _. unfold unmoved in *. by etrans.
Qed.

Lemma safe_on_db {E B} (m : Sql database E B) :
  triple (regards A) (fun _ => True) m (fun _ _ => True) ->
  triple (w_regards A) (fun _ => True) (on_db m) (fun _ _ => True).
Proof. intros Hm left w _. destruct (Hm left (w_db w) I) as [Hr _]. by split. Qed.

Lemma step_ret {E B} (a : B) : triple (w_regards A) unmoved (mret (M := Sql world E) a) (fun _ => unmoved).
Proof. apply triple_ret; [apply _|done]. Qed.

Lemma step_emit {E} e : triple (w_regards A) unmoved (emit (E := E) e) (fun _ => unmoved).
Proof. intros left w Hw. split; [unfold w_regards; simpl; reflexivity|done]. Qed.

Lemma step_bind {E B C} (m : Sql world E B) (f : B -> Sql world E C) Q :
  triple (w_regards A) unmoved m (fun _ => unmoved) ->
  (forall a, triple (w_regards A) unmoved (f a) Q) -> triple (w_regards A) unmoved (mbind f m) Q.
Proof. intros Hm Hf. eapply triple_bind; [apply _|exact Hm|exact Hf]. Qed.

Lemma safe_lift {E B} `{FromDbErr E} (m : DB B) :
  triple (regards A) (fun _ => True) m (fun _ _ => True) ->
  triple (E := E) (regards A) (fun _ => True) (lift m) (fun _ _ => True).
Proof. intros Hm. by apply triple_lift. Qed.
End steps.

Lemma op_nobody {B} (m : DB B) :
  registry_op B m nobody -> triple (regards nobody) (fun _ => True) m (fun _ _ => True).
Proof. apply op_safe. Qed.

(** The row a registration answers with is in the registry. *)
Lemma register_worker_row A d0 clock reg :
  triple (w_regards A) (unmoved d0) (on_db (lift (E := RegisterError) (register_worker clock reg)))
    (fun row w => unmoved d0 w /\ row ∈ t_workers (w_db w)).
Proof.
  assert (triple (regards nobody) (fun _ => True) (lift (E := RegisterError) (register_worker clock reg))
    (fun row d => row ∈ t_workers d)) as Hrow.
  { apply triple_lift. eapply triple_bind; [apply _|apply safe_upsert|]. intros x.
    eapply triple_bind; [apply _| |].
    - apply (triple_query _ _ _ (fun row d => forall v, row = Some v -> v ∈ t_workers d)).
      by intros d _ v [Hv _]%head_filter_elem.
    - intros [v|]; [|intros left d _; split; [reflexivity|by intros a]].
      apply triple_ret; [apply _|]. intros d Hv. by apply Hv. }
  intros left w Hw. destruct (Hrow left (w_db w) I) as [Hr Hq]. split; [by apply regards_nobody|].
  intros row Hres. split; [unfold unmoved in *; by etrans|]. by apply (Hq row Hres).
Qed.

(** With the ids unique, an id names one row. *)
Lemma registry_one d u v :
  registry_ok d -> u ∈ t_workers d -> v ∈ t_workers d -> workers.id u = workers.id v -> u = v.
Proof. intros [[Hids _] _ _ _] Hu Hv Hid. by apply (NoDup_fmap_inj_elem workers.id (t_workers d)). Qed.

(** What a pending answer says of the worker before. *)
Lemma pending_before d0 d row :
  registry_ok d0 -> regards nobody d0 d -> row ∈ t_workers d -> workers.status row = Pending ->
  forall v, v ∈ t_workers d0 -> workers.id v = workers.id row -> workers.status v = Pending.
Proof.
  intros Hok [_ _ Hs] Hrow Hp v Hv Hid. destruct (Hs row Hrow) as [[]|[(u & Hu & Huid & Hus)|[Hn _]]].
  - rewrite (registry_one d0 v u) by (done || congruence). congruence.
  - destruct Hn. rewrite <- Hid. by apply list_elem_of_fmap_2.
Qed.

(** Only a pending worker the policy vouches for is let in. *)
Definition let_in (policy : EnrollmentPolicy) (fingerprint : string) (token : option string) (d0 : database)
    (i : Z) (s : ApprovalStatus) : Prop :=
  s = Approved /\ approves policy Pending fingerprint token = true /\
  forall v, v ∈ t_workers d0 -> workers.id v = i -> workers.status v = Pending.

Section registration.
Context (policy : EnrollmentPolicy) (fingerprint : string) (token : option string) (d0 : database)
  (Hd0 : registry_ok d0).
Local Abbreviation A := (let_in policy fingerprint token d0).
Local Abbreviation step m := (triple (w_regards A) (unmoved d0) m (fun _ => unmoved d0)).

Lemma step_op {E B} `{FromDbErr E} (m : DB B) : registry_op B m nobody -> step (on_db (lift (E := E) m)).
Proof. intros Hop. by apply step_on_db, triple_lift, op_nobody. Qed.

Lemma step_query {E B} `{FromDbErr E} (q : database -> B) : step (on_db (lift (E := E) (query q))).
Proof. apply step_on_db, triple_lift, safe_query. Qed.

Lemma step_adopt name id declared : step (adopt_limits name id declared).
Proof.
  unfold adopt_limits. apply step_bind.
  - intros left w Hw. destruct (op_nobody _ (op_adopt id declared) left (w_db w) I) as [Hr _].
    split; [by apply regards_nobody|]. intros r [= _]. unfold unmoved in *. by etrans.
  - intros [a|e]; [|apply step_ret]. cbv zeta. case_decide; [apply step_ret|apply step_emit].
Qed.

Lemma step_certificate csr worker : step (ensure_certificate csr worker).
Proof.
  unfold ensure_certificate. destruct (negb _); [|apply step_ret].
  apply step_bind; [by apply triple_from_result; [apply _|]|]. intros s.
  apply step_bind; [apply step_op, op_store_cert|]. intros [?|]; [apply step_ret|].
  intros left w _. split; [unfold w_regards; reflexivity|by intros ?].
Qed.

Lemma step_approve worker :
  (workers.status worker = Pending ->
     forall v, v ∈ t_workers d0 -> workers.id v = workers.id worker -> workers.status v = Pending) ->
  triple (w_regards A) (unmoved d0) (approve_by_policy policy fingerprint token worker) (fun _ _ => True).
Proof.
  intros Hpure. unfold approve_by_policy. destruct (approves _ _ _ _) eqn:Ha.
  - assert (workers.status worker = Pending) as Hp.
    { unfold approves in Ha. destruct (workers.status worker); [by rewrite decide_True in Ha..|done]. }
    rewrite Hp in Ha. eapply triple_bind with (Q := fun _ _ => True); [apply _| |].
    + intros left w _. apply (safe_on_db A); [|done]. apply triple_lift.
      apply safe_update_worker; [done|]. intros v ->. right. split_and!; [done|done|by apply Hpure].
    + intros [v|] left w _; (split; [unfold w_regards; reflexivity|done]).
  - intros left w _. split; [unfold w_regards; reflexivity|done].
Qed.

Lemma register_agreed_safe clock input protocol :
  enrollment_token input = token ->
  triple (w_regards A) (unmoved d0) (register_agreed clock policy input fingerprint protocol) (fun _ _ => True).
Proof.
  intros Ht. unfold register_agreed. cbv zeta.
  apply step_bind; [destruct (is_embedded _ _); [apply step_op, op_rekey|apply step_ret]|]. intros _.
  apply step_bind; [apply step_query|]. intros known.
  apply step_bind.
  { destruct (declaration_to_json _); [apply step_ret|]. apply step_bind; [apply step_emit|]. intros _. apply step_ret. }
  intros declaration. eapply triple_bind; [apply _|apply register_worker_row|]. intros worker.
  apply (triple_pure _ (unmoved d0) (workers.status worker = Pending ->
    forall v, v ∈ t_workers d0 -> workers.id v = workers.id worker -> workers.status v = Pending)).
  { intros w [Hu Hrow]. split; [done|]. intros Hp. by apply (pending_before d0 (w_db w)). }
  intros Hpure.
  apply step_bind; [destruct (_ && _); [apply step_op, op_mark|apply step_ret]|]. intros _.
  apply step_bind; [destruct (is_embedded _ _); [apply step_adopt|apply step_ret]|]. intros _.
  apply step_bind; [apply step_emit|]. intros _.
  apply step_bind; [apply step_certificate|]. intros _.
  rewrite <- Ht. eapply triple_bind; [apply _|rewrite Ht; by apply step_approve|]. intros x.
  apply triple_ret; [apply _|done].
Qed.
End registration.

Definition world_of (d : database) : world := World d [].

End enrol.

(** ** On the demonstration database *)

(** An authority that takes the request for the fingerprint and signs everything. *)
Definition demo_site : Site (H := demo_floats) := {|
  fingerprint_from_csr_pem csr := Ok csr;
  issued cert := bool_decide (cert = "signed");
  sign_worker_csr csr := Ok ("signed", 9000%Z);
  declaration_to_json settings := Ok "[]";
  is_file path := bool_decide (path = "/enroll/w9.csr")
|}.

Definition demo_policy : EnrollmentPolicy := mkPolicy (Some "/enroll") ["w3"] (Some "secret") None.

Definition demo_request (csr : string) (token : option string) : RegisterRequest (H := demo_floats) := {|
  protocols := mkRange 1 1; req_name := "moved"; req_arches := ["x86_64"]; req_version := "1.4";
  req_kind := "chroot"; csr_pem := csr; enrollment_token := token; req_embedded_secret := None;
  affinity := []; req_priority := 0; req_concurrency := 2; req_settings := []
|}.

(** The worker an operator has not looked at yet is on the list, so it gets in. *)
Definition demo_enrolled : outcome world RegisterError Registered :=
  register (H := demo_floats) (H0 := demo_site) 1200 demo_policy (demo_request "w3" None) None (world_of demo_db).

