(* ===== verification/ConfigSync.v ===== *)
(** * What a worker is configured with, from the server's page to the worker

    [backend/aurcache-utils/src/worker_settings.rs], [worker_heartbeat.rs] and the
    configuration's part of [aurcache-worker-core/src/runner.rs]: values are saved
    against the worker's declaration, ride the answer to its heartbeat, are resolved
    and handed to its executor, and what then runs rides the next heartbeat back. The
    digests and [serde_json] are parameters, and so is what an executor refuses. *)
From Stdlib Require Import Ascii.
From S2P Require Import Prelude Text Order Sql Schema Units WorkerConfig WorkerSettings.
From S2P Require Import BuildStatus Invariant Fixtures Leases Registry Effects Completion CompletionSpec.
Open Scope string_scope.
Open Scope list_scope.

(** ** The messages *)

Section messages.
Context `{Float64}.

Record Heartbeat := mkBeat {
  hb_active_build_ids : list Z;
  hb_version : string;
  hb_effective : option EffectiveConfig;
  hb_received_revision : option string
}.

Record HeartbeatResponse := mkAnswer {
  hr_cancel : list Z;
  hr_config : option ConfigSnapshot
}.

(** ** The server *)

Class Encoding := {
  values_to_json : gmap string string -> string;
  sha256_hex : string -> string;
  effective_to_json : EffectiveConfig -> result string string;
  effective_from_json : string -> option EffectiveConfig;
  declaration_from_json : string -> option (list SettingDecl)
}.

Context `{Encoding}.

Definition config_revision (values : gmap string string) : string := sha256_hex (values_to_json values).

Definition snapshot_for {E} (worker : workers.Model) (received : option string) :
    Sql world E (option ConfigSnapshot) :=
  values ← attempt (on_db (worker_setting_values (workers.id worker)));
  mret (match values with
        | Err _ => None
        | Ok values =>
            let revision := config_revision values in
            if decide (received <> Some revision) then Some (mkSnapshot revision values) else None
        end).

Definition rejected_keys (effective : EffectiveConfig) : list string :=
  (filter (fun s => es_status s.2 = Rejected) (by_key (ec_settings effective))).*1.

Definition record_effective {E} (worker : workers.Model) (effective : EffectiveConfig) : Sql world E () :=
  let name := workers.name worker in
  let failed error := emit (WorkerReportFailed name Configuration error) in
  _ ← match effective_to_json effective with
      | Ok json =>
          stored ← attempt (on_db (store_effective_config (workers.id worker) json));
          match stored with Ok _ => mret tt | Err e => failed (OfDb e) end
      | Err e => failed (OfText e)
      end;
  _ ← match workers.effective_config worker ≫= effective_from_json with
      | Some before =>
          let changed := changed_since effective before in
          if decide (changed = []) then mret tt else emit (WorkerConfigChanged name changed)
      | None => mret tt
      end;
  let refused := rejected_keys effective in
  if decide (refused = []) then mret tt else emit (WorkerSettingRejected name refused).

(** What [worker] declared; nothing when it cannot be read. *)
Definition declaration (worker : workers.Model) : list SettingDecl :=
  default [] (declaration_from_json (workers.settings_declaration worker)).

Inductive Save :=
| Saved (saved : SavedSettings)
| SaveRefused (why : list (string * Refusal)).

Definition save (worker : workers.Model) (changes : gmap string (option string)) : DB Save :=
  match checked_changes (declaration worker) changes with
  | Err why => mret (SaveRefused why)
  | Ok changes =>
      saved ← save_worker_settings (workers.id worker) changes;
      mret (Saved saved)
  end.

Record WorkerConfigView := mkView {
  v_worker_id : Z;
  v_revision : string;
  v_settings : list SettingDecl;
  v_effective : option EffectiveConfig;
  v_values : gmap string string
}.

Definition view (worker : workers.Model) : DB WorkerConfigView :=
  values ← worker_setting_values (workers.id worker);
  mret (mkView (workers.id worker) (config_revision values) (declaration worker)
          (workers.effective_config worker ≫= effective_from_json) values).

Definition rejected_count (worker : workers.Model) : option Z :=
  report ← workers.effective_config worker ≫= effective_from_json;
  let n := Z.of_nat (length (rejected_keys report)) in
  if decide (n <= i32_max)%Z then Some n else None.

(** [worker_heartbeat.rs]. [now] is the one the statements are given, [clock] what
    [abandon_build] reads; [answers] is what appending to a build's log answers. *)
Record WorkerPolicy := mkWorkerPolicy { lease_ttl_secs : Z; policy_max_attempts : Z }.

Definition server_heartbeat (clock now : Z) (answers : Z -> result string unit) (policy : WorkerPolicy)
    (worker : workers.Model) (beat : Heartbeat) : Sql world DbErr HeartbeatResponse :=
  worker ← on_db (touch_last_seen now worker (Some (hb_version beat)));
  _ ← match hb_effective beat with
      | Some effective => record_effective worker effective
      | None => mret tt
      end;
  outcome ← on_db (heartbeat clock now (workers.id worker) (hb_active_build_ids beat)
                     (lease_ttl_secs policy) (policy_max_attempts policy));
  _ ← (if decide (dropped outcome = []) then mret tt
       else
         let '(retried, failed) := named_abandoned (dropped outcome) in
         _ ← emit (WorkerReaped [workers.name worker] retried failed);
         for_each (fun a => report_abandoned (answers (ab_build_id a)) a) (dropped outcome));
  config ← snapshot_for worker (hb_received_revision beat);
  mret (mkAnswer (cancel_requested outcome) config).

(** ** The worker *)

(** What the host cannot honour is for the executor to say: what it hands back is the
    new resolution with some values refused ([WorkerSettings::refused]). *)
Class Executor := {
  reconfigure : WorkerSettings -> WorkerSettings -> WorkerSettings;
  reconfigure_refuses candidate previous :
    exists refusals, reconfigure candidate previous = refused candidate refusals previous
}.

Context `{Executor}.
Context (sentence : Reason -> string).

(** The fields of a registration the server schedules by. *)
Record Routing := mkRouting { rt_packages : list string; rt_priority : Z; rt_concurrency : Z }.
#[export] Instance Routing_eq_dec : EqDecision Routing.
Proof. solve_decision. Defined.

Definition routing_of (tunables : CoreTunables) : Routing :=
  mkRouting (ct_packages tunables) (ct_priority tunables) (ct_concurrency tunables).

(** The part of [Runner] a heartbeat works on; the tunables are those of the settings
    ([CoreConfig::with_settings]). [rn_active]: whether each build was told to stop. *)
Record Runner := mkRunner {
  rn_settings : WorkerSettings;
  rn_tunables : CoreTunables;
  rn_active : gmap Z bool;
  rn_gate : Z;
  rn_reported : option EffectiveConfig;
  rn_registered : Routing
}.

Definition new_runner (settings : WorkerSettings) : Runner :=
  let tunables := from_settings settings in
  mkRunner settings tunables ∅ (ct_concurrency tunables) None (routing_of tunables).

Definition apply (rn : Runner) (snapshot : ConfigSnapshot) : Runner :=
  let candidate := with_snapshot (rn_settings rn) snapshot in
  let settings := reconfigure candidate (rn_settings rn) in
  let tunables := from_settings settings in
  mkRunner settings tunables (rn_active rn) (ct_concurrency tunables) (rn_reported rn) (rn_registered rn).

(** [accepts]: whether the server takes a registration of these. *)
Definition sync_registration (accepts : Routing -> bool) (rn : Runner) : Runner :=
  let routing := routing_of (rn_tunables rn) in
  if decide (rn_registered rn = routing) then rn
  else if accepts routing then
    mkRunner (rn_settings rn) (rn_tunables rn) (rn_active rn) (rn_gate rn) (rn_reported rn) routing
  else rn.

Definition cancel_builds (ids : list Z) (rn : Runner) : Runner :=
  mkRunner (rn_settings rn) (rn_tunables rn)
    (foldl (fun active id => alter (fun _ => true) id active) (rn_active rn) ids)
    (rn_gate rn) (rn_reported rn) (rn_registered rn).

(** The heartbeat [beat] sends. *)
Definition beat_message (version : string) (rn : Runner) : Heartbeat :=
  let config := effective sentence (rn_settings rn) in
  mkBeat (map_to_list (rn_active rn)).*1 version
    (if decide (rn_reported rn <> Some config) then Some config else None)
    (received_revision config).

(** What [beat] does with the answer to [message]. *)
Definition take_answer (accepts : Routing -> bool) (message : Heartbeat) (answer : HeartbeatResponse)
    (rn : Runner) : Runner :=
  let reported :=
    match hb_effective message with
    | Some config => Some config
    | None => rn_reported rn
    end in
  let rn := mkRunner (rn_settings rn) (rn_tunables rn) (rn_active rn) (rn_gate rn) reported (rn_registered rn) in
  let rn := cancel_builds (hr_cancel answer) rn in
  let rn := match hr_config answer with Some snapshot => apply rn snapshot | None => rn end in
  sync_registration accepts rn.

(** [overdue]: the server has been out of reach past the lease. *)
Definition self_abort (message : Heartbeat) (overdue : bool) (rn : Runner) : Runner :=
  if decide (hb_active_build_ids message <> []) then
    if overdue then cancel_builds (map_to_list (rn_active rn)).*1 rn else rn
  else rn.

(** What is left of [beat] once [message] is sent; no answer where it failed. *)
Definition beat_end (accepts : Routing -> bool) (message : Heartbeat) (answer : option HeartbeatResponse)
    (overdue : bool) (rn : Runner) : Runner :=
  self_abort message overdue
    (match answer with Some answer => take_answer accepts message answer rn | None => rn end).

(** ** The server's half *)

(** What a heartbeat's statements leave of the settings and of the worker's row. *)
Record heard (w : workers.Model) (config : option string) (d d' : database) : Prop := {
  hd_inv : Inv d';
  hd_registry : registry_ok d';
  hd_settings : t_worker_settings d' = t_worker_settings d;
  hd_row : exists w', w' ∈ t_workers d' /\ workers.id w' = workers.id w /\
    workers.settings_declaration w' = workers.settings_declaration w /\ workers.effective_config w' = config
}.

(** A statement on a worker's row that leaves who it is and whether it may build. *)
Lemma run_update_row cols w d :
  Inv d -> registry_ok d -> w ∈ t_workers d ->
  (forall v, workers.embedded (workers.assign cols v) = workers.embedded v /\
    workers.status (workers.assign cols v) = workers.status v /\
    workers.cert_fingerprint (workers.assign cols v) = workers.cert_fingerprint v /\
    workers.settings_declaration (workers.assign cols v) = workers.settings_declaration v) ->
  exists n d', run (update_workers (fun _ => cols) (fun v => workers.id v = workers.id w)) d = (Ok n, d') /\
    heard w (workers.effective_config (workers.assign cols w)) d d' /\ workers.assign cols w ∈ t_workers d'.
Proof.
  intros Hd Hok Hw Hc.
  assert (workers_indexes (t_workers d) -> 
    workers_indexes (updated_workers (fun _ => cols) (fun v => workers.id v = workers.id w) (t_workers d))) as Hidx.
  { intros [Hi Hf]. split; [by rewrite updated_workers_ids|]. rewrite updated_workers_fmap; [done|].
    intros v _. apply Hc. }
  set (l := updated_workers _ _ _) in *.
  assert (workers.assign cols w ∈ l) as Hin.
  { apply elem_of_updated_workers. exists w. split; [done|]. by rewrite decide_True. }
  eexists _, (with_workers l d). split; [|split; [|done]].
  - unfold update_workers. rewrite run_statement. cbv zeta. rewrite decide_True; [done|]. apply Hidx, Hok.
  - split; [| |done|].
    + apply inv_with_workers; [|done]. apply Hidx, Hok.
    + apply (rg_ok (fun _ _ => False) d); [|done]. apply update_workers_regards; [done|..]; intros v _; [|left]; apply Hc.
    + exists (workers.assign cols w). split_and!; [done|apply assign_worker_id|apply Hc|done].
Qed.

Lemma run_touch now w version d :
  Inv d -> registry_ok d -> w ∈ t_workers d ->
  exists w' d', run (touch_last_seen now w version) d = (Ok w', d') /\
    heard w (workers.effective_config w) d d' /\ w' ∈ t_workers d' /\
    workers.id w' = workers.id w /\ workers.effective_config w' = workers.effective_config w /\
    workers.settings_declaration w' = workers.settings_declaration w.
Proof.
  intros Hd Hok Hw. unfold touch_last_seen. case_match.
  { exists w, d. split_and!; try done. split; try done. by exists w. }
  set (cols := _ :: _). destruct (run_update_row cols w d Hd Hok Hw) as (n & d' & Hrun & Hh & Hin).
  { intros v. unfold cols. by destruct version. }
  exists (workers.assign cols w), d'. unfold mbind, sql_mbind. rewrite run_bind by apply _. rewrite Hrun.
  split_and!; try done; unfold cols; destruct version; try done; apply assign_worker_id.
Qed.

Lemma run_store w json d :
  Inv d -> registry_ok d -> w ∈ t_workers d ->
  exists d', run (store_effective_config (workers.id w) json) d = (Ok tt, d') /\ heard w (Some json) d d'.
Proof.
  intros Hd Hok Hw. destruct (run_update_row [workers.Set_effective_config (Some json)] w d Hd Hok Hw)
    as (n & d' & Hrun & Hh & _); [done|].
  exists d'. split; [|done]. unfold store_effective_config, mbind, sql_mbind. rewrite run_bind by apply _. by rewrite Hrun.
Qed.

#[local] Instance touch_steady now w v : Steady (touch_last_seen now w v).
Proof. unfold touch_last_seen. sql_class. Qed.
#[local] Instance store_effective_steady i j : Steady (store_effective_config i j).
Proof. unfold store_effective_config. sql_class. Qed.
#[local] Instance beat_steady clock now w ids ttl n : Steady (heartbeat clock now w ids ttl n).
Proof. unfold heartbeat, abandon_one, abandon_build. sql_class. Qed.
#[local] Instance record_effective_steady {E} w c : Steady (record_effective (E := E) w c).
Proof. unfold record_effective. sql_class. Qed.
#[local] Instance snapshot_for_steady {E} w r : Steady (snapshot_for (E := E) w r).
Proof. unfold snapshot_for, worker_setting_values. sql_class. Qed.

Lemma run_mret {D E A} (a : A) (d : D) : run (mret (M := Sql D E) a) d = (Ok a, d).
Proof. apply run_ret. Qed.

Lemma run_unless {E} (P : Prop) `{!Decision P} e s :
  exists tr, run (if decide P then mret tt else emit (E := E) e) s = (Ok tt, World (w_db s) tr).
Proof. destruct s as [d tr]. case_decide; eexists; [apply run_ret|apply run_emit]. Qed.

Lemma run_record_effective {E} w config json s :
  Inv (w_db s) -> registry_ok (w_db s) -> w ∈ t_workers (w_db s) -> effective_to_json config = Ok json ->
  exists d' tr, run (record_effective (E := E) w config) s = (Ok tt, World d' tr) /\ heard w (Some json) (w_db s) d'.
Proof.
  intros Hd Hok Hw Hj. destruct (run_store w json (w_db s) Hd Hok Hw) as (d' & Hrun & Hh).
  unfold record_effective. cbv zeta. rewrite Hj. unfold mbind, sql_mbind.
  rewrite run_bind by sql_class. rewrite run_bind by apply _.
  rewrite run_attempt, run_on_db, Hrun. cbn [fst snd]. rewrite run_mret.
  rewrite run_bind by sql_class.
  destruct (option_bind _ _ _ _) as [before|].
  - destruct (run_unless (E := E) (changed_since config before = []) (WorkerConfigChanged (workers.name w) (changed_since config before))
      (World d' (w_trace s))) as [tr ->]. cbn [w_db].
    destruct (run_unless (E := E) (rejected_keys config = []) (WorkerSettingRejected (workers.name w) (rejected_keys config))
      (World d' tr)) as [tr' ->]. by exists d', tr'.
  - rewrite run_mret.
    destruct (run_unless (E := E) (rejected_keys config = []) (WorkerSettingRejected (workers.name w) (rejected_keys config))
      (World d' (w_trace s))) as [tr' ->]. by exists d', tr'.
Qed.

Lemma run_snapshot_for {E} w received s :
  run (snapshot_for (E := E) w received) s =
  (Ok (let values := values_of (workers.id w) (t_worker_settings (w_db s)) in
       if decide (received <> Some (config_revision values))
       then Some (mkSnapshot (config_revision values) values) else None), s).
Proof.
  destruct s as [d tr]. unfold snapshot_for, mbind, sql_mbind.
  rewrite run_bind by (apply attempt_steady, on_db_steady; unfold worker_setting_values; apply _).
  rewrite run_attempt, run_on_db. unfold worker_setting_values. by rewrite run_query.
Qed.

Lemma heard_trans w w1 c1 c2 d d1 d2 :
  heard w c1 d d1 -> heard w1 c2 d1 d2 -> workers.id w1 = workers.id w ->
  workers.settings_declaration w1 = workers.settings_declaration w -> heard w c2 d d2.
Proof.
  intros [A1 A2 A3 A4] [B1 B2 B3 (w' & B4 & B5 & B6 & B7)] Hi Hs. split; [done..|congruence|].
  exists w'. split_and!; congruence.
Qed.

(** A heartbeat is answered, and what it says is kept. *)
Lemma run_server_heartbeat clock now answers policy w beat json s :
  Inv (w_db s) -> registry_ok (w_db s) -> w ∈ t_workers (w_db s) ->
  (forall config, hb_effective beat = Some config -> effective_to_json config = Ok json) ->
  exists cancel s', run (server_heartbeat clock now answers policy w beat) s =
    (Ok (mkAnswer cancel
      (let values := values_of (workers.id w) (t_worker_settings (w_db s)) in
       if decide (hb_received_revision beat <> Some (config_revision values))
       then Some (mkSnapshot (config_revision values) values) else None)), s') /\
    heard w (match hb_effective beat with Some _ => Some json | None => workers.effective_config w end) (w_db s) (w_db s').
Proof.
  intros Hd Hok Hw Hj. destruct s as [d tr]. cbn [w_db] in *.
  destruct (run_touch now w (Some (hb_version beat)) d Hd Hok Hw) as (w1 & d1 & Hrun1 & Hh1 & Hw1 & Hid & He & Hsd).
  unfold server_heartbeat, mbind, sql_mbind. rewrite run_bind by apply _.
  rewrite run_on_db. cbn [w_db w_trace]. rewrite Hrun1. cbn [fst snd].
  set (cfg := match hb_effective beat with Some _ => Some json | None => workers.effective_config w end).
  assert (exists d2 tr2, run (match hb_effective beat with Some effective => record_effective (E := DbErr) w1 effective
      | None => mret tt end) (World d1 tr) = (Ok tt, World d2 tr2) /\ heard w cfg d d2) as (d2 & tr2 & Hrun2 & Hh2).
  { unfold cfg. destruct (hb_effective beat) as [config|].
    - destruct (run_record_effective (E := DbErr) w1 config json (World d1 tr)) as (d2 & tr2 & Hr & Hh); try apply Hh1; auto.
      exists d2, tr2. split; [done|]. by eapply heard_trans.
    - by exists d1, tr. }
  rewrite run_bind by (case_match; apply _). rewrite Hrun2.
  rewrite run_bind by apply _. rewrite run_on_db. cbn [w_db w_trace].
  destruct (run_heartbeat clock now (workers.id w1) (hb_active_build_ids beat) (lease_ttl_secs policy)
    (policy_max_attempts policy) d2) as (out & d3 & Hrun3 & Hh3); [apply Hh2|]. rewrite Hrun3. cbn [fst snd].
  pose proof (heartbeat_registry (registry d2) clock now (workers.id w1) (hb_active_build_ids beat) (lease_ttl_secs policy)
    (policy_max_attempts policy) None d2 eq_refl) as Hreg.
  unfold run in Hrun3. injection Hrun3 as Hres Hdb. rewrite Hdb in Hreg. unfold holds_registry in Hreg.
  assert (exists tr3, run (if decide (dropped out = []) then mret tt
       else
         let '(retried, failed) := named_abandoned (dropped out) in
         sql_bind (fun _ => for_each (fun a => report_abandoned (answers (ab_build_id a)) a) (dropped out))
           (emit (WorkerReaped [workers.name w1] retried failed))) (World d3 tr2) =
     (Ok (E := DbErr) tt, World d3 tr3)) as [tr3 Hrun4].
  { case_decide; [by exists tr2|]. destruct (named_abandoned _) as [retried failed].
    rewrite run_bind by apply _. rewrite run_emit.
    exact (run_report_each answers (dropped out) (World d3 _)). }
  rewrite run_bind by (case_decide; [|destruct (named_abandoned _)]; sql_class). rewrite Hrun4.
  rewrite run_bind by apply _. rewrite run_snapshot_for. cbn [w_db].
  assert (t_workers d3 = t_workers d2 /\ t_worker_settings d3 = t_worker_settings d2) as [Hws Hst] by (by injection Hreg).
  exists (cancel_requested out), (World d3 tr3). split.
  - rewrite run_mret, Hid, Hst, (hd_settings _ _ _ _ Hh2). done.
  - destruct Hh2 as [_ Hr2 Hs2 Hw2]. split; cbn [w_db]; [apply Hh3| |congruence|by rewrite Hws].
    by apply (rg_ok _ _ _ (regards_registry (fun _ _ => False) d2 d3 Hreg)).
Qed.

(** ** Both halves *)

(** The worker that authenticated as [id] is read, then heard. *)
Definition server_hears (clock now : Z) (answers : Z -> result string unit) (policy : WorkerPolicy)
    (id : Z) (beat : Heartbeat) : Sql world DbErr HeartbeatResponse :=
  found ← on_db (find_worker id);
  match found with
  | Some worker => server_heartbeat clock now answers policy worker beat
  | None => sql_fail (Custom "unknown worker")
  end.

Section fleet.
Context (env : string -> option string) (specs : list SettingSpec).
Context (Hspecs : Forall spec_ok specs) (Hkeys : NoDup (spec_key <$> specs)).
Context (Hjson : forall config, exists json, effective_to_json config = Ok json /\ effective_from_json json = Some config).
Context (policy : WorkerPolicy) (version : string) (accepts : Routing -> bool) (id : Z).

(** The settings a worker comes to run when each delivery carries the digest of its
    values; [held]: the values of the last. *)
Inductive serves : option (gmap string string) -> WorkerSettings -> Prop :=
| serves_start : serves None (from_env env specs)
| serves_delivery held ws values :
    serves held ws ->
    serves (Some values) (reconfigure (with_snapshot ws (mkSnapshot (config_revision values) values)) ws).

Lemma serves_runs held ws : serves held ws -> runs env specs ws.
Proof.
  induction 1 as [|held ws values _ IH]; [constructor|].
  destruct (reconfigure_refuses (with_snapshot ws (mkSnapshot (config_revision values) values)) ws) as [refusals ->].
  by constructor.
Qed.

Lemma serves_revision held ws : serves held ws -> ws_revision ws = config_revision <$> held.
Proof.
  destruct 1 as [|held ws values _]; [done|].
  by destruct (reconfigure_refuses (with_snapshot ws (mkSnapshot (config_revision values) values)) ws) as [refusals ->].
Qed.

(** A heartbeat and its answer; [overdue]: how long the server was out of reach. *)
Definition exchange (clock now : Z) (answers : Z -> result string unit) (overdue : bool) (rn : Runner) (s : world) :
    Runner * world :=
  let message := beat_message version rn in
  let '(answer, s') := run (server_hears clock now answers policy id message) s in
  (beat_end accepts message (match answer with Ok answer => Some answer | Err _ => None end) overdue rn, s').

(** One worker and the server: what an operator saves, heartbeats of which the request
    or the answer may be lost, and the worker's restarts. *)
Inductive step : Runner * world -> Runner * world -> Prop :=
| step_save w changes rn s :
    w ∈ t_workers (w_db s) -> workers.id w = id ->
    step (rn, s) (rn, World (run (save w changes) (w_db s)).2 (w_trace s))
| step_exchange clock now answers overdue rn s : step (rn, s) (exchange clock now answers overdue rn s)
| step_unanswered clock now answers overdue rn s :
    step (rn, s) (beat_end accepts (beat_message version rn) None overdue rn,
                  (run (server_hears clock now answers policy id (beat_message version rn)) s).2)
| step_unsent overdue rn s : step (rn, s) (beat_end accepts (beat_message version rn) None overdue rn, s)
| step_restart rn s : step (rn, s) (new_runner (from_env env specs), s).

Definition set_values (s : world) : gmap string string := values_of id (t_worker_settings (w_db s)).

Record fleet_ok (held : option (gmap string string)) (rn : Runner) (s : world) : Prop := {
  fo_inv : Inv (w_db s);
  fo_registry : registry_ok (w_db s);
  fo_row : exists w, w ∈ t_workers (w_db s) /\ workers.id w = id /\
    declaration w = declare (from_env env specs) /\
    (rn_reported rn = Some (effective sentence (rn_settings rn)) ->
     workers.effective_config w ≫= effective_from_json = rn_reported rn);
  fo_serves : serves held (rn_settings rn);
  fo_tunables : rn_tunables rn = from_settings (rn_settings rn);
  fo_gate : rn_gate rn = ct_concurrency (rn_tunables rn)
}.

Definition same_config (rn rn' : Runner) : Prop :=
  rn_settings rn' = rn_settings rn /\ rn_tunables rn' = rn_tunables rn /\ rn_gate rn' = rn_gate rn /\
  rn_reported rn' = rn_reported rn /\ rn_registered rn' = rn_registered rn.

Lemma self_abort_same message overdue rn : same_config rn (self_abort message overdue rn).
Proof. unfold self_abort. by repeat case_match. Qed.

Lemma sync_registered rn :
  let rn' := sync_registration accepts rn in
  rn_settings rn' = rn_settings rn /\ rn_tunables rn' = rn_tunables rn /\ rn_gate rn' = rn_gate rn /\
  rn_reported rn' = rn_reported rn /\
  (accepts (routing_of (rn_tunables rn)) = true -> rn_registered rn' = routing_of (rn_tunables rn)).
Proof.
  unfold sync_registration. cbv zeta. case_decide; [by split_and!|].
  destruct (accepts _) eqn:Ha; by split_and!.
Qed.

(** What an answer that comes leaves. *)
Lemma beat_end_answered answer overdue rn :
  let rn' := beat_end accepts (beat_message version rn) (Some answer) overdue rn in
  let settings := match hr_config answer with
                  | Some snapshot => reconfigure (with_snapshot (rn_settings rn) snapshot) (rn_settings rn)
                  | None => rn_settings rn
                  end in
  let tunables := match hr_config answer with Some _ => from_settings settings | None => rn_tunables rn end in
  rn_settings rn' = settings /\ rn_tunables rn' = tunables /\
  rn_gate rn' = match hr_config answer with Some _ => ct_concurrency tunables | None => rn_gate rn end /\
  rn_reported rn' = Some (effective sentence (rn_settings rn)) /\
  (accepts (routing_of tunables) = true -> rn_registered rn' = routing_of tunables).
Proof.
  intros rn' settings tunables. subst rn'. unfold beat_end.
  destruct (self_abort_same (beat_message version rn) overdue
    (take_answer accepts (beat_message version rn) answer rn)) as (-> & -> & -> & -> & ->).
  unfold take_answer.
  match goal with |- context [sync_registration _ ?r] => destruct (sync_registered r) as (-> & -> & -> & -> & Hreg) end.
  revert Hreg. subst tunables settings.
  assert (match hb_effective (beat_message version rn) with Some config => Some config | None => rn_reported rn end =
    Some (effective sentence (rn_settings rn))) as ->.
  { unfold beat_message. cbn. by case_decide. }
  destruct (hr_config answer); cbn; intros; by split_and!.
Qed.

(** No other values a worker might hold have the digest of these. *)
Definition no_collision (values : gmap string string) : Prop :=
  forall held, config_revision held = config_revision values -> held = values.

Record heard_from (rn : Runner) (s s' : world) : Prop := {
  hf_inv : Inv (w_db s');
  hf_registry : registry_ok (w_db s');
  hf_settings : t_worker_settings (w_db s') = t_worker_settings (w_db s);
  hf_row : exists w, w ∈ t_workers (w_db s') /\ workers.id w = id /\
    declaration w = declare (from_env env specs) /\
    workers.effective_config w ≫= effective_from_json = Some (effective sentence (rn_settings rn))
}.

Lemma run_server_hears held rn s clock now answers :
  fleet_ok held rn s ->
  exists cancel s', run (server_hears clock now answers policy id (beat_message version rn)) s =
    (Ok (mkAnswer cancel
      (if decide (ws_revision (rn_settings rn) <> Some (config_revision (set_values s)))
       then Some (mkSnapshot (config_revision (set_values s)) (set_values s)) else None)), s') /\
    heard_from rn s s'.
Proof.
  intros [Hi Hr (w & Hw & Hid & Hdecl & Hrep) Hsv Ht Hg].
  destruct (Hjson (effective sentence (rn_settings rn))) as (json & Hto & Hfrom).
  destruct (run_server_heartbeat clock now answers policy w (beat_message version rn) json s) as (cancel & s' & Hrun & Hh);
    [done..| |].
  { intros config. unfold beat_message. cbn. case_decide; [|done]. by intros [= <-]. }
  exists cancel, s'. split.
  - unfold server_hears, mbind, sql_mbind. rewrite run_bind by apply _. rewrite run_on_db.
    unfold find_worker, find_worker_where. rewrite run_query. unfold set_values. rewrite <- Hid. rewrite (find_worker_by_id _ w); [|apply Hr|done].
    cbn [fst snd head]. destruct s; exact Hrun.
  - destruct Hh as [A1 A2 A3 (w' & A4 & A5 & A6 & A7)]. split; [done..|]. exists w'. split_and!; [done|congruence| |].
    + unfold declaration in *. by rewrite A6.
    + rewrite A7. unfold beat_message. cbn. case_decide as Hd; [exact Hfrom|]. by rewrite Hrep, Hd.
Qed.

(** What is held after an exchange, and what it leaves. *)
Lemma exchange_fleet held rn s clock now answers overdue :
  fleet_ok held rn s ->
  let '(rn', s') := exchange clock now answers overdue rn s in
  let held' := if decide (config_revision <$> held <> Some (config_revision (set_values s)))
               then Some (set_values s) else held in
  fleet_ok held' rn' s' /\ set_values s' = set_values s /\
  rn_reported rn' = Some (effective sentence (rn_settings rn)) /\
  (held' = held -> config_revision <$> held = Some (config_revision (set_values s)) -> rn_settings rn' = rn_settings rn) /\
  (accepts (routing_of (rn_tunables rn')) = true -> rn_registered rn' = routing_of (rn_tunables rn')).
Proof.
  intros Hok. unfold exchange.
  destruct (run_server_hears held rn s clock now answers Hok) as (cancel & s' & -> & [A1 A2 A3 (w & A4 & A5 & A6 & A7)]).
  pose proof (fo_serves _ _ _ Hok) as Hsv. rewrite (serves_revision _ _ Hsv). cbv zeta.
  set (answer := mkAnswer _ _).
  destruct (beat_end_answered answer overdue rn) as (B1 & B2 & B3 & B4 & B5). rewrite <- B2 in B5.
  assert (set_values s' = set_values s) as Hset by (unfold set_values; by rewrite A3).
  split_and!; [|done|done| |done].
  - split; [done|done| | | |].
    + exists w. split_and!; [done..|]. intros Hsame. by rewrite A7, B4.
    + rewrite B1. unfold answer. cbn. case_decide; cbn; [by eapply serves_delivery|done].
    + rewrite B1, B2. unfold answer. cbn. case_decide; cbn; [done|apply Hok].
    + rewrite B3, B2. unfold answer. cbn. case_decide; cbn; [done|apply Hok].
  - intros _ Hh. rewrite B1. unfold answer. cbn. by rewrite decide_False by (intros ?; done).
Qed.

Lemma held_values held values :
  no_collision values -> config_revision <$> held = Some (config_revision values) -> held = Some values.
Proof. intros Hcol. destruct held as [h|]; [|done]. intros [= Hc]. f_equal. by apply Hcol. Qed.

Lemma exchange_ok held rn s clock now answers overdue :
  fleet_ok held rn s -> no_collision (set_values s) ->
  let '(rn', s') := exchange clock now answers overdue rn s in
  fleet_ok (Some (set_values s)) rn' s' /\ set_values s' = set_values s /\
  rn_reported rn' = Some (effective sentence (rn_settings rn)) /\
  (held = Some (set_values s) -> rn_settings rn' = rn_settings rn) /\
  (accepts (routing_of (rn_tunables rn')) = true -> rn_registered rn' = routing_of (rn_tunables rn')).
Proof.
  intros Hok Hcol. pose proof (exchange_fleet held rn s clock now answers overdue Hok) as Hex.
  destruct (exchange _ _ _ _ _ _) as [rn' s']. destruct Hex as (H2 & H3 & H4 & H5 & H6). case_decide as Hd.
  - split_and!; try done. intros ->. by destruct Hd.
  - apply (held_values _ _ Hcol) in Hd as Hh. subst held. split_and!; auto.
Qed.

(** ** What is saved *)

Lemma run_save_refused w changes why d :
  checked_changes (declaration w) changes = Err why -> run (save w changes) d = (Ok (SaveRefused why), d).
Proof. unfold save. intros ->. apply run_mret. Qed.

Lemma run_save_checked w changes checked d :
  registry_ok d -> checked_changes (declaration w) changes = Ok checked ->
  exists saved d', run (save w changes) d = (Ok (Saved saved), d') /\
    saves (workers.id w) (values_of (workers.id w) (t_worker_settings d)) (by_key checked) nothing_saved saved d d'.
Proof.
  intros Hok Hc. destruct (run_save (workers.id w) checked d Hok) as (saved & d' & Hrun & Hs).
  exists saved, d'. split; [|done]. unfold save. rewrite Hc. unfold mbind, sql_mbind.
  rewrite run_bind by apply _. rewrite Hrun. apply run_mret.
Qed.

Lemma saves_fleet held rn d tr checked saved d' before :
  fleet_ok held rn (World d tr) -> saves id before (by_key checked) nothing_saved saved d d' ->
  fleet_ok held rn (World d' tr).
Proof.
  intros [[Hwf Hl Hsy] [Hr1 Hr2 Hr3 Hr4] Hrow Hsv Ht Hg] Hs. destruct Hs as [Hu _ _ _ _ _ (t & n & ->)].
  split; [by destruct Hwf| |done..]. by split.
Qed.

Lemma save_fleet held rn s w changes :
  fleet_ok held rn s -> w ∈ t_workers (w_db s) -> workers.id w = id ->
  fleet_ok held rn (World (run (save w changes) (w_db s)).2 (w_trace s)).
Proof.
  intros Hok Hw Hid. destruct s as [d tr]. destruct (checked_changes (declaration w) changes) as [checked|why] eqn:Hc.
  - destruct (run_save_checked w changes checked d (fo_registry _ _ _ Hok) Hc) as (saved & d' & Hrun & Hs).
    cbn [w_db w_trace]. rewrite Hrun. rewrite Hid in Hs. by eapply saves_fleet.
  - cbn [w_db w_trace]. rewrite (run_save_refused _ _ _ _ Hc). done.
Qed.

(** ** What is reached *)

(** The worker has registered, and has not been heard since it started. *)
Record starts (s : world) : Prop := {
  ss_inv : Inv (w_db s);
  ss_registry : registry_ok (w_db s);
  ss_row : exists w, w ∈ t_workers (w_db s) /\ workers.id w = id /\ declaration w = declare (from_env env specs)
}.

Definition reached (c : Runner * world) : Prop :=
  exists s, starts s /\ rtc step (new_runner (from_env env specs), s) c.

Lemma restart_ok s : starts s -> fleet_ok None (new_runner (from_env env specs)) s.
Proof.
  intros [Hi Hr (w & Hw & Hid & Hd)]. split; [done|done| |constructor|done|done].
  exists w. by split_and!.
Qed.

Lemma fleet_starts held rn s : fleet_ok held rn s -> starts s.
Proof. intros [Hi Hr (w & Hw & Hid & Hd & _) _ _ _]. split; [done..|]. by exists w. Qed.

Lemma same_fleet held rn rn' s :
  same_config rn rn' -> fleet_ok held rn s -> fleet_ok held rn' s.
Proof. intros (H2 & H3 & H4 & H5 & _) [Hi Hr Hrow Hsv Ht Hg]. split; rewrite ?H2, ?H3, ?H4, ?H5; done. Qed.

Lemma step_ok c c' :
  step c c' -> (exists held, fleet_ok held c.1 c.2) -> exists held, fleet_ok held c'.1 c'.2.
Proof.
  intros Hstep [held Hok].
  destruct Hstep as [w changes rn s Hw Hid|clock now answers overdue rn s|clock now answers overdue rn s|overdue rn s|rn s];
    cbn [fst snd] in *.
  - exists held. by apply save_fleet.
  - pose proof (exchange_fleet held rn s clock now answers overdue Hok) as Hex.
    destruct (exchange _ _ _ _ _ _) as [rn' s']. destruct Hex as [Hex _]. by eexists.
  - exists held. eapply same_fleet; [apply self_abort_same|].
    destruct (run_server_hears held rn s clock now answers Hok) as (cancel & s' & -> & [A1 A2 A3 (w & A4 & A5 & A6 & A7)]).
    destruct Hok as [_ _ _ Hsv Ht Hg]. split; try done. exists w. split_and!; [done..|]. intros Hrep. by rewrite A7, Hrep.
  - exists held. eapply same_fleet; [apply self_abort_same|done].
  - exists None. apply restart_ok. by eapply fleet_starts.
Qed.

Lemma reached_ok rn s : reached (rn, s) -> exists held, fleet_ok held rn s.
Proof.
  intros (s0 & Hs0 & Hr).
  assert (exists held, fleet_ok held (rn, s).1 (rn, s).2) as Hok; [|done].
  remember (new_runner (from_env env specs), s0) as c0 eqn:Hc0.
  assert (exists held, fleet_ok held c0.1 c0.2) as H0' by (subst; exists None; by apply restart_ok).
  clear Hc0 Hs0. induction Hr as [|c c1 c2 Hstep _ IH]; [done|]. apply IH. by apply (step_ok c).
Qed.

Lemma fleet_declaration held rn s w :
  fleet_ok held rn s -> w ∈ t_workers (w_db s) -> workers.id w = id -> declaration w = declare (from_env env specs).
Proof.
  intros [_ Hreg (w0 & Hw0 & Hid0 & Hd & _) _ _ _] Hw Hid.
  assert (w = w0) as ->; [|done]. apply (NoDup_fmap_inj_elem workers.id (t_workers (w_db s))); [apply Hreg|done..|congruence].
Qed.

(** Of a worker that holds [values]: what its report says of a declared setting. *)
Lemma served_report values ws spec :
  serves (Some values) ws -> spec ∈ specs ->
  exists x, ec_settings (effective sentence ws) !! spec_key spec = Some x /\
    ((exists why, es_status x = Rejected /\ es_reason x = Some (sentence (HostRefused why))) \/
     match usable env (spec_kind spec) (spec_env_var spec) with
     | Some pin => es_value x = Some pin
     | None =>
         match values !! spec_key spec with
         | Some v => validate (spec_kind spec) v = Ok tt -> es_value x = Some (trim v) /\ es_source x = Server
         | None => es_value x = default_of env spec
         end
     end).
Proof.
  intros Hsv Hin. inversion Hsv as [|held prev ? Hprev Hv Hws]. subst values0.
  destruct (reconfigure_refuses (with_snapshot prev (mkSnapshot (config_revision values) values)) prev) as [refusals Hrf].
  rewrite Hrf. destruct (delivered_report sentence env specs prev (mkSnapshot (config_revision values) values) refusals spec)
    as (r & Hr & Hcases); [done|done|by eapply serves_runs|done|].
  exists (WorkerSettings.shown sentence r). split; [done|]. destruct (refusals !! spec_key spec) as [why|].
  - left. exists why. destruct Hcases as [Hst Hre]. cbn. by rewrite Hst, Hre.
  - by right.
Qed.

(** A save the server takes, and the exchange that follows it. *)
Lemma saved_exchange held rn s w changes saved d1 clock now answers overdue :
  fleet_ok held rn s -> w ∈ t_workers (w_db s) -> workers.id w = id ->
  run (save w changes) (w_db s) = (Ok (Saved saved), d1) -> no_collision (set_values (World d1 (w_trace s))) ->
  let '(rn', _) := exchange clock now answers overdue rn (World d1 (w_trace s)) in
  exists values, serves (Some values) (rn_settings rn') /\
    forall k raw, changes !! k = Some raw ->
      exists v, checked_value (declaration w) k raw = Ok v /\ values !! k = v.
Proof.
  intros Hok Hw Hid Hrun Hcol. pose proof (save_fleet held rn s w changes Hok Hw Hid) as Hok1. rewrite Hrun in Hok1. cbn [snd] in Hok1.
  pose proof (exchange_ok held rn _ clock now answers overdue Hok1 Hcol) as Hex.
  destruct (exchange _ _ _ _ _ _) as [rn' s']. destruct Hex as [[_ _ _ Hsv _ _] _].
  exists (set_values (World d1 (w_trace s))). split; [done|]. intros k raw Hk.
  pose proof (checked_changes_spec (declaration w) changes) as Hspec.
  destruct (checked_changes (declaration w) changes) as [checked|why] eqn:Hc.
  - destruct (run_save_checked w changes checked (w_db s) (fo_registry _ _ _ Hok) Hc) as (saved' & d' & Hrun' & Hs).
    rewrite Hrun in Hrun'. injection Hrun' as <- <-. destruct Hspec as [Hiff Hdom].
    assert (is_Some (checked !! k)) as [v Hv].
    { apply elem_of_dom. rewrite Hdom. apply elem_of_dom. by eexists. }
    exists v. pose proof Hv as Hv'. apply Hiff in Hv as (raw' & Hk' & Hcv). rewrite Hk in Hk'. injection Hk' as <-.
    split; [done|]. unfold set_values. cbn [w_db]. rewrite <- Hid, (saves_values _ _ _ _ _ _ Hs), Hv'. done.
  - by rewrite (run_save_refused _ _ _ _ Hc) in Hrun.
Qed.

(** C15. What an operator saves is what the worker comes to run, or the report says why
    not. In any state reached by saves, heartbeats, lost requests, lost answers and
    restarts: once the server takes a save, the next answered heartbeat leaves every
    key saved in force as the server's with the value as stored, but for a key the
    worker's own environment pins, which runs its pin, and one whose value the host
    cannot honour, which the report shows as rejected with the host's reason; never is
    a value that passed the server's check refused by the worker's. A key reset
    returns to what the environment alone gives. *)
Theorem saved_values_reach_the_worker rn s w changes saved d1 clock now answers overdue :
  reached (rn, s) -> w ∈ t_workers (w_db s) -> workers.id w = id ->
  run (save w changes) (w_db s) = (Ok (Saved saved), d1) -> no_collision (set_values (World d1 (w_trace s))) ->
  let rn' := (exchange clock now answers overdue rn (World d1 (w_trace s))).1 in
  let host_refused x := exists why, es_status x = Rejected /\ es_reason x = Some (sentence (HostRefused why)) in
  (forall k raw, changes !! k = Some (Some raw) ->
    exists spec x, spec ∈ specs /\ spec_key spec = k /\
      ec_settings (effective sentence (rn_settings rn')) !! k = Some x /\
      (es_value x = Some (trim raw) /\ es_source x = Server \/
       (exists pin, usable env (spec_kind spec) (spec_env_var spec) = Some pin /\ es_value x = Some pin) \/
       host_refused x)) /\
  (forall spec, spec ∈ specs -> changes !! spec_key spec = Some None ->
    exists x, ec_settings (effective sentence (rn_settings rn')) !! spec_key spec = Some x /\
      (es_value x = first_of (usable env (spec_kind spec) (spec_env_var spec)) (default_of env spec) \/ host_refused x)).
Proof.
  intros Hr Hw Hid Hrun Hcol. destruct (reached_ok _ _ Hr) as [held Hok].
  pose proof (fleet_declaration held rn s w Hok Hw Hid) as Hdecl.
  pose proof (saved_exchange held rn s w changes saved d1 clock now answers overdue Hok Hw Hid Hrun Hcol) as Hex.
  destruct (exchange _ _ _ _ _ _) as [rn' s']. destruct Hex as (values & Hsv & Hval). cbn [fst]. split.
  - intros k raw Hk. destruct (Hval k _ Hk) as (v & Hcv & Hv). rewrite Hdecl in Hcv.
    pose proof (checked_value_ok _ _ _ _ Hcv) as Hshape. destruct v as [v|]; [|done]. destruct Hshape as (-> & _ & Hvalid).
    destruct (decide (k ∈ spec_key <$> specs)) as [Hin|Hn]; [|by rewrite undeclared in Hvalid].
    apply list_elem_of_fmap in Hin as (spec & -> & Hin). rewrite (declared_kind _ specs) in Hvalid by done.
    destruct (served_report values _ spec Hsv Hin) as (x & Hx & Hcases). exists spec, x. split_and!; [done..|].
    destruct Hcases as [?|Hcases]; [by right; right|]. rewrite Hv in Hcases.
    destruct (usable _ _ _) as [pin|]; [right; left; by exists pin|]. left. rewrite trim_idem in Hcases. by apply Hcases.
  - intros spec Hin Hk. destruct (Hval _ _ Hk) as (v & Hcv & Hv). injection Hcv as <-.
    destruct (served_report values _ spec Hsv Hin) as (x & Hx & Hcases). exists x. split; [done|].
    destruct Hcases as [?|Hcases]; [by right|]. left. rewrite Hv in Hcases. by destruct (usable _ _ _).
Qed.

Lemma run_view w d :
  run (view w) d =
  (Ok (mkView (workers.id w) (config_revision (values_of (workers.id w) (t_worker_settings d))) (declaration w)
         (workers.effective_config w ≫= effective_from_json) (values_of (workers.id w) (t_worker_settings d))), d).
Proof. reflexivity. Qed.

(** C16. The page shows what the worker runs. In any state reached by saves, heartbeats,
    lost requests, lost answers and restarts, a worker with nothing new to report has
    its running configuration, whole, on the server's page, beside the settings it
    really accepts and the values set for it; and what it schedules by and admits
    builds by is always read from the settings in force. *)
Theorem quiet_worker_is_shown rn s :
  reached (rn, s) ->
  rn_tunables rn = from_settings (rn_settings rn) /\ rn_gate rn = ct_concurrency (rn_tunables rn) /\
  exists w, w ∈ t_workers (w_db s) /\ workers.id w = id /\
    (hb_effective (beat_message version rn) = None ->
     run (view w) (w_db s) =
       (Ok (mkView id (config_revision (set_values s)) (declare (rn_settings rn))
              (Some (effective sentence (rn_settings rn))) (set_values s)), w_db s)).
Proof.
  intros Hr. destruct (reached_ok _ _ Hr) as [held [Hi Hreg (w & Hw & Hid & Hd & Hrep) Hsv Ht Hg]].
  split_and!; [done..|]. exists w. split_and!; [done..|]. intros Hquiet.
  assert (rn_reported rn = Some (effective sentence (rn_settings rn))) as Hsame.
  { unfold beat_message in Hquiet. cbn in Hquiet. by case_decide. }
  rewrite run_view, Hrep, Hsame, Hd, Hid by done. by rewrite (declare_running env specs (rn_settings rn) Hspecs Hkeys (serves_runs _ _ Hsv)).
Qed.

(** C17. Two answered heartbeats settle a worker. From any state reached, with the
    registrations it sends accepted and no save in between, after two exchanges the
    worker holds the values set for it, has registered what it schedules by, and its
    next heartbeat carries no report and is answered with no configuration: that
    third exchange changes nothing of what it runs. *)
Theorem two_heartbeats_settle rn s clock now answers overdue :
  reached (rn, s) -> no_collision (set_values s) -> (forall routing, accepts routing = true) ->
  let '(rn1, s1) := exchange clock now answers overdue rn s in
  let '(rn2, s2) := exchange clock now answers overdue rn1 s1 in
  serves (Some (set_values s)) (rn_settings rn2) /\
  rn_registered rn2 = routing_of (rn_tunables rn2) /\
  hb_effective (beat_message version rn2) = None /\
  exists cancel s3,
    run (server_hears clock now answers policy id (beat_message version rn2)) s2 = (Ok (mkAnswer cancel None), s3) /\
    same_config rn2 (beat_end accepts (beat_message version rn2) (Some (mkAnswer cancel None)) overdue rn2).
Proof.
  intros Hr Hcol Hacc. destruct (reached_ok _ _ Hr) as [held Hok].
  pose proof (exchange_ok held rn s clock now answers overdue Hok Hcol) as Hex1.
  destruct (exchange clock now answers overdue rn s) as [rn1 s1]. destruct Hex1 as (Hok1 & Hv1 & _ & _ & _).
  rewrite <- Hv1 in Hcol, Hok1 |- *.
  pose proof (exchange_ok _ rn1 s1 clock now answers overdue Hok1 Hcol) as Hex2.
  destruct (exchange clock now answers overdue rn1 s1) as [rn2 s2]. destruct Hex2 as (Hok2 & Hv2 & Hrep & Hsame & Hreg).
  specialize (Hsame eq_refl). specialize (Hreg (Hacc _)). rewrite <- Hsame in Hrep.
  assert (beat_message version rn2 = mkBeat (map_to_list (rn_active rn2)).*1 version None
    (Some (config_revision (set_values s1)))) as Hmsg.
  { unfold beat_message. rewrite Hrep, decide_False by (intros Hne; by destruct Hne). f_equal.
    cbn. by rewrite (serves_revision _ _ (fo_serves _ _ _ Hok2)). }
  split_and!; [apply Hok2|done|by rewrite Hmsg|].
  destruct (run_server_hears _ rn2 s2 clock now answers Hok2) as (cancel & s3 & Hrun & _).
  rewrite Hv2, (serves_revision _ _ (fo_serves _ _ _ Hok2)), decide_False in Hrun by (intros Hne; by destruct Hne).
  exists cancel, s3. split; [done|].
  destruct (beat_end_answered (mkAnswer cancel None) overdue rn2) as (B1 & B2 & B3 & B4 & B5). cbn in B1, B2, B3, B5.
  split_and!; [done..| |]; [by rewrite B4, Hrep|by rewrite B5, Hreg].
Qed.
End fleet.
End messages.

(** ** On the demonstration database *)

(** Texts that stand for the JSON: the bits of the value's code. *)
Fixpoint bits (p : positive) : string :=
  match p with
  | xH => ""
  | xO p => String "0"%char (bits p)
  | xI p => String "1"%char (bits p)
  end.
Fixpoint of_bits (s : string) : positive :=
  match s with
  | "" => xH
  | String "0"%char s => xO (of_bits s)
  | String _ s => xI (of_bits s)
  end.
Lemma of_bits_bits p : of_bits (bits p) = p.
Proof. induction p; simpl; congruence. Qed.

#[local] Instance EffectiveSource_countable : Countable EffectiveSource.
Proof.
  apply (inj_countable' (fun s => match s with Env => 0 | Server => 1 | EnvDefault => 2 | Default => 3 end)
    (fun n => match n with 0 => Env | 1 => Server | 2 => EnvDefault | _ => Default end)). by intros [].
Defined.
#[local] Instance SettingStatus_countable : Countable SettingStatus.
Proof.
  apply (inj_countable' (fun s => match s with Applied => 0 | Overridden => 1 | Unsupported => 2 | Rejected => 3 end)
    (fun n => match n with 0 => Applied | 1 => Overridden | 2 => Unsupported | _ => Rejected end)). by intros [].
Defined.
#[local] Instance EffectiveSetting_countable : Countable EffectiveSetting.
Proof.
  apply (inj_countable' (fun s => (es_value s, es_source s, es_status s, es_reason s))
    (fun '(v, s, t, r) => mkEffectiveSetting v s t r)). by intros [].
Defined.
#[local] Instance EffectiveConfig_countable : Countable EffectiveConfig.
Proof.
  apply (inj_countable' (fun c => (received_revision c, ec_settings c)) (fun '(r, s) => mkEffectiveConfig r s)).
  by intros [].
Defined.

Definition demo_encoding : Encoding (H := demo_floats) := {|
  values_to_json values := bits (encode values);
  sha256_hex s := s;
  effective_to_json config := Ok (bits (encode config));
  effective_from_json s := decode (of_bits s);
  declaration_from_json _ := Some (declare (from_env demo_env demo_specs))
|}.

Lemma demo_refuses candidate previous :
  exists refusals, candidate = refused (H := demo_floats) candidate refusals previous.
Proof.
  exists ∅. destruct candidate as [entries revision unsupported]. unfold refused. cbn. f_equal.
  symmetry. rewrite <- (list_fmap_id entries) at 2. apply list_fmap_ext. intros i e _. by rewrite lookup_empty.
Qed.

(** A host that honours everything. *)
Definition demo_executor : Executor (H := demo_floats) := {|
  reconfigure candidate _ := candidate;
  reconfigure_refuses := demo_refuses
|}.
#[local] Existing Instances demo_floats demo_encoding demo_executor.

Lemma demo_json config :
  exists json, effective_to_json config = Ok json /\ effective_from_json json = Some config.
Proof. eexists. split; [done|]. cbn. by rewrite of_bits_bits, decode_encode. Qed.

Lemma demo_no_collision values : no_collision values.
Proof.
  intros held Heq. unfold config_revision in Heq. cbn in Heq. apply (inj encode). by rewrite <- (of_bits_bits (encode held)), <- (of_bits_bits (encode values)), Heq.
Qed.

Definition demo_reach := reached demo_sentence demo_env demo_specs (mkWorkerPolicy 60 3) "1.0" (fun _ => true) 1.
Definition demo_exchange := exchange demo_sentence (mkWorkerPolicy 60 3) "1.0" (fun _ => true) 1.
Definition demo_start : Runner * world := (new_runner (from_env demo_env demo_specs), World demo_db []).

Lemma demo_started : demo_reach demo_start.
Proof.
  exists (World demo_db []). split; [|constructor]. split; [exact demo_inv|exact demo_registry|].
  eexists. split; [left|]. done.
Qed.

Lemma two_heartbeats_settle_witness :
  let '(rn1, s1) := demo_exchange 1200 1200 (fun _ => Ok tt) false demo_start.1 demo_start.2 in
  let '(rn2, s2) := demo_exchange 1200 1200 (fun _ => Ok tt) false rn1 s1 in
  hb_effective (beat_message demo_sentence "1.0" rn2) = None.
Proof.
  pose proof (two_heartbeats_settle demo_sentence demo_env demo_specs demo_json
    (mkWorkerPolicy 60 3) "1.0" (fun _ => true) 1 demo_start.1 demo_start.2 1200 1200 (fun _ => Ok tt) false
    demo_started (demo_no_collision _) (fun _ => eq_refl)) as H.
  unfold demo_exchange.
  destruct (exchange _ _ _ _ _ _ _ _ _ demo_start.1 _) as [rn1 s1]. destruct (exchange _ _ _ _ _ _ _ _ _ rn1 _) as [rn2 s2].
  apply H.
Defined.

Lemma quiet_worker_is_shown_witness :
  rn_gate demo_start.1 = ct_concurrency (rn_tunables demo_start.1) /\ ct_concurrency (rn_tunables demo_start.1) = 4%Z.
Proof.
  split; [|by vm_compute].
  exact (proj1 (proj2 (quiet_worker_is_shown demo_sentence demo_env demo_specs demo_specs_ok demo_specs_nodup demo_json
    (mkWorkerPolicy 60 3) "1.0" (fun _ => true) 1 demo_start.1 demo_start.2 demo_started))).
Defined.

Definition demo_save : gmap string (option string) := {["poll_interval" := Some " 45s "; "concurrency" := Some "8"]}.
Definition demo_row : workers.Model := default (demo_worker 0 "" Pending [] [] 0) (t_workers demo_db !! 0).

Lemma demo_saved : exists saved d1, run (save demo_row demo_save) demo_db = (Ok (Saved saved), d1).
Proof.
  destruct (checked_changes (declaration demo_row) demo_save) as [checked|] eqn:Hc.
  - destruct (run_save_checked demo_row demo_save checked demo_db demo_registry Hc) as (saved & d1 & Hrun & _). eauto.
  - exfalso. assert (is_ok (checked_changes (declaration demo_row) demo_save) = true) as Ho by (vm_compute; reflexivity).
    by rewrite Hc in Ho.
Qed.

Lemma saved_values_reach_the_worker_witness :
  exists saved d1, run (save demo_row demo_save) demo_db = (Ok (Saved saved), d1) /\
    exists x, ec_settings (effective demo_sentence (rn_settings
        (demo_exchange 1200 1200 (fun _ => Ok tt) false demo_start.1 (World d1 [])).1)) !! "poll_interval" = Some x /\
      (es_value x = Some "45s" \/ es_status x = Rejected).
Proof.
  destruct demo_saved as (saved & d1 & Hrun). exists saved, d1. split; [exact Hrun|].
  destruct (saved_values_reach_the_worker demo_sentence demo_env demo_specs demo_specs_ok demo_specs_nodup demo_json
    (mkWorkerPolicy 60 3) "1.0" (fun _ => true) 1 demo_start.1 demo_start.2 demo_row demo_save saved d1
    1200 1200 (fun _ => Ok tt) false demo_started ltac:(left) eq_refl Hrun (demo_no_collision _)) as [Hset _].
  destruct (Hset "poll_interval" " 45s ") as (spec & x & Hin & Hkey & Hx & Hcases); [by vm_compute|].
  exists x. split; [exact Hx|].
  destruct Hcases as [[Hv _]|[(pin & Hpin & _)|(why & Hr & _)]]; [left; exact Hv| |by right].
  exfalso. assert (Forall (fun spec => spec_key spec = "poll_interval" ->
    usable demo_env (spec_kind spec) (spec_env_var spec) = None) demo_specs) as Hall.
  { repeat (apply Forall_cons_2; [intros; vm_compute; first [reflexivity|discriminate]|]). apply Forall_nil_2. }
  rewrite Forall_forall in Hall. by rewrite (Hall spec Hin Hkey) in Hpin.
Defined.
