(* ===== verification/PkgCache.v ===== *)
(** * A worker's caches

    [backend/aurcache-worker/src/cache.rs]: which cached sources, build trees and
    packages go when space or time runs out, and how the shared package cache is
    kept in step with what the repository publishes. What the file system answers
    is a parameter; a missing file, a failed removal, an unreadable archive and a
    hashing thread that died are answers it may give. *)
From S2P Require Import Prelude Text Order Units PkgDb.
From stdpp Require Import pretty.
From Stdlib Require Import Ascii.
Open Scope string_scope.
Open Scope list_scope.

(** ** [u64] arithmetic that sticks at its ends *)

Definition u64_saturating_add (a b : Z) : Z := Z.min (a + b) u64_max.
Definition u64_saturating_sub (a b : Z) : Z := Z.max (a - b) 0.

(** ** [plan_eviction] *)

(** A time is a number of nanoseconds. *)
Record CacheEntry := mkCacheEntry {
  ce_pkgbase : string;
  ce_size : option Z;
  ce_last_used : Z
}.

Definition in_use_by (in_use : list string) (e : CacheEntry) : Prop := ce_pkgbase e ∈ in_use.
#[export] Instance in_use_by_dec in_use e : Decision (in_use_by in_use e).
Proof. unfold in_use_by. apply _. Defined.

(** [!ttl.is_zero() && now.duration_since(e.last_used).is_ok_and(|age| age > ttl)] *)
Definition aged (ttl now : Z) (e : CacheEntry) : bool :=
  negb (ttl =? 0)%Z && (ce_last_used e <=? now)%Z && (ttl <? now - ce_last_used e)%Z.

(** One turn of the first loop: the names to evict, and the entries kept so far. *)
Definition age_step (in_use : list string) (ttl now : Z) (acc : list string * list CacheEntry)
    (e : CacheEntry) : list string * list CacheEntry :=
  let '(evict, kept) := acc in
  if decide (in_use_by in_use e) then (evict, kept ++ [e])
  else if aged ttl now e then (evict ++ [ce_pkgbase e], kept)
  else (evict, kept ++ [e]).

Definition measured_total (l : list CacheEntry) : Z := foldl u64_saturating_add 0%Z (omap ce_size l).
Definition unmeasured_count (l : list CacheEntry) : nat := length (filter (fun e => ce_size e = None) l).

Definition by_last_use (a b : CacheEntry) : comparison :=
  Z.compare (ce_last_used a) (ce_last_used b).

(** The second loop, over what is left oldest first. *)
Fixpoint squeeze (in_use : list string) (max_size : Z) (kept : list CacheEntry) (total : Z)
    (unknown : nat) (evict : list string) : list string :=
  match kept with
  | [] => evict
  | e :: kept =>
      if decide (unknown = 0 /\ (total <= max_size)%Z) then evict
      else if decide (is_Some (ce_size e) /\ (total <= max_size)%Z) then
        squeeze in_use max_size kept total unknown evict
      else if decide (in_use_by in_use e) then squeeze in_use max_size kept total unknown evict
      else
        match ce_size e with
        | Some size => squeeze in_use max_size kept (u64_saturating_sub total size) unknown (evict ++ [ce_pkgbase e])
        | None => squeeze in_use max_size kept total (unknown - 1) (evict ++ [ce_pkgbase e])
        end
  end.

Definition plan_eviction (entries : list CacheEntry) (max_size ttl now : Z) (in_use : list string)
  : list string :=
  let '(evict, kept) := foldl (age_step in_use ttl now) ([], []) entries in
  if decide (0 < max_size)%Z then
    squeeze in_use max_size (sort_by by_last_use kept) (measured_total kept) (unmeasured_count kept) evict
  else evict.

(** *** What it comes to *)

(** The bytes entries hold, as far as they are known. *)
Definition bytes_of (l : list CacheEntry) : Z := foldr Z.add 0%Z (omap ce_size l).
Definition sized (e : CacheEntry) : Prop := forall n, ce_size e = Some n -> (0 <= n)%Z.

(** Which entries have to go and which stay, without the names, the running count
    of unmeasured entries and the early way out. *)
Fixpoint split_by_size (in_use : list string) (max_size total : Z) (l : list CacheEntry)
  : list CacheEntry * list CacheEntry :=
  match l with
  | [] => ([], [])
  | e :: l =>
      let spare := prod_map id (cons e) (split_by_size in_use max_size total l) in
      if decide (in_use_by in_use e) then spare
      else
        match ce_size e with
        | Some size =>
            if decide (total <= max_size)%Z then spare
            else prod_map (cons e) id (split_by_size in_use max_size (total - size) l)
        | None => prod_map (cons e) id (split_by_size in_use max_size total l)
        end
  end.

Lemma bytes_of_cons e l : bytes_of (e :: l) = (default 0 (ce_size e) + bytes_of l)%Z.
Proof. unfold bytes_of. csimpl. by destruct (ce_size e). Qed.

Lemma bytes_of_app l k : bytes_of (l ++ k) = (bytes_of l + bytes_of k)%Z.
Proof.
  induction l as [|e l IH]; [done|]. rewrite <- app_comm_cons, !bytes_of_cons, IH. lia.
Qed.

Lemma bytes_of_perm l k : l ≡ₚ k -> bytes_of l = bytes_of k.
Proof.
  induction 1 as [|e l k _ IH|a b l|l k m _ IH1 _ IH2]; [done| | |congruence];
    rewrite !bytes_of_cons; lia.
Qed.

Lemma bytes_of_nonneg l : Forall sized l -> (0 <= bytes_of l)%Z.
Proof.
  induction 1 as [|e l He _ IH]; [done|]. rewrite bytes_of_cons.
  destruct (ce_size e) as [n|] eqn:Hn; simpl; [specialize (He n Hn); lia|lia].
Qed.

Lemma fold_saturating l t :
  Forall sized l -> (0 <= t)%Z -> (t + bytes_of l <= u64_max)%Z ->
  foldl u64_saturating_add t (omap ce_size l) = (t + bytes_of l)%Z.
Proof.
  intros Hl. revert t. induction Hl as [|e l He Hl IH]; intros t Ht Hb; csimpl; [unfold bytes_of; simpl; lia|].
  rewrite bytes_of_cons in Hb |- *. pose proof (bytes_of_nonneg l Hl).
  destruct (ce_size e) as [n|] eqn:Hn; simpl in *; [|by apply IH].
  specialize (He n Hn). unfold u64_saturating_add at 2. rewrite Z.min_l by lia. rewrite IH; lia.
Qed.

Lemma measured_total_exact l :
  Forall sized l -> (bytes_of l <= u64_max)%Z -> measured_total l = bytes_of l.
Proof. intros. unfold measured_total. by rewrite fold_saturating by (done || lia). Qed.

(** Within the budget and with everything measured, nothing goes. *)
Lemma split_within in_use max_size total l :
  (total <= max_size)%Z -> unmeasured_count l = 0 -> split_by_size in_use max_size total l = ([], l).
Proof.
  intros Hle. induction l as [|e l IH]; [done|]. unfold unmeasured_count. rewrite filter_cons.
  case_decide as Hn; [done|]. intros Hu. cbn [split_by_size]. rewrite IH by done.
  destruct (ce_size e); [|done]. case_decide; [done|]. by case_decide.
Qed.

(** The loop evicts the entries [split_by_size] names. *)
Lemma squeeze_split in_use max_size l total unknown evict :
  Forall sized l -> (bytes_of l <= total)%Z -> unmeasured_count l <= unknown ->
  squeeze in_use max_size l total unknown evict =
    evict ++ (ce_pkgbase <$> (split_by_size in_use max_size total l).1).
Proof.
  intros Hl. revert total unknown evict.
  induction Hl as [|e l He Hl IH]; intros total unknown evict Hb Hu; [by rewrite app_nil_r|].
  assert (unmeasured_count l <= unmeasured_count (e :: l)) as Hle
    by (unfold unmeasured_count; rewrite filter_cons; case_decide; simpl; lia).
  rewrite bytes_of_cons in Hb. pose proof (bytes_of_nonneg l Hl).
  unfold squeeze; fold squeeze. case_decide as Hdone.
  { destruct Hdone as [-> Hdone]. rewrite split_within by (done || lia). by rewrite app_nil_r. }
  assert (0 <= default 0 (ce_size e))%Z as Hpos.
  { destruct (ce_size e) as [n|] eqn:Hn; [by apply He|done]. }
  cbn [split_by_size]. case_decide as Hskip.
  { destruct Hskip as [[n Hn] Hskip]. rewrite IH by lia. rewrite Hn, (decide_True (P := (total <= max_size)%Z)) by done.
    case_decide; by destruct (split_by_size _ _ _ _). }
  case_decide as Huse.
  { rewrite IH by lia. by destruct (split_by_size _ _ _ _). }
  destruct (ce_size e) as [n|] eqn:Hn; simpl in Hb, Hpos.
  - rewrite decide_False by (intros ?; destruct Hskip; by eauto).
    unfold u64_saturating_sub. rewrite Z.max_l by lia. rewrite IH by lia.
    destruct (split_by_size _ _ _ _). by rewrite <- app_assoc.
  - rewrite IH; [|lia|]. { destruct (split_by_size _ _ _ _). by rewrite <- app_assoc. }
    unfold unmeasured_count in *. rewrite filter_cons, decide_True in Hu by done. simpl in Hu. lia.
Qed.

Definition older (a b : CacheEntry) : Prop := (ce_last_used a <= ce_last_used b)%Z.

(** What the second loop makes of the entries: [gone] and [left] are its two halves
    and [total] is the count it ends with. *)
Record squeezed (in_use : list string) (max_size total : Z) (gone left : list CacheEntry) : Prop := {
  sq_idle : Forall (fun e => ~ in_use_by in_use e) gone;
  sq_unmeasured : Forall (fun e => ce_size e = None -> in_use_by in_use e) left;
  sq_fits : (total <= max_size)%Z \/ Forall (fun e => is_Some (ce_size e) -> in_use_by in_use e) left;
  sq_oldest : forall e k, e ∈ gone -> k ∈ left -> is_Some (ce_size e) -> is_Some (ce_size k) ->
    ~ in_use_by in_use k -> older e k;
  sq_needed : forall e, e ∈ gone -> is_Some (ce_size e) -> exists v size, v ∈ gone /\
    ce_size v = Some size /\ older e v /\ (max_size < total + size)%Z
}.

Lemma split_perm in_use max_size total l :
  l ≡ₚ (split_by_size in_use max_size total l).1 ++ (split_by_size in_use max_size total l).2.
Proof.
  revert total. induction l as [|e l IH]; intros total; [done|]. cbn [split_by_size].
  repeat case_match; simpl; try (by constructor); by rewrite <- Permutation_middle, <- IH.
Qed.

(** Once the count fits, only unmeasured entries go. *)
Lemma split_fits in_use max_size total l :
  (total <= max_size)%Z -> Forall (fun e => ce_size e = None) (split_by_size in_use max_size total l).1.
Proof.
  intros Hle. induction l as [|e l IH]; [constructor|]. cbn [split_by_size].
  case_decide; [done|]. destruct (ce_size e) eqn:He; [by rewrite decide_True|by constructor].
Qed.

Lemma bytes_of_unmeasured l : Forall (fun e => ce_size e = None) l -> bytes_of l = 0%Z.
Proof. induction 1 as [|e l He _ IH]; [done|]. by rewrite bytes_of_cons, He, IH. Qed.

Section cons.
Context (in_use : list string) (max_size total : Z) (e : CacheEntry) (gone left : list CacheEntry).
Context (H : squeezed in_use max_size total gone left).

Lemma squeezed_used : in_use_by in_use e -> squeezed in_use max_size total gone (e :: left).
Proof using H.
  intros Hu. destruct H as [H1 H2 H3 H4 H5]. split; [done|by constructor| |  |done].
  - destruct H3 as [?|?]; [by left|right; by constructor].
  - intros e' k He' [->|Hk]%elem_of_cons ???; [done|by apply H4].
Qed.

Lemma squeezed_fitting :
  is_Some (ce_size e) -> (total <= max_size)%Z -> Forall (fun e => ce_size e = None) gone ->
  squeezed in_use max_size total gone (e :: left).
Proof using H.
  intros [n Hn] Hle Hg. rewrite Forall_forall in Hg. destruct H as [H1 H2 H3 H4 H5].
  split; [done| |by left| |done]; [constructor; [congruence|done]|].
  intros e' k He' _ [m Hm]. by rewrite Hg in Hm.
Qed.

Lemma squeezed_unmeasured :
  ce_size e = None -> ~ in_use_by in_use e -> squeezed in_use max_size total (e :: gone) left.
Proof using H.
  intros Hn Hi. destruct H as [H1 H2 H3 H4 H5]. split; [by constructor|done|done| |].
  - intros e' k [->|He']%elem_of_cons Hk [m Hm]; [congruence|by apply H4].
  - intros e' [->|He']%elem_of_cons [m Hm]; [congruence|].
    destruct (H5 e' He') as (v & n & ? & ?); [by eexists|]. exists v, n. split; [by right|done].
Qed.

(** The entry that goes for its size is the oldest; what went after it was needed
    still, and if nothing measured did, it was. *)
Lemma squeezed_measured size :
  ce_size e = Some size -> ~ in_use_by in_use e -> Forall (older e) (gone ++ left) ->
  (max_size < total + bytes_of gone + size)%Z ->
  squeezed in_use max_size total (e :: gone) left.
Proof using H.
  intros Hn Hi [Hg Hl]%Forall_app Hover. destruct H as [H1 H2 H3 H4 H5]. rewrite Forall_forall in Hg, Hl.
  split; [by constructor|done|done| |].
  - intros e' k [->|He']%elem_of_cons Hk ???; [by apply Hl|by apply H4].
  - assert (forall e', e' ∈ gone -> is_Some (ce_size e') -> exists v n, v ∈ e :: gone /\
      ce_size v = Some n /\ older e' v /\ (max_size < total + n)%Z) as Hlater.
    { intros e' He' Hs. destruct (H5 e' He' Hs) as (v & n & ? & ?). exists v, n. split; [by right|done]. }
    intros e' [->|He']%elem_of_cons Hs; [|by apply Hlater].
    destruct (decide (Forall (fun k => ce_size k = None) gone)) as [Hnone|Hsome].
    + rewrite bytes_of_unmeasured in Hover by done. exists e, size.
      split_and!; [left|done|unfold older; lia|lia].
    + apply not_Forall_Exists in Hsome; [|apply _]. apply Exists_exists in Hsome as (k & Hk & Hks).
      destruct (H5 k Hk) as (v & n & Hv & ? & ? & ?); [by apply not_eq_None_Some|].
      exists v, n. split_and!; [by right|done|by apply Hg|done].
Qed.
End cons.

Lemma split_squeezed in_use max_size total l :
  StronglySorted older l ->
  let s := split_by_size in_use max_size total l in
  squeezed in_use max_size (total - bytes_of s.1) s.1 s.2.
Proof.
  intros Hl. revert total. induction Hl as [|e l Hl IH Hold]; intros total.
  { split; simpl; try constructor; set_solver. }
  cbn [split_by_size]. cbv zeta in *. case_decide as Hu; [by apply squeezed_used|].
  destruct (ce_size e) as [n|] eqn:Hn.
  - case_decide as Hle.
    + apply squeezed_fitting; [apply IH|by eexists| |by apply split_fits].
      simpl. rewrite bytes_of_unmeasured by (by apply split_fits). lia.
    + unfold prod_map, id; cbn [fst snd]. rewrite bytes_of_cons, Hn. change (default 0%Z (Some n)) with n.
      pose proof (IH (total - n)%Z) as H1. rewrite (split_perm in_use max_size (total - n) l) in Hold.
      replace (total - (n + bytes_of (split_by_size in_use max_size (total - n) l).1))%Z
        with (total - n - bytes_of (split_by_size in_use max_size (total - n) l).1)%Z by lia.
      apply (squeezed_measured _ _ _ _ _ _ H1 n); [done..|lia].
  - unfold prod_map, id; cbn [fst snd]. rewrite bytes_of_cons, Hn. change (default 0%Z None) with 0%Z.
    rewrite Z.add_0_l. by apply squeezed_unmeasured.
Qed.

Lemma sorted_older l : StronglySorted older (sort_by by_last_use l).
Proof.
  pose proof (sort_by_sorted by_last_use l) as Hl. induction Hl as [|e k _ IH He]; constructor; [done|].
  eapply Forall_impl; [exact He|]. intros x. apply Z.compare_le_iff.
Qed.

(** Unused for too long. *)
Definition expired (in_use : list string) (ttl now : Z) (e : CacheEntry) : Prop :=
  ~ in_use_by in_use e /\ aged ttl now e = true.
#[export] Instance expired_dec in_use ttl now e : Decision (expired in_use ttl now e).
Proof. unfold expired. apply _. Defined.

Lemma age_fold in_use ttl now l evict kept :
  foldl (age_step in_use ttl now) (evict, kept) l =
    (evict ++ (ce_pkgbase <$> filter (expired in_use ttl now) l),
     kept ++ filter (fun e => ~ expired in_use ttl now e) l).
Proof.
  revert evict kept. induction l as [|e l IH]; intros evict kept; cbn [foldl].
  { by rewrite !app_nil_r. }
  rewrite !filter_cons. unfold age_step at 2.
  destruct (decide (expired in_use ttl now e)) as [Hx|Hx].
  - pose proof Hx as [Hu Ha]. rewrite decide_False by done. rewrite Ha.
    rewrite decide_False by tauto. rewrite IH. csimpl. by rewrite <- app_assoc.
  - rewrite (decide_True (P := ~ expired in_use ttl now e)) by done.
    assert ((if decide (in_use_by in_use e) then (evict, kept ++ [e])
      else if aged ttl now e then (evict ++ [ce_pkgbase e], kept) else (evict, kept ++ [e])) =
      (evict, kept ++ [e])) as ->.
    { case_decide; [done|]. destruct (aged ttl now e) eqn:Ha; [by destruct Hx|done]. }
    rewrite IH. by rewrite <- app_assoc.
Qed.

(** C33. What an eviction takes: everything unused for longer than the bound, and then
    - when there is a budget - the entries nobody uses that are unmeasured, and of the
    measured ones the least recently used, no more than it takes: what stays fits the
    budget or is all in use, nothing that stays and could have gone was used before
    something that went, and the last to go was still one too many. A package in use
    never goes, and without a budget only age takes anything. *)
Theorem eviction_takes_the_least_used entries max_size ttl now in_use :
  Forall sized entries -> (bytes_of entries <= u64_max)%Z ->
  let old := filter (expired in_use ttl now) entries in
  exists gone left,
    plan_eviction entries max_size ttl now in_use = ce_pkgbase <$> (old ++ gone) /\
    entries ≡ₚ old ++ gone ++ left /\
    if decide (0 < max_size)%Z then squeezed in_use max_size (bytes_of left) gone left else gone = [].
Proof.
  intros Hs Hb. cbv zeta. unfold plan_eviction. rewrite age_fold. cbn [app].
  set (kept := filter (fun e => ~ expired in_use ttl now e) entries).
  assert (entries ≡ₚ filter (expired in_use ttl now) entries ++ kept) as Hperm by apply filter_split.
  case_decide as Hmax; [|exists [], kept; by rewrite app_nil_r].
  set (l := sort_by by_last_use kept). assert (l ≡ₚ kept) as Hl by apply sort_by_perm.
  rewrite Hperm, Forall_app in Hs. destruct Hs as [Hso Hsk].
  rewrite (bytes_of_perm _ _ Hperm), bytes_of_app in Hb.
  pose proof (bytes_of_nonneg _ Hso) as Hpos.
  assert (measured_total kept = bytes_of l) as -> by (rewrite (bytes_of_perm _ _ Hl); apply measured_total_exact; [done|lia]).
  assert (unmeasured_count kept = unmeasured_count l) as -> by (unfold unmeasured_count; by rewrite Hl).
  rewrite squeeze_split by (first [by rewrite Hl|done|lia]).
  pose proof (split_perm in_use max_size (bytes_of l) l) as Hp.
  pose proof (split_squeezed in_use max_size (bytes_of l) l) as Hq. cbv zeta in Hq.
  destruct (split_by_size in_use max_size (bytes_of l) l) as [gone left]. cbn [fst snd] in *.
  exists gone, left. split; [by rewrite fmap_app|]. split; [by rewrite Hperm at 1; rewrite <- Hp, Hl|].
  rewrite (bytes_of_perm _ _ Hp), bytes_of_app in Hq.
  replace (bytes_of gone + bytes_of left - bytes_of gone)%Z with (bytes_of left) in Hq by lia.
  apply Hq, sorted_older.
Qed.

(** ** [reclaim_builddirs] *)

(** A build tree as the listing finds it; its name is [None] where the file system's
    is no UTF-8 - such an entry is taken to be no tree set aside. *)
Record Tree := mkTree {
  tree_name : option string;
  tree_modified : Z;
  tree_size : option Z
}.

Definition SET_ASIDE_SUFFIX : string := ".aurcache-removing".
Definition is_set_aside (name : string) : bool := ends_with SET_ASIDE_SUFFIX name.

(** The first field of a size stamp, if it is a number. *)
Definition stamp_value (text : string) : option Z :=
  match split_whitespace text with field :: _ => parse_uint u64_max field | [] => None end.

Section reclaim.
(** What the quota group and a walk say of a tree, whether its removal succeeds, and
    what [statvfs] says once some trees are gone. *)
Context (entry_size measure_tree : option string -> option Z).
Context (removes : Tree -> bool) (free_bytes : list Tree -> option Z).
Context (in_use : list string) (max_bytes min_free : Z).

(** [stamped_size], with the stamps it reads and leaves. *)
Definition stamped_size (stamps : gmap string string) (name : option string)
  : option Z * gmap string string :=
  match entry_size name with
  | Some size => (Some size, stamps)
  | None =>
      match name with
      | None => (measure_tree name, stamps)
      | Some n =>
          match stamps !! n ≫= stamp_value with
          | Some size => (Some size, stamps)
          | None =>
              match measure_tree name with
              | Some size => (Some size, <[n := pretty size]> stamps)
              | None => (None, stamps)
              end
          end
      end
  end.

Definition short_of_free (removed : list Tree) : bool :=
  (0 <? min_free)%Z && is_some_and (fun f => f <? min_free)%Z (free_bytes removed).

Definition tree_in_use (t : Tree) : bool :=
  is_some_and (fun name => bool_decide (name ∈ in_use)) (tree_name t).

Definition over_budget (total : Z) : bool := (0 <? max_bytes)%Z && (max_bytes <? total)%Z.

(** The loop over the trees, oldest first; it answers the trees removed, in order. *)
Fixpoint reclaim_loop (trees : list Tree) (total : Z) (unknown : nat) (short : bool)
    (removed : list Tree) : list Tree :=
  match trees with
  | [] => removed
  | t :: trees =>
      let over := over_budget total in
      if negb over && negb short && bool_decide (max_bytes = 0%Z \/ unknown = 0) then removed
      else
        let unmeasured := (0 <? max_bytes)%Z && bool_decide (tree_size t = None) in
        if negb over && negb short && negb unmeasured then reclaim_loop trees total unknown short removed
        else if tree_in_use t then reclaim_loop trees total unknown short removed
        else if removes t then
          let removed := removed ++ [t] in
          let short := short_of_free removed in
          match tree_size t with
          | Some size => reclaim_loop trees (u64_saturating_sub total size) unknown short removed
          | None => reclaim_loop trees total (unknown - 1) short removed
          end
        else reclaim_loop trees total unknown short removed
  end.

Definition tree_cmp (a b : Tree) : comparison := Z.compare (tree_modified a) (tree_modified b).

(** The trees of a listing with their sizes, and the stamps measuring them left. *)
Fixpoint size_trees (listing : list (option string * Z)) (stamps : gmap string string)
  : list Tree * gmap string string :=
  match listing with
  | [] => ([], stamps)
  | (name, modified) :: listing =>
      let '(size, stamps) := stamped_size stamps name in
      let '(trees, stamps) := size_trees listing stamps in
      (mkTree name modified size :: trees, stamps)
  end.

(** [reclaim_builddirs] of what [read_dir] lists, of which an entry whose name the
    listing shows as set aside is skipped; it leaves the trees removed and the
    stamps. *)
Definition reclaim_builddirs (listing : list (option string * Z)) (stamps : gmap string string)
  : list Tree * gmap string string :=
  let '(trees, stamps) :=
    size_trees (filter (fun e => is_some_and is_set_aside e.1 = false) listing) stamps in
  let trees := sort_by tree_cmp trees in
  let total := foldl u64_saturating_add 0%Z (omap tree_size trees) in
  let unknown := length (filter (fun t => tree_size t = None) trees) in
  let removed := reclaim_loop trees total unknown (short_of_free []) [] in
  (removed, foldr (fun name stamps => delete name stamps) stamps (omap tree_name removed)).

(** *** What a pass comes to *)

Definition tree_bytes (l : list Tree) : Z := foldr Z.add 0%Z (omap tree_size l).
Definition tree_sized (t : Tree) : Prop := forall n, tree_size t = Some n -> (0 <= n)%Z.
Definition older_tree (a b : Tree) : Prop := (tree_modified a <= tree_modified b)%Z.

(** A tree a pass cannot take. *)
Definition stuck (t : Tree) : Prop := tree_in_use t = true \/ removes t = false.

(** Removing a tree does not make the disk any fuller. *)
Definition removal_frees : Prop :=
  forall before t, short_of_free (before ++ [t]) = true -> short_of_free before = true.

(** What the loop takes of [trees] once [removed] are gone and [total] is counted. *)
Record reclaimed (total : Z) (removed trees gone : list Tree) : Prop := {
  rc_sub : gone `sublist_of` trees;
  rc_free_to_go : Forall (fun t => ~ stuck t) gone;
  rc_pressed before t after : gone = before ++ t :: after ->
    over_budget (total - tree_bytes before) = true \/ short_of_free (removed ++ before) = true \/
    (0 < max_bytes)%Z /\ tree_size t = None;
  rc_fits : over_budget (total - tree_bytes gone) = true -> forall t, t ∈ trees -> t ∉ gone -> stuck t;
  rc_measured : (0 < max_bytes)%Z -> forall t, t ∈ trees -> tree_size t = None -> t ∉ gone -> stuck t;
  rc_freed : removal_frees -> short_of_free (removed ++ gone) = true ->
    forall t, t ∈ trees -> t ∉ gone -> stuck t;
  rc_oldest : removal_frees -> StronglySorted older_tree trees -> forall t k, t ∈ gone -> k ∈ trees ->
    k ∉ gone -> is_Some (tree_size t) -> ~ stuck k -> older_tree t k
}.

Lemma tree_bytes_cons t l : tree_bytes (t :: l) = (default 0 (tree_size t) + tree_bytes l)%Z.
Proof. unfold tree_bytes. csimpl. by destruct (tree_size t). Qed.

Lemma tree_bytes_nonneg l : Forall tree_sized l -> (0 <= tree_bytes l)%Z.
Proof.
  induction 1 as [|t l Ht _ IH]; [done|]. rewrite tree_bytes_cons.
  destruct (tree_size t) as [n|] eqn:Hn; simpl; [specialize (Ht n Hn); lia|lia].
Qed.

Lemma over_budget_mono total total' :
  (total <= total')%Z -> over_budget total = true -> over_budget total' = true.
Proof. unfold over_budget. rewrite !andb_true_iff, !Z.ltb_lt. lia. Qed.

Lemma removal_frees_app removed gone :
  removal_frees -> short_of_free (removed ++ gone) = true -> short_of_free removed = true.
Proof.
  intros Hf. induction gone as [|t gone IH] using rev_ind; [by rewrite app_nil_r|].
  rewrite app_assoc. intros Hs%Hf. by apply IH.
Qed.

Lemma reclaimed_none total removed trees :
  over_budget total = false -> short_of_free removed = false ->
  ((0 < max_bytes)%Z -> Forall (fun t => is_Some (tree_size t)) trees) ->
  reclaimed total removed trees [].
Proof.
  intros Ho Hs Hu. split; try done.
  - apply sublist_nil_l.
  - by intros [].
  - change (tree_bytes []) with 0%Z. rewrite Z.sub_0_r. congruence.
  - intros Hm t Ht Hn _. rewrite Forall_forall in Hu. by destruct (Hu Hm t Ht) as [? ?]; congruence.
  - rewrite app_nil_r. congruence.
  - by intros _ _ t k ?%elem_of_nil.
Qed.

(** A tree passed over is stuck, or there was no reason to take it. *)
Lemma reclaimed_skip total removed t trees gone :
  Forall tree_sized gone ->
  (stuck t \/ over_budget total = false /\ short_of_free removed = false /\
     ((0 < max_bytes)%Z -> is_Some (tree_size t))) ->
  reclaimed total removed trees gone -> reclaimed total removed (t :: trees) gone.
Proof.
  intros Hz Ht [H1 H2 H3 H4 H5 H6 H7]. pose proof (tree_bytes_nonneg gone Hz). split; try done.
  - by apply sublist_cons.
  - intros Ho k [->|Hk]%elem_of_cons Hng; [|by apply H4].
    destruct Ht as [?|(Hn & _)]; [done|]. eapply over_budget_mono in Ho; [|instantiate (1 := total); lia]. congruence.
  - intros Hm k [->|Hk]%elem_of_cons Hn Hng; [|by apply H5].
    destruct Ht as [?|(_ & _ & Hs)]; [done|]. destruct (Hs Hm). congruence.
  - intros Hf Hs k [->|Hk]%elem_of_cons Hng; [|by apply H6].
    destruct Ht as [?|(_ & Hn & _)]; [done|]. apply removal_frees_app in Hs; [congruence|done].
  - intros Hf Hsort k j Hk [->|Hj]%elem_of_cons Hng Hms Hstuck; [|apply H7; try done; by inversion Hsort].
    destruct Ht as [?|(Hno & Hns & Hs)]; [done|]. exfalso.
    apply list_elem_of_split in Hk as (before & after & Heq).
    destruct (H3 _ _ _ Heq) as [Ho|[Ho|[_ Ho]]].
    + assert (0 <= tree_bytes before)%Z.
      { apply tree_bytes_nonneg. rewrite Heq in Hz. by apply Forall_app in Hz as [? _]. }
      eapply over_budget_mono in Ho; [|instantiate (1 := total); lia]. congruence.
    + apply removal_frees_app in Ho; [congruence|done].
    + destruct Hms. congruence.
Qed.

Lemma reclaimed_take total removed t trees gone :
  ~ stuck t ->
  (over_budget total = true \/ short_of_free removed = true \/ (0 < max_bytes)%Z /\ tree_size t = None) ->
  reclaimed (total - default 0 (tree_size t))%Z (removed ++ [t]) trees gone ->
  reclaimed total removed (t :: trees) (t :: gone).
Proof.
  intros Ht Hp [H1 H2 H3 H4 H5 H6 H7]. split.
  - by apply sublist_skip.
  - by constructor.
  - intros [|k before] u after [= <- Heq].
    + by rewrite app_nil_r; change (tree_bytes []) with 0%Z; rewrite Z.sub_0_r.
    + rewrite tree_bytes_cons, Z.sub_add_distr. pose proof (H3 _ _ _ Heq) as Hc. by rewrite <- app_assoc in Hc.
  - rewrite tree_bytes_cons, Z.sub_add_distr.
    intros Ho k [->|Hk]%elem_of_cons [Hne Hng]%not_elem_of_cons; [done|by apply H4].
  - intros Hm k [->|Hk]%elem_of_cons Hn [Hne Hng]%not_elem_of_cons; [done|by apply H5].
  - intros Hf Hs k [->|Hk]%elem_of_cons [Hne Hng]%not_elem_of_cons; [done|].
    rewrite <- app_assoc in H6. by apply H6.
  - intros Hf Hsort k j [->|Hk]%elem_of_cons [->|Hj]%elem_of_cons [Hne Hng]%not_elem_of_cons Hms Hstuck; try done.
    + inversion Hsort as [|?? _ Hold]. subst. rewrite Forall_forall in Hold. by apply Hold.
    + apply H7; try done. by inversion Hsort.
Qed.

Lemma tree_bytes_sub gone trees :
  Forall tree_sized trees -> gone `sublist_of` trees -> Forall tree_sized gone.
Proof. rewrite !Forall_forall. intros Ht Hs t Hin. by eapply Ht, elem_of_sublist. Qed.

Definition unmeasured_trees (l : list Tree) : nat := length (filter (fun t => tree_size t = None) l).

Lemma unmeasured_trees_cons t l :
  unmeasured_trees (t :: l) = (if decide (tree_size t = None) then 1 else 0) + unmeasured_trees l.
Proof. unfold unmeasured_trees. rewrite filter_cons. by case_decide. Qed.

Lemma unmeasured_trees_none l : unmeasured_trees l = 0 -> Forall (fun t => is_Some (tree_size t)) l.
Proof.
  induction l as [|t l IH]; [constructor|]. rewrite unmeasured_trees_cons.
  case_decide as Hn; [done|]. intros. constructor; [by apply not_eq_None_Some|by apply IH].
Qed.

Lemma reclaim_loop_spec trees total unknown removed :
  (0 <= max_bytes)%Z -> Forall tree_sized trees -> (tree_bytes trees <= total)%Z ->
  unmeasured_trees trees <= unknown ->
  exists gone, reclaim_loop trees total unknown (short_of_free removed) removed = removed ++ gone /\
    reclaimed total removed trees gone.
Proof.
  intros Hmax Ht. revert total unknown removed.
  induction Ht as [|t trees Hsz Ht IH]; intros total unknown removed Hb Hu.
  { exists []. split; [by rewrite app_nil_r|]. split; try done; try (by intros; set_solver).
    by intros []. }
  assert (0 <= default 0 (tree_size t))%Z as Hpos.
  { destruct (tree_size t) as [n|] eqn:Hn; [by apply Hsz|done]. }
  rewrite tree_bytes_cons in Hb. rewrite unmeasured_trees_cons in Hu. cbn [reclaim_loop].
  assert (forall unknown, unmeasured_trees trees <= unknown ->
    (stuck t \/ over_budget total = false /\ short_of_free removed = false /\
     ((0 < max_bytes)%Z -> is_Some (tree_size t))) ->
    exists gone, reclaim_loop trees total unknown (short_of_free removed) removed = removed ++ gone /\
      reclaimed total removed (t :: trees) gone) as Hskip.
  { intros u Hle Hs. destruct (IH total u removed) as (gone & Hrun & Hg); [lia|done|].
    exists gone. split; [done|]. apply reclaimed_skip; [|done..].
    eapply tree_bytes_sub; [exact Ht|apply Hg]. }
  destruct (negb (over_budget total) && negb (short_of_free removed) &&
    bool_decide (max_bytes = 0%Z \/ unknown = 0)) eqn:Hdone.
  { apply andb_true_iff in Hdone as [[Ho%negb_true_iff Hs%negb_true_iff]%andb_true_iff Hz%bool_decide_eq_true].
    exists []. rewrite app_nil_r. split; [done|]. apply reclaimed_none; [done..|].
    intros Hm. apply unmeasured_trees_none. rewrite unmeasured_trees_cons. destruct Hz; lia. }
  destruct (negb (over_budget total) && negb (short_of_free removed) &&
    negb ((0 <? max_bytes)%Z && bool_decide (tree_size t = None))) eqn:Hcont.
  { apply andb_true_iff in Hcont as [[Ho%negb_true_iff Hs%negb_true_iff]%andb_true_iff Hz%negb_true_iff].
    apply Hskip; [case_decide; lia|]. right. split_and!; [done..|]. intros Hm%Z.ltb_lt.
    rewrite Hm, andb_true_l in Hz. apply bool_decide_eq_false in Hz. by apply not_eq_None_Some. }
  destruct (tree_in_use t) eqn:Huse; [apply Hskip; [case_decide; lia|by left; left]|].
  destruct (removes t) eqn:Hrm; [|apply Hskip; [case_decide; lia|by left; right]].
  assert (~ stuck t) as Hst by (by intros [?|?]; congruence).
  assert (over_budget total = true \/ short_of_free removed = true \/ (0 < max_bytes)%Z /\ tree_size t = None) as Hp.
  { apply andb_false_iff in Hcont as [[Hc|Hc]%andb_false_iff|Hc]; apply negb_false_iff in Hc; [by left|by right; left|].
    apply andb_true_iff in Hc as [Hc%Z.ltb_lt Hn%bool_decide_eq_true]. by right; right. }
  assert (forall total' unknown', total' = (total - default 0 (tree_size t))%Z ->
    unmeasured_trees trees <= unknown' ->
    exists gone, reclaim_loop trees total' unknown' (short_of_free (removed ++ [t])) (removed ++ [t]) =
      removed ++ gone /\ reclaimed total removed (t :: trees) gone) as Htake.
  { intros total' unknown' -> Hle.
    destruct (IH (total - default 0 (tree_size t))%Z unknown' (removed ++ [t])) as (gone & Hrun & Hg); [lia|done|].
    exists (t :: gone). split; [by rewrite Hrun, <- app_assoc|by apply reclaimed_take]. }
  destruct (tree_size t) as [n|] eqn:Hn; apply Htake; simpl in *; [|lia..].
  unfold u64_saturating_sub. pose proof (tree_bytes_nonneg trees Ht). lia.
Qed.

Lemma sorted_trees l : StronglySorted older_tree (sort_by tree_cmp l).
Proof.
  pose proof (sort_by_sorted tree_cmp l) as Hl. induction Hl as [|e k _ IH He]; constructor; [done|].
  eapply Forall_impl; [exact He|]. intros x. apply Z.compare_le_iff.
Qed.

Lemma fold_saturating_trees l t :
  Forall tree_sized l -> (0 <= t)%Z -> (t + tree_bytes l <= u64_max)%Z ->
  foldl u64_saturating_add t (omap tree_size l) = (t + tree_bytes l)%Z.
Proof.
  intros Hl. revert t. induction Hl as [|e l He Hl IH]; intros t Ht Hb; csimpl; [unfold tree_bytes; simpl; lia|].
  rewrite tree_bytes_cons in Hb |- *. pose proof (tree_bytes_nonneg l Hl).
  destruct (tree_size e) as [n|] eqn:Hn; simpl in *; [|by apply IH].
  specialize (He n Hn). unfold u64_saturating_add at 2. rewrite Z.min_l by lia. rewrite IH; lia.
Qed.

Lemma deleted_stamps (names : list string) (stamps : gmap string string) name :
  name ∈ names -> foldr (fun name stamps => delete name stamps) stamps names !! name = None.
Proof.
  induction names as [|n names IH]; [by intros ?%elem_of_nil|]. simpl. rewrite elem_of_cons.
  destruct (decide (n = name)) as [->|Hne]; [intros _; by rewrite lookup_delete_eq|].
  intros [?|Hin]; [congruence|]. rewrite lookup_delete_ne by done. by apply IH.
Qed.

(** Reclaiming is only ever an answer to pressure. A pass takes trees that no
    build is using, each of them while the cache was over its budget, or the disk
    short, or because the tree could not be measured against the budget; it ends
    within the budget, with nothing unmeasured and - if removals free space - with
    enough disk, unless what is left cannot be taken; of the trees that could be
    taken the least recently used go first; and while the cache is within its limits
    and measured nothing goes at all. The size stamps of what went go too. *)
Theorem reclaim_answers_pressure listing stamps :
  let sized_trees := size_trees (filter (fun e => is_some_and is_set_aside e.1 = false) listing) stamps in
  let trees := sort_by tree_cmp sized_trees.1 in
  (0 <= max_bytes)%Z -> Forall tree_sized trees -> (tree_bytes trees <= u64_max)%Z ->
  let '(gone, stamps') := reclaim_builddirs listing stamps in
  reclaimed (tree_bytes trees) [] trees gone /\
  (removal_frees -> forall t k, t ∈ gone -> k ∈ trees -> k ∉ gone -> is_Some (tree_size t) -> ~ stuck k ->
     older_tree t k) /\
  (over_budget (tree_bytes trees) = false -> short_of_free [] = false ->
     Forall (fun t => is_Some (tree_size t)) trees -> gone = []) /\
  (forall t name, t ∈ gone -> tree_name t = Some name -> stamps' !! name = None).
Proof.
  intros sized_trees trees Hmax Hs Hb. unfold reclaim_builddirs. fold sized_trees.
  subst trees. destruct sized_trees as [trees0 stamps1]. cbn [fst] in *.
  set (trees := sort_by tree_cmp trees0) in *.
  rewrite fold_saturating_trees by (done || lia). rewrite Z.add_0_l.
  destruct (reclaim_loop_spec trees (tree_bytes trees) (unmeasured_trees trees) []) as (gone & Hrun & Hg);
    [done..|]. unfold unmeasured_trees in Hrun. rewrite Hrun. cbn [app]. split_and!; [done| | |].
  - intros Hf. apply Hg; [done|apply sorted_trees].
  - intros Ho Hf Ha. destruct gone as [|t gone]; [done|]. rewrite Forall_forall in Ha.
    assert (is_Some (tree_size t)) as [n Hn].
    { apply Ha. eapply elem_of_sublist; [|apply Hg]. left. }
    destruct (rc_pressed _ _ _ _ Hg [] t gone eq_refl) as [Hp|[Hp|[_ Hp]]]; [|change ([] ++ []) with (@nil Tree) in Hp; congruence|congruence].
    change (tree_bytes []) with 0%Z in Hp. rewrite Z.sub_0_r in Hp. congruence.
  - intros t name Ht Hn. apply deleted_stamps, list_elem_of_omap. by exists t.
Qed.
End reclaim.

(** ** Examples *)

Definition demo_cache : list CacheEntry :=
  [mkCacheEntry "old" (Some 10%Z) 0; mkCacheEntry "big" (Some 70%Z) 500; mkCacheEntry "used" (Some 60%Z) 400;
   mkCacheEntry "new" (Some 5%Z) 900; mkCacheEntry "odd" None 950].

Lemma eviction_takes_the_least_used_witness :
  plan_eviction demo_cache 80 800 1000 ["used"] = ["old"; "big"; "odd"] /\
  exists gone left, demo_cache ≡ₚ [mkCacheEntry "old" (Some 10%Z) 0] ++ gone ++ left /\
    squeezed ["used"] 80 (bytes_of left) gone left.
Proof.
  split; [by vm_compute|].
  destruct (eviction_takes_the_least_used demo_cache 80 800 1000 ["used"]) as (gone & left & _ & Hp & Hs).
  - repeat constructor; intros n; simpl; intros [=]; lia.
  - vm_compute. discriminate.
  - exists gone, left. split; [exact Hp|exact Hs].
Defined.

Definition demo_listing : list (option string * Z) :=
  [(Some "hello", 3%Z); (Some "app", 1%Z); (Some ".gone.aurcache-removing", 0%Z); (Some "busy", 2%Z)].

Lemma reclaim_answers_pressure_witness :
  let size := fun name : option string => if decide (name = Some "busy") then None else Some 40%Z in
  let gone := reclaim_builddirs size (fun _ => Some 40%Z) (fun _ => true) (fun _ => None) ["busy"] 90 0
    demo_listing ∅ in
  gone.1 = [mkTree (Some "app") 1 (Some 40%Z)] /\ gone.2 = {["busy" := "40"]}.
Proof.
  intros size gone.
  destruct (reclaim_answers_pressure size (fun _ => Some 40%Z) (fun _ => true) (fun _ => None) ["busy"] 90 0
    demo_listing ∅) as (H & _).
  - lia.
  - repeat constructor; intros n; vm_compute; intros [= <-] [=].
  - vm_compute. discriminate.
  - fold gone in H. split; vm_compute; reflexivity.
Defined.
