(* ===== verification/PkgPool.v ===== *)
(** * The packages a worker shares between builds

    [backend/aurcache-worker/src/cache.rs]: promoting what a job downloaded into the
    shared package cache, and reconciling that cache with what the repository
    publishes. A worker runs several jobs at a time over one cache, so each
    operation is kept as the phases between which another job may act. *)
From S2P Require Import Prelude Text Order PkgCache.
From Stdlib Require Import Ascii.
Open Scope string_scope.
Open Scope list_scope.

(** ** What a repository publishes *)

Record RepoDbEntry := mkRepoDbEntry {
  re_csize : Z;
  re_sha256 : string
}.
Abbreviation RepoDb := (gmap string RepoDbEntry).

Definition is_package_artifact (name : string) : bool :=
  contains_str ".pkg.tar" name && negb (ends_with ".part" name) && negb (ends_with ".sig" name).

Section pool.
(** The hex SHA-256 of a file's bytes. *)
Context (sha256 : string -> string).

(** The shared directory, each file with its bytes, and the digests its files were
    last verified against. *)
Record pool := Pool {
  p_shared : gmap string string;
  p_verified : gmap string string
}.

(** Whether a system call on a file succeeds, and whether the thread hashing it
    died. *)
Record Io := mkIo {
  io_stat : string -> bool;
  io_read : string -> bool;
  io_remove : string -> bool;
  io_rename : string -> bool;
  io_lost : string -> bool
}.
Context (io : Io).

Definition file_len (bytes : string) : Z := Z.of_nat (String.length bytes).

(** ** [promote_job_pkgs] *)

(** Whether a job's file is what the repository publishes under its name. *)
Definition publishes (entry : RepoDbEntry) (name bytes : string) : bool :=
  io_stat io name && bool_decide (file_len bytes = re_csize entry) && io_read io name &&
  bool_decide (sha256 bytes = re_sha256 entry).

Record Promotion := mkPromotion {
  pr_job : gmap string string;
  pr_shared : gmap string string;
  pr_names : list string
}.

Definition promote_file (repo_db : option RepoDb) (s : Promotion) (file : string * string) : Promotion :=
  let '(name, bytes) := file in
  if negb (is_package_artifact name) then s
  else
    match repo_db ≫= (fun want => want !! name) with
    | Some entry => if publishes entry name bytes then
        if io_rename io name then
          mkPromotion (delete name (pr_job s)) (<[name := bytes]> (pr_shared s)) (pr_names s ++ [name])
        else s
      else s
    | None =>
        if io_rename io name then
          mkPromotion (delete name (pr_job s)) (<[name := bytes]> (pr_shared s)) (pr_names s ++ [name])
        else s
    end.

(** The first phase: files move, one at a time. *)
Definition promote_files (repo_db : option RepoDb) (job shared : gmap string string) : Promotion :=
  foldl (promote_file repo_db) (mkPromotion job shared []) (map_to_list job).

(** The second, under the lock: what was vouched for is noted, what could not be
    checked is forgotten. *)
Definition promote_record (repo_db : option RepoDb) (names : list string) (known : gmap string string)
  : gmap string string :=
  match repo_db with
  | Some want =>
      foldl (fun known name =>
        match want !! name with Some entry => <[name := re_sha256 entry]> known | None => known end) known names
  | None => foldl (fun known name => delete name known) known names
  end.

Definition promote_job_pkgs (repo_db : option RepoDb) (job : gmap string string) (p : pool) : nat * pool :=
  let s := promote_files repo_db job (p_shared p) in
  (length (pr_names s), Pool (pr_shared s) (promote_record repo_db (pr_names s) (p_verified p))).

(** ** [reconcile_pkgs] *)

(** [remove_cached]: whether the file is gone, and what is left; its signature goes
    in any case. *)
Definition remove_file (shared : gmap string string) (name : string) : gmap string string :=
  if io_remove io name then delete name shared else shared.
Definition remove_cached (shared : gmap string string) (name : string) : bool * gmap string string :=
  let gone := match shared !! name with None => true | Some _ => io_remove io name end in
  (gone, remove_file (remove_file shared name) (name +:+ ".sig")).

Record Suspect := mkSuspect {
  su_name : string;
  su_sha256 : string
}.

(** What is to be looked at: what was not verified against this very digest. *)
Definition todo (repo_db : RepoDb) (known : gmap string string) : list (string * RepoDbEntry) :=
  filter (fun e => known !! e.1 <> Some (re_sha256 e.2)) (map_to_list repo_db).

Inductive Standing := Absent | Stale | Suspected.
#[export] Instance Standing_eq_dec : EqDecision Standing.
Proof. solve_decision. Defined.
Definition standing (shared : gmap string string) (e : string * RepoDbEntry) : Standing :=
  match shared !! e.1 with
  | None => Absent
  | Some bytes =>
      if io_stat io e.1 then
        if decide (file_len bytes = re_csize e.2) then Suspected else Stale
      else Absent
  end.

Record Looked := mkLooked {
  lk_shared : gmap string string;
  lk_removed : nat;
  lk_suspects : list Suspect;
  lk_absent : list Suspect;
  lk_stale : list string
}.

Definition look (s : Looked) (e : string * RepoDbEntry) : Looked :=
  let suspect := mkSuspect e.1 (re_sha256 e.2) in
  match standing (lk_shared s) e with
  | Absent => mkLooked (lk_shared s) (lk_removed s) (lk_suspects s) (lk_absent s ++ [suspect]) (lk_stale s)
  | Stale =>
      let '(gone, shared) := remove_cached (lk_shared s) e.1 in
      mkLooked shared (if gone then S (lk_removed s) else lk_removed s) (lk_suspects s) (lk_absent s)
        (lk_stale s ++ [e.1])
  | Suspected => mkLooked (lk_shared s) (lk_removed s) (lk_suspects s ++ [suspect]) (lk_absent s) (lk_stale s)
  end.

(** The first phase, without the lock: one look at each file. *)
Definition reconcile_look (repo_db : RepoDb) (known shared : gmap string string) : Looked :=
  foldl look (mkLooked shared 0 [] [] []) (todo repo_db known).

Definition insert_suspects (l : list Suspect) (known : gmap string string) : gmap string string :=
  foldl (fun known s => <[su_name s := su_sha256 s]> known) known l.
Definition delete_names (l : list string) (known : gmap string string) : gmap string string :=
  foldl (fun known name => delete name known) known l.

(** The second, under the lock. *)
Definition reconcile_record (repo_db : RepoDb) (s : Looked) (known : gmap string string) : gmap string string :=
  filter (fun e => is_Some (repo_db !! e.1))
    (delete_names (lk_stale s) (insert_suspects (lk_absent s) known)).

(** [hash_suspects]: a thread that died answers nothing of its share. *)
Definition matches (shared : gmap string string) (s : Suspect) : bool :=
  io_read io (su_name s) &&
  is_some_and (fun bytes => bool_decide (sha256 bytes = su_sha256 s)) (shared !! su_name s).
Definition hash_suspects (shared : gmap string string) (l : list Suspect) : list (Suspect * bool) :=
  (fun s => (s, matches shared s)) <$> filter (fun s => io_lost io (su_name s) = false) l.

Record Hashed := mkHashed {
  hs_shared : gmap string string;
  hs_verified : list Suspect;
  hs_gone : list string
}.

Definition settle_verdict (s : Hashed) (verdict : Suspect * bool) : Hashed :=
  let '(suspect, ok) := verdict in
  if ok : bool then mkHashed (hs_shared s) (hs_verified s ++ [suspect]) (hs_gone s)
  else
    let '(gone, shared) := remove_cached (hs_shared s) (su_name suspect) in
    mkHashed shared (hs_verified s) (if gone then hs_gone s ++ [su_name suspect] else hs_gone s).

(** The third, without the lock: the files are hashed, then those that differ go. *)
Definition reconcile_hash (suspects : list Suspect) (shared : gmap string string) : Hashed :=
  foldl settle_verdict (mkHashed shared [] []) (hash_suspects shared suspects).

(** And the last, under it again. *)
Definition reconcile_settle (s : Hashed) (known : gmap string string) : gmap string string :=
  delete_names (hs_gone s) (insert_suspects (hs_verified s) known).

Definition reconcile_pkgs (repo_db : RepoDb) (p : pool) : nat * pool :=
  let looked := reconcile_look repo_db (p_verified p) (p_shared p) in
  let known := reconcile_record repo_db looked (p_verified p) in
  let hashed := reconcile_hash (lk_suspects looked) (lk_shared looked) in
  (lk_removed looked + length (hs_gone hashed), Pool (hs_shared hashed) (reconcile_settle hashed known)).

(** ** What the phases come to, file by file *)

Definition plain_name (name : string) : Prop := ends_with ".sig" name = false.
Definition suspect_of (e : string * RepoDbEntry) : Suspect := mkSuspect e.1 (re_sha256 e.2).

Lemma plain_not_sig name other : plain_name name -> name <> other +:+ ".sig".
Proof. unfold plain_name, ends_with. intros Hp ->. by rewrite strip_suffix_app in Hp. Qed.

Lemma lookup_remove_file shared n m :
  remove_file shared n !! m = if decide (m = n /\ io_remove io n = true) then None else shared !! m.
Proof.
  unfold remove_file. destruct (io_remove io n).
  - destruct (decide (m = n)) as [->|Hne].
    + rewrite lookup_delete_eq. by rewrite decide_True.
    + rewrite lookup_delete_ne by done. by rewrite decide_False by tauto.
  - by rewrite decide_False by (by intros [_ [=]]).
Qed.

Lemma lookup_remove_cached shared n m :
  plain_name m ->
  (remove_cached shared n).2 !! m =
    if decide (m = n /\ io_remove io n = true) then None else shared !! m.
Proof.
  intros Hp. unfold remove_cached. cbn [snd]. rewrite lookup_remove_file.
  rewrite decide_False by (intros [? _]; by apply (plain_not_sig m n)). apply lookup_remove_file.
Qed.

Lemma lookup_remove_other shared n m :
  m <> n -> m <> n +:+ ".sig" -> (remove_cached shared n).2 !! m = shared !! m.
Proof. intros. unfold remove_cached. cbn [snd]. rewrite !lookup_remove_file, !decide_False; tauto. Qed.

(** Files removed one after the other. *)
Definition removes (shared : gmap string string) (l : list string) : gmap string string :=
  foldl (fun shared n => (remove_cached shared n).2) shared l.

Lemma lookup_removes shared l m :
  plain_name m ->
  removes shared l !! m = if decide (m ∈ l /\ io_remove io m = true) then None else shared !! m.
Proof.
  intros Hp. revert shared. induction l as [|n l IH]; intros shared; cbn [removes foldl].
  { by rewrite decide_False by (by intros [?%elem_of_nil _]). }
  fold (removes (remove_cached shared n).2 l). rewrite IH, lookup_remove_cached by done.
  destruct (decide (m = n)) as [->|Hne].
  - destruct (io_remove io n) eqn:Hr.
    + rewrite !(decide_True (P := n = n /\ true = true)) by done.
      rewrite (decide_True (P := n ∈ n :: l /\ true = true)) by (split; [left|done]). by case_decide.
    + by rewrite !decide_False by (by intros [_ [=]]).
  - rewrite (decide_False (P := m = n /\ _)) by tauto.
    apply decide_ext. rewrite elem_of_cons. tauto.
Qed.

Lemma lookup_removes_other shared l m :
  m ∉ l -> (forall n, n ∈ l -> m <> n +:+ ".sig") -> removes shared l !! m = shared !! m.
Proof.
  revert shared. induction l as [|n l IH]; intros shared Hm Hs; [done|]. cbn [removes foldl].
  fold (removes (remove_cached shared n).2 l). apply not_elem_of_cons in Hm as [Hne Hm].
  rewrite IH; [|done|intros k Hk; apply Hs; by right]. apply lookup_remove_other; [done|apply Hs; left].
Qed.

Definition standing_is (c : Standing) (shared : gmap string string) (l : list (string * RepoDbEntry)) :=
  filter (fun e => standing shared e = c) l.

Lemma standing_ext shared shared' e : shared' !! e.1 = shared !! e.1 -> standing shared' e = standing shared e.
Proof. intros He. unfold standing. by rewrite He. Qed.

Lemma standing_is_ext c shared shared' l :
  (forall e, e ∈ l -> shared' !! e.1 = shared !! e.1) -> standing_is c shared' l = standing_is c shared l.
Proof.
  intros Hl. apply filter_ext_elem. intros e He. by rewrite (standing_ext shared shared' e (Hl e He)).
Qed.

Lemma standing_after_removal c shared n l :
  n ∉ l.*1 -> Forall plain_name l.*1 ->
  standing_is c (remove_cached shared n).2 l = standing_is c shared l.
Proof.
  intros Hn Hp. apply standing_is_ext. intros e He.
  assert (e.1 ∈ l.*1) as Hin by by apply list_elem_of_fmap_2.
  rewrite Forall_forall in Hp. apply lookup_remove_other; [by intros <-|by apply plain_not_sig, Hp].
Qed.

Lemma look_fold l s :
  NoDup l.*1 -> Forall plain_name l.*1 ->
  foldl look s l =
    let stale := (standing_is Stale (lk_shared s) l).*1 in
    mkLooked (removes (lk_shared s) stale)
      (lk_removed s + length (filter (fun n => io_remove io n = true) stale))
      (lk_suspects s ++ (suspect_of <$> standing_is Suspected (lk_shared s) l))
      (lk_absent s ++ (suspect_of <$> standing_is Absent (lk_shared s) l))
      (lk_stale s ++ stale).
Proof.
  revert s. induction l as [|e l IH]; intros s Hnd Hp.
  { destruct s. cbn. by rewrite !app_nil_r, Nat.add_0_r. }
  rewrite fmap_cons, NoDup_cons in Hnd. destruct Hnd as [He Hnd].
  rewrite fmap_cons, Forall_cons in Hp. destruct Hp as [Hpe Hp].
  cbn [foldl]. rewrite IH by done. unfold look, standing_is. cbv zeta.
  rewrite !(filter_cons _ e l). fold (standing_is Stale (lk_shared s) l)
    (standing_is Suspected (lk_shared s) l) (standing_is Absent (lk_shared s) l).
  destruct (standing (lk_shared s) e) eqn:Hs; cbn -[removes remove_cached].
  - by rewrite <- app_assoc.
  - assert ((remove_cached (lk_shared s) e.1).1 = io_remove io e.1) as Hg.
    { unfold remove_cached. cbn [fst]. unfold standing in Hs. by destruct (lk_shared s !! e.1). }
    destruct (remove_cached (lk_shared s) e.1) as [gone shared] eqn:Hrc. cbn [fst] in Hg. subst gone.
    cbn -[removes remove_cached].
    assert (forall c, standing_is c shared l = standing_is c (lk_shared s) l) as Hst.
    { intros c. pose proof (standing_after_removal c (lk_shared s) e.1 l He Hp) as H. by rewrite Hrc in H. }
    unfold standing_is in Hst |- *. rewrite !Hst. rewrite !(decide_True (P := Stale = Stale)) by done.
    rewrite !decide_False by done. rewrite fmap_cons, filter_cons. cbn [removes foldl]. rewrite Hrc. cbn [snd].
    f_equal; [|by rewrite <- app_assoc]. destruct (io_remove io e.1); simpl; lia.
  - by rewrite <- app_assoc.
Qed.

Definition goes (shared : gmap string string) (n : string) : bool :=
  match shared !! n with None => true | Some _ => io_remove io n end.

Definition bad_names (l : list (Suspect * bool)) : list string :=
  (fun v => su_name v.1) <$> filter (fun v => v.2 = false) l.

Lemma settle_fold l s :
  NoDup ((fun v => su_name v.1) <$> l) -> Forall (fun v => plain_name (su_name v.1)) l ->
  foldl settle_verdict s l =
    mkHashed (removes (hs_shared s) (bad_names l))
      (hs_verified s ++ (filter (fun v => v.2 = true) l).*1)
      (hs_gone s ++ filter (fun n => goes (hs_shared s) n = true) (bad_names l)).
Proof.
  revert s. induction l as [|[x ok] l IH]; intros s Hnd Hp.
  { destruct s. cbn. by rewrite !app_nil_r. }
  rewrite fmap_cons, NoDup_cons in Hnd. destruct Hnd as [He Hnd]. apply Forall_cons in Hp as [Hpx Hp].
  cbn [foldl]. rewrite IH by done. unfold bad_names. rewrite !(filter_cons _ (x, ok) l).
  fold (bad_names l). destruct ok; cbn -[removes remove_cached].
  { by rewrite <- app_assoc. }
  assert ((remove_cached (hs_shared s) (su_name x)).1 = goes (hs_shared s) (su_name x)) as Hg by done.
  destruct (remove_cached (hs_shared s) (su_name x)) as [gone shared] eqn:Hrc. cbn [fst] in Hg. subst gone.
  cbn -[removes remove_cached]. rewrite (decide_True (P := false = false)) by done.
  rewrite decide_False by done. rewrite fmap_cons. cbn [fst]. fold (bad_names l).
  rewrite filter_cons. cbn [removes foldl]. rewrite Hrc. cbn [snd].
  f_equal.
  assert (filter (fun n => goes shared n = true) (bad_names l) =
    filter (fun n => goes (hs_shared s) n = true) (bad_names l)) as ->.
  { apply filter_ext_elem. intros n Hn. unfold goes.
    apply list_elem_of_fmap in Hn as (v & -> & [_ Hv]%list_elem_of_filter).
    assert (shared !! su_name v.1 = hs_shared s !! su_name v.1) as ->; [|done].
    pose proof (lookup_remove_other (hs_shared s) (su_name x) (su_name v.1)) as Hl. rewrite Hrc in Hl. apply Hl.
    - intros Heq. apply He. cbn [fst]. rewrite <- Heq. by apply list_elem_of_fmap_2 with (f := fun v => su_name v.1).
    - rewrite Forall_forall in Hp. by apply plain_not_sig, Hp. }
  destruct (goes (hs_shared s) (su_name x)); [by rewrite <- app_assoc|done].
Qed.

Lemma lookup_delete_names l known m :
  delete_names l known !! m = if decide (m ∈ l) then None else known !! m.
Proof.
  unfold delete_names. revert known. induction l as [|n l IH]; intros known; cbn [foldl].
  { by rewrite decide_False by apply not_elem_of_nil. }
  rewrite IH. destruct (decide (m ∈ l)) as [Hm|Hm].
  - by rewrite decide_True by (by right).
  - destruct (decide (m = n)) as [->|Hne].
    + rewrite lookup_delete_eq. by rewrite decide_True by left.
    + rewrite lookup_delete_ne by done. by rewrite decide_False by (apply not_elem_of_cons; done).
Qed.

(** What a list of verified files leaves noted under a name: its digest, where the
    digest is a function of the name. *)
Lemma lookup_insert_suspects l known m :
  insert_suspects l known !! m =
    match last (filter (fun s => su_name s = m) l) with
    | Some s => Some (su_sha256 s)
    | None => known !! m
    end.
Proof.
  unfold insert_suspects. induction l as [|s l IH] using rev_ind; [done|].
  rewrite foldl_app, filter_app. cbn [foldl]. rewrite filter_cons, filter_nil.
  destruct (decide (su_name s = m)) as [->|Hne].
  - rewrite lookup_insert_eq. by rewrite last_snoc.
  - by rewrite lookup_insert_ne, app_nil_r by done.
Qed.

(** ** Promoting *)

(** Whether a job's file goes into the shared cache. *)
Definition promotes (repo_db : option RepoDb) (file : string * string) : bool :=
  is_package_artifact file.1 &&
  match repo_db ≫= (fun want => want !! file.1) with
  | Some entry => publishes entry file.1 file.2
  | None => true
  end && io_rename io file.1.

Lemma promote_file_cases repo_db s file :
  promote_file repo_db s file =
    if promotes repo_db file then
      mkPromotion (delete file.1 (pr_job s)) (<[file.1 := file.2]> (pr_shared s)) (pr_names s ++ [file.1])
    else s.
Proof.
  destruct file as [name bytes]. unfold promote_file, promotes. cbn [fst snd].
  destruct (is_package_artifact name); [|done]. cbn [negb andb].
  destruct (repo_db ≫= _) as [entry|]; [|done]. by destruct (publishes entry name bytes).
Qed.

Lemma promote_fold repo_db l s :
  NoDup l.*1 ->
  let r := foldl (promote_file repo_db) s l in
  pr_names r = pr_names s ++ (filter (fun f => promotes repo_db f = true) l).*1 /\
  forall m, pr_shared r !! m =
    match (list_to_map (filter (fun f => promotes repo_db f = true) l) : gmap string string) !! m with
    | Some bytes => Some bytes
    | None => pr_shared s !! m
    end.
Proof.
  revert s. induction l as [|f l IH]; intros s Hnd; [by rewrite app_nil_r|].
  rewrite fmap_cons, NoDup_cons in Hnd. destruct Hnd as [Hf Hnd]. cbn [foldl]. rewrite promote_file_cases.
  specialize (IH (if promotes repo_db f then
    mkPromotion (delete f.1 (pr_job s)) (<[f.1 := f.2]> (pr_shared s)) (pr_names s ++ [f.1]) else s) Hnd).
  cbv zeta in IH. destruct IH as [-> IH]. rewrite filter_cons.
  destruct (promotes repo_db f) eqn:Hp.
  - rewrite decide_True by done. cbn [pr_names pr_shared] in *. split; [by rewrite fmap_cons, <- app_assoc|].
    intros m. rewrite IH. destruct f as [n bytes]. cbn [fst snd list_to_map foldr uncurry].
    destruct (decide (m = n)) as [->|Hne]; [|by rewrite !lookup_insert_ne by done].
    rewrite !lookup_insert_eq. rewrite not_elem_of_list_to_map_1; [done|].
    intros (g & -> & [_ Hg]%list_elem_of_filter)%list_elem_of_fmap. apply Hf. cbn [fst]. by apply list_elem_of_fmap_2.
  - rewrite decide_False by congruence. done.
Qed.

Lemma lookup_promoted repo_db job m :
  (list_to_map (filter (fun f => promotes repo_db f = true) (map_to_list job)) : gmap string string) !! m =
    option_filter (fun bytes => promotes repo_db (m, bytes)) (job !! m).
Proof.
  apply option_eq. intros bytes. rewrite <- elem_of_list_to_map.
  - rewrite list_elem_of_filter, elem_of_map_to_list. unfold option_filter.
    destruct (job !! m) as [b|]; [|by split; [intros [_ [=]]|]]. destruct (promotes repo_db (m, b)) eqn:Hp.
    + split; [by intros [_ [= ->]]|by intros [= ->]].
    + split; [intros [Hq [= ->]]; congruence|done].
  - apply (sublist_NoDup _ (map_to_list job).*1); [apply NoDup_fst_map_to_list|].
    apply fmap_sublist, sublist_filter.
Qed.

Lemma lookup_promote_record repo_db names known0 m :
  promote_record repo_db names known0 !! m =
    if decide (m ∈ names) then
      match repo_db with
      | Some want => match want !! m with Some entry => Some (re_sha256 entry) | None => known0 !! m end
      | None => None
      end
    else known0 !! m.
Proof.
  unfold promote_record. destruct repo_db as [want|]; [|apply lookup_delete_names].
  revert known0. induction names as [|n names IH]; intros known0; cbn [foldl].
  { by rewrite decide_False by apply not_elem_of_nil. }
  rewrite IH. destruct (decide (m = n)) as [->|Hne].
  - rewrite (decide_True (P := n ∈ n :: names)) by left. destruct (want !! n); [rewrite lookup_insert_eq|]; by case_decide.
  - assert ((match want !! n with Some entry => <[n := re_sha256 entry]> known0 | None => known0 end) !! m = known0 !! m) as ->.
    { destruct (want !! n); [by rewrite lookup_insert_ne|done]. }
    apply decide_ext. rewrite elem_of_cons. tauto.
Qed.

(** A promotion puts into the shared cache exactly the finished packages of the job
    that the repository publishes as they are or does not name - all of them when
    there is no database to ask -, each under its own name; what the database vouched
    for is noted with its digest, what could not be checked is forgotten, and every
    other file and note stays. *)
Theorem promotion_moves_what_matches repo_db job p :
  let '(n, p') := promote_job_pkgs repo_db job p in
  n = length (filter (fun f => promotes repo_db f = true) (map_to_list job)) /\
  forall m,
    match option_filter (fun bytes => promotes repo_db (m, bytes)) (job !! m) with
    | Some bytes =>
        p_shared p' !! m = Some bytes /\
        p_verified p' !! m =
          match repo_db with
          | Some want => match want !! m with Some entry => Some (re_sha256 entry) | None => p_verified p !! m end
          | None => None
          end
    | None => p_shared p' !! m = p_shared p !! m /\ p_verified p' !! m = p_verified p !! m
    end.
Proof.
  unfold promote_job_pkgs, promote_files. cbn [p_shared p_verified].
  destruct (promote_fold repo_db (map_to_list job) (mkPromotion job (p_shared p) [])) as [Hn Hs];
    [apply NoDup_fst_map_to_list|]. rewrite Hn. cbn [pr_names app].
  split; [by rewrite length_fmap|]. intros m. rewrite Hs, lookup_promoted, lookup_promote_record.
  cbn [pr_shared].
  assert (m ∈ (filter (fun f => promotes repo_db f = true) (map_to_list job)).*1 <->
    is_Some (option_filter (fun bytes => promotes repo_db (m, bytes)) (job !! m))) as Hin.
  { rewrite <- lookup_promoted. split.
    - intros Hm. apply not_eq_None_Some. intros Hno. by apply not_elem_of_list_to_map_2 in Hno.
    - intros Hm. apply dec_stable. intros Hno. apply not_elem_of_list_to_map_1 in Hno. rewrite Hno in Hm. by destruct Hm. }
  destruct (option_filter _ (job !! m)) as [bytes|].
  - by rewrite decide_True by (apply Hin; by eexists).
  - rewrite decide_False; [done|]. intros [? ?]%Hin. done.
Qed.

(** ** Reconciling alone *)

Section reconcile.
Context (repo_db : RepoDb) (p : pool).
Context (Hplain : forall name, is_Some (repo_db !! name) -> plain_name name).

Local Abbreviation known := (p_verified p).
Local Abbreviation shared := (p_shared p).
Local Abbreviation looks := (todo repo_db known).

Lemma todo_spec e : e ∈ looks <-> repo_db !! e.1 = Some e.2 /\ known !! e.1 <> Some (re_sha256 e.2).
Proof. unfold todo. rewrite list_elem_of_filter. destruct e. rewrite elem_of_map_to_list. tauto. Qed.

Lemma todo_nodup : NoDup looks.*1.
Proof.
  apply (sublist_NoDup _ (map_to_list repo_db).*1); [apply NoDup_fst_map_to_list|].
  apply fmap_sublist, sublist_filter.
Qed.

Lemma looks_plain : Forall plain_name looks.*1.
Proof.
  apply Forall_forall. intros m (e & -> & He)%list_elem_of_fmap. apply todo_spec in He as [He _].
  apply Hplain. by eexists.
Qed.

(** What becomes of one file and of what is noted under its name. *)
Definition fate (m : string) : option string * option string :=
  match repo_db !! m with
  | None => (shared !! m, None)
  | Some entry =>
      let sha := re_sha256 entry in
      if decide (known !! m = Some sha) then (shared !! m, Some sha)
      else
        match shared !! m with
        | None => (None, Some sha)
        | Some bytes =>
            let left := if io_remove io m then None else Some bytes in
            if negb (io_stat io m) then (Some bytes, Some sha)
            else if decide (file_len bytes <> re_csize entry) then (left, None)
            else if io_lost io m then (Some bytes, known !! m)
            else if io_read io m && bool_decide (sha256 bytes = sha) then (Some bytes, Some sha)
            else (left, if io_remove io m then None else known !! m)
        end
  end.

Local Abbreviation judged c := (standing_is c shared looks).
Local Abbreviation shared1 := (removes shared (judged Stale).*1).
Local Abbreviation suspects := (suspect_of <$> judged Suspected).

Lemma judged_nodup c : NoDup (judged c).*1.
Proof. eapply sublist_NoDup; [apply todo_nodup|]. apply fmap_sublist, sublist_filter. Qed.

Lemma judged_spec c m entry :
  repo_db !! m = Some entry ->
  m ∈ (judged c).*1 <-> known !! m <> Some (re_sha256 entry) /\ standing shared (m, entry) = c.
Proof.
  intros Hm. rewrite list_elem_of_fmap. unfold standing_is. split.
  - intros ([n e] & -> & [Hs [He Hk]%todo_spec]%list_elem_of_filter). simpl in *.
    rewrite Hm in He. by injection He as <-.
  - intros [Hk Hs]. exists (m, entry). split; [done|]. apply list_elem_of_filter. split; [done|].
    by apply todo_spec.
Qed.

Lemma judged_unlisted c m : repo_db !! m = None -> m ∉ (judged c).*1.
Proof.
  intros Hm ([n e] & -> & [_ [He _]%todo_spec]%list_elem_of_filter)%list_elem_of_fmap.
  simpl in *. congruence.
Qed.

(** The suspects with a given name. *)
Lemma suspects_named c m entry :
  repo_db !! m = Some entry ->
  filter (fun s => su_name s = m) (suspect_of <$> judged c) =
    if decide (m ∈ (judged c).*1) then [mkSuspect m (re_sha256 entry)] else [].
Proof.
  intros Hm. assert (forall e, e ∈ judged c -> e.1 = m -> e = (m, entry)) as Hone.
  { intros [n e] [_ [He _]%todo_spec]%list_elem_of_filter Hn. simpl in *. congruence. }
  pose proof (judged_nodup c) as Hnd. induction (judged c) as [|e l IH].
  { by rewrite decide_False by apply not_elem_of_nil. }
  rewrite fmap_cons, NoDup_cons in Hnd. destruct Hnd as [He Hnd]. rewrite fmap_cons, filter_cons.
  rewrite IH; [|intros; apply Hone; [by right|done]|done]. change (su_name (suspect_of e)) with e.1.
  destruct (decide (e.1 = m)) as [Hem|Hne].
  - rewrite decide_False by congruence. rewrite decide_True by (rewrite <- Hem; left).
    by rewrite (Hone e) by (done || left).
  - apply decide_ext. rewrite fmap_cons, elem_of_cons. naive_solver.
Qed.

Lemma suspects_unlisted c m :
  repo_db !! m = None -> filter (fun s => su_name s = m) (suspect_of <$> judged c) = [].
Proof.
  intros Hm. apply filter_nil_iff. intros s (e & -> & He)%list_elem_of_fmap Hs.
  apply (judged_unlisted c m Hm). rewrite <- Hs. change (su_name (suspect_of e)) with e.1. by apply list_elem_of_fmap_2.
Qed.

Lemma looked : reconcile_look repo_db known shared =
  mkLooked shared1 (length (filter (fun n => io_remove io n = true) (judged Stale).*1))
    suspects (suspect_of <$> judged Absent) (judged Stale).*1.
Proof. unfold reconcile_look. rewrite look_fold; [done|apply todo_nodup|apply looks_plain]. Qed.

Local Abbreviation verdicts files := (hash_suspects files suspects).

Lemma verdicts_names files : (fun v => su_name v.1) <$> verdicts files =
  su_name <$> filter (fun s => io_lost io (su_name s) = false) suspects.
Proof. unfold hash_suspects. by rewrite <- list_fmap_compose. Qed.

Lemma hashed files : reconcile_hash suspects files =
  mkHashed (removes files (bad_names (verdicts files))) (filter (fun v => v.2 = true) (verdicts files)).*1
    (filter (fun n => goes files n = true) (bad_names (verdicts files))).
Proof.
  assert (su_name <$> suspects = (judged Suspected).*1) as Hs by by rewrite <- list_fmap_compose.
  unfold reconcile_hash. rewrite settle_fold; [done| |].
  - rewrite verdicts_names. apply (sublist_NoDup _ (su_name <$> suspects)); [rewrite Hs; apply judged_nodup|].
    apply fmap_sublist, sublist_filter.
  - apply Forall_forall. intros v Hv.
    assert (su_name v.1 ∈ su_name <$> suspects) as Hn.
    { apply list_elem_of_fmap in Hv as (x & -> & [_ Hx]%list_elem_of_filter). by apply list_elem_of_fmap_2. }
    rewrite Hs in Hn. apply list_elem_of_fmap in Hn as (e & -> & [_ He]%list_elem_of_filter).
    pose proof looks_plain as Hp. rewrite Forall_forall in Hp. by apply Hp, list_elem_of_fmap_2.
Qed.

(** The verdict on one file. *)
Lemma bad_named files m entry :
  repo_db !! m = Some entry ->
  m ∈ bad_names (verdicts files) <-> m ∈ (judged Suspected).*1 /\ io_lost io m = false /\
    matches files (mkSuspect m (re_sha256 entry)) = false.
Proof.
  intros Hm. unfold bad_names, hash_suspects. rewrite list_elem_of_fmap. split.
  - intros (v & -> & [Hv (s & -> & [Hl Hs]%list_elem_of_filter)%list_elem_of_fmap]%list_elem_of_filter).
    cbn [fst snd] in *. apply list_elem_of_fmap in Hs as (e & -> & He). cbn in *.
    assert (e = (e.1, entry)) as Heq.
    { destruct e as [n e]. apply list_elem_of_filter in He as [_ [He _]%todo_spec]. simpl in *. congruence. }
    split; [by apply list_elem_of_fmap_2|]. split; [done|]. unfold suspect_of in Hv. by rewrite Heq in Hv.
  - intros (Hin & Hl & Hb). exists (mkSuspect m (re_sha256 entry), false). split; [done|].
    apply list_elem_of_filter. split; [done|]. apply list_elem_of_fmap.
    exists (mkSuspect m (re_sha256 entry)). split; [by rewrite Hb|]. apply list_elem_of_filter. split; [done|].
    apply list_elem_of_fmap in Hin as (e & -> & He). apply list_elem_of_fmap. exists e. split; [|done].
    destruct e as [n e]. apply list_elem_of_filter in He as [_ [He _]%todo_spec]. simpl in *. unfold suspect_of. simpl.
    congruence.
Qed.

Lemma good_named files m entry :
  repo_db !! m = Some entry ->
  filter (fun s => su_name s = m) (filter (fun v => v.2 = true) (verdicts files)).*1 =
    if decide (m ∈ (judged Suspected).*1 /\ io_lost io m = false /\
               matches files (mkSuspect m (re_sha256 entry)) = true)
    then [mkSuspect m (re_sha256 entry)] else [].
Proof.
  intros Hm.
  assert (forall l, (filter (fun v => v.2 = true) ((fun s => (s, matches files s)) <$> l)).*1 =
    filter (fun s => matches files s = true) l) as Hgood.
  { induction l as [|s l IH]; [done|]. rewrite fmap_cons, !filter_cons. cbn [snd].
    case_decide; [by rewrite fmap_cons, IH|done]. }
  unfold hash_suspects. rewrite Hgood, !list_filter_filter.
  rewrite (list_filter_iff _ (fun s => (io_lost io (su_name s) = false /\ matches files s = true) /\ su_name s = m))
    by tauto.
  rewrite <- list_filter_filter. rewrite (suspects_named _ _ _ Hm).
  destruct (decide (m ∈ (judged Suspected).*1)) as [Hin|Hout].
  - rewrite filter_cons, filter_nil. apply decide_ext. cbn [su_name]. tauto.
  - rewrite filter_nil. by rewrite decide_False by tauto.
Qed.

(** Nothing is looked at that the repository does not publish. *)
Lemma verdicts_unlisted files m v : repo_db !! m = None -> v ∈ verdicts files -> su_name v.1 <> m.
Proof.
  intros Hm (s & -> & [_ Hs]%list_elem_of_filter)%list_elem_of_fmap Hv.
  pose proof (suspects_unlisted Suspected m Hm) as Hnil. rewrite filter_nil_iff in Hnil. by apply (Hnil s).
Qed.

Lemma bad_unlisted files m : repo_db !! m = None -> m ∉ bad_names (verdicts files).
Proof.
  intros Hm (v & -> & [_ Hv]%list_elem_of_filter)%list_elem_of_fmap. by apply (verdicts_unlisted files _ v Hm).
Qed.

Lemma good_unlisted files m :
  repo_db !! m = None -> filter (fun s => su_name s = m) (filter (fun v => v.2 = true) (verdicts files)).*1 = [].
Proof.
  intros Hm. apply filter_nil_iff. intros s (v & -> & [_ Hv]%list_elem_of_filter)%list_elem_of_fmap.
  by apply (verdicts_unlisted files _ v Hm).
Qed.

Lemma record_listed m entry :
  repo_db !! m = Some entry ->
  reconcile_record repo_db (reconcile_look repo_db known shared) known !! m =
    if decide (m ∈ (judged Stale).*1) then None
    else if decide (m ∈ (judged Absent).*1) then Some (re_sha256 entry) else known !! m.
Proof.
  intros Hm. rewrite looked. unfold reconcile_record. cbn [lk_stale lk_absent].
  assert (forall k : gmap string string, filter (fun e => is_Some (repo_db !! e.1)) k !! m = k !! m) as ->.
  { intros k. apply option_eq. intros x. rewrite map_lookup_filter_Some. cbn [fst]. rewrite Hm. by split; [intros [? _]|eauto]. }
  rewrite lookup_delete_names, lookup_insert_suspects, (suspects_named _ _ _ Hm).
  case_decide; [done|]. by case_decide.
Qed.

Lemma record_unlisted m :
  repo_db !! m = None -> reconcile_record repo_db (reconcile_look repo_db known shared) known !! m = None.
Proof.
  intros Hm. unfold reconcile_record. apply map_lookup_filter_None. right. intros x _ [e He].
  cbn in He. congruence.
Qed.

(** A file that is not stale is as it was when the digests are taken. *)
Lemma looked_file m : plain_name m -> m ∉ (judged Stale).*1 -> shared1 !! m = shared !! m.
Proof. intros Hp Hm. rewrite lookup_removes by done. by rewrite decide_False by tauto. Qed.

Lemma reconcile_fate m :
  plain_name m ->
  let p' := (reconcile_pkgs repo_db p).2 in (p_shared p' !! m, p_verified p' !! m) = fate m.
Proof.
  intros Hp. unfold reconcile_pkgs, reconcile_settle. cbn [snd p_shared p_verified].
  rewrite looked. cbn [lk_shared lk_suspects]. rewrite hashed. cbn [hs_shared hs_verified hs_gone].
  rewrite <- looked, lookup_delete_names, lookup_insert_suspects, lookup_removes by done.
  unfold fate. destruct (repo_db !! m) as [entry|] eqn:Hm.
  2: { rewrite good_unlisted, record_unlisted by done. cbn [last].
    rewrite !decide_False; [|by intros [_ ?%bad_unlisted]%list_elem_of_filter|by intros [?%bad_unlisted _]].
    by rewrite looked_file by (done || by apply judged_unlisted). }
  rewrite (good_named shared1 m entry), (record_listed m entry) by done.
  pose proof (judged_spec Stale m entry Hm) as HS. pose proof (judged_spec Absent m entry Hm) as HA.
  pose proof (judged_spec Suspected m entry Hm) as HU. pose proof (bad_named shared1 m entry Hm) as HB.
  assert (m ∈ filter (fun n => goes shared1 n = true) (bad_names (verdicts shared1)) <->
    goes shared1 m = true /\ m ∈ bad_names (verdicts shared1)) as HG by (by rewrite list_elem_of_filter).
  pose proof (lookup_removes shared (judged Stale).*1 m Hp) as H1. unfold goes in HG. unfold matches in *.
  cbn [su_name su_sha256] in *. rewrite H1 in *. clear H1.
  unfold standing in HS, HA, HU. cbn [fst snd] in *. cbv zeta.
  destruct (decide (known !! m = Some (re_sha256 entry))) as [Hk|Hk].
  { repeat rewrite decide_False by tauto. cbn [last]. by rewrite Hk. }
  destruct (shared !! m) as [bytes|] eqn:Hf.
  2: { repeat first [rewrite decide_False by (intuition congruence)|rewrite decide_True by (intuition congruence)]. done. }
  destruct (io_stat io m); cbn [negb].
  2: { repeat first [rewrite decide_False by (intuition congruence)|rewrite decide_True by (intuition congruence)]. done. }
  destruct (decide (file_len bytes = re_csize entry)) as [Hlen|Hlen].
  - assert (m ∉ (judged Stale).*1) as HnS by (intuition congruence).
    assert (m ∉ (judged Absent).*1) as HnA by (intuition congruence).
    assert (m ∈ (judged Suspected).*1) as HyU by (intuition congruence). clear HS HA HU.
    rewrite (decide_False (P := m ∈ (judged Stale).*1 /\ _)) in HB, HG by tauto.
    rewrite (decide_False (P := m ∈ (judged Stale).*1 /\ _)) by tauto.
    rewrite (decide_False (P := _ <> _)) by tauto. cbn [is_some_and] in *.
    rewrite (decide_False (P := m ∈ (judged Stale).*1)), (decide_False (P := m ∈ (judged Absent).*1)) by done.
    destruct (io_lost io m); [|destruct (io_read io m && bool_decide (sha256 bytes = re_sha256 entry))];
      [| |destruct (io_remove io m)];
      repeat first [rewrite decide_False by (intuition congruence)|rewrite decide_True by (intuition congruence)]; done.
  - assert (m ∈ (judged Stale).*1) as HyS by (intuition congruence).
    assert (m ∉ (judged Suspected).*1) as HnU by (intuition congruence). clear HS HA HU.
    rewrite (decide_True (P := _ <> _)) by done.
    destruct (io_remove io m);
      repeat first [rewrite decide_False by (intuition congruence)|rewrite decide_True by (intuition congruence)]; done.
Qed.

(** What is noted of a file holds of it. *)
Definition honest (q : pool) : Prop :=
  forall m sha bytes, plain_name m -> p_verified q !! m = Some sha -> p_shared q !! m = Some bytes ->
    sha256 bytes = sha.

(** C31. Reconciling with nobody else at work leaves only what the repository
    publishes. If what was noted was true and files can be looked at, what is noted
    afterwards is true; a file the repository names is left only with the digest it
    publishes - unless it cannot be removed or the thread hashing it died -; one that
    is as published stays where it can be read; and files the repository does not
    name are left alone. *)
Theorem reconcile_leaves_only_published :
  (forall m, io_stat io m = true) -> honest p ->
  let p' := (reconcile_pkgs repo_db p).2 in
  honest p' /\
  (forall m entry bytes, repo_db !! m = Some entry -> io_remove io m = true -> io_lost io m = false ->
     p_shared p' !! m = Some bytes -> p_shared p !! m = Some bytes /\ sha256 bytes = re_sha256 entry) /\
  (forall m entry bytes, repo_db !! m = Some entry -> io_read io m = true -> p_shared p !! m = Some bytes ->
     file_len bytes = re_csize entry -> sha256 bytes = re_sha256 entry -> p_shared p' !! m = Some bytes) /\
  (forall m, plain_name m -> repo_db !! m = None -> p_shared p' !! m = p_shared p !! m).
Proof.
  intros Hstat Hh p'.
  assert (forall m, plain_name m -> p_shared p' !! m = (fate m).1 /\ p_verified p' !! m = (fate m).2) as Hf.
  { intros m Hm. pose proof (reconcile_fate m Hm) as Heq. fold p' in Heq. by rewrite <- Heq. }
  clearbody p'. split_and!.
  - intros m sha bytes Hm Hv Hs. destruct (Hf m Hm) as [H1 H2]. rewrite H1 in Hs. rewrite H2 in Hv.
    specialize (Hh m). clear Hf H1 H2. unfold fate in *. rewrite Hstat in *. cbn [negb] in *.
    repeat case_match; simplify_eq/=; eauto.
    match goal with H : _ && _ = true |- _ => apply andb_true_iff in H as [_ ?%bool_decide_eq_true] end. done.
  - intros m entry bytes Hm Hr Hl Hs. assert (plain_name m) as Hp by (apply Hplain; by eexists).
    destruct (Hf m Hp) as [H1 _]. rewrite H1 in Hs. specialize (Hh m). clear Hf H1. unfold fate in *.
    rewrite Hm, Hr, Hl, Hstat in Hs. cbn [negb] in *.
    repeat case_match; simplify_eq/=; eauto.
    match goal with H : _ && _ = true |- _ => apply andb_true_iff in H as [_ ?%bool_decide_eq_true] end. done.
  - intros m entry bytes Hm Hr Hs Hlen Hsha. assert (plain_name m) as Hp by (apply Hplain; by eexists).
    destruct (Hf m Hp) as [-> _]. unfold fate. rewrite Hm, Hr, Hs. rewrite bool_decide_true by done.
    rewrite (decide_False (P := _ <> _)) by tauto. by repeat case_match.
  - intros m Hp Hm. destruct (Hf m Hp) as [-> _]. unfold fate. by rewrite Hm.
Qed.

(** Between a reconcile's look and its noting, another job promotes a file the look
    did not find. *)
Definition promoted_meanwhile (job : gmap string string) : pool :=
  let looked := reconcile_look repo_db known shared in
  let during := (promote_job_pkgs None job (Pool (lk_shared looked) known)).2 in
  let noted := reconcile_record repo_db looked (p_verified during) in
  let hashed := reconcile_hash (lk_suspects looked) (p_shared during) in
  Pool (hs_shared hashed) (reconcile_settle hashed noted).

Lemma promoted_meanwhile_file m entry bytes :
  repo_db !! m = Some entry -> shared !! m = None -> known !! m = None ->
  is_package_artifact m = true -> io_rename io m = true ->
  let after := promoted_meanwhile {[m := bytes]} in
  p_shared after !! m = Some bytes /\ p_verified after !! m = Some (re_sha256 entry).
Proof.
  intros Hm Hs Hv Ha Hr. assert (plain_name m) as Hp by (apply Hplain; by eexists).
  assert (known !! m <> Some (re_sha256 entry)) as Hk by congruence.
  assert (m ∉ (judged Stale).*1 /\ m ∈ (judged Absent).*1 /\ m ∉ (judged Suspected).*1) as (HnS & HyA & HnU).
  { rewrite !(judged_spec _ m entry) by done. unfold standing. cbn [fst]. rewrite Hs. split_and!; naive_solver. }
  unfold promoted_meanwhile, promote_job_pkgs, promote_files. rewrite map_to_list_singleton.
  cbn [foldl promote_file]. rewrite Ha. cbn [negb mbind option_bind]. rewrite Hr.
  cbn [pr_names pr_shared app fst snd p_shared p_verified promote_record foldl].
  rewrite looked. cbn [lk_shared lk_suspects]. rewrite hashed. cbn [hs_shared].
  rewrite lookup_removes, lookup_insert_eq by done. rewrite decide_False by (rewrite (bad_named _ m entry) by done; tauto).
  split; [done|]. unfold reconcile_settle, reconcile_record. cbn [hs_gone hs_verified lk_stale lk_absent].
  rewrite lookup_delete_names, lookup_insert_suspects, (good_named _ m entry) by done.
  rewrite !decide_False; [|tauto|rewrite list_elem_of_filter, (bad_named _ m entry) by done; tauto].
  cbn [last]. apply map_lookup_filter_Some. cbn [fst]. split; [|by eexists].
  rewrite lookup_delete_names, lookup_insert_suspects, (suspects_named _ _ _ Hm), decide_False by done.
  by rewrite decide_True.
Qed.
End reconcile.

(** C32. The reconcile is not safe beside a promotion: a job that could not fetch the
    database promotes old bytes under a name the running reconcile has just found
    absent, and the reconcile then notes that name as verified. What is noted is
    false, the stale file is in the shared cache, and no later reconcile against the
    same database looks at it again. *)
Theorem promotion_beside_reconcile_goes_stale repo_db p m entry bytes :
  (forall name, is_Some (repo_db !! name) -> plain_name name) ->
  repo_db !! m = Some entry -> p_shared p !! m = None -> p_verified p !! m = None ->
  is_package_artifact m = true -> io_rename io m = true -> sha256 bytes <> re_sha256 entry ->
  let after := promoted_meanwhile repo_db p {[m := bytes]} in
  ~ honest after /\
  p_shared after !! m = Some bytes /\ p_verified after !! m = Some (re_sha256 entry) /\
  p_shared (reconcile_pkgs repo_db after).2 !! m = Some bytes.
Proof.
  intros Hplain Hm Hs Hv Ha Hr Hne after. assert (plain_name m) as Hp by (apply Hplain; by eexists).
  destruct (promoted_meanwhile_file repo_db p Hplain m entry bytes Hm Hs Hv Ha Hr) as [H1 H2].
  fold after in H1, H2. split_and!; [|done..|].
  - intros Hh. by apply Hne, (Hh m).
  - pose proof (reconcile_fate repo_db after Hplain m Hp) as Hf. cbv zeta in Hf. unfold fate in Hf.
    rewrite Hm, H1, H2, decide_True in Hf by done. by injection Hf.
Qed.
End pool.

(** ** Examples *)

(** Files are told apart by their text; every call succeeds. *)
Definition demo_digest (bytes : string) : string := bytes.
Definition demo_io : Io := mkIo (fun _ => true) (fun _ => true) (fun _ => true) (fun _ => true) (fun _ => false).

Definition demo_name : string := "hello-1.0-1-x86_64.pkg.tar.zst".
Definition demo_repo_db : RepoDb := {[demo_name := mkRepoDbEntry 3 "new"]}.

Lemma demo_plain name : is_Some (demo_repo_db !! name) -> plain_name name.
Proof.
  intros [e He]. unfold demo_repo_db in He. apply lookup_singleton_Some in He as [<- _]. by vm_compute.
Qed.

Lemma reconcile_leaves_only_published_witness :
  let p := Pool {[demo_name := "old"; "glibc.pkg.tar.zst" := "any"]} ∅ in
  let p' := (reconcile_pkgs demo_digest demo_io demo_repo_db p).2 in
  honest demo_digest p' /\ p_shared p' = {["glibc.pkg.tar.zst" := "any"]}.
Proof.
  intros p p'.
  destruct (reconcile_leaves_only_published demo_digest demo_io demo_repo_db p demo_plain) as (H & _).
  - done.
  - by intros m sha bytes _ Hv.
  - fold p' in H. split; [exact H|]. vm_compute. reflexivity.
Defined.

Lemma promotion_beside_reconcile_goes_stale_witness :
  let after := promoted_meanwhile demo_digest demo_io demo_repo_db (Pool ∅ ∅) {[demo_name := "old"]} in
  p_shared (reconcile_pkgs demo_digest demo_io demo_repo_db after).2 = {[demo_name := "old"]} /\
  ~ honest demo_digest after.
Proof.
  intros after.
  destruct (promotion_beside_reconcile_goes_stale demo_digest demo_io demo_repo_db (Pool ∅ ∅) demo_name
    (mkRepoDbEntry 3 "new") "old" demo_plain) as (H & _); [done..|].
  split; [vm_compute; reflexivity|exact H].
Defined.
