(* ===== verification/CacheDb.v ===== *)
(** * What a worker reads of [repo.db]

    [parse_repo_db] and [parse_desc] of [backend/aurcache-worker/src/cache.rs], the
    other side of the database [PkgDb] writes: what the server publishes about a file
    is what the worker checks its cached copy against. Unpacking the archive is a
    parameter; its members are what [PkgDb] works on. *)
From stdpp Require Import pretty.
From Stdlib Require Import Ascii.
From S2P Require Import Prelude Text Units PkgFile PkgDb PkgPool.
Open Scope string_scope.
Open Scope list_scope.

(** ** [parse_desc] *)

(** What has been read so far: [filename], [size] and [sha]. *)
Record DescFields := mkDescFields {
  df_filename : option string;
  df_csize : option Z;
  df_sha256 : option string
}.

Definition not_empty (o : option string) : option string := option_filter (fun v => negb (is_empty v)) o.

(** One line, with the next one peeked at. *)
Definition desc_field (line : string) (next : option string) (f : DescFields) : DescFields :=
  let value := trim <$> next in
  if decide (line = "%FILENAME%") then mkDescFields (not_empty value) (df_csize f) (df_sha256 f)
  else if decide (line = "%CSIZE%") then
    mkDescFields (df_filename f) (value ≫= fun v => parse_uint u64_max (trim v)) (df_sha256 f)
  else if decide (line = "%SHA256SUM%") then mkDescFields (df_filename f) (df_csize f) (not_empty value)
  else f.

Fixpoint desc_fields (l : list string) (f : DescFields) : DescFields :=
  match l with
  | [] => f
  | line :: l => desc_fields l (desc_field line (head l) f)
  end.

Definition parse_desc (desc : string) : option (string * RepoDbEntry) :=
  let f := desc_fields (lines desc) (mkDescFields None None None) in
  filename ← df_filename f;
  csize ← df_csize f;
  sha256 ← df_sha256 f;
  Some (filename, mkRepoDbEntry csize sha256).

(** ** [parse_repo_db] *)

Definition is_desc (path : string) : Prop :=
  length (components path) = 2 /\ file_name path = Some "desc".
#[export] Instance is_desc_dec path : Decision (is_desc path).
Proof. unfold is_desc. apply _. Defined.

Definition parse_member (out : RepoDb) (m : member) : RepoDb :=
  if decide (is_desc (m_path m)) then
    match parse_desc (m_content m) with
    | Some (filename, entry) => <[filename := entry]> out
    | None => out
    end
  else out.

Definition parse_repo_db (db : list member) : RepoDb := foldl parse_member ∅ db.

(** ** Reading back what the server wrote *)

Definition worker_headers : list string := ["%FILENAME%"; "%CSIZE%"; "%SHA256SUM%"].

(** No line of a section's values reads as a header the worker looks for. *)
Definition unobtrusive (section : string * (string + list string)) : Prop :=
  Forall (fun line => line ∉ worker_headers) (strip_cr <$> split line_feed (section_value section)).
#[export] Instance unobtrusive_dec section : Decision (unobtrusive section).
Proof. unfold unobtrusive. apply _. Defined.

Lemma desc_field_other line next f : line ∉ worker_headers -> desc_field line next f = f.
Proof.
  unfold worker_headers, desc_field. rewrite !not_elem_of_cons. intros (H1 & H2 & H3 & _).
  by rewrite !decide_False.
Qed.

Lemma desc_fields_skip l rest f :
  Forall (fun line => line ∉ worker_headers) l -> desc_fields (l ++ rest) f = desc_fields rest f.
Proof.
  intros Hl. revert f. induction Hl as [|line l Hn _ IH]; intros f; [done|]. cbn [app desc_fields].
  by rewrite desc_field_other, IH.
Qed.

(** A section the worker does not look for. *)
Definition other_section (h : string) : Prop :=
  h ∈ (fst <$> desc_rest (mkDesc "" "" "" "" Pkginfo_new)) /\ "%" +:+ to_uppercase h +:+ "%" ∉ worker_headers.
#[export] Instance other_section_dec h : Decision (other_section h).
Proof. unfold other_section. apply _. Defined.

Definition text_of (sections : list (string * (string + list string))) (rest : string) : string :=
  foldr (fun s rest => write_section s +:+ rest) rest sections.

Lemma desc_fields_sections sections rest f :
  Forall unobtrusive sections -> Forall (fun s => other_section s.1) sections ->
  desc_fields (lines (text_of sections rest)) f = desc_fields (lines rest) f.
Proof.
  intros Hu. induction Hu as [|s sections Hs _ IH]; [done|]. intros [Ho Hos]%Forall_cons.
  destruct Ho as [Hin Hh]. cbn [text_of foldr]. fold (text_of sections rest).
  destruct (lines_section s (text_of sections rest)) as [->| ->]; [by right|by apply IH|].
  change (section_header s :: (strip_cr <$> split line_feed (section_value s)) ++ "" :: lines (text_of sections rest))
    with ([section_header s] ++ (strip_cr <$> split line_feed (section_value s)) ++ [""] ++ lines (text_of sections rest)).
  rewrite desc_fields_skip by (by apply Forall_singleton). rewrite desc_fields_skip by done.
  rewrite desc_fields_skip; [by apply IH|]. apply Forall_singleton. by apply (bool_decide_unpack _).
Qed.

(** A section of one line. *)
Lemma desc_fields_line h v rest f :
  h ∈ "filename" :: (fst <$> desc_rest (mkDesc "" "" "" "" Pkginfo_new)) -> line_name v -> v ∉ worker_headers ->
  desc_fields (lines (write_section (h, inl v) +:+ rest)) f =
    desc_fields (lines rest) (desc_field ("%" +:+ to_uppercase h +:+ "%") (Some v) f).
Proof.
  intros Hh (Hne & Hlf & Hcr & _) Hv.
  destruct (lines_section (h, inl v) rest Hh) as [Hw| ->].
  { cbn in Hw. unfold write_entry in Hw. by destruct v. }
  unfold section_value, section_header. cbn [fst snd]. rewrite split_no_delim by done. csimpl.
  rewrite strip_cr_plain by done. cbn [app desc_fields head].
  rewrite (desc_field_other v) by done. by rewrite desc_field_other by (by apply (bool_decide_unpack _)).
Qed.

(** What makes a name, a size or a digest one line that is read back as it is. *)
Definition legible (v : string) : Prop := line_name v /\ v ∉ worker_headers.
#[export] Instance legible_dec v : Decision (legible v).
Proof. unfold legible, line_name. apply _. Defined.

Lemma not_empty_legible v : legible v -> not_empty (trim <$> Some v) = Some v.
Proof.
  intros [(Hne & _ & _ & Ht) _]. simpl. rewrite Ht. unfold not_empty, option_filter.
  by destruct v.
Qed.

Lemma all_chars_no p d s : all_chars p s = true -> p d = false -> contains_char d s = false.
Proof.
  intros Hs Hd. induction s as [|c s IH]; [done|]. simpl in *. apply andb_true_iff in Hs as [Hc Hs].
  case_decide; [congruence|by apply IH].
Qed.

Lemma pretty_legible (n : Z) : (0 <= n <= u64_max)%Z -> legible (pretty n).
Proof.
  intros Hn. destruct (pretty_reads n u64_max Hn) as (Hd & Hne & _). split; [split_and!|].
  - done.
  - by apply (all_chars_no is_digit).
  - by apply (all_chars_no is_digit).
  - apply trim_solid. by apply (all_chars_impl _ _ _ digit_solid).
  - unfold worker_headers. rewrite !not_elem_of_cons.
    split_and!; [..|apply not_elem_of_nil]; intros Heq; by rewrite Heq in Hd.
Qed.

(** What an entry publishes: its file, its size and its digest. *)
Record publication := mkPublication {
  pub_entry : PackageEntry;
  pub_desc : Desc;
  pub_csize : Z
}.
Definition pub_name (u : publication) : string := desc_filename (pub_desc u).
Definition pub_row (u : publication) : RepoDbEntry :=
  mkRepoDbEntry (pub_csize u) (desc_sha256sum (pub_desc u)).

Record published (u : publication) : Prop := {
  pub_dir : simple_dir (dir_name (pub_entry u));
  pub_text : pe_desc (pub_entry u) = desc_to_string (pub_desc u);
  pub_name_legible : legible (pub_name u);
  pub_sha_legible : legible (desc_sha256sum (pub_desc u));
  pub_size_range : (0 <= pub_csize u <= u64_max)%Z;
  pub_size_text : desc_csize (pub_desc u) = pretty (pub_csize u);
  pub_unobtrusive : Forall unobtrusive (desc_rest (pub_desc u))
}.

Lemma desc_field_filename v f : legible v ->
  desc_field "%FILENAME%" (Some v) f = mkDescFields (Some v) (df_csize f) (df_sha256 f).
Proof. intros Hv. unfold desc_field. rewrite decide_True by done. by rewrite not_empty_legible. Qed.

Lemma desc_field_sha v f : legible v ->
  desc_field "%SHA256SUM%" (Some v) f = mkDescFields (df_filename f) (df_csize f) (Some v).
Proof.
  intros Hv. unfold desc_field. rewrite !(decide_False (P := "%SHA256SUM%" = _)) by done.
  rewrite decide_True by done. by rewrite not_empty_legible.
Qed.

Lemma desc_field_csize n f : (0 <= n <= u64_max)%Z ->
  desc_field "%CSIZE%" (Some (pretty n)) f = mkDescFields (df_filename f) (Some n) (df_sha256 f).
Proof.
  intros Hn. destruct (pretty_legible n Hn) as [(_ & _ & _ & Ht) _].
  destruct (pretty_reads n u64_max Hn) as (_ & _ & Hp). unfold desc_field.
  rewrite decide_False by done. rewrite decide_True by done. cbn [fmap option_fmap option_map mbind option_bind].
  by rewrite !Ht, Hp.
Qed.

Lemma desc_reads_back u :
  published u -> parse_desc (pe_desc (pub_entry u)) = Some (pub_name u, pub_row u).
Proof.
  intros [_ -> Hf Hs Hn Hc Hu]. unfold pub_name, pub_row in *. set (d := pub_desc u) in *.
  set (n := pub_csize u) in *. set (rest := desc_rest d) in Hu.
  assert (desc_to_string d =
    write_section ("filename", inl (desc_filename d)) +:+ text_of (take 5 rest)
      (write_section ("csize", inl (desc_csize d)) +:+ text_of (take 2 (drop 6 rest))
        (write_section ("sha256sum", inl (desc_sha256sum d)) +:+ text_of (drop 9 rest) ""))) as -> by done.
  unfold parse_desc. set (f := desc_fields _ _).
  assert (f = mkDescFields (Some (desc_filename d)) (Some n) (Some (desc_sha256sum d))) as ->; [|done].
  pose proof (pretty_legible n Hn) as Hp. unfold f. clear f.
  rewrite desc_fields_line by (first [left|apply Hf]). change ("%" +:+ to_uppercase "filename" +:+ "%") with "%FILENAME%".
  rewrite desc_fields_sections; [|by apply Forall_take|by apply (bool_decide_unpack _)].
  rewrite Hc, desc_fields_line by (first [by apply (bool_decide_unpack _)|apply Hp]).
  change ("%" +:+ to_uppercase "csize" +:+ "%") with "%CSIZE%".
  rewrite desc_fields_sections; [|by apply Forall_take, Forall_drop|by apply (bool_decide_unpack _)].
  rewrite desc_fields_line by (first [by apply (bool_decide_unpack _)|apply Hs]).
  change ("%" +:+ to_uppercase "sha256sum" +:+ "%") with "%SHA256SUM%".
  rewrite desc_fields_sections; [|by apply Forall_drop|by apply (bool_decide_unpack _)].
  by rewrite desc_field_filename, desc_field_csize, desc_field_sha.
Qed.

Lemma parse_db_members out u :
  published u -> foldl parse_member out (db_members (pub_entry u)) = <[pub_name u := pub_row u]> out.
Proof.
  intros Hu. pose proof (pub_dir u Hu) as Hd.
  assert (is_desc (dir_name (pub_entry u) +:+ "/" +:+ "desc")) as Hin.
  { split; [by rewrite components_file|by apply file_name_in]. }
  assert (~ is_desc (dir_name (pub_entry u))) as Hout by (intros [Hl _]; by rewrite components_simple in Hl).
  unfold db_members, append_dir, append_file, parse_member. cbn [app foldl m_path m_content].
  rewrite (decide_False (P := is_desc (dir_name (pub_entry u)))) by done.
  rewrite decide_True by exact Hin. by rewrite desc_reads_back.
Qed.

(** C34. What the server publishes is what a worker checks against: of a database
    written from entries whose names, sizes and digests are single lines and none of
    whose other lines reads as one of the headers, a worker reads exactly the files
    named, each with the size and the digest the server recorded - the last, where two
    entries name one file. *)
Theorem worker_reads_what_is_published l name :
  Forall published l ->
  parse_repo_db ((pub_entry <$> l) ≫= db_members) !! name =
    pub_row <$> last (filter (fun u => pub_name u = name) l).
Proof.
  intros Hl. unfold parse_repo_db. induction l as [|u l IH] using rev_ind; [done|].
  apply Forall_app in Hl as [Hl [Hu _]%Forall_cons].
  rewrite fmap_app, bind_app, foldl_app, filter_app. cbn [fmap list_fmap mbind list_bind].
  rewrite app_nil_r, parse_db_members by done. rewrite filter_cons, filter_nil.
  destruct (decide (pub_name u = name)) as [->|Hne].
  - by rewrite lookup_insert_eq, last_snoc.
  - rewrite lookup_insert_ne, app_nil_r by done. by apply IH.
Qed.

(** ** Example *)

Definition demo_publication : publication :=
  let d := mkDesc "hello-1.0-1-x86_64.pkg.tar.zst" "00" "42" "ab12" Pkginfo_new in
  mkPublication (mkEntry (desc_filename d) "hello-1.0-1" (desc_to_string d) "") d 42.

Lemma demo_published : published demo_publication.
Proof. split; try done; apply (bool_decide_unpack _); vm_compute; exact I. Qed.

Lemma worker_reads_what_is_published_witness :
  parse_repo_db ([pub_entry demo_publication] ≫= db_members) !! "hello-1.0-1-x86_64.pkg.tar.zst" =
    Some (mkRepoDbEntry 42 "ab12").
Proof.
  apply (worker_reads_what_is_published [demo_publication] "hello-1.0-1-x86_64.pkg.tar.zst").
  apply Forall_singleton, demo_published.
Defined.
