(* ===== verification/System.v ===== *)
(** * The server as a whole

    The parts that share the database and the repository, run together: any number
    of tasks, each between two of its statements or operations whenever another
    runs. A task acts on builds it read some time ago ([s_hand]); a connection may
    fail at any statement, a file operation at any point, and the process may stop
    anywhere. What holds then holds of every interleaving. *)
From S2P Require Import Prelude Text BuildState Sql Schema Version Lists BuildStatus.
From S2P Require Import Invariant Fixtures BuildEnqueue WorkerJobs Claim Leases Effects Completion.
From S2P Require Import CompletionSpec Dependents Cancel PkgFile PkgDb RepoFiles RepoStage.
From S2P Require Import Repository Publish FirstBuilds.
#[local] Open Scope string_scope.
#[local] Open Scope list_scope.

(** ** Recording, from any reading *)

(** The statements on [files] leave everything else. *)
Definition files_only (d d' : database) : Prop :=
  t_builds d' = t_builds d /\ t_packages d' = t_packages d /\ t_workers d' = t_workers d /\
  t_dependencies d' = t_dependencies d /\ next_build_id d' = next_build_id d.

#[export] Instance files_only_preorder : PreOrder files_only.
Proof. split; [done|]. intros a b c (?&?&?&?&?) (?&?&?&?&?). unfold files_only. split_and!; congruence. Qed.

Lemma files_only_inv pkg_id d d' : files_only d d' -> Inv_except pkg_id d -> Inv_except pkg_id d'.
Proof.
  destruct d, d'. unfold files_only. simpl. intros (-> & -> & -> & -> & ->) [[Hi Hp Ho Hf Hw] Hl Hs].
  split; [by split|exact Hl|exact Hs].
Qed.

Lemma files_only_grows d d1 d' : files_only d1 d' -> grows d d1 -> grows d d'.
Proof. intros (Hb & _ & _ & _ & Hn) [N B F]. split; rewrite ?Hb, ?Hn; done. Qed.

Lemma run_bind_ok {D E A B} (f : A -> Sql D E B) (m : Sql D E A) `{!Steady m} d b d' :
  run (mbind f m) d = (Ok b, d') ->
  exists a d1, run m d = (Ok a, d1) /\ run (f a) d1 = (Ok b, d').
Proof.
  unfold mbind, sql_mbind. rewrite run_bind by done.
  destruct (run m d) as [[a|e] d1]; intros Hr; [by eauto|done].
Qed.

#[export] Instance update_row_steady pkg row : Steady (update_row pkg row).
Proof. unfold update_row, update_file. destruct (fr_existing row); apply _. Qed.
#[export] Instance update_row_transparent pkg row : Transparent (update_row pkg row).
Proof. unfold update_row, update_file. destruct (fr_existing row); apply _. Qed.
#[export] Instance record_steady clock id pkg platform p : Steady (record clock id pkg platform p).
Proof. unfold record, insert_files, delete_files. sql_class. Qed.
#[export] Instance record_transparent clock id pkg platform p :
  Transparent (record clock id pkg platform p).
Proof. unfold record, insert_files, delete_files. sql_class. Qed.

Lemma insert_files_only rows d a d' : run (insert_files rows) d = (Ok a, d') -> files_only d d'.
Proof. unfold insert_files. rewrite run_statement. case_decide; intros [=]; by subst. Qed.

Lemma delete_files_only ids d a d' : run (delete_files ids) d = (Ok a, d') -> files_only d d'.
Proof. unfold delete_files. rewrite run_statement. intros [=]; by subst. Qed.

Lemma update_rows_only pkg rows d a d' :
  run (for_each (update_row pkg) rows) d = (Ok a, d') -> files_only d d'.
Proof.
  revert d; induction rows as [|row rows IH]; intros d; cbn [for_each].
  - unfold mret, sql_mret. rewrite run_ret. by intros [= _ <-].
  - intros (u & d1 & H1 & H2)%run_bind_ok; [|apply _]. apply IH in H2. etrans; [|exact H2].
    revert H1. unfold update_row, update_file. destruct (fr_existing row).
    + rewrite run_statement. case_decide; intros [=]; by subst.
    + unfold mret, sql_mret. rewrite run_ret. by intros [= _ <-].
Qed.

(** A committed recording keeps the invariant and marks its build recorded. *)
Lemma record_advances clock build pkg platform p d d' :
  Inv d -> known build d -> packages.id pkg = builds.pkg_id build ->
  run (record clock (builds.id build) pkg platform p) d = (Ok tt, d') ->
  Inv d' /\ grows d d' /\
  exists b, b ∈ t_builds d' /\ builds.id b = builds.id build /\ is_Some (builds.size b).
Proof.
  intros Hd Hk Hpkg. unfold record.
  set (guard := fun b => builds.id b = builds.id build /\ builds.status b = Publishing).
  intros (n & d1 & H1 & H)%run_bind_ok; [|apply _].
  case_decide as Hn; [done|].
  assert (good_write (packages.id pkg) (record_cols clock p) guard d) as Hgw.
  { split.
    - intros a Ha [Hid _]. rewrite Hpkg. by apply (known_pkg build d).
    - intros a Ha [_ Hst]. cbn. unfold in_progress. rewrite Hst. by intros ?.
    - intros a Ha [_ Hst]. unfold lifecycle_ok. cbn. rewrite Hst.
      intros (Hw & Hl & Hr & _). by split_and!.
    - intros a _ [_ Hst]. split; [cbn; by rewrite Hst|by eexists]. }
  pose proof (good_write_indexes _ _ guard d (wf_indexes _ (inv_wf d Hd)) Hgw) as Hi.
  rewrite run_update_builds in H1 by exact Hi. injection H1 as <- <-.
  set (d1 := with_builds (updated (record_cols clock p) guard (t_builds d)) d) in *.
  assert (Inv_except (packages.id pkg) d1) as Hd1 by (by apply good_write_except; [apply inv_except_of|]).
  assert (grows d d1) as Hg1 by (apply grows_updated, Hgw).
  apply run_bind_ok in H as (u2 & d2 & H2 & H); [|unfold insert_files; sql_class].
  assert (files_only d1 d2) as F2.
  { revert H2. clear. case_decide; [|apply insert_files_only].
    unfold mret, sql_mret. rewrite run_ret. by intros [= _ <-]. }
  apply run_bind_ok in H as (u3 & d3 & H3%update_rows_only & H); [|apply _].
  apply run_bind_ok in H as (u4 & d4 & H4 & H); [|unfold delete_files; sql_class].
  assert (files_only d3 d4) as F4.
  { revert H4. clear. case_decide; [|apply delete_files_only].
    unfold mret, sql_mret. rewrite run_ret. by intros [= _ <-]. }
  assert (files_only d1 d4) as F by (etrans; [exact F2|by etrans]).
  apply run_bind_ok in H as (u5 & d5 & H5 & H); [|apply _].
  rewrite run_update_packages in H5. injection H5 as _ <-. rewrite run_refresh in H.
  injection H as <-. split_and!.
  - apply inv_refresh, inv_packages; [by intros []..|]. by apply (files_only_inv _ d1).
  - apply grows_refreshed. destruct (files_only_grows d d1 d4 F Hg1). by split.
  - rewrite refreshed_builds. cbn. destruct F as (-> & _). cbn.
    destruct (filter guard (t_builds d)) as [|b l] eqn:Hf; [done|].
    assert (b ∈ filter guard (t_builds d)) as [[Hid Hst] Hb]%list_elem_of_filter by (rewrite Hf; left).
    exists (builds.assign (record_cols clock p) b). split_and!; [|done|by eexists].
    apply elem_of_updated. exists b. split; [done|]. by rewrite decide_True.
Qed.

(** ** The steps *)

Record server := Server {
  s_repo : repo;
  s_trace : list Effect;
  s_hand : list builds.Model
}.

Definition s_db (s : server) : database := r_db (s_repo s).
Definition s_world (s : server) : world := World (s_db s) (s_trace s).

(** The build has been read as recorded: a task that settles right after its own
    commit acts on what it has just written, which is one reading more. *)
Definition seen_recorded (hand : list builds.Model) (build : builds.Model) : Prop :=
  exists b, b ∈ hand /\ builds.id b = builds.id build /\ recorded b = true.

Section server.
Context `{Alpm} (hash_order : gmap Z (list dependencies.Model) -> list (Z * list dependencies.Model)).
Context (root : path).

(** The operations of the helpers and of [publish.rs] on the database alone, with
    any arguments; those given a build are given one that was read. *)
Inductive queue_op (hand : list builds.Model) : forall A, DB A -> Prop :=
| op_claim w now cp : queue_op hand _ (claim_job w now cp)
| op_heartbeat clock now w ids lease_ttl n : queue_op hand _ (heartbeat clock now w ids lease_ttl n)
| op_revoke clock w n : queue_op hand _ (abandon_worker_builds clock w n)
| op_reap clock now n ages : queue_op hand _ (reap_expired_builds clock now n ages)
| op_enqueue pkg_id platform version start_time pending trigger :
    queue_op hand _ (enqueue_build_if_missing pkg_id platform version start_time pending trigger)
| op_promote pkg_id platform : queue_op hand _ (promote_waiting_build pkg_id platform)
| op_demote pkg_id platform : queue_op hand _ (demote_enqueued_build pkg_id platform)
| op_trigger pkg_id platform : queue_op hand _ (trigger_dependents hash_order pkg_id platform)
| op_resync pkg_id : queue_op hand _ (resync_pending_builds pkg_id)
| op_settle build : build ∈ hand -> seen_recorded hand build -> queue_op hand _ (settle build)
| op_fail clock build : build ∈ hand -> queue_op hand _ (fail clock build).

(** Those that also announce, log or start work. *)
Inductive server_op (hand : list builds.Model) : forall E A, Sql world E A -> Prop :=
| op_on_db {A} (m : DB A) : queue_op hand A m -> server_op hand _ _ (on_db m)
| op_complete clock n w name ar an id report :
    server_op hand _ _ (Completion.complete clock n w name ar an id report)
| op_startup_scan clock : server_op hand _ _ (enqueue_missing_buildable_packages clock)
| op_initial clock platforms pkgbases :
    server_op hand _ _ (trigger_initial_builds clock platforms pkgbases)
| op_cancel clock answer pkgbase build :
    build ∈ hand -> server_op hand _ _ (cancel_build clock answer pkgbase build)
| op_delete pkgbase build :
    build ∈ hand -> server_op hand _ _ (Completion.delete_build pkgbase build).

Definition after_op (s : server) (w : world) : server :=
  Server (Repo (w_db w) (r_plan (s_repo s)) (r_disk (s_repo s)) (r_retired (s_repo s))) (w_trace w)
    (s_hand s).

(** What the repository does besides publishing. *)
Inductive upkeep : repo -> repo -> Prop :=
| up_recover reads env s : upkeep s (recover reads env s).2
| up_sweep now grace reads env dirs io s : upkeep s (sweep root now grace reads env dirs io s).2
| up_staging s d :
    (forall p, ~ (root ++ [".staging"] `prefix_of` p) \/ p ∈ (source <$> pending s) ->
       d_files d !! p = r_files s !! p) ->
    upkeep s (with_disk s d)
| up_restart s : upkeep s (Repo (r_db s) (r_plan s) (r_disk s) ∅).

(** Other parts of the server write workers, edges and files. *)
Definition elsewhere (d d' : database) : Prop :=
  t_builds d' = t_builds d /\ t_packages d' = t_packages d /\ next_build_id d' = next_build_id d /\
  NoDup (workers.id <$> t_workers d').

Inductive server_step : server -> server -> Prop :=
| srv_read b s :
    b ∈ t_builds (s_db s) -> server_step s (Server (s_repo s) (s_trace s) (b :: s_hand s))
| srv_op {E A} (m : Sql world E A) left s :
    server_op (s_hand s) E A m -> server_step s (after_op s (o_db (m left (s_world s))))
| srv_publish clock build pkg platform p c env s :
    build ∈ s_hand s -> packages.id pkg = builds.pkg_id build ->
    changes_ok c -> r_plan (s_repo s) = None ->
    server_step s
      (Server (commit (record clock (builds.id build) pkg platform p) root c env (s_repo s)).2
         (s_trace s) (s_hand s))
| srv_upkeep r' s : upkeep (s_repo s) r' -> server_step s (Server r' (s_trace s) (s_hand s))
| srv_elsewhere d s :
    elsewhere (s_db s) d -> server_step s (after_op s (World d (s_trace s))).

(** A reading is of a build that was: whatever that build is now, it has become
    since. *)
Definition followed (d : database) (b : builds.Model) : Prop :=
  (builds.id b < next_build_id d)%Z /\
  forall a, a ∈ t_builds d -> builds.id a = builds.id b -> became b a.

Record server_ok (s : server) : Prop := {
  so_inv : Inv (s_db s);
  so_repo : repo_ok root (s_repo s);
  so_hand : Forall (followed (s_db s)) (s_hand s)
}.

Lemma followed_known d b : followed d b -> known b d.
Proof. intros [Hlt Hb]. split; [done|]. intros a Ha Hid. by destruct (Hb a Ha Hid) as [(_ & ? & ?) _]. Qed.

Lemma followed_elem d b : wf d -> b ∈ t_builds d -> followed d b.
Proof.
  intros Hwf Hb. split.
  - by apply (proj1 (Forall_forall _ _) (wf_fresh _ Hwf)).
  - intros a Ha Hid. by rewrite (ids_inj (t_builds d) a b (ids_unique _ (wf_indexes _ Hwf)) Ha Hb Hid).
Qed.

Lemma followed_grows d d' b : grows d d' -> followed d b -> followed d' b.
Proof.
  intros [Hn Hg _] [Hlt Hb]. split; [lia|]. intros a Ha Hid.
  destruct (Hg a Ha) as (c & Hc & Hca); [lia|]. etrans; [|exact Hca]. apply (Hb c Hc).
  destruct Hca as ((Heq & _) & _). congruence.
Qed.

Lemma hand_knows s : server_ok s -> knows (s_hand s) (s_db s).
Proof.
  intros [Hd _ Hh]. split; [done|]. eapply Forall_impl; [exact Hh|]. apply followed_known.
Qed.

Lemma hand_recorded s build b :
  server_ok s -> seen_recorded (s_hand s) build ->
  b ∈ t_builds (s_db s) -> builds.id b = builds.id build -> is_Some (builds.size b).
Proof.
  intros [_ _ Hh] (h & Hin & Hid & Hr%bool_decide_eq_true) Hb Hbid.
  rewrite Forall_forall in Hh. destruct (Hh h Hin) as [_ Hf].
  destruct (Hf b Hb) as [_ [_ Hs]]; [congruence|auto].
Qed.

(** ** Every step keeps what must hold *)

Lemma queue_op_advances s A (m : DB A) left :
  server_ok s -> queue_op (s_hand s) A m -> advances (s_db s) (o_db (m left (s_db s))).
Proof.
  intros Hs Hop. pose proof (hand_knows s Hs) as [Hd Hk]. rewrite Forall_forall in Hk.
  destruct Hop as [| | | | | | | | |build Hin Hrec|clock build Hin]; eapply proj1.
  - by apply triple_claim.
  - by apply triple_heartbeat.
  - by apply triple_abandon_worker.
  - by apply triple_reap.
  - by apply triple_enqueue.
  - by apply triple_promote.
  - by apply triple_demote.
  - by apply triple_trigger_dependents.
  - by apply triple_resync.
  - apply (triple_transition (fun d => d = s_db s) build [Publishing] Successful [] (fun _ => True));
      [|done].
    intros d ->. split; [done|]. apply settle_good; [by apply Hk|].
    intros b. by apply hand_recorded.
  - apply (triple_transition (fun d => d = s_db s) build [Publishing] Failed
      [builds.Set_end_time (Some clock)] (fun _ => True)); [|done].
    intros d ->. split; [done|]. apply fail_good. by apply Hk.
Qed.

(** Cancelling and deleting keep what was read, whatever they answer. *)
Lemma cancel_keeps clock answer pkgbase build :
  w_keeps (knows [build]) (cancel_build clock answer pkgbase build).
Proof.
  apply keeps_bind; [apply keeps_db_known, triple_cancel|]. intros moved.
  case_decide; [apply keeps_ret|]. apply keeps_bind; [apply keeps_append|]. intros. apply keeps_ret.
Qed.

Lemma delete_keeps pkgbase build : w_keeps (knows [build]) (Completion.delete_build pkgbase build).
Proof.
  unfold Completion.delete_build. case_decide; [apply keeps_ret|].
  apply keeps_bind; [apply keeps_db_known, triple_delete|]. intros u.
  apply keeps_bind; [apply keeps_effect|]. intros. apply keeps_ret.
Qed.

Lemma server_op_advances s E A (m : Sql world E A) left :
  server_ok s -> server_op (s_hand s) E A m ->
  advances (s_db s) (w_db (o_db (m left (s_world s)))).
Proof.
  intros Hs Hop. pose proof (hand_knows s Hs) as [Hd Hk]. rewrite Forall_forall in Hk.
  assert (forall build, build ∈ s_hand s -> knows [build] (s_db s)) as Hkn
    by (intros build Hin; apply knows_one; auto).
  assert (knows [] (s_db s)) as Hk0 by (by split).
  destruct Hop as [A m Hop|clock n w name ar an id report|clock|clock platforms pkgbases
    |clock answer pkgbase build Hin|pkgbase build Hin].
  - exact (queue_op_advances s A m left Hs Hop).
  - exact (proj1 (triple_complete clock n w name ar an id report left (s_world s) Hd)).
  - exact (proj1 (scan_keeps clock left (s_world s) Hk0)).
  - exact (proj1 (initial_keeps clock platforms pkgbases left (s_world s) Hk0)).
  - exact (proj1 (cancel_keeps clock answer pkgbase build left (s_world s) (Hkn build Hin))).
  - exact (proj1 (delete_keeps pkgbase build left (s_world s) (Hkn build Hin))).
Qed.

Lemma publish_advances clock build pkg platform p c env s :
  server_ok s -> build ∈ s_hand s -> packages.id pkg = builds.pkg_id build -> changes_ok c ->
  r_plan (s_repo s) = None ->
  advances (s_db s) (r_db (commit (record clock (builds.id build) pkg platform p) root c env (s_repo s)).2).
Proof.
  intros Hs Hin Hpkg Hc Hplan. pose proof (hand_knows s Hs) as [Hd Hk]. rewrite Forall_forall in Hk.
  assert (forall a d', run (record clock (builds.id build) pkg platform p) (s_db s) = (Ok a, d') ->
    advances (s_db s) d') as Hrec.
  { intros [] d' Hrun _. by destruct (record_advances clock build pkg platform p _ d' Hd (Hk _ Hin) Hpkg Hrun)
      as (? & ? & _). }
  destruct (commit_spec (record clock (builds.id build) pkg platform p) root c env (s_repo s) Hc Hplan)
    as [a s' plan Hrun|e s' Heq|s' Heq|a s' plan k Hrun]; [by eapply Hrec| | |by eapply Hrec].
  all: rewrite Heq; reflexivity.
Qed.

Lemma upkeep_ok r r' : upkeep r r' -> repo_ok root r -> repo_ok root r' /\ r_db r' = r_db r.
Proof.
  intros Hup Hr. destruct Hup as [reads env r|now grace reads env dirs io r|r d Ha|r].
  - split; [by apply recover_ok|apply recover_db].
  - split; [by apply sweep_ok|]. apply sweep_db.
  - split; [by apply staging_ok|done].
  - split; [by destruct Hr|done].
Qed.

Lemma elsewhere_advances d d' : elsewhere d d' -> advances d d'.
Proof.
  destruct d, d'. unfold elsewhere. simpl. intros (-> & -> & -> & Hw) [[Hi Hp Ho Hf _] Hl Hs].
  split; [split; [by split|exact Hl|exact Hs]|].
  split; simpl; [lia| |done]. intros a Ha _. by exists a.
Qed.

(** The database of a step advances; its repository stays well formed. *)
Lemma server_step_ok s s' :
  server_ok s -> server_step s s' -> server_ok s' /\ advances (s_db s) (s_db s').
Proof.
  intros Hs Hstep. pose proof Hs as [Hd Hr Hh].
  assert (advances (s_db s) (s_db s') /\ repo_ok root (s_repo s') /\
    Forall (followed (s_db s)) (s_hand s')) as (Ha & Hr' & Hh').
  { destruct Hstep as [b s Hb|E A m left s Hop|clock build pkg platform p c env s Hin Hpkg Hc Hplan
      |r' s Hup|d s He]; cbn [s_repo s_hand].
    - split_and!; [reflexivity|done|]. constructor; [|done]. by apply followed_elem; [apply Hd|].
    - split_and!; [by eapply server_op_advances|by destruct Hr|done].
    - split_and!; [by apply publish_advances|by apply commit_ok; [apply _..| | |]|done].
    - destruct (upkeep_ok _ _ Hup Hr) as [Hr' Hdb]. split_and!; [|done|done].
      unfold s_db. cbn. rewrite Hdb. reflexivity.
    - split_and!; [by apply elsewhere_advances|by destruct Hr|done]. }
  destruct (Ha Hd) as [Hd' Hg]. split; [|done]. split; [done..|].
  eapply Forall_impl; [exact Hh'|]. intros b. by apply followed_grows.
Qed.

Lemma server_steps_ok s s' :
  server_ok s -> rtc server_step s s' -> server_ok s' /\ advances (s_db s) (s_db s').
Proof.
  intros Hs Hsteps. revert Hs. induction Hsteps as [s|s s1 s2 Hstep Hsteps IH]; intros Hs.
  - split; [done|reflexivity].
  - destruct (server_step_ok s s1 Hs Hstep) as [Hs1 Ha1]. destruct (IH Hs1) as [Hs2 Ha2].
    split; [done|by etrans].
Qed.
End server.

(** ** Properties *)



(** [w1] claims [hello], someone reads the build, [w1] fails to report it, and the
    operator cancels what they read. *)
Definition demo_server : server := Server demo_repo [] [].
Definition demo_hash : gmap Z (list dependencies.Model) -> list (Z * list dependencies.Model) :=
  map_to_list.
Definition demo_claimed_server : server :=
  after_op demo_server (o_db (on_db (claim_job 1 1000 demo_params) None (s_world demo_server))).
Definition demo_claimed : builds.Model := claimed_row 1 1000 demo_params demo_queued.
Definition demo_read_server : server :=
  Server (s_repo demo_claimed_server) (s_trace demo_claimed_server) [demo_claimed].
Definition demo_cancelled_server : server :=
  after_op demo_read_server
    (o_db (cancel_build 1010 (Ok tt) "hello" demo_claimed None (s_world demo_read_server))).

Lemma demo_server_ok : server_ok demo_root demo_server.
Proof. split; [apply demo_inv|exact demo_repo_ok|by constructor]. Qed.

Lemma demo_steps : rtc (server_step (H := demo_alpm) demo_hash demo_root) demo_server demo_cancelled_server.
Proof.
  eapply rtc_l. { apply srv_op, op_on_db, (op_claim demo_hash [] 1 1000 demo_params). }
  eapply rtc_l.
  { apply (srv_read _ _ demo_claimed demo_claimed_server).
    apply (bool_decide_unpack _). vm_compute. exact I. }
  apply rtc_once.
  apply (srv_op _ _ (cancel_build 1010 (Ok tt) "hello" demo_claimed) None demo_read_server).
  apply op_cancel. left.
Qed.


