(* ===== verification/Life.v ===== *)
(** * The life of builds, abstractly

    What the whole server promises about builds, without its database: a farm of
    builds, each born once under a number of its own, moving along the edges below
    until it ends, recorded at most once in the repository, perhaps forgotten. The
    server refines it: however its tasks interleave, what an observer sees of the
    builds is a run of this machine. *)
From S2P Require Import Prelude BuildState Schema Version Lists BuildStatus Invariant.
From S2P Require Import Fixtures RepoFiles Repository System.

(** ** The machine *)

Record life := mkLife {
  l_number : Z * Z;
  l_slot : Z * Platform;
  l_state : BuildState;
  l_recorded : bool
}.

(** Promoting, demoting, claiming, publishing and the ways to end. *)
Inductive edge : BuildState -> BuildState -> Prop :=
| edge_promote : edge WaitingForDeps Enqueued
| edge_demote : edge Enqueued WaitingForDeps
| edge_claim : edge Enqueued Active
| edge_publish : edge Active Publishing
| edge_succeed : edge Publishing Successful
| edge_cancel_waiting : edge WaitingForDeps Failed
| edge_cancel_queued : edge Enqueued Failed
| edge_fail_running : edge Active Failed
| edge_fail_publishing : edge Publishing Failed.

Definition busy (l : life) : Prop := l_state l ∈ IN_PROGRESS.
#[export] Instance busy_dec l : Decision (busy l).
Proof. unfold busy. apply _. Defined.

(** The builds, and the first id never given out. *)
Record farm := Farm {
  f_next : Z;
  f_builds : gmap Z life
}.

(** A birth is of the first free id or a later one - an insert that was rolled back
    burns its own -, under a number its package has not used, and into a slot that is
    free unless the build has already ended when it is first seen. *)
Inductive farm_step : farm -> farm -> Prop :=
| farm_birth i l f :
    (f_next f <= i)%Z ->
    (forall j k, f_builds f !! j = Some k -> l_number k <> l_number l) ->
    (busy l -> forall j k, f_builds f !! j = Some k -> busy k -> l_slot k <> l_slot l) ->
    farm_step f (Farm (i + 1) (<[i := l]> (f_builds f)))
| farm_move i l t f :
    f_builds f !! i = Some l -> edge (l_state l) t ->
    farm_step f (Farm (f_next f) (<[i := mkLife (l_number l) (l_slot l) t (l_recorded l)]> (f_builds f)))
| farm_record i l f :
    f_builds f !! i = Some l ->
    farm_step f (Farm (f_next f) (<[i := mkLife (l_number l) (l_slot l) (l_state l) true]> (f_builds f)))
| farm_forget i f : farm_step f (Farm (f_next f) (delete i (f_builds f)))
| farm_burn f : farm_step f (Farm (f_next f + 1) (f_builds f)).

(** ** What the server shows of itself *)

Definition life_of (b : builds.Model) : life :=
  mkLife (number_key b) (slot_key b) (builds.status b) (bool_decide (is_Some (builds.size b))).
Definition farm_of (d : database) : farm :=
  Farm (next_build_id d) (list_to_map ((fun b => (builds.id b, life_of b)) <$> t_builds d)).

(** ** From one reading to the next *)

(** One build's entry between two readings. *)
Definition lived (o o' : option life) : Prop :=
  o' = o \/ o' = None \/
  exists l l', o = Some l /\ o' = Some l' /\ l_number l' = l_number l /\ l_slot l' = l_slot l /\
    may_become (l_state l) (l_state l') = true /\ (l_recorded l = true -> l_recorded l' = true).

Lemma may_become_edges s t : may_become s t = true -> rtc edge s t.
Proof.
  assert (rtc edge Active Publishing) as HAP by (apply rtc_once; constructor).
  assert (rtc edge Publishing Successful) as HPS by (apply rtc_once; constructor).
  assert (rtc edge Enqueued Active) as HEA by (apply rtc_once; constructor).
  assert (rtc edge WaitingForDeps Enqueued) as HWE by (apply rtc_once; constructor).
  destruct s, t; intros Hm; first [done|reflexivity|by apply rtc_once; constructor|idtac];
    repeat first [done | etrans; [first [exact HWE|exact HEA|exact HAP]|]].
Qed.

Lemma moves_steps next m i l s t :
  rtc edge s t -> m !! i = Some (mkLife (l_number l) (l_slot l) s (l_recorded l)) ->
  rtc farm_step (Farm next m) (Farm next (<[i := mkLife (l_number l) (l_slot l) t (l_recorded l)]> m)).
Proof.
  intros Hst. revert m. induction Hst as [s|s u t Hsu _ IH]; intros m Hi.
  - by rewrite insert_id.
  - eapply rtc_l; [by apply (farm_move i _ u (Farm next m) Hi)|]. simpl.
    etrans; [apply IH, lookup_insert_eq|]. by rewrite insert_insert_eq.
Qed.

(** One entry at a time, whatever the others are. *)
Lemma lived_steps next m i o :
  lived (m !! i) o -> rtc farm_step (Farm next m) (Farm next (partial_alter (fun _ => o) i m)).
Proof.
  intros [->|[->|(l & l' & Hl & -> & Hn & Hs & Hm & Hr)]].
  - rewrite partial_alter_self. reflexivity.
  - apply rtc_once, (farm_forget i (Farm next m)).
  - change (partial_alter (fun _ => Some l') i m) with (<[i := l']> m). destruct l as [n sl s r], l' as [n' sl' t r'].
    simpl in *. subst n' sl'. apply may_become_edges in Hm.
    etrans; [apply (moves_steps next m i (mkLife n sl s r) s t Hm Hl)|]. simpl.
    destruct (decide (r = r')) as [->|Hne]; [reflexivity|].
    assert (r' = true) as -> by (destruct r, r'; naive_solver).
    pose proof (farm_record i (mkLife n sl t r) (Farm next (<[i := mkLife n sl t r]> m)) (lookup_insert_eq _ _ _)) as Hst.
    simpl in Hst. rewrite insert_insert_eq in Hst. by apply rtc_once.
Qed.

Lemma survivors_steps next (m m' : gmap Z life) ks :
  NoDup ks -> (forall i, i ∉ ks -> m !! i = m' !! i) -> (forall i, i ∈ ks -> lived (m !! i) (m' !! i)) ->
  rtc farm_step (Farm next m) (Farm next m').
Proof.
  intros Hnd. revert m. induction Hnd as [|k ks Hk Hnd IH]; intros m Hout Hin.
  { assert (m = m') as ->; [|reflexivity]. apply map_eq. intros i. apply Hout, not_elem_of_nil. }
  etrans; [apply (lived_steps next m k (m' !! k)), Hin; left|]. apply IH.
  - intros i Hi. destruct (decide (i = k)) as [->|Hne].
    + by rewrite lookup_partial_alter_eq.
    + rewrite lookup_partial_alter_ne by done. apply Hout. rewrite elem_of_cons. tauto.
  - intros i Hi. rewrite lookup_partial_alter_ne by (by intros ->). apply Hin. by right.
Qed.

(** What must hold of the builds of any reading. *)
Definition exclusive (m : gmap Z life) : Prop :=
  (forall i j k l, m !! i = Some k -> m !! j = Some l -> l_number k = l_number l -> i = j) /\
  forall i j k l, m !! i = Some k -> m !! j = Some l -> busy k -> busy l -> l_slot k = l_slot l -> i = j.

Definition below (n : Z) (m : gmap Z life) : gmap Z life := filter (fun e => e.1 < n)%Z m.

Lemma below_step n (m : gmap Z life) :
  below (n + 1) m = match m !! n with Some l => <[n := l]> (below n m) | None => below n m end.
Proof.
  apply map_eq. intros i. apply option_eq. intros l. unfold below.
  rewrite map_lookup_filter_Some. cbn [fst]. destruct (m !! n) as [k|] eqn:Hn.
  - rewrite lookup_insert_Some, map_lookup_filter_Some. cbn [fst]. split.
    + intros [Hi Hlt]. destruct (decide (n = i)) as [->|Hne]; [left; split; [done|congruence]|right; split_and!; [done..|lia]].
    + intros [[<- <-]|(Hne & Hi & Hlt)]; (split; [done|lia]).
  - rewrite map_lookup_filter_Some. cbn [fst]. split; intros [Hi Hlt]; (split; [done|]); [|lia].
    destruct (decide (i = n)) as [->|]; [congruence|lia].
Qed.

Lemma births_steps (m : gmap Z life) n k :
  exclusive m -> rtc farm_step (Farm n (below n m)) (Farm (n + Z.of_nat k) (below (n + Z.of_nat k) m)).
Proof.
  intros [Hnum Hslot]. induction k as [|k IH]; [by rewrite Z.add_0_r|].
  etrans; [exact IH|]. replace (n + Z.of_nat (S k))%Z with (n + Z.of_nat k + 1)%Z by lia.
  set (i := (n + Z.of_nat k)%Z). rewrite below_step. destruct (m !! i) as [l|] eqn:Hl.
  - apply rtc_once, (farm_birth i l (Farm i (below i m))); simpl; [lia| |].
    + intros j x [Hj Hlt]%map_lookup_filter_Some Heq. simpl in Hlt.
      assert (j = i) by (by eapply Hnum). lia.
    + intros Hb j x [Hj Hlt]%map_lookup_filter_Some Hbx Heq. simpl in Hlt.
      assert (j = i) by (by eapply Hslot). lia.
  - apply rtc_once, (farm_burn (Farm i (below i m))).
Qed.

Lemma farm_steps next next' (m m' : gmap Z life) :
  (next <= next')%Z -> exclusive m' -> (forall i l, m' !! i = Some l -> i < next')%Z ->
  (forall i l, m !! i = Some l -> i < next)%Z ->
  (forall i, (i < next)%Z -> lived (m !! i) (m' !! i)) ->
  rtc farm_step (Farm next m) (Farm next' m').
Proof.
  intros Hle Hex Hb' Hb Hl. etrans.
  - apply (survivors_steps next m (below next m') (elements (dom m ∪ dom (below next m')))).
    + apply NoDup_elements.
    + intros i. rewrite elem_of_elements, not_elem_of_union, !not_elem_of_dom. by intros [-> ->].
    + intros i _. destruct (decide (i < next)%Z) as [Hi|Hi].
      * assert (below next m' !! i = m' !! i) as ->; [|by apply Hl].
        apply option_eq. intros l. unfold below. rewrite map_lookup_filter_Some. by split; [intros [? _]|].
      * right. left. unfold below. apply map_lookup_filter_None. right. intros l _. simpl. lia.
  - replace next' with (next + Z.of_nat (Z.to_nat (next' - next)))%Z by lia.
    assert (m' = below (next + Z.of_nat (Z.to_nat (next' - next))) m') as Heq.
    { symmetry. apply map_filter_id. intros i l Hi. apply Hb' in Hi. simpl. lia. }
    rewrite Heq at 2. by apply births_steps.
Qed.

(** ** The server refines the machine *)

Lemma lookup_farm d i l :
  Inv d -> f_builds (farm_of d) !! i = Some l <-> exists b, b ∈ t_builds d /\ builds.id b = i /\ l = life_of b.
Proof.
  intros Hd. simpl. rewrite <- elem_of_list_to_map.
  - rewrite list_elem_of_fmap. split; [intros (b & [= -> ->] & Hb); eauto|intros (b & Hb & <- & ->); eauto].
  - rewrite <- list_fmap_compose. apply (ids_unique _ (wf_indexes _ (inv_wf d Hd))).
Qed.

Lemma busy_life b : busy (life_of b) <-> in_progress b.
Proof. done. Qed.

Lemma farm_exclusive d : Inv d -> exclusive (f_builds (farm_of d)).
Proof.
  intros Hd. pose proof (wf_indexes _ (inv_wf d Hd)) as [Hi Hn Hp]. split.
  - intros i j k l (a & Ha & <- & ->)%lookup_farm (b & Hb & <- & ->)%lookup_farm Heq; [|done..].
    f_equal. by apply (NoDup_fmap_inj_elem number_key (t_builds d)).
  - intros i j k l (a & Ha & <- & ->)%lookup_farm (b & Hb & <- & ->)%lookup_farm Hba Hbb Heq; [|done..].
    f_equal. apply (NoDup_fmap_inj_elem slot_key (filter in_progress (t_builds d))); [done| | |done];
      by apply list_elem_of_filter.
Qed.

Lemma grows_farm d d' :
  Inv d -> Inv d' -> grows d d' -> rtc farm_step (farm_of d) (farm_of d').
Proof.
  intros Hd Hd' [Hn Hb _]. pose proof (wf_fresh _ (inv_wf d Hd)) as Hf. pose proof (wf_fresh _ (inv_wf d' Hd')) as Hf'.
  rewrite Forall_forall in Hf, Hf'.
  apply farm_steps; [done|by apply farm_exclusive| | |].
  - intros i l (b & Hbl & <- & ->)%(lookup_farm d'); [|done]. by apply Hf'.
  - intros i l (b & Hbl & <- & ->)%(lookup_farm d); [|done]. by apply Hf.
  - intros i Hi. destruct (f_builds (farm_of d') !! i) as [l'|] eqn:Hl'; [|by right; left].
    apply lookup_farm in Hl' as (a & Ha & <- & ->); [|done].
    destruct (Hb a Ha Hi) as (b & Hbb & (Hid & Hnum & Hsl) & Hm & Hr).
    right. right. exists (life_of b), (life_of a). split_and!; [| |exact Hnum|exact Hsl|exact Hm|].
    + apply lookup_farm; [done|]. exists b. by split_and!.
    + apply (lookup_farm d'); [done|]. exists a. by split_and!.
    + simpl. rewrite !bool_decide_eq_true. exact Hr.
Qed.


