(* ===== verification/Schedule.v ===== *)
(** * When scheduled jobs run

    [backend/aurcache-common/src/schedule.rs]: the five crontab fields as bit sets,
    Jenkins's [H] resolved by a hash, and the search for the next time a schedule
    runs. A [u64] set is its [Z]; arithmetic that wraps in a release build wraps
    here. The calendar ([jiff], built outside the repository) is the class
    [Calendar]. An error carries what its message is made of. *)
From stdpp Require Import pretty.
From Stdlib Require Import Ascii.
From S2P Require Import Prelude Text.
#[local] Open Scope string_scope.
#[local] Open Scope Z_scope.
#[local] Open Scope list_scope.

(** ** Machine integers *)

Definition u32_wrap (n : Z) : Z := n mod 4294967296.
Definition u64_wrap (n : Z) : Z := n mod 18446744073709551616.
Definition u32_max : Z := 4294967295.

(** ** Off *)

Definition NEVER : string := "@never".

Definition is_off (expr : string) : bool :=
  let expr := trim expr in
  is_empty expr || bool_decide (to_lowercase expr = to_lowercase NEVER).

(** ** The fields *)

Record Schedule := mkSchedule {
  minutes : Z;
  hours : Z;
  days : Z;
  months : Z;
  weekdays : Z;
  any_day : bool;
  any_weekday : bool
}.

Inductive ScheduleError :=
| UnknownShortcut (expr : string)
| BadItem (item field : string)
| SecondsFirst (expr : string) (equivalent : option string)
| WrongFieldCount (expr : string) (count : nat).

Record Field := mkField {
  f_name : string;
  f_min : Z;
  f_max : Z;
  f_hashed : Z * Z;
  f_names : list string
}.

Definition MINUTE : Field := mkField "minute" 0 59 (0, 59) [].
Definition HOUR : Field := mkField "hour" 0 23 (0, 23) [].
Definition DAY : Field := mkField "day of month" 1 31 (1, 28) [].
Definition MONTH : Field := mkField "month" 1 12 (1, 12)
  ["jan"; "feb"; "mar"; "apr"; "may"; "jun"; "jul"; "aug"; "sep"; "oct"; "nov"; "dec"].
Definition WEEKDAY : Field := mkField "day of week" 0 7 (0, 6)
  ["sun"; "mon"; "tue"; "wed"; "thu"; "fri"; "sat"].

(** ** The hash *)

(** FNV-1a over the instance, a zero byte and the job. *)
Definition fnv_step (hash : Z) (byte : Z) : Z :=
  u64_wrap (Z.lxor hash byte * 1099511628211).

Definition bytes_of (s : string) : list Z := (fun c => Z.of_N (N_of_ascii c)) <$> String.list_ascii_of_string s.

Definition job_seed (instance job : string) : Z :=
  foldl fnv_step 14695981039346656037 (bytes_of instance ++ [0] ++ bytes_of job).

(** splitmix64 *)
Definition mix (seed field : Z) : Z :=
  let z := u64_wrap (seed + u64_wrap (u64_wrap (field + 1) * 11400714819323198485)) in
  let z := u64_wrap (Z.lxor z (Z.shiftr z 30) * 13787848793156543929) in
  let z := u64_wrap (Z.lxor z (Z.shiftr z 27) * 10723151780598845931) in
  Z.lxor z (Z.shiftr z 31).

(** ** Parsing *)

(** [field.names.iter().position(|name| *name == lower)] *)
Fixpoint position (x : string) (l : list string) : option Z :=
  match l with
  | [] => None
  | y :: l => if decide (y = x) then Some 0 else Z.succ <$> position x l
  end.

Definition in_field (field : Field) (v : Z) : bool :=
  bool_decide (f_min field <= v <= f_max field).

Definition value (text : string) (field : Field) : option Z :=
  v ← match position (to_lowercase text) (f_names field) with
      | Some index => Some (index + Z.min (f_min field) 1 * (if decide (f_max field = 12) then 1 else 0))
      | None => parse_uint u32_max text
      end;
  if in_field field v then Some v else None.

(** The numbers [(from..=to).step_by(step)] gives. *)
Definition stepped (from to step : Z) : list Z :=
  (fun k => from + Z.of_nat k * step) <$> seq 0 (S (Z.to_nat ((to - from) / step))).

(** [.fold(0, |set, v| set | 1 << v)] *)
Definition bit_set (l : list Z) : Z := foldl (fun set v => Z.lor set (Z.shiftl 1 v)) 0 l.

(** The end of [parse_item], from a range and a step. *)
Definition range_set (from to : Z) (step : option Z) : option Z :=
  if decide (from > to) then None else Some (bit_set (stepped from to (default 1 step))).

(** The branch of [parse_item] that starts with [H], after the letter: what it picks
    from, then what it picks. *)
Definition hashed_range (hashed : string) (field : Field) : option (Z * Z) :=
  if is_empty hashed then Some (f_hashed field)
  else
    range ← strip_prefix "(" hashed;
    range ← strip_suffix ")" range;
    '(low, high) ← split_once "-" range;
    low ← value low field;
    high ← value high field;
    Some (low, high).

Definition hashed_item (hashed : string) (field : Field) (hash : Z) (step : option Z) : option Z :=
  '(low, high) ← hashed_range hashed field;
  if decide (low > high) then None
  else
    let span := default (high - low + 1) step in
    let offset := hash mod span in
    let first := u32_wrap (low + offset) in
    match step with
    | None => range_set first first step
    | Some _ => if decide (first > high) then Some 0 else range_set first high step
    end.

Definition strip_h (base : string) : option string :=
  match strip_prefix "H" base with Some rest => Some rest | None => strip_prefix "h" base end.

(** The item's base and its step. *)
Definition split_step (item : string) : option (string * option Z) :=
  match split_once "/" item with
  | Some (base, step) =>
      step ← parse_uint u32_max step;
      if decide (step > 0) then Some (base, Some step) else None
  | None => Some (item, None)
  end.

Definition parse_item (item : string) (field : Field) (hash : Z) : option Z :=
  '(base, step) ← split_step item;
  match strip_h base with
  | Some hashed => hashed_item hashed field hash step
  | None =>
      if decide (base = "*") then range_set (f_min field) (f_max field) step
      else
        match split_once "-" base with
        | Some (low, high) =>
            low ← value low field; high ← value high field; range_set low high step
        | None =>
            at_ ← value base field;
            range_set at_ (match step with Some _ => f_max field | None => at_ end) step
        end
  end.

(** The loop of [parse_field]. *)
Fixpoint parse_items (items : list string) (field : Field) (hash set : Z) : result ScheduleError Z :=
  match items with
  | [] => Ok set
  | item :: items =>
      match parse_item item field hash with
      | Some s => parse_items items field hash (Z.lor set s)
      | None => Err (BadItem item (f_name field))
      end
  end.

Definition parse_field (text : string) (field : Field) (hash : Z) : result ScheduleError Z :=
  parse_items (split "," text) field hash 0.

(** Sunday is both 0 and 7. *)
Definition fold_sunday (weekdays : Z) : Z :=
  if decide (Z.land weekdays 128 <> 0) then Z.lor (Z.ldiff weekdays 128) 1 else weekdays.

Definition shortcut (expr : string) : option string :=
  let lower := to_lowercase expr in
  if decide (lower = "@hourly") then Some "H * * * *"
  else if decide (lower = "@daily") then Some "H H * * *"
  else if decide (lower = "@midnight") then Some "H H(0-2) * * *"
  else if decide (lower = "@weekly") then Some "H H * * H"
  else if decide (lower = "@monthly") then Some "H H H * *"
  else if decide (lower ∈ ["@yearly"; "@annually"]) then Some "H H H H *"
  else None.

Definition parse_five (minute hour day month weekday : string) (seed : Z) :
    result ScheduleError Schedule :=
  w ← parse_field weekday WEEKDAY (mix seed 4);
  m ← parse_field minute MINUTE (mix seed 0);
  h ← parse_field hour HOUR (mix seed 1);
  d ← parse_field day DAY (mix seed 2);
  mo ← parse_field month MONTH (mix seed 3);
  Ok (mkSchedule m h d mo (fold_sunday w) (starts_with "*" day) (starts_with "*" weekday)).

(** ** The seconds-first syntax *)

Definition shift_part (part : string) : option string :=
  match parse_uint u32_max part with
  | Some n => if decide (1 <= n <= 7) then Some (pretty (n - 1)) else None
  | None => Some part
  end.

Definition shift_weekday (item : string) : option string :=
  let '(base, step) := match split_once "/" item with
                       | Some (base, step) => (base, Some step)
                       | None => (item, None)
                       end in
  base ← (if decide (base = "*") then Some base
          else match split_once "-" base with
               | Some (low, high) =>
                   low ← shift_part low; high ← shift_part high; Some (low +:+ "-" +:+ high)
               | None => shift_part base
               end);
  Some (match step with Some step => base +:+ "/" +:+ step | None => base end).

Definition any (field : string) : string := if decide (field = "?") then "*" else field.

(** [iter.map(f).collect::<Option<Vec<_>>>()] *)
Definition shift_weekdays (weekday : string) : option string :=
  if decide (weekday = "?") then Some "*"
  else join "," <$> mapM shift_weekday (split "," weekday).

Definition five_after_seconds (rest : list string) :
    option (string * string * string * string * string) :=
  match rest with
  | [minute; hour; day; month; weekday] => Some (minute, hour, day, month, weekday)
  | [minute; hour; day; month; weekday; year] =>
      if decide (year ∈ ["*"; "?"]) then Some (minute, hour, day, month, weekday) else None
  | _ => None
  end.

(** What [from_seconds_syntax] translates to, before it is parsed to see whether it
    is a schedule: no translation has six or seven fields, so that parse does not
    come back here. *)
Definition translated (expr : string) : option (string * list string) :=
  match split_whitespace expr with
  | [] => None
  | second :: rest =>
      '(minute, hour, day, month, weekday) ← five_after_seconds rest;
      if decide (second <> "0") then None
      else
        weekday ← shift_weekdays weekday;
        let text := minute +:+ " " +:+ hour +:+ " " +:+ any day +:+ " " +:+ any month +:+ " " +:+ weekday in
        Some (text, split_whitespace text)
  end.

Definition from_seconds_syntax (expr : string) : option string :=
  '(text, fields) ← translated expr;
  match fields with
  | [minute; hour; day; month; weekday] =>
      if is_ok (parse_five minute hour day month weekday 0) then Some text else None
  | _ => None
  end.

Definition wrong_field_count (expr : string) (count : nat) : ScheduleError :=
  if decide (count = 6%nat \/ count = 7%nat) then SecondsFirst expr (from_seconds_syntax expr)
  else WrongFieldCount expr count.

Definition parse (expr : string) (seed : Z) : result ScheduleError Schedule :=
  let expr := trim expr in
  expanded ← match shortcut expr with
             | Some expanded => Ok expanded
             | None => if starts_with "@" expr then Err (UnknownShortcut expr) else Ok expr
             end;
  match split_whitespace expanded with
  | [minute; hour; day; month; weekday] => parse_five minute hour day month weekday seed
  | fields => Err (wrong_field_count expr (length fields))
  end.

(** ** The next run *)

(** What the search uses of [jiff]'s civil calendar and zones: days in order, what a
    day is, the moment a wall-clock time of a day falls on in the zone of [now], and
    the order of moments. *)
Class Calendar := {
  Date : Type;
  Zoned : Type;
  date_of : Zoned -> Date;
  tomorrow : Date -> option Date;
  month_of : Date -> Z;
  day_of : Date -> Z;
  weekday_of : Date -> Z;
  at_time : Zoned -> Date -> Z -> Z -> option Zoned;
  after : Zoned -> Zoned -> bool
}.

(** The set bits of [set], lowest first. *)
Definition bits (set : Z) : list Z :=
  filter (fun bit => Z.testbit set bit = true) (Z.of_nat <$> seq 0 64).

Definition HORIZON_DAYS : nat := 28 * 366.

Section next.
Context `{Calendar} (s : Schedule) (now : Zoned).

Definition runs_on (day : Date) : bool :=
  Z.testbit (months s) (month_of day) &&
  let by_day := Z.testbit (days s) (day_of day) in
  let by_weekday := Z.testbit (weekdays s) (weekday_of day) in
  match any_day s, any_weekday s with
  | false, false => by_day || by_weekday
  | _, _ => by_day && by_weekday
  end.

(** What the loops over a day's times end with: a time to return, a calendar that
    gives none ([.ok()?]), or the next day. *)
Inductive search_end := Found (at_ : Zoned) | OffCalendar | NotToday.

Fixpoint first_time (times : list (Z * Z)) (day : Date) : search_end :=
  match times with
  | [] => NotToday
  | (hour, minute) :: times =>
      match at_time now day hour minute with
      | None => OffCalendar
      | Some at_ => if after at_ now then Found at_ else first_time times day
      end
  end.

Definition times_of_day : list (Z * Z) :=
  hour ← bits (hours s); minute ← bits (minutes s); [(hour, minute)].

Fixpoint next_within (n : nat) (day : Date) : option Zoned :=
  match n with
  | O => None
  | S n =>
      match (if runs_on day then first_time times_of_day day else NotToday) with
      | Found at_ => Some at_
      | OffCalendar => None
      | NotToday => day ← tomorrow day; next_within n day
      end
  end.

Definition next_after : option Zoned := next_within HORIZON_DAYS (date_of now).
End next.

(** ** Examples *)

Definition get_ok {E} (r : result E Schedule) : option Schedule :=
  match r with Ok s => Some s | Err _ => None end.

Example parse_unprefixed :
  get_ok (parse "0 3 * * 1-5" 0) =
  Some (mkSchedule 1 8 4294967294 8190 62 true false).
Proof. vm_compute. reflexivity. Qed.
Example old_syntax :
  from_seconds_syntax "0 30 2 * * 1-3/2" = Some "30 2 * * 0-2/2".
Proof. vm_compute. reflexivity. Qed.
Example split_fields : split_whitespace "  a  bc d " = ["a"; "bc"; "d"].
Proof. vm_compute. reflexivity. Qed.

(** ** Sets of bits *)

Lemma bit_set_from l acc n :
  Forall (Z.le 0) l ->
  Z.testbit (foldl (fun set v => Z.lor set (Z.shiftl 1 v)) acc l) n = true <->
  Z.testbit acc n = true \/ n ∈ l.
Proof.
  revert acc. induction l as [|v l IH]; intros acc; simpl.
  { rewrite elem_of_nil. tauto. }
  intros [Hv Hl]%Forall_cons. rewrite IH, elem_of_cons, Z.lor_spec, orb_true_iff by done.
  assert (Z.testbit (Z.shiftl 1 v) n = true <-> n = v) as ->; [|tauto].
  rewrite Z.shiftl_1_l. destruct (decide (n = v)) as [->|Hne].
  - rewrite Z.pow2_bits_true by done. done.
  - rewrite Z.pow2_bits_false by congruence. split; [done|congruence].
Qed.

Lemma bit_set_spec l n : Forall (Z.le 0) l -> Z.testbit (bit_set l) n = true <-> n ∈ l.
Proof.
  intros Hl. unfold bit_set. rewrite bit_set_from by done. rewrite Z.testbit_0_l.
  split; [by intros [?|?]|by right].
Qed.

Lemma stepped_spec from to step v :
  from <= to -> 0 < step ->
  v ∈ stepped from to step <-> from <= v <= to /\ (step | v - from).
Proof.
  intros Hle Hstep. unfold stepped. rewrite list_elem_of_fmap. split.
  - intros (k & -> & Hk%elem_of_seq). split; [|exists (Z.of_nat k); lia].
    assert (Z.of_nat k <= (to - from) / step) as Hk'.
    { pose proof (Z.div_pos (to - from) step). lia. }
    pose proof (Z.mul_div_le (to - from) step Hstep). nia.
  - intros [Hv [k Hk]]. exists (Z.to_nat k). assert (0 <= k) by nia. split; [lia|].
    apply elem_of_seq. assert (k <= (to - from) / step) by (apply Z.div_le_lower_bound; lia). lia.
Qed.

(** A range with a step holds every [step]-th value of it from its start. *)
Lemma range_set_spec from to step set :
  range_set from to step = Some set -> 0 <= from -> 0 < default 1 step ->
  from <= to /\
  forall n, Z.testbit set n = true <-> from <= n <= to /\ (default 1 step | n - from).
Proof.
  unfold range_set. case_decide as Hgt; [done|]. intros [= <-] Hfrom Hstep. split; [lia|].
  intros n. rewrite bit_set_spec; [by apply stepped_spec; [lia|]|].
  apply Forall_forall. intros v Hv%stepped_spec; [lia|lia|done].
Qed.

(** ** Fields *)

Definition within (lo hi set : Z) : Prop := forall n, Z.testbit set n = true -> lo <= n <= hi.

Lemma within_lor lo hi a b : within lo hi a -> within lo hi b -> within lo hi (Z.lor a b).
Proof. intros Ha Hb n. rewrite Z.lor_spec, orb_true_iff. intros [?|?]; auto. Qed.

Lemma within_0 lo hi : within lo hi 0.
Proof. intros n. by rewrite Z.testbit_0_l. Qed.

Record field_ok (field : Field) : Prop := {
  fo_min : 0 <= f_min field;
  fo_max : f_max field <= 59;
  fo_hashed : f_min field <= (f_hashed field).1 <= (f_hashed field).2;
  fo_hashed_max : (f_hashed field).2 <= f_max field
}.

Lemma fields_ok : Forall field_ok [MINUTE; HOUR; DAY; MONTH; WEEKDAY].
Proof. repeat constructor; simpl; lia. Qed.

Lemma value_in text field v : value text field = Some v -> f_min field <= v <= f_max field.
Proof.
  unfold value. destruct (match position _ _ with Some _ => _ | None => _ end) as [w|]; [|done].
  simpl. destruct (in_field field w) eqn:Hin; [|done]. intros [= <-].
  by apply bool_decide_eq_true in Hin.
Qed.

(** A step no larger than this cannot carry [low + offset] past a [u32]. *)
Definition max_step : Z := u32_max - 58.

Lemma hashed_range_in hashed field low high :
  field_ok field -> hashed_range hashed field = Some (low, high) ->
  f_min field <= low /\ high <= f_max field /\ low <= f_max field.
Proof.
  intros [Hmin Hmax Hh Hhm]. unfold hashed_range. destruct (is_empty hashed).
  { intros [= Heq]. rewrite Heq in Hh, Hhm. simpl in *. lia. }
  destruct (strip_prefix "(" hashed) as [r|]; [|done]. simpl.
  destruct (strip_suffix ")" r) as [q|]; [|done]. simpl.
  destruct (split_once "-" q) as [[a b]|]; [|done]. simpl.
  destruct (value a field) as [l|] eqn:Ha; [|done]. simpl.
  destruct (value b field) as [h|] eqn:Hb; [|done]. simpl. intros [= <- <-].
  apply value_in in Ha, Hb. lia.
Qed.

(** One value, at most the range's last: [H] alone. *)
Lemma hashed_one hashed field low high hash :
  field_ok field -> hashed_range hashed field = Some (low, high) -> low <= high ->
  let v := low + hash mod (high - low + 1) in
  low <= v <= high /\ hashed_item hashed field hash None = Some (Z.shiftl 1 v).
Proof.
  intros Hok Hr Hle. pose proof (hashed_range_in _ _ _ _ Hok Hr) as Hin.
  pose proof (fo_min _ Hok). pose proof (fo_max _ Hok).
  pose proof (Z.mod_pos_bound hash (high - low + 1)). cbv zeta. split; [lia|].
  unfold hashed_item. rewrite Hr. simpl. rewrite decide_False by lia.
  unfold u32_wrap. rewrite Z.mod_small by lia. unfold range_set.
  rewrite decide_False by lia. unfold stepped, bit_set. rewrite Z.sub_diag. simpl.
  by rewrite Z.mul_0_l, Z.add_0_r.
Qed.

Lemma hashed_item_in hashed field hash step set :
  field_ok field -> (forall k, step = Some k -> 0 < k <= max_step) ->
  hashed_item hashed field hash step = Some set -> within (f_min field) (f_max field) set.
Proof.
  intros Hok Hstep. unfold hashed_item.
  destruct (hashed_range hashed field) as [[low high]|] eqn:Hr; [|done]. simpl.
  pose proof (hashed_range_in _ _ _ _ Hok Hr) as Hin.
  pose proof (fo_min _ Hok). pose proof (fo_max _ Hok).
  case_decide; [done|].
  pose proof (Z.mod_pos_bound hash (default (high - low + 1) step)) as Hb.
  assert (0 < default (high - low + 1) step <= max_step) as Hspan.
  { destruct step as [k|]; simpl; [by apply Hstep|]. unfold max_step, u32_max. lia. }
  unfold max_step, u32_max in Hspan.
  assert (u32_wrap (low + hash mod default (high - low + 1) step) =
    low + hash mod default (high - low + 1) step) as ->
    by (unfold u32_wrap; apply Z.mod_small; lia).
  destruct step as [k|]; simpl in *.
  - case_decide; [intros [= <-]; apply within_0|].
    intros Hset. apply range_set_spec in Hset as [_ Hs]; [|simpl; lia..].
    intros n Hn%Hs. simpl in Hn. lia.
  - intros Hset. apply range_set_spec in Hset as [_ Hs]; [|simpl; lia..].
    intros n Hn%Hs. simpl in Hn. lia.
Qed.

(** The step of an item, when it has one. *)
Definition item_step (item : string) : option Z :=
  '(_, step) ← split_once "/" item; parse_uint u32_max step.

Definition small_step (item : string) : bool :=
  match item_step item with Some k => bool_decide (k <= max_step) | None => true end.

Lemma split_step_small item base step :
  small_step item = true -> split_step item = Some (base, step) ->
  forall k, step = Some k -> 0 < k <= max_step.
Proof.
  unfold small_step, item_step, split_step.
  destruct (split_once "/" item) as [[b t]|]; simpl; [|by intros _ [= <- <-]].
  destruct (parse_uint u32_max t) as [k|]; [|done]. simpl. intros Hk%bool_decide_eq_true.
  destruct (decide (k > 0)); [|done]. intros [= <- <-] k' [= <-]. lia.
Qed.

Lemma parse_item_in item field hash set :
  field_ok field -> small_step item = true -> parse_item item field hash = Some set ->
  within (f_min field) (f_max field) set.
Proof.
  intros Hok Hsmall. unfold parse_item.
  destruct (split_step item) as [[base step]|] eqn:Hs; [|done]. simpl.
  pose proof (split_step_small item base step Hsmall Hs) as Hstep.
  assert (0 < default 1 step) as Hpos by (destruct step; simpl; [by apply Hstep|lia]).
  pose proof (fo_min _ Hok).
  assert (forall from to, f_min field <= from -> to <= f_max field ->
    range_set from to step = Some set -> within (f_min field) (f_max field) set) as Hrange.
  { intros from to Hf Ht Hset. apply range_set_spec in Hset as [_ Hb]; [|lia|done].
    intros n Hn%Hb. lia. }
  destruct (strip_h base); [by apply hashed_item_in|]. case_decide; [by apply Hrange|].
  destruct (split_once "-" base) as [[a b]|].
  - destruct (value a field) as [l|] eqn:Ha; [|done]. simpl.
    destruct (value b field) as [h|] eqn:Hb; [|done]. simpl. apply value_in in Ha, Hb.
    apply Hrange; lia.
  - destruct (value base field) as [l|] eqn:Ha; [|done]. simpl. apply value_in in Ha.
    apply Hrange; [lia|destruct step; lia].
Qed.

Lemma parse_items_in items field hash acc set :
  field_ok field -> Forall (fun item => small_step item = true) items ->
  within (f_min field) (f_max field) acc ->
  parse_items items field hash acc = Ok set -> within (f_min field) (f_max field) set.
Proof.
  intros Hok Hs. revert acc. induction Hs as [|item items Hitem Hitems IH]; intros acc Hacc; simpl.
  - by intros [= <-].
  - destruct (parse_item item field hash) as [s|] eqn:Hp; [|done]. apply IH.
    apply within_lor; [done|]. by eapply parse_item_in.
Qed.

Lemma parse_field_in text field hash set :
  field_ok field -> Forall (fun item => small_step item = true) (split "," text) ->
  parse_field text field hash = Ok set -> within (f_min field) (f_max field) set.
Proof. intros Hok Hs. apply parse_items_in; [done..|apply within_0]. Qed.

(** ** Schedules *)

(** What [parse] promises of the sets. *)
Record schedule_ok (s : Schedule) : Prop := {
  sk_minutes : within 0 59 (minutes s);
  sk_hours : within 0 23 (hours s);
  sk_days : within 1 31 (days s);
  sk_months : within 1 12 (months s);
  sk_weekdays : within 0 6 (weekdays s)
}.

Definition small_steps (field : string) : Prop :=
  Forall (fun item => small_step item = true) (split "," field).

Lemma fold_sunday_within set : within 0 7 set -> within 0 6 (fold_sunday set).
Proof.
  intros Hw n. unfold fold_sunday.
  assert (forall m, Z.testbit 128 m = true <-> m = 7) as H128.
  { intros m. change 128 with (2 ^ 7). rewrite Z.pow2_bits_eqb, Z.eqb_eq by lia. split; congruence. }
  destruct (decide (Z.land set 128 <> 0)) as [Hz|Hz].
  - rewrite Z.lor_spec, orb_true_iff, Z.ldiff_spec, andb_true_iff, negb_true_iff.
    intros [[Hn Hm]|Hn].
    + pose proof (Hw n Hn). assert (n <> 7); [|lia]. intros ->. by rewrite (proj2 (H128 7)) in Hm.
    + change 1 with (2 ^ 0) in Hn. rewrite Z.pow2_bits_eqb, Z.eqb_eq in Hn by lia. lia.
  - intros Hn. pose proof (Hw n Hn). assert (n <> 7); [|lia]. intros ->. apply Hz. intros Heq.
    assert (Z.testbit (Z.land set 128) 7 = true) as Hb
      by (rewrite Z.land_spec, Hn; by apply H128).
    by rewrite Heq in Hb.
Qed.

Lemma parse_five_ok minute hour day month weekday seed s :
  Forall small_steps [minute; hour; day; month; weekday] ->
  parse_five minute hour day month weekday seed = Ok s -> schedule_ok s.
Proof.
  intros Hs. repeat (apply Forall_cons in Hs as [? Hs]). unfold parse_five.
  pose proof fields_ok as Hf. repeat (apply Forall_cons in Hf as [? Hf]).
  destruct (parse_field weekday WEEKDAY _) as [w|] eqn:Hw; [|done]. simpl.
  destruct (parse_field minute MINUTE _) as [m|] eqn:Hm; [|done]. simpl.
  destruct (parse_field hour HOUR _) as [h|] eqn:Hh; [|done]. simpl.
  destruct (parse_field day DAY _) as [d|] eqn:Hd; [|done]. simpl.
  destruct (parse_field month MONTH _) as [mo|] eqn:Hmo; [|done]. simpl.
  intros [= <-].
  apply parse_field_in in Hw, Hm, Hh, Hd, Hmo; [|done..].
  split; [done..|]. by apply fold_sunday_within.
Qed.

(** The fields [parse] reads: a shortcut's, or the expression's own. *)
Definition fields_of (expr : string) : list string :=
  split_whitespace (default (trim expr) (shortcut (trim expr))).

Lemma parse_fields expr seed s :
  parse expr seed = Ok s ->
  exists minute hour day month weekday, fields_of expr = [minute; hour; day; month; weekday] /\
    parse_five minute hour day month weekday seed = Ok s.
Proof.
  unfold parse, fields_of. intros Hp.
  assert (exists expanded, default (trim expr) (shortcut (trim expr)) = expanded /\
    match split_whitespace expanded with
    | [minute; hour; day; month; weekday] => parse_five minute hour day month weekday seed
    | fields => Err (wrong_field_count (trim expr) (length fields))
    end = Ok s) as (expanded & -> & He).
  { destruct (shortcut (trim expr)) as [e|]; [by exists e|].
    destruct (starts_with "@" (trim expr)); [done|]. by exists (trim expr). }
  destruct (split_whitespace expanded) as [|a [|b [|c [|e [|f [|]]]]]]; try done.
  by exists a, b, c, e, f.
Qed.

(** ** Searching *)

Section search.
Context `{Calendar}.

(** The [n]-th day from [day]. *)
Fixpoint days_on (n : nat) (day : Date) : option Date :=
  match n with O => Some day | S n => day ← tomorrow day; days_on n day end.

Definition wall_time (hour minute : Z) : Prop := 0 <= hour <= 23 /\ 0 <= minute <= 59.

(** A calendar that does not end, in a zone whose clocks do not change: a later wall
    time is a later moment. [After a b] is [a > b]. *)
Class CalendarLaws : Prop := {
  tomorrow_total day : is_Some (tomorrow day);
  at_total now day hour minute :
    wall_time hour minute -> is_Some (at_time now day hour minute);
  at_later now day hour minute hour' minute' t t' :
    wall_time hour minute -> wall_time hour' minute' ->
    hour * 60 + minute < hour' * 60 + minute' ->
    at_time now day hour minute = Some t -> at_time now day hour' minute' = Some t' ->
    after t' t = true;
  at_later_day now n day day' hour minute hour' minute' t t' :
    wall_time hour minute -> wall_time hour' minute' -> days_on (S n) day = Some day' ->
    at_time now day hour minute = Some t -> at_time now day' hour' minute' = Some t' ->
    after t' t = true
}.

Context (s : Schedule) (now : Zoned).

(** A run of the schedule on the [n]-th day from [day]. *)
Definition run_on (n : nat) (day : Date) (t : Zoned) : Prop :=
  exists day' hour minute, days_on n day = Some day' /\ runs_on s day' = true /\
    Z.testbit (hours s) hour = true /\ Z.testbit (minutes s) minute = true /\
    at_time now day' hour minute = Some t.

(** The runs of [n] days, in the order the search meets them. *)
Definition runs_of_day (day : Date) : list Zoned :=
  if runs_on s day then omap (fun hm => at_time now day hm.1 hm.2) (times_of_day s) else [].

Fixpoint runs_within (n : nat) (day : Date) : list Zoned :=
  match n with
  | O => []
  | S n => runs_of_day day ++ match tomorrow day with Some day => runs_within n day | None => [] end
  end.

Lemma bits_spec set n : within 0 63 set -> n ∈ bits set <-> Z.testbit set n = true.
Proof.
  intros Hw. unfold bits. rewrite list_elem_of_filter, list_elem_of_fmap. split; [tauto|].
  intros Hn. split; [done|]. pose proof (Hw n Hn). exists (Z.to_nat n). split; [lia|].
  apply elem_of_seq. lia.
Qed.

Lemma sorted_filter {A} (R : relation A) (P : A -> Prop) `{!forall x, Decision (P x)} (l : list A) :
  StronglySorted R l -> StronglySorted R (filter P l).
Proof.
  induction 1 as [|x l Hl IH Hx]; [constructor|]. rewrite filter_cons. case_decide; [|done].
  constructor; [done|]. apply Forall_forall. intros y [_ Hy]%list_elem_of_filter.
  by apply (proj1 (Forall_forall _ _) Hx).
Qed.

Lemma sorted_seq a n : StronglySorted (fun x y => x < y) (Z.of_nat <$> seq a n).
Proof.
  revert a; induction n as [|n IH]; intros a; csimpl; constructor; [apply IH|].
  apply Forall_forall. intros y (k & -> & Hk%elem_of_seq)%list_elem_of_fmap. lia.
Qed.

Lemma bits_sorted set : StronglySorted (fun x y => x < y) (bits set).
Proof. apply sorted_filter, sorted_seq. Qed.

Definition earlier_time (p q : Z * Z) : Prop := p.1 < q.1 \/ p.1 = q.1 /\ p.2 < q.2.

Lemma sorted_app {A} (R : relation A) (l k : list A) :
  StronglySorted R l -> StronglySorted R k -> (forall x y, x ∈ l -> y ∈ k -> R x y) ->
  StronglySorted R (l ++ k).
Proof.
  induction 1 as [|x l Hl IH Hx]; intros Hk Hlk; simpl; [done|]. constructor.
  - apply IH; [done|]. intros y z Hy. apply Hlk. by right.
  - apply Forall_app. split; [done|]. apply Forall_forall. intros y. apply Hlk. left.
Qed.

Lemma times_sorted : StronglySorted earlier_time (times_of_day s).
Proof.
  unfold times_of_day. pose proof (bits_sorted (minutes s)) as Hm.
  induction (bits_sorted (hours s)) as [|h l Hl IH Hh]; csimpl; [constructor|].
  apply sorted_app; [|exact IH|].
  - clear IH. induction Hm as [|m k Hk IHk Hmk]; csimpl; [constructor|]. constructor; [exact IHk|].
    apply Forall_forall. intros [h' m'] Hin. apply list_elem_of_bind in Hin as (m2 & Hin & Hm2).
    apply list_elem_of_singleton in Hin. injection Hin as -> ->. right. split; [done|].
    by apply (proj1 (Forall_forall _ _) Hmk).
  - intros [h1 m1] [h2 m2] (x & Hx & _)%list_elem_of_bind (h3 & (y & Hy & _)%list_elem_of_bind & Hh3)%list_elem_of_bind.
    apply list_elem_of_singleton in Hx, Hy. injection Hx as -> ->. injection Hy as -> ->.
    left. by apply (proj1 (Forall_forall _ _) Hh).
Qed.

Lemma times_spec hour minute :
  schedule_ok s ->
  (hour, minute) ∈ times_of_day s <->
    Z.testbit (hours s) hour = true /\ Z.testbit (minutes s) minute = true.
Proof.
  intros [Hm Hh _ _ _]. unfold times_of_day.
  rewrite <- (bits_spec (hours s)), <- (bits_spec (minutes s)).
  2:{ intros n Hn. specialize (Hm n Hn). lia. }
  2:{ intros n Hn. specialize (Hh n Hn). lia. }
  rewrite list_elem_of_bind. split.
  - intros (h & (m & Hin & Hmm)%list_elem_of_bind & Hhh).
    apply list_elem_of_singleton in Hin. by injection Hin as -> ->.
  - intros [Hhh Hmm]. exists hour. split; [|done]. apply list_elem_of_bind. exists minute.
    split; [by apply list_elem_of_singleton|done].
Qed.

Context `{!CalendarLaws} (Hs : schedule_ok s).

Lemma times_wall hour minute : (hour, minute) ∈ times_of_day s -> wall_time hour minute.
Proof.
  intros [Hh Hm]%times_spec; [|done]. destruct Hs as [Wm Wh _ _ _].
  specialize (Wh _ Hh). specialize (Wm _ Hm). unfold wall_time. lia.
Qed.

(** The loops over the hours and minutes stop at the first later moment. *)
Lemma first_time_spec l day :
  (forall hm, hm ∈ l -> wall_time hm.1 hm.2) ->
  first_time now l day =
    match head (filter (fun t => after t now = true) (omap (fun hm => at_time now day hm.1 hm.2) l)) with
    | Some t => Found t
    | None => NotToday
    end.
Proof.
  induction l as [|[h m] l IH]; intros Hw; [done|]. simpl.
  destruct (at_total now day h m (Hw (h, m) ltac:(left))) as [t Ht]. simpl in Ht. rewrite Ht.
  rewrite filter_cons. destruct (after t now) eqn:Ha; [done|]. simpl.
  apply IH. intros hm Hin. apply Hw. by right.
Qed.

Lemma filter_head_app {A} (P : A -> Prop) `{!forall x, Decision (P x)} (l k : list A) :
  head (filter P (l ++ k)) =
    match head (filter P l) with Some x => Some x | None => head (filter P k) end.
Proof. rewrite filter_app. by destruct (filter P l). Qed.

(** The search is the first later moment of all the runs it meets. *)
Lemma next_within_spec n day :
  next_within s now n day = head (filter (fun t => after t now = true) (runs_within n day)).
Proof.
  revert day; induction n as [|n IH]; intros day; [done|]. cbn [next_within runs_within].
  rewrite filter_head_app. unfold runs_of_day. destruct (tomorrow_total day) as [day' Hd].
  rewrite Hd. simpl. destruct (runs_on s day); [|by rewrite IH].
  rewrite first_time_spec by (intros [h m] Hin; by apply times_wall).
  destruct (head (filter _ (omap _ _))); [done|]. by rewrite IH.
Qed.

Lemma runs_of_day_spec day t :
  t ∈ runs_of_day day <-> run_on 0 day t.
Proof.
  unfold runs_of_day, run_on. destruct (runs_on s day) eqn:Hr.
  - rewrite list_elem_of_omap. split.
    + intros ([h m] & [Hh Hm]%times_spec & Ht); [|done]. by exists day, h, m.
    + intros (day' & h & m & [= <-] & _ & Hh & Hm & Ht). exists (h, m). split; [|done].
      by apply times_spec.
  - split; [by intros ?%not_elem_of_nil|]. intros (day' & h & m & [= <-] & Hr' & _). congruence.
Qed.

Lemma runs_within_spec n day t :
  t ∈ runs_within n day <-> exists k, (k < n)%nat /\ run_on k day t.
Proof.
  revert day; induction n as [|n IH]; intros day; cbn [runs_within].
  { split; [by intros ?%not_elem_of_nil|]. intros (k & Hk & _). lia. }
  destruct (tomorrow_total day) as [day' Hd]. rewrite Hd, elem_of_app, IH, runs_of_day_spec.
  assert (forall k, run_on (S k) day t <-> run_on k day' t) as Hstep.
  { intros k. unfold run_on. cbn [days_on]. rewrite Hd. done. }
  split.
  - intros [Ht|(k & Hk & Ht)]; [exists 0%nat; split; [lia|done]|]. exists (S k).
    split; [lia|]. by apply Hstep.
  - intros ([|k] & Hk & Ht); [by left|]. right. exists k. split; [lia|]. by apply Hstep.
Qed.

Lemma runs_of_day_sorted day : StronglySorted (fun x y => after y x = true) (runs_of_day day).
Proof.
  unfold runs_of_day. destruct (runs_on s day); [|constructor].
  assert (forall hm, hm ∈ times_of_day s -> wall_time hm.1 hm.2) as Hw
    by (intros [h m] Hin; by apply times_wall).
  induction times_sorted as [|[h m] l Hl IH Hx]; simpl; [constructor|].
  destruct (at_total now day h m (Hw (h, m) ltac:(left))) as [t Ht]. rewrite Ht.
  constructor; [apply IH; intros hm Hin; apply Hw; by right|].
  apply Forall_forall. intros u ([h' m'] & Hin & Hu)%list_elem_of_omap.
  rewrite Forall_forall in Hx. specialize (Hx _ Hin). unfold earlier_time in Hx. simpl in *.
  apply (at_later now day h m h' m' t u); [apply (Hw (h, m)); left|apply (Hw (h', m')); by right| |done..].
  assert (wall_time h m) by (apply (Hw (h, m)); left).
  assert (wall_time h' m') by (apply (Hw (h', m')); by right).
  unfold wall_time in *. lia.
Qed.

Lemma runs_within_sorted n day : StronglySorted (fun x y => after y x = true) (runs_within n day).
Proof.
  revert day; induction n as [|n IH]; intros day; cbn [runs_within]; [constructor|].
  destruct (tomorrow_total day) as [day' Hd]. rewrite Hd.
  apply sorted_app; [apply runs_of_day_sorted|apply IH|].
  intros x y Hx%runs_of_day_spec (k & _ & Hy)%runs_within_spec.
  destruct Hx as (d1 & h & m & [= <-] & _ & Hh & Hm & Hx).
  destruct Hy as (d2 & h' & m' & Hd2 & _ & Hh' & Hm' & Hy).
  apply (at_later_day now k day d2 h m h' m' x y); 
    [by apply times_wall, times_spec|by apply times_wall, times_spec| |done|done].
  cbn [days_on]. by rewrite Hd.
Qed.

Lemma sorted_head {A} (R : relation A) (l : list A) x :
  StronglySorted R l -> head l = Some x -> forall y, y ∈ l -> y = x \/ R x y.
Proof.
  destruct l as [|z l]; [done|]. intros [_ Hz]%StronglySorted_inv [= ->] y [->|Hy]%elem_of_cons;
    [by left|]. right. by apply (proj1 (Forall_forall _ _) Hz).
Qed.

Lemma next_after_cases :
  match next_after s now with
  | Some t => after t now = true /\ (exists k, (k < HORIZON_DAYS)%nat /\ run_on k (date_of now) t) /\
      forall k u, (k < HORIZON_DAYS)%nat -> run_on k (date_of now) u -> after u now = true ->
        u = t \/ after u t = true
  | None => forall k u, (k < HORIZON_DAYS)%nat -> run_on k (date_of now) u -> after u now = false
  end.
Proof.
  unfold next_after. rewrite next_within_spec. set (l := runs_within _ _).
  pose proof (sorted_filter _ (fun t => after t now = true) l (runs_within_sorted _ _)) as Hsort.
  destruct (head (filter _ l)) as [t|] eqn:Ht.
  - assert (t ∈ filter (fun t => after t now = true) l) as Hin.
    { destruct (filter _ l); [done|]. injection Ht as ->. left. }
    apply list_elem_of_filter in Hin as [Ha Hin]. split; [done|]. split.
    { by apply runs_within_spec. }
    intros k u Hk Hu Hau. apply (sorted_head _ _ t Hsort Ht). apply list_elem_of_filter.
    split; [done|]. apply runs_within_spec. eauto.
  - intros k u Hk Hu. destruct (after u now) eqn:Hau; [|done].
    assert (u ∈ filter (fun t => after t now = true) l) as Hin
      by (apply list_elem_of_filter; split; [done|]; apply runs_within_spec; eauto).
    destruct (filter _ l); [by apply not_elem_of_nil in Hin|done].
Qed.
End search.

(** ** A calendar to evaluate with

    The proleptic Gregorian calendar in UTC: a day is counted from 1970-01-01, a
    moment is its minute. *)

(** The month and the day of the month of a day. *)
Definition civil (day : Z) : Z * Z :=
  let z := day + 719468 in
  let era := z / 146097 in
  let doe := z - era * 146097 in
  let yoe := (doe - doe / 1460 + doe / 36524 - doe / 146096) / 365 in
  let doy := doe - (365 * yoe + yoe / 4 - yoe / 100) in
  let mp := (5 * doy + 2) / 153 in
  (if decide (mp < 10) then mp + 3 else mp - 9, doy - (153 * mp + 2) / 5 + 1).

Definition utc : Calendar := {|
  Date := Z;
  Zoned := Z;
  date_of now := now / 1440;
  tomorrow day := Some (day + 1);
  month_of day := (civil day).1;
  day_of day := (civil day).2;
  weekday_of day := (day + 4) mod 7;
  at_time _ day hour minute := Some (day * 1440 + hour * 60 + minute);
  after a b := bool_decide (b < a)
|}.

Lemma utc_days n day : days_on (H := utc) n day = Some (day + Z.of_nat n).
Proof.
  revert day; induction n as [|n IH]; intros day; cbn [days_on]; [f_equal; simpl; lia|].
  simpl. rewrite IH. f_equal. lia.
Qed.

Lemma utc_laws : CalendarLaws (H := utc).
Proof.
  split; simpl.
  - intros day. by eexists.
  - intros. by eexists.
  - intros now day h m h' m' t t' _ _ Hlt [= <-] [= <-]. apply bool_decide_eq_true. lia.
  - intros now n day day' h m h' m' t t' [Hh Hm] [Hh' Hm'].
    change (days_on (H := utc) (S n) day = Some day' -> Some (day * 1440 + h * 60 + m) = Some t ->
      Some (day' * 1440 + h' * 60 + m') = Some t' -> bool_decide (t < t') = true).
    rewrite utc_days. intros [= <-] [= <-] [= <-]. apply bool_decide_eq_true. lia.
Qed.

(** ** Properties *)

(** A schedule that parses is one the calendar can have: whatever the expression -
    names, ranges, lists, steps, hashed values or a shortcut - its minutes are within
    0-59, its hours within 0-23, its days within 1-31, its months within 1-12 and its
    weekdays within 0-6, Sunday folded from 7 onto 0, provided no step exceeds
    [max_step]. *)
Theorem parsed_in_range expr seed s :
  parse expr seed = Ok s -> Forall small_steps (fields_of expr) -> schedule_ok s.
Proof.
  intros (minute & hour & day & month & weekday & -> & Hp)%parse_fields Hs.
  by eapply parse_five_ok.
Qed.

Lemma parsed_in_range_witness :
  is_ok (parse "H(0-29)/10 */6,23 H jan-jun/2,dec sun,5-7" 42) = true /\
  exists s, parse "H(0-29)/10 */6,23 H jan-jun/2,dec sun,5-7" 42 = Ok s /\ schedule_ok s.
Proof.
  split; [vm_compute; reflexivity|].
  destruct (parse "H(0-29)/10 */6,23 H jan-jun/2,dec sun,5-7" 42) as [s|e] eqn:Hp; [|vm_compute in Hp; discriminate].
  exists s. split; [reflexivity|].
  apply (parsed_in_range "H(0-29)/10 */6,23 H jan-jun/2,dec sun,5-7" 42 s Hp).
  apply (bool_decide_unpack _). vm_compute. exact I.
Defined.

(** [H] is one value, spread by the hash and inside the range it picks from -
    the field's own for a bare [H], so a hashed day exists in every month, or the one
    in parentheses. *)
Theorem hashed_pick item field hash hashed low high :
  field ∈ [MINUTE; HOUR; DAY; MONTH; WEEKDAY] -> split_once "/" item = None ->
  strip_h item = Some hashed -> hashed_range hashed field = Some (low, high) -> low <= high ->
  exists v, parse_item item field hash = Some (Z.shiftl 1 v) /\
    v = low + hash mod (high - low + 1) /\ low <= v <= high /\
    f_min field <= v <= f_max field /\ (hashed = "" -> field = DAY -> v <= 28).
Proof.
  intros Hf Hi Hh Hr Hle. pose proof (proj1 (Forall_forall _ _) fields_ok field Hf) as Hok.
  destruct (hashed_one hashed field low high hash Hok Hr Hle) as [Hv Heq].
  pose proof (hashed_range_in _ _ _ _ Hok Hr) as Hin. eexists. split_and!; [|done|lia..|].
  - unfold parse_item, split_step. rewrite Hi. simpl. by rewrite Hh.
  - intros -> ->. injection Hr as <- <-. lia.
Qed.

Lemma hashed_pick_witness :
  split_once "/" "H(0-29)" = None /\
  exists v, parse_item "H(0-29)" MINUTE 77 = Some (Z.shiftl 1 v) /\ v = 17.
Proof.
  split; [reflexivity|].
  destruct (hashed_pick "H(0-29)" MINUTE 77 "(0-29)" 0 29) as (v & Hp & Hv & _).
  - left.
  - reflexivity.
  - reflexivity.
  - vm_compute. reflexivity.
  - lia.
  - exists v. split; [exact Hp|]. rewrite Hv. reflexivity.
Defined.

(** C35. The next run is the first: in a zone whose clocks do not change, a time
    [next_after] gives is after now, is a run of the schedule, and no other run of
    the days searched lies between; and it gives none only when no run of those days
    is after now. The search ends: it looks at [HORIZON_DAYS] days. *)
Theorem next_after_is_first `{Calendar} s now :
  CalendarLaws -> schedule_ok s ->
  match next_after s now with
  | Some t => after t now = true /\
      (exists k, (k < HORIZON_DAYS)%nat /\ run_on s now k (date_of now) t) /\
      forall k u, (k < HORIZON_DAYS)%nat -> run_on s now k (date_of now) u -> after u now = true ->
        u = t \/ after u t = true
  | None => forall k u, (k < HORIZON_DAYS)%nat -> run_on s now k (date_of now) u ->
      after u now = false
  end.
Proof. intros Hlaws Hs. by apply next_after_cases. Qed.

(** Weekdays at 02:30 and 14:30, asked on Friday 2026-10-09 at 14:30. *)
Definition demo_schedule : Schedule := mkSchedule 1073741824 16388 4294967294 8190 62 true false.
Definition demo_now : Z := 20735 * 1440 + 14 * 60 + 30.

Lemma next_after_is_first_witness :
  schedule_ok demo_schedule /\ get_ok (parse "30 2,14 * * 1-5" 0) = Some demo_schedule /\
  next_after (H := utc) demo_schedule demo_now = Some (20738 * 1440 + 2 * 60 + 30) /\
  forall k u, (k < HORIZON_DAYS)%nat ->
    run_on (H := utc) demo_schedule demo_now k (date_of (Calendar := utc) demo_now) u ->
    after (Calendar := utc) u demo_now = true ->
    u = 20738 * 1440 + 2 * 60 + 30 \/ after (Calendar := utc) u (20738 * 1440 + 2 * 60 + 30) = true.
Proof.
  assert (get_ok (parse "30 2,14 * * 1-5" 0) = Some demo_schedule) as Hp by (vm_compute; reflexivity).
  assert (schedule_ok demo_schedule) as Hok.
  { destruct (parse "30 2,14 * * 1-5" 0) as [s|e] eqn:Hr; [|discriminate Hp].
    injection Hp as <-. destruct (parse_fields _ _ _ Hr) as (a & b & c & d & e & Hf & H5).
    apply (parse_five_ok a b c d e 0 s); [|exact H5]. rewrite <- Hf.
    apply (bool_decide_unpack _). vm_compute. exact I. }
  assert (next_after (H := utc) demo_schedule demo_now = Some (20738 * 1440 + 2 * 60 + 30)) as Hn
    by (vm_compute; reflexivity).
  split; [exact Hok|]. split; [exact Hp|]. split; [exact Hn|].
  pose proof (next_after_is_first (H := utc) demo_schedule demo_now utc_laws Hok) as H.
  rewrite Hn in H. destruct H as (_ & _ & H). exact H.
Defined.

(** C36. The horizon is too short for one combination: the comment takes every month,
    day and weekday to come round within 28 years, but no century year divisible by
    100 alone is a leap year, so a 29 February that is a Sunday may be 40 years off.
    Asked on 2088-03-01, a schedule for such days has no next run although it runs on
    2128-02-29. *)
Theorem horizon_misses_a_run :
  exists s, get_ok (parse "0 0 29 2 */7" 0) = Some s /\
    let now := 43159 * 1440 in
    next_after (H := utc) s now = None /\
    exists k t, run_on (H := utc) s now k (date_of (Calendar := utc) now) t /\
      after (Calendar := utc) t now = true.
Proof.
  eexists. split; [vm_compute; reflexivity|]. split; [vm_compute; reflexivity|].
  exists (Z.to_nat 14608), (57767 * 1440). split; [|vm_compute; reflexivity].
  exists 57767, 0, 0. split_and!; [|vm_compute; reflexivity..].
  rewrite utc_days, Z2Nat.id by lia. reflexivity.
Qed.

