(* ===== verification/ServerSettings.v ===== *)
(** * The server's settings

    [backend/aurcache-common/src/settings.rs], [aurcache-utils/src/settings/] and
    [scheduled.rs]: every setting with its key, variable, default and scope; which
    values are taken, how a value is found (the package's, the environment's, the
    server's, the default) and read as its type, and how changes are stored. The text
    of a parse error only goes to a log line, and is left out. *)
From stdpp Require Import pretty.
From Stdlib Require Import Ascii.
From S2P Require Import Prelude Text Sql Schema Units Schedule Fixtures.
Open Scope string_scope.
Open Scope list_scope.

(** ** [aurcache-common/src/settings.rs] *)

Module Scope.
Inductive Scope := Global | Package.
#[export] Instance Scope_eq_dec : EqDecision Scope.
Proof. solve_decision. Defined.
End Scope.
Export (hints) Scope.

Module SettingSource.
Inductive SettingSource := Env | Package | Global | Default.
End SettingSource.

Record SettingsMeta := mkMeta {
  meta_key : string;
  meta_env_name : option string;
  meta_default : string;
  meta_scope : Scope.Scope
}.

Inductive Setting :=
| VersionCheckInterval
| AutoUpdateSchedule
| BuildOnNewVersion
| PersistentBuilddir
| DateFormat
| JobTimeout
| MaxArtifactSize
| MakepkgConf
| PacmanConf
| ParseNetwork.
#[export] Instance Setting_eq_dec : EqDecision Setting.
Proof. solve_decision. Defined.

(** [Setting::ALL] *)
Definition ALL : list Setting :=
  [VersionCheckInterval; AutoUpdateSchedule; BuildOnNewVersion; PersistentBuilddir; DateFormat;
   JobTimeout; MaxArtifactSize; MakepkgConf; PacmanConf; ParseNetwork].

Definition meta (s : Setting) : SettingsMeta :=
  match s with
  | VersionCheckInterval => mkMeta "version_check_interval" (Some "VERSION_CHECK_INTERVAL") "1h" Scope.Global
  | AutoUpdateSchedule => mkMeta "auto_update_schedule" (Some "AUTO_UPDATE_SCHEDULE") "@daily" Scope.Global
  | DateFormat => mkMeta "date_format" (Some "DATE_FORMAT") "ymd-pad-24" Scope.Global
  | BuildOnNewVersion => mkMeta "build_on_new_version" (Some "BUILD_ON_NEW_VERSION") "true" Scope.Global
  | PersistentBuilddir => mkMeta "persistent_builddir" (Some "PERSISTENT_BUILDDIR") "true" Scope.Package
  | JobTimeout => mkMeta "job_timeout" (Some "JOB_TIMEOUT") "1h" Scope.Package
  | MaxArtifactSize => mkMeta "max_artifact_size" (Some "MAX_ARTIFACT_SIZE") "20G" Scope.Package
  | MakepkgConf => mkMeta "makepkg_conf" None "" Scope.Package
  | PacmanConf => mkMeta "pacman_conf" None "" Scope.Package
  | ParseNetwork => mkMeta "parse_network" (Some "PARSE_NETWORK") "false" Scope.Global
  end.

Definition from_key (key : string) : option Setting :=
  head (filter (fun s => meta_key (meta s) = key) ALL).

Definition parse_boolean (value : string) : option bool :=
  let v := to_lowercase (trim value) in
  if decide (v ∈ ["true"; "1"; "yes"; "on"]) then Some true
  else if decide (v ∈ ["false"; "0"; "no"; "off"; ""]) then Some false
  else None.

(** [Setting::validate]: whether a value may be stored. *)
Definition setting_valid (s : Setting) (value : string) : bool :=
  match s with
  | BuildOnNewVersion | PersistentBuilddir | ParseNetwork => bool_decide (is_Some (parse_boolean value))
  | MaxArtifactSize => is_some_and (fun bytes => bool_decide (bytes > 0)%Z) (parse_size value)
  | VersionCheckInterval | JobTimeout => is_some_and (fun seconds => bool_decide (seconds > 0)%Z) (parse_duration value)
  | AutoUpdateSchedule => is_off value || is_ok (parse value 0)
  | DateFormat | MakepkgConf | PacmanConf => true
  end.

(** ** [settings/parser.rs]: what a value is read as *)

Record Seconds := mkSeconds { seconds : Z }.
Record ByteSize := mkByteSize { byte_size : Z }.

Class ParseSetting (T : Type) := parse_setting : string -> option T.

#[export] Instance parse_seconds : ParseSetting Seconds := fun s => mkSeconds <$> parse_duration s.
#[export] Instance parse_byte_size : ParseSetting ByteSize := fun s => mkByteSize <$> parse_size s.
#[export] Instance parse_string : ParseSetting string := fun s => Some s.
#[export] Instance parse_bool : ParseSetting bool := parse_boolean.
(** [Option<String>]: [String::from_str] takes the text as it is. *)
#[export] Instance parse_optional : ParseSetting (option string) :=
  fun s => if is_empty (trim s) then Some None else Some (Some s).

(** ** [settings/mod.rs] *)

(** [Key<T>] *)
Record Key (T : Type) := key_of { key_setting : Setting }.
Arguments key_of {T} _.
Arguments key_setting {T} _.

Definition VERSION_CHECK_INTERVAL : Key Seconds := key_of VersionCheckInterval.
Definition AUTO_UPDATE_SCHEDULE : Key (option string) := key_of AutoUpdateSchedule.
Definition BUILD_ON_NEW_VERSION : Key bool := key_of BuildOnNewVersion.
Definition PERSISTENT_BUILDDIR : Key bool := key_of PersistentBuilddir.
Definition DATE_FORMAT : Key string := key_of DateFormat.
Definition JOB_TIMEOUT : Key Seconds := key_of JobTimeout.
Definition MAX_ARTIFACT_SIZE : Key ByteSize := key_of MaxArtifactSize.
Definition MAKEPKG_CONF : Key string := key_of MakepkgConf.
Definition PACMAN_CONF : Key string := key_of PacmanConf.
Definition PARSE_NETWORK : Key bool := key_of ParseNetwork.

Record SettingsEntry (T : Type) := mkEntryOf { entry_value : T; entry_source : SettingSource.SettingSource }.
Arguments mkEntryOf {T} _ _.
Arguments entry_value {T} _.
Arguments entry_source {T} _.

(** A panic ends the task that reads; [None] is one. *)
Definition parse_default {T} `{ParseSetting T} (meta : SettingsMeta) : option T := parse_setting (meta_default meta).

Definition parse_or_default {T} `{ParseSetting T} (meta : SettingsMeta) (val : string) : option T :=
  match parse_setting val with Some v => Some v | None => parse_default meta end.

Definition setting_row (key : string) (pkg_id : option Z) (row : settings.Model) : Prop :=
  settings.key row = key /\ settings.pkg_id row = settings.scope pkg_id.
#[export] Instance setting_row_dec key pkg_id row : Decision (setting_row key pkg_id row).
Proof. unfold setting_row. apply _. Defined.

Definition stored (key : string) (pkg_id : option Z) : DB (option string) :=
  query (fun d => head (filter (setting_row key pkg_id) (t_settings d)) ≫= settings.value).

(** The value as text and where it came from: the four levels of [get]. *)
Definition lookup_setting (env : string -> option string) (s : Setting) (pkg_id : option Z) :
    DB (option string * SettingSource.SettingSource) :=
  let meta := meta s in
  package ← match pkg_id with
            | Some pid => if decide (meta_scope meta = Scope.Package) then stored (meta_key meta) (Some pid) else mret None
            | None => mret None
            end;
  match package with
  | Some v => mret (Some v, SettingSource.Package)
  | None =>
      match meta_env_name meta ≫= env with
      | Some v => mret (Some v, SettingSource.Env)
      | None =>
          global ← stored (meta_key meta) None;
          mret (match global with
                | Some v => (Some v, SettingSource.Global)
                | None => (None, SettingSource.Default)
                end)
      end
  end.

(** [get]; [None]: it panicked. *)
Definition get {T} `{ParseSetting T} (env : string -> option string) (key : Key T) (pkg_id : option Z) :
    DB (option (SettingsEntry T)) :=
  let meta := meta (key_setting key) in
  '(raw, source) ← lookup_setting env (key_setting key) pkg_id;
  mret (value ← match raw with Some v => parse_or_default meta v | None => parse_default meta end;
        Some (mkEntryOf value source)).

(** [raw]: as text. *)
Definition raw_setting (env : string -> option string) (s : Setting) (pkg_id : option Z) :
    DB (option (SettingsEntry string)) := get env (key_of s) pkg_id.

Record Change := mkChange { ch_setting : Setting; ch_pkg_id : option Z; ch_value : option string }.

Inductive Write := Written | GlobalOnly (s : Setting).

Definition misplaced (change : Change) : Prop :=
  is_Some (ch_pkg_id change) /\ is_Some (ch_value change) /\ meta_scope (meta (ch_setting change)) = Scope.Global.
#[export] Instance misplaced_dec change : Decision (misplaced change).
Proof. unfold misplaced. apply _. Defined.

(** The key of the table's unique index. *)
Definition setting_key (row : settings.Model) : string * Z := (settings.key row, settings.pkg_id row).
Definition change_key (change : Change) : string * Z :=
  (meta_key (meta (ch_setting change)), settings.scope (ch_pkg_id change)).

(** [INSERT .. ON CONFLICT (key, pkg_id) DO UPDATE SET value]: one row of it. *)
Definition upsert_setting (rows : list settings.Model * Z) (change : string * Z * string) : list settings.Model * Z :=
  let '(l, next) := rows in
  let '(key, value) := change in
  if decide (key ∈ setting_key <$> l) then
    ((fun row => if decide (setting_key row = key)
                 then settings.mk (settings.id row) (settings.key row) (Some value) (settings.pkg_id row) else row) <$> l,
     next)
  else (l ++ [settings.mk next key.1 (Some value) key.2], (next + 1)%Z).

Definition inserts (changes : list Change) : list (string * Z * string) :=
  omap (fun c => (fun v => (change_key c, v)) <$> ch_value c) changes.
Definition removals (changes : list Change) : list (string * Z) :=
  change_key <$> filter (fun c => ch_value c = None) changes.

Definition delete_settings (keys : list (string * Z)) : DB () :=
  statement (fun d =>
    Ok (tt, with_settings (filter (fun row => setting_key row ∉ keys) (t_settings d)) (next_setting_id d) d)).

Definition insert_settings (rows : list (string * Z * string)) : DB () :=
  statement (fun d =>
    let '(l, next) := foldl upsert_setting (t_settings d, next_setting_id d) rows in
    Ok (tt, with_settings l next d)).

Definition write (changes : list Change) : DB Write :=
  match head (filter misplaced changes) with
  | Some change => mret (GlobalOnly (ch_setting change))
  | None =>
      _ ← (if decide (removals changes = []) then mret tt else delete_settings (removals changes));
      _ ← (if decide (inserts changes = []) then mret tt else insert_settings (inserts changes));
      mret Written
  end.

(** ** [scheduled.rs] *)

Inductive Job := AutoUpdate | MirrorRanking.
Definition job_name (job : Job) : string :=
  match job with AutoUpdate => "auto_update" | MirrorRanking => "mirror_ranking" end.

Record JobSchedule := mkJobSchedule { js_schedule : Schedule; js_rewritten : option string }.

(** [instance]: the CA's fingerprint. *)
Definition schedule (instance : string) (job : Job) (expr : string) : result ScheduleError JobSchedule :=
  let seed := job_seed instance (job_name job) in
  match parse expr seed with
  | Ok s => Ok (mkJobSchedule s None)
  | Err e =>
      match from_seconds_syntax expr with
      | None => Err e
      | Some rewritten =>
          match parse rewritten seed with
          | Ok s => Ok (mkJobSchedule s (Some rewritten))
          | Err _ => Err e
          end
      end
  end.

(** ** Reading *)

Definition value_in (d : database) (key : string) (pkg_id : option Z) : option string :=
  head (filter (setting_row key pkg_id) (t_settings d)) ≫= settings.value.

(** The first of the four levels that has a value. *)
Definition level (env : string -> option string) (d : database) (s : Setting) (pkg_id : option Z) :
    option string * SettingSource.SettingSource :=
  let package := match pkg_id with
                 | Some pid => if decide (meta_scope (meta s) = Scope.Package) then value_in d (meta_key (meta s)) (Some pid) else None
                 | None => None
                 end in
  match package, meta_env_name (meta s) ≫= env, value_in d (meta_key (meta s)) None with
  | Some v, _, _ => (Some v, SettingSource.Package)
  | None, Some v, _ => (Some v, SettingSource.Env)
  | None, None, Some v => (Some v, SettingSource.Global)
  | None, None, None => (None, SettingSource.Default)
  end.

Lemma run_lookup env s pkg_id d : run (lookup_setting env s pkg_id) d = (Ok (level env d s pkg_id), d).
Proof.
  unfold lookup_setting, level. cbv zeta. unfold mbind, sql_mbind.
  rewrite run_bind by (destruct pkg_id; [case_decide|]; apply _).
  assert (run (match pkg_id with
      | Some pid => if decide (meta_scope (meta s) = Scope.Package) then stored (meta_key (meta s)) (Some pid) else mret None
      | None => mret None end) d =
    (Ok (match pkg_id with
      | Some pid => if decide (meta_scope (meta s) = Scope.Package) then value_in d (meta_key (meta s)) (Some pid) else None
      | None => None end), d)) as -> by (destruct pkg_id; [case_decide|]; done).
  destruct (match pkg_id with Some _ => _ | None => _ end); [done|].
  destruct (option_bind _ _ _ _); [done|].
  rewrite run_bind by apply _. change (run (stored ?k None) d) with (Ok (E := DbErr) (value_in d k None), d).
  cbv beta iota. by destruct (value_in _ _ None).
Qed.

(** What a key's default reads as. *)
Class TypedKey {T} `{ParseSetting T} (key : Key T) := {
  key_default : T;
  key_default_parses : parse_setting (meta_default (meta (key_setting key))) = Some key_default
}.
Arguments key_default {T _} key {_}.
Arguments key_default_parses {T _} key {_}.

#[export] Instance version_check_interval_typed : TypedKey VERSION_CHECK_INTERVAL := {| key_default := mkSeconds 3600; key_default_parses := eq_refl |}.
#[export] Instance auto_update_schedule_typed : TypedKey AUTO_UPDATE_SCHEDULE := {| key_default := Some "@daily"; key_default_parses := eq_refl |}.
#[export] Instance build_on_new_version_typed : TypedKey BUILD_ON_NEW_VERSION := {| key_default := true; key_default_parses := eq_refl |}.
#[export] Instance persistent_builddir_typed : TypedKey PERSISTENT_BUILDDIR := {| key_default := true; key_default_parses := eq_refl |}.
#[export] Instance date_format_typed : TypedKey DATE_FORMAT := {| key_default := "ymd-pad-24"; key_default_parses := eq_refl |}.
#[export] Instance job_timeout_typed : TypedKey JOB_TIMEOUT := {| key_default := mkSeconds 3600; key_default_parses := eq_refl |}.
#[export] Instance max_artifact_size_typed : TypedKey MAX_ARTIFACT_SIZE := {| key_default := mkByteSize 21474836480; key_default_parses := eq_refl |}.
#[export] Instance makepkg_conf_typed : TypedKey MAKEPKG_CONF := {| key_default := ""; key_default_parses := eq_refl |}.
#[export] Instance pacman_conf_typed : TypedKey PACMAN_CONF := {| key_default := ""; key_default_parses := eq_refl |}.
#[export] Instance parse_network_typed : TypedKey PARSE_NETWORK := {| key_default := false; key_default_parses := eq_refl |}.
(** Any setting reads as text. *)
#[export] Instance text_typed s : TypedKey (T := string) (key_of s) := {| key_default := meta_default (meta s); key_default_parses := eq_refl |}.

(** What a typed key reads. *)
Definition setting_value {T} `{ParseSetting T} (key : Key T) `{!TypedKey key} (env : string -> option string) (d : database) (pkg_id : option Z) :
    SettingsEntry T :=
  let '(raw, source) := level env d (key_setting key) pkg_id in
  mkEntryOf (default (key_default key) (raw ≫= parse_setting)) source.

Lemma run_get {T} `{ParseSetting T} (key : Key T) `{!TypedKey key} env pkg_id d :
  run (get env key pkg_id) d = (Ok (Some (setting_value key env d pkg_id)), d).
Proof.
  unfold get. cbv zeta. unfold mbind, sql_mbind. rewrite run_bind by (unfold lookup_setting; sql_class).
  rewrite run_lookup. unfold setting_value. destruct (level _ _ _ _) as [raw source].
  unfold parse_or_default, parse_default. destruct raw as [v|]; cbn; [|by rewrite (key_default_parses key)].
  destruct (parse_setting v); [done|]. by rewrite (key_default_parses key).
Qed.

(** ** Storing *)

Definition value_of_key (l : list settings.Model) (k : string * Z) : option string :=
  head (filter (fun row => setting_key row = k) l) ≫= settings.value.

Lemma value_in_key d key pkg_id : value_in d key pkg_id = value_of_key (t_settings d) (key, settings.scope pkg_id).
Proof.
  unfold value_in, value_of_key. f_equal. f_equal. apply list_filter_iff. intros row.
  unfold setting_row, setting_key. split; [by intros [-> ->]|]. by intros [= -> ->].
Qed.

Lemma value_of_key_map (f : settings.Model -> settings.Model) l k :
  (forall row, setting_key (f row) = setting_key row) ->
  value_of_key (f <$> l) k = (f <$> head (filter (fun row => setting_key row = k) l)) ≫= settings.value.
Proof.
  intros Hf. unfold value_of_key. f_equal. induction l as [|row l IH]; [done|].
  rewrite fmap_cons, !filter_cons. repeat case_decide; rewrite Hf in *; done.
Qed.

Lemma value_of_key_app l row k :
  value_of_key (l ++ [row]) k =
  match head (filter (fun row => setting_key row = k) l) with
  | Some found => settings.value found
  | None => if decide (setting_key row = k) then settings.value row else None
  end.
Proof.
  unfold value_of_key. rewrite filter_app, filter_cons, filter_nil.
  destruct (filter _ l) as [|found l']; [|done]. by case_decide.
Qed.

Lemma head_filter_notin l k :
  k ∉ setting_key <$> l -> head (filter (fun row => setting_key row = k) l) = None.
Proof.
  intros Hn. destruct (head (filter _ l)) as [row|] eqn:Hh; [|done].
  apply head_filter_elem in Hh as [Hin <-]. destruct Hn. by apply list_elem_of_fmap_2.
Qed.

Lemma upsert_spec l next k v l' next' :
  upsert_setting (l, next) (k, v) = (l', next') -> NoDup (setting_key <$> l) ->
  NoDup (setting_key <$> l') /\ value_of_key l' k = Some v /\
  (forall k', k' <> k -> value_of_key l' k' = value_of_key l k').
Proof.
  unfold upsert_setting. case_decide as Hin; intros [= <- <-] Hnd.
  - set (f row := if decide (setting_key row = k) then _ else row).
    assert (forall row, setting_key (f row) = setting_key row) as Hf by (intros row; unfold f; by case_decide).
    split_and!.
    + rewrite <- list_fmap_compose. by rewrite (list_fmap_ext _ setting_key) by (intros; apply Hf).
    + rewrite value_of_key_map by done. destruct (head (filter _ l)) as [row|] eqn:Hh.
      * apply head_filter_elem in Hh as [_ Hk]. cbn. unfold f. by rewrite decide_True.
      * exfalso. apply list_elem_of_fmap in Hin as (row & Hk & Hrow). by apply (head_filter_None _ _ Hh row).
    + intros k' Hne. rewrite value_of_key_map by done. unfold value_of_key.
      destruct (head (filter _ l)) as [row|] eqn:Hh; [|done].
      apply head_filter_elem in Hh as [_ Hk]. cbn. unfold f. by rewrite decide_False by congruence.
  - assert (setting_key (settings.mk next k.1 (Some v) k.2) = k) as Hk by by destruct k.
    split_and!.
    + rewrite fmap_app. apply NoDup_app. split_and!; [done| |apply NoDup_singleton].
      intros x Hx ->%list_elem_of_singleton. by rewrite Hk in Hx.
    + rewrite value_of_key_app, head_filter_notin by done. by rewrite decide_True.
    + intros k' Hne. rewrite value_of_key_app. unfold value_of_key.
      destruct (head (filter _ l)); [done|]. by rewrite decide_False by congruence.
Qed.

Lemma upserts_spec rows l next l' next' :
  foldl upsert_setting (l, next) rows = (l', next') -> NoDup (setting_key <$> l) -> NoDup rows.*1 ->
  NoDup (setting_key <$> l') /\
  (forall k v, (k, v) ∈ rows -> value_of_key l' k = Some v) /\
  (forall k, k ∉ rows.*1 -> value_of_key l' k = value_of_key l k).
Proof.
  revert l next. induction rows as [|[k v] rows IH]; intros l next; cbn [foldl].
  { intros [= <- <-] Hnd _. split_and!; [done|by intros k v ?%elem_of_nil|done]. }
  destruct (upsert_setting (l, next) (k, v)) as [l1 next1] eqn:Hu. intros Hf Hnd Hrows.
  destruct (upsert_spec _ _ _ _ _ _ Hu Hnd) as (Hnd1 & Hk & Ho). csimpl in Hrows. apply NoDup_cons in Hrows as [Hfresh Hrows].
  destruct (IH _ _ Hf Hnd1 Hrows) as (Hnd' & Hin & Hout). split_and!; [done| |].
  - intros k' v' [[= -> ->]|Hr]%elem_of_cons; [|by apply Hin]. by rewrite Hout.
  - intros k'. csimpl. rewrite not_elem_of_cons. intros [Hne Hn]. rewrite Hout by done. by apply Ho.
Qed.

Lemma value_of_key_delete l (keys : list (string * Z)) k :
  value_of_key (filter (fun row => setting_key row ∉ keys) l) k = if decide (k ∈ keys) then None else value_of_key l k.
Proof.
  unfold value_of_key. induction l as [|row l IH]; [by case_decide|].
  rewrite (filter_cons (fun row => setting_key row ∉ keys)), (filter_cons (fun row => setting_key row = k) row l).
  destruct (decide (setting_key row ∉ keys)) as [Hn|Hin].
  - rewrite filter_cons. destruct (decide (setting_key row = k)) as [<-|Hne]; [|done]. by rewrite decide_False.
  - rewrite IH. destruct (decide (setting_key row = k)) as [<-|Hne]; [|done].
    apply dec_stable in Hin. by rewrite !decide_True.
Qed.

Lemma inserts_keys changes : (inserts changes).*1 = change_key <$> filter (fun c => is_Some (ch_value c)) changes.
Proof.
  unfold inserts. induction changes as [|c l IH]; [done|]. rewrite filter_cons. cbn.
  destruct (ch_value c) as [v|]; cbn.
  - rewrite decide_True by by eexists. cbn. by f_equal.
  - by rewrite decide_False by apply is_Some_None.
Qed.

Lemma elem_of_inserts changes k v :
  (k, v) ∈ inserts changes <-> exists c, c ∈ changes /\ change_key c = k /\ ch_value c = Some v.
Proof.
  unfold inserts. rewrite list_elem_of_omap. split.
  - intros (c & Hc & He). exists c. destruct (ch_value c); naive_solver.
  - intros (c & Hc & <- & He). exists c. by rewrite He.
Qed.

Definition settings_unique (d : database) : Prop := NoDup (setting_key <$> t_settings d).

Lemma run_write changes d :
  settings_unique d -> NoDup (change_key <$> changes) -> Forall (fun c => ~ misplaced c) changes ->
  exists l next, run (write changes) d = (Ok Written, with_settings l next d) /\ NoDup (setting_key <$> l) /\
    (forall c, c ∈ changes -> value_of_key l (change_key c) = ch_value c) /\
    (forall k, k ∉ change_key <$> changes -> value_of_key l k = value_of_key (t_settings d) k).
Proof.
  intros Hu Hnd Hok.
  set (l1 := filter (fun row => setting_key row ∉ removals changes) (t_settings d)).
  assert (NoDup (setting_key <$> l1)) as Hu1.
  { eapply sublist_NoDup; [exact Hu|]. apply fmap_sublist, sublist_filter. }
  destruct (foldl upsert_setting (l1, next_setting_id d) (inserts changes)) as [l next] eqn:Hf.
  assert (NoDup (inserts changes).*1) as Hnd1.
  { rewrite inserts_keys. eapply sublist_NoDup; [exact Hnd|]. apply fmap_sublist, sublist_filter. }
  destruct (upserts_spec _ _ _ _ _ Hf Hu1 Hnd1) as (Hu' & Hin & Hout).
  assert (forall c, c ∈ changes -> change_key c ∈ (inserts changes).*1 <-> is_Some (ch_value c)) as Hins.
  { intros c Hc. rewrite list_elem_of_fmap. split.
    - intros ([k v] & Hk & (c' & Hc' & <- & Hv)%elem_of_inserts). cbn in Hk.
      rewrite (NoDup_fmap_inj_elem change_key changes c c' Hnd Hc Hc' Hk). by eexists.
    - intros [v Hv]. exists (change_key c, v). split; [done|]. apply elem_of_inserts. by exists c. }
  exists l, next. split; [|split_and!; [done| |]].
  - unfold write. assert (head (filter misplaced changes) = None) as ->.
    { destruct (head (filter _ _)) as [c|] eqn:Hh; [|done]. apply head_filter_elem in Hh as [Hc Hm].
      rewrite Forall_forall in Hok. by destruct (Hok c). }
    unfold mbind, sql_mbind. rewrite run_bind by (case_decide; unfold delete_settings; apply _).
    assert (run (if decide (removals changes = []) then mret tt else delete_settings (removals changes)) d =
      (Ok tt, with_settings l1 (next_setting_id d) d)) as ->.
    { case_decide as Hr; [|by unfold delete_settings; rewrite run_statement].
      unfold l1. rewrite Hr. rewrite filter_all; [by destruct d|]. intros x _. apply not_elem_of_nil. }
    rewrite run_bind by (case_decide; unfold insert_settings; apply _).
    case_decide as Hi; cbv beta iota.
    + rewrite Hi in Hf. by injection Hf as <- <-.
    + unfold insert_settings. rewrite run_statement. cbn [t_settings next_setting_id with_settings]. by rewrite Hf.
  - intros c Hc. destruct (ch_value c) as [v|] eqn:Hv.
    + apply Hin, elem_of_inserts. by exists c.
    + rewrite Hout; [|rewrite Hins by done; rewrite Hv; apply is_Some_None].
      unfold l1. rewrite value_of_key_delete, decide_True; [done|].
      apply list_elem_of_fmap_2, list_elem_of_filter. by rewrite Hv.
  - intros k Hk. rewrite Hout.
    + unfold l1. rewrite value_of_key_delete, decide_False; [done|].
      intros (c & -> & [_ Hc]%list_elem_of_filter)%list_elem_of_fmap. apply Hk. by apply list_elem_of_fmap_2.
    + rewrite inserts_keys. intros (c & -> & [_ Hc]%list_elem_of_filter)%list_elem_of_fmap. apply Hk. by apply list_elem_of_fmap_2.
Qed.

(** What the type of a setting reads of a value. *)
Definition reads_as (s : Setting) (v : string) : Prop :=
  match s with
  | VersionCheckInterval | JobTimeout => exists n, parse_seconds v = Some (mkSeconds n) /\ (0 < n)%Z
  | MaxArtifactSize => exists n, parse_byte_size v = Some (mkByteSize n) /\ (0 < n <= u64_max)%Z
  | BuildOnNewVersion | PersistentBuilddir | ParseNetwork => exists b, parse_bool v = Some b
  | AutoUpdateSchedule => is_off v = true \/ forall instance job, exists sch, schedule instance job v = Ok (mkJobSchedule sch None)
  | DateFormat | MakepkgConf | PacmanConf => True
  end.

(** ** The seed of a schedule *)

Definition agree {E A} (r r' : result E A) : Prop :=
  match r, r' with
  | Ok _, Ok _ => True
  | Err e, Err e' => e = e'
  | _, _ => False
  end.

Lemma results_agree_refl {E A} (r : result E A) : agree r r.
Proof. by destruct r. Qed.

Lemma agree_bind {E A B} (r r' : result E A) (f g : A -> result E B) :
  agree r r' -> (forall a a', agree (f a) (g a')) -> agree (r ≫= f) (r' ≫= g).
Proof. destruct r, r'; cbn; intros; by auto. Qed.

Lemma hashed_item_seed hashed field h h' step :
  is_Some (hashed_item hashed field h step) -> is_Some (hashed_item hashed field h' step).
Proof.
  unfold hashed_item. destruct (hashed_range hashed field) as [[low high]|]; [|by intros [? ?]]. cbn.
  case_decide; [by intros [? ?]|]. intros _. unfold range_set.
  destruct step; repeat case_decide; try lia; by eexists.
Qed.

Lemma parse_item_seed item field h h' :
  is_Some (parse_item item field h) -> is_Some (parse_item item field h').
Proof.
  unfold parse_item. destruct (split_step item) as [[base step]|]; [|done]. cbn.
  destruct (strip_h base); [apply hashed_item_seed|done].
Qed.

Lemma parse_items_seed items field h h' set set' : agree (parse_items items field h set) (parse_items items field h' set').
Proof.
  revert set set'. induction items as [|item items IH]; intros set set'; [done|]. cbn.
  pose proof (parse_item_seed item field h h') as H1. pose proof (parse_item_seed item field h' h) as H2.
  destruct (parse_item item field h) as [s|], (parse_item item field h') as [s'|]; [apply IH| | |done].
  - by destruct H1 as [? [=]]; eexists.
  - by destruct H2 as [? [=]]; eexists.
Qed.

(** Whether a text is a schedule, and why not, has nothing to do with the seed. *)
Lemma parse_seed expr seed seed' : agree (parse expr seed) (parse expr seed').
Proof.
  unfold parse. cbv zeta.
  destruct (match shortcut (trim expr) with Some _ => _ | None => _ end) as [expanded|e]; [|done]. cbn.
  repeat (case_match; try apply results_agree_refl).
  unfold parse_five, parse_field. repeat (apply agree_bind; [apply parse_items_seed|intros ? ?]). done.
Qed.

Lemma valid_reads s v : setting_valid s v = true -> reads_as s v.
Proof.
  destruct s; cbn; try done.
  - intros (n & Hn & Hpos%bool_decide_eq_true)%is_some_and_true. exists n. unfold parse_seconds. rewrite Hn. split; [done|lia].
  - intros [Hoff|Hok]%orb_true_iff; [by left|]. right. intros instance job. unfold schedule. cbv zeta.
    pose proof (parse_seed v 0 (job_seed instance (job_name job))) as Hag.
    destruct (parse v 0); [|done]. destruct (parse v _) as [sch|]; [|done]. by exists sch.
  - intros [b Hb]%bool_decide_eq_true. by exists b.
  - intros [b Hb]%bool_decide_eq_true. by exists b.
  - intros (n & Hn & Hpos%bool_decide_eq_true)%is_some_and_true. exists n. unfold parse_seconds. rewrite Hn. split; [done|lia].
  - intros (n & Hn & Hpos%bool_decide_eq_true)%is_some_and_true. exists n. unfold parse_byte_size. rewrite Hn.
    split; [done|]. apply parse_size_bound in Hn. lia.
  - intros [b Hb]%bool_decide_eq_true. by exists b.
Qed.

(** ** Properties *)

(** A setting is read from the first level that has a value: the package's, for a
    setting packages may override; the environment's; the server's; the built-in
    default. Whatever is stored or set, the read succeeds as the key's type, takes
    the default where the text of that level is not of the type, and leaves the
    database as it was. *)
Theorem settings_read_by_precedence {T} `{ParseSetting T} (key : Key T) `{!TypedKey key} env pkg_id d :
  exists entry, run (get env key pkg_id) d = (Ok (Some entry), d) /\
    let s := key_setting key in
    let text v := default (key_default key) (parse_setting v) in
    let global := (meta_env_name (meta s) ≫= env, value_in d (meta_key (meta s)) None) in
    match pkg_id ≫= fun pid => if decide (meta_scope (meta s) = Scope.Package) then value_in d (meta_key (meta s)) (Some pid) else None with
    | Some v => entry = mkEntryOf (text v) SettingSource.Package
    | None =>
        match global with
        | (Some v, _) => entry = mkEntryOf (text v) SettingSource.Env
        | (None, Some v) => entry = mkEntryOf (text v) SettingSource.Global
        | (None, None) => entry = mkEntryOf (key_default key) SettingSource.Default
        end
    end.
Proof.
  exists (setting_value key env d pkg_id). split; [apply run_get|]. cbv zeta. unfold setting_value, level.
  destruct pkg_id as [pid|]; cbn; [case_decide; [destruct (value_in _ _ (Some pid)); [done|]|]|];
    (destruct (_ ≫= env); [done|]; by destruct (value_in _ _ None)).
Qed.

(** C24. Settings are stored as asked and checked values are read back. A set of
    changes that gives a package a server-wide setting is refused whole; otherwise
    every change is in the table, every other value is as before, and each value that
    passed [Setting::validate] is the one in force for its package or, where the
    environment does not set it, for the server, and reads as the setting's type: a
    duration or a size above zero, a boolean, a schedule every instance accepts as it
    is written. *)
Theorem stored_settings_are_used changes d env :
  settings_unique d -> NoDup (change_key <$> changes) ->
  match head (filter misplaced changes) with
  | Some change => run (write changes) d = (Ok (GlobalOnly (ch_setting change)), d)
  | None =>
      exists d', run (write changes) d = (Ok Written, d') /\ settings_unique d' /\
        (forall s pkg_id, (meta_key (meta s), settings.scope pkg_id) ∉ change_key <$> changes ->
           value_in d' (meta_key (meta s)) pkg_id = value_in d (meta_key (meta s)) pkg_id) /\
        forall c, c ∈ changes ->
          value_in d' (meta_key (meta (ch_setting c))) (ch_pkg_id c) = ch_value c /\
          forall v, ch_value c = Some v -> setting_valid (ch_setting c) v = true ->
            (is_Some (ch_pkg_id c) \/ meta_env_name (meta (ch_setting c)) ≫= env = None) ->
            reads_as (ch_setting c) v /\
            run (raw_setting env (ch_setting c) (ch_pkg_id c)) d' =
              (Ok (Some (mkEntryOf v (match ch_pkg_id c with Some _ => SettingSource.Package | None => SettingSource.Global end))), d')
  end.
Proof.
  intros Hu Hnd. destruct (head (filter misplaced changes)) as [change|] eqn:Hh.
  { unfold write. rewrite Hh. apply run_ret. }
  assert (Forall (fun c => ~ misplaced c) changes) as Hok.
  { apply Forall_forall. intros c Hc Hm. by apply (head_filter_None _ _ Hh c). }
  destruct (run_write changes d Hu Hnd Hok) as (l & next & Hrun & Hu' & Hin & Hout).
  exists (with_settings l next d). split_and!; [done|done| |].
  - intros s pkg_id Hn. rewrite !value_in_key. by apply Hout.
  - intros c Hc. assert (value_in (with_settings l next d) (meta_key (meta (ch_setting c))) (ch_pkg_id c) = ch_value c) as Hval.
    { rewrite value_in_key. by apply Hin. }
    split; [done|]. intros v Hv Hvalid Hscope. split; [by apply valid_reads|]. rewrite Hv in Hval.
    unfold raw_setting. rewrite (run_get (key_of (T := string) (ch_setting c))). unfold setting_value, level. cbn [key_setting].
    destruct (ch_pkg_id c) as [pid|] eqn:Hp.
    + rewrite decide_True; [by rewrite Hval|]. rewrite Forall_forall in Hok. specialize (Hok c Hc).
      destruct (meta_scope (meta (ch_setting c))) eqn:Hs; [|done]. exfalso. apply Hok.
      split_and!; [rewrite Hp; by eexists|rewrite Hv; by eexists|done].
    + destruct Hscope as [[? Hs]| ->]; [done|]. by rewrite Hval.
Qed.

(** ** On the demonstration database *)

Definition demo_changes : list Change :=
  [mkChange JobTimeout (Some 2%Z) (Some "2h"); mkChange AutoUpdateSchedule None (Some "H H * * 1"); mkChange MaxArtifactSize None None].

Definition no_variables (_ : string) : option string := None.

Lemma stored_settings_are_used_witness :
  exists d', run (write demo_changes) demo_db = (Ok Written, d') /\
    run (raw_setting no_variables JobTimeout (Some 2%Z)) d' = (Ok (Some (mkEntryOf "2h" SettingSource.Package)), d') /\
    reads_as AutoUpdateSchedule "H H * * 1".
Proof.
  pose proof (stored_settings_are_used demo_changes demo_db no_variables
    ltac:(apply (bool_decide_unpack _); vm_compute; exact I) ltac:(apply (bool_decide_unpack _); vm_compute; exact I)) as H.
  assert (head (filter misplaced demo_changes) = None) as Hm by (vm_compute; reflexivity).
  rewrite Hm in H. destruct H as (d' & Hrun & _ & _ & Hc). exists d'. split; [exact Hrun|].
  destruct (Hc (mkChange JobTimeout (Some 2%Z) (Some "2h"))) as [_ H1]; [left|].
  destruct (Hc (mkChange AutoUpdateSchedule None (Some "H H * * 1"))) as [_ H2]; [right; left|].
  destruct (H1 "2h" eq_refl ltac:(vm_compute; reflexivity) ltac:(left; eexists; reflexivity)) as [_ Hget].
  destruct (H2 "H H * * 1" eq_refl ltac:(vm_compute; reflexivity) ltac:(right; reflexivity)) as [Hreads _].
  split; [exact Hget|exact Hreads].
Defined.
