(* ===== verification/JobDescriptor.v ===== *)
(** * What a worker is handed, and how long it may build

    [backend/aurcache-utils/src/job_config.rs] and [job_descriptor.rs]: the
    configuration a job carries and the descriptor around it, the mirrorlist withheld
    from a worker that holds it; with the worker's side of the two,
    [aurcache-worker-core/src/runner.rs] ([resolve_mirrorlist]) and [protocol.rs]
    ([Timeout]). The source store, the mirrorlist files and the digest are
    parameters. *)
From stdpp Require Import pretty.
From Stdlib Require Import Ascii.
From S2P Require Import Prelude Text Sql Schema Lists BuildStatus PkgFile ServerSettings.
From S2P Require Import Fixtures.
Open Scope string_scope.
Open Scope list_scope.

(** ** [settings::get(..).value] *)

(** A default that did not parse would panic; [run_get] shows that none does. *)
Definition get_value {T} `{ParseSetting T} (env : string -> option string) (key : Key T) `{!TypedKey key}
    (pkg_id : option Z) : DB T :=
  entry ← get env key pkg_id;
  mret (from_option entry_value (key_default key) entry).

Lemma run_get_value {T} `{ParseSetting T} env (key : Key T) `{!TypedKey key} pkg_id d :
  run (get_value env key pkg_id) d = (Ok (entry_value (setting_value key env d pkg_id)), d).
Proof.
  unfold get_value, mbind, sql_mbind. rewrite run_bind by (unfold get, lookup_setting; sql_class).
  by rewrite (run_get key).
Qed.

#[export] Instance get_value_steady {T} `{ParseSetting T} env (key : Key T) `{!TypedKey key} pkg_id :
  Steady (get_value env key pkg_id).
Proof. unfold get_value, get, lookup_setting. sql_class. Qed.

(** ** [job_config.rs] *)

Definition newline_char : ascii := "010"%char.
Definition nl : string := String newline_char "".

Definition SERVER_CONF : string := "PACKAGER='AURCache <aurcache@localhost>'" +:+ nl +:+ "OPTIONS+=(!debug)" +:+ nl.

Definition makepkg_config (user_conf : string) : string :=
  (if is_empty (trim user_conf) then ""
   else if ends_with nl user_conf then user_conf else user_conf +:+ nl) +:+ SERVER_CONF.

Definition official_repos (arch : string) : list string :=
  if decide (arch = "x86_64") then ["core"; "extra"; "multilib"]
  else if decide (arch ∈ ["aarch64"; "armv7h"]) then ["core"; "extra"; "alarm"; "aur"]
  else ["core"; "extra"].

Definition base_pacman_config (arch : string) : string :=
  foldl (fun conf repo => conf +:+ nl +:+ "[" +:+ repo +:+ "]" +:+ nl +:+ "Include = /etc/pacman.d/mirrorlist" +:+ nl)
    ("[options]" +:+ nl +:+ "DisableSandbox" +:+ nl +:+ "SigLevel = Never" +:+ nl +:+ "HoldPkg = pacman glibc" +:+ nl
       +:+ "Architecture = " +:+ arch +:+ nl)
    (official_repos arch).

Definition pacman_config (user_conf arch : string) : string :=
  if is_empty (trim user_conf) then base_pacman_config arch
  else "[options]" +:+ nl +:+ "DisableSandbox" +:+ nl +:+ user_conf.

(** [mirrorlist_for], of what reading the file gives. *)
Definition mirrorlist_for (read : string -> result string string) (arch : string) : option string :=
  match read arch with
  | Ok content => if is_empty (trim content) then None else Some content
  | Err _ => None
  end.

Record JobConfig := mkJobConfig { makepkg_conf : string; pacman_conf : string }.

Definition build_job_config (env : string -> option string) (pkg_id : Z) (arch : string) : DB JobConfig :=
  makepkg ← get_value env MAKEPKG_CONF (Some pkg_id);
  pacman ← get_value env PACMAN_CONF (Some pkg_id);
  mret (mkJobConfig (makepkg_config makepkg) (pacman_config pacman arch)).

(** ** The mirrorlist *)

Inductive MirrorlistPreference :=
| ServerLists (checksums : gmap string string)
| LocalList.

Inductive MirrorlistOffer :=
| Send (content checksum : string)
| Keep
| Nothing.

Record HeldMirrorlist := mkHeld { held_checksum : string; held_content : string }.

Section mirrorlist.
Context (sha256_hex : string -> string).

(** The server's [resolve_mirrorlist]. *)
Definition offer_mirrorlist (held : MirrorlistPreference) (arch : string) (current : option string) : MirrorlistOffer :=
  match held, current with
  | LocalList, _ | _, None => Nothing
  | ServerLists checksums, Some content =>
      let checksum := sha256_hex content in
      if decide (checksums !! arch = Some checksum) then Keep else Send content checksum
  end.

(** The worker's. *)
Definition use_mirrorlist (local : option string) (held : gmap string HeldMirrorlist) (arch : string)
    (offer : MirrorlistOffer) : option string * gmap string HeldMirrorlist :=
  match local with
  | Some local => (Some local, held)
  | None =>
      match offer with
      | Send content checksum => (Some content, <[arch := mkHeld checksum content]> held)
      | Keep => (held_content <$> held !! arch, held)
      | Nothing => (None, delete arch held)
      end
  end.

Definition mirrorlist_preference (local : option string) (held : gmap string HeldMirrorlist) : MirrorlistPreference :=
  match local with Some _ => LocalList | None => ServerLists (held_checksum <$> held) end.
End mirrorlist.

(** ** The descriptor *)

Record JobVcsSource := mkVcsSource { vs_source_url : string; vs_dir : string; vs_git_ref : string }.

Record JobDescriptor := mkJob {
  jd_build_id : Z;
  jd_pkgbase : string;
  jd_arch : string;
  jd_build_flags : list string;
  jd_persistent_builddir : bool;
  jd_makepkg_conf : string;
  jd_pacman_conf : string;
  jd_mirrorlist : MirrorlistOffer;
  jd_pgp_keys : list string;
  jd_vcs_sources : list JobVcsSource;
  jd_expected_packages : list string;
  jd_timeout_secs : option Z;
  jd_expected_version : string
}.

(** What the descriptor asks of the world around the database: the keys and [git+]
    sources the store reads of a package's source, and the mirrorlist files. *)
Class JobSources := {
  read_source : packages.Model -> result string (list string * list JobVcsSource);
  read_mirrorlist : string -> result string string;
  checksum_of : string -> string
}.

Inductive DescriptorError :=
| PackageNotFound (pkg_id : Z)
| DescriptorDb (e : DbErr).
#[export] Instance DescriptorError_from : FromDbErr DescriptorError := DescriptorDb.

Definition descriptor `{JobSources} (env : string -> option string) (build : builds.Model)
    (held : MirrorlistPreference) : Sql database DescriptorError JobDescriptor :=
  pkg ← lift (find_package_by_id (builds.pkg_id build));
  match pkg with
  | None => sql_fail (PackageNotFound (builds.pkg_id build))
  | Some pkg =>
      let arch := Platform.as_str (builds.platform build) in
      config ← lift (build_job_config env (packages.id pkg) arch);
      let mirrorlist := offer_mirrorlist checksum_of held arch (mirrorlist_for read_mirrorlist arch) in
      let '(pgp_keys, vcs_sources) := match read_source pkg with Ok read => read | Err _ => ([], []) end in
      persistent_builddir ← lift (get_value env PERSISTENT_BUILDDIR (Some (builds.pkg_id build)));
      timeout ← lift (get_value env JOB_TIMEOUT (Some (builds.pkg_id build)));
      mret (mkJob (builds.id build) (packages.name pkg) arch (packages.build_flags pkg) persistent_builddir
              (makepkg_conf config) (pacman_conf config) mirrorlist pgp_keys vcs_sources
              (expected_pkgnames pkg) (Some (seconds timeout)) (builds.version build))
  end.

(** ** The worker's clock *)

Inductive TimeoutSource := OfWorker | OfServer.

Record Timeout := mkTimeout { limit : Z; set_by : TimeoutSource }.

(** [Timeout::for_job], of the job's [timeout_secs]. *)
Definition for_job (own : option Z) (timeout_secs : option Z) : option Timeout :=
  let own := (fun limit => mkTimeout limit OfWorker) <$> own in
  let server := (fun secs => mkTimeout secs OfServer) <$> option_filter (fun secs => bool_decide (0 < secs)%Z) timeout_secs in
  match own, server with
  | Some own', Some server' => if decide (limit server' < limit own')%Z then server else own
  | Some _, None => own
  | None, _ => server
  end.

(** ** The claims of one worker *)

Section claims.
Context (sha256_hex : string -> string) (local : option string).

(** A claim, when the server's list for the build's architecture is [current]: the
    list the build uses, and what is held after. *)
Definition claim_mirrorlist (held : gmap string HeldMirrorlist) (claim : string * option string) :
    option string * gmap string HeldMirrorlist :=
  use_mirrorlist local held claim.1
    (offer_mirrorlist sha256_hex (mirrorlist_preference local held) claim.1 claim.2).

Fixpoint claims (held : gmap string HeldMirrorlist) (l : list (string * option string)) : list (option string) :=
  match l with
  | [] => []
  | claim :: l =>
      let '(used, held) := claim_mirrorlist held claim in used :: claims held l
  end.

Definition holds_lists (seen : list string) (held : gmap string HeldMirrorlist) : Prop :=
  forall arch h, held !! arch = Some h -> held_checksum h = sha256_hex (held_content h) /\ held_content h ∈ seen.

Lemma claim_current (seen : list string) held claim :
  local = None -> holds_lists seen held ->
  (forall c c', c ∈ seen -> claim.2 = Some c' -> sha256_hex c = sha256_hex c' -> c = c') ->
  (claim_mirrorlist held claim).1 = claim.2 /\
  holds_lists (option_list claim.2 ++ seen) (claim_mirrorlist held claim).2.
Proof.
  intros Hl Hh Hcol. unfold claim_mirrorlist. rewrite Hl. destruct claim as [arch [content|]]; cbn in *.
  - rewrite lookup_fmap. case_decide as Hk; cbn.
    + destruct (held !! arch) as [h|] eqn:Ha; [|done]. cbn in Hk |- *. injection Hk as Hk.
      destruct (Hh _ _ Ha) as [Hs Hin]. rewrite Hs in Hk. rewrite (Hcol _ _ Hin eq_refl Hk).
      split; [done|]. intros a x Hx. destruct (Hh _ _ Hx). split; [done|]. by right.
    + split; [done|]. intros a x. rewrite lookup_insert. case_decide as Hd.
      * intros [= <-]. cbn. split; [done|by left].
      * intros Hx. destruct (Hh _ _ Hx). split; [done|]. by right.
  - split; [done|]. intros a x. rewrite lookup_delete. case_decide; [done|]. apply Hh.
Qed.

Lemma claims_current seen held l :
  local = None -> holds_lists seen held ->
  (forall c c', c ∈ seen ++ omap snd l -> c' ∈ seen ++ omap snd l -> sha256_hex c = sha256_hex c' -> c = c') ->
  claims held l = l.*2.
Proof.
  revert seen held. induction l as [|[arch current] l IH]; intros seen held Hl Hh Hcol; [done|]. csimpl.
  destruct (claim_current seen held (arch, current) Hl Hh) as [Hused Hh'].
  { intros c c' Hc Hc'. cbn in Hc'. subst current. apply Hcol.
    - apply elem_of_app. by left.
    - apply elem_of_app. right. cbn. by left. }
  destruct (claim_mirrorlist held (arch, current)) as [used held']. cbn in *. subst used. f_equal.
  apply (IH (option_list current ++ seen)); [done|done|]. intros c c' Hc Hc'. apply Hcol.
  - destruct current; cbn in *; set_solver.
  - destruct current; cbn in *; set_solver.
Qed.
End claims.

(** C23. A build uses the mirrorlist the server has for its architecture when it is
    claimed, or the worker's own where it has one. Over any sequence of claims, with the
    server's lists rewritten, removed and put back in between, what each build uses is
    exactly what the server then had, though a list the worker holds is not sent
    again: the checksum it echoes is the one it was sent. *)
Theorem builds_use_the_current_mirrorlist (sha256_hex : string -> string) l :
  (forall c c', c ∈ omap snd l -> c' ∈ omap snd l -> sha256_hex c = sha256_hex c' -> c = c') ->
  claims sha256_hex None ∅ l = l.*2 /\
  (forall own, claims sha256_hex (Some own) ∅ l = (fun _ => Some own) <$> l) /\
  forall held arch content,
    offer_mirrorlist sha256_hex
      (mirrorlist_preference None (claim_mirrorlist sha256_hex None held (arch, Some content)).2) arch (Some content) = Keep.
Proof.
  intros Hcol. split_and!.
  - by apply (claims_current _ _ []).
  - intros own. generalize (∅ : gmap string HeldMirrorlist). induction l as [|claim l IH]; intros held; [done|].
    csimpl. rewrite IH; [done|]. intros c c' Hc Hc'. apply Hcol; cbn; destruct (snd claim); set_solver.
  - intros held arch content. unfold claim_mirrorlist. cbn.
    destruct (decide ((held_checksum <$> held) !! arch = Some (sha256_hex content))) as [Hk|Hk]; cbn.
    + by rewrite decide_True.
    + by rewrite lookup_fmap, lookup_insert_eq, decide_True.
Qed.

Lemma builds_use_the_current_mirrorlist_witness :
  claims (fun s => s) None ∅ [("x86_64", Some "a"); ("x86_64", Some "a"); ("aarch64", None); ("x86_64", Some "b"); ("x86_64", None)] =
    [Some "a"; Some "a"; None; Some "b"; None].
Proof.
  exact (proj1 (builds_use_the_current_mirrorlist (fun s => s)
    [("x86_64", Some "a"); ("x86_64", Some "a"); ("aarch64", None); ("x86_64", Some "b"); ("x86_64", None)] (fun c c' _ _ H => H))).
Defined.
