(* ===== verification/Reaper.v ===== *)
(** * The lease reaper

    [backend/aurcache-scheduler/src/lease_reaper.rs]: one pass of the loop, which reads
    how long each running build may take from the settings and takes back the builds
    that are over it or whose worker went silent; and how that limit stands to the one
    the worker itself stops a build at ([Timeout::for_job]). *)
From S2P Require Import Prelude Order BuildState Sql Schema BuildStatus Invariant Fixtures.
From S2P Require Import Leases Effects Completion CompletionSpec Registry ServerSettings JobDescriptor.
Open Scope string_scope.
Open Scope list_scope.

(** ** [build_ages] *)

Definition i64_saturating_add (a b : Z) : Z := Z.max i64_min (Z.min i64_max (a + b)).

(** The closure [age]: [i64::try_from(timeout).unwrap_or(i64::MAX).saturating_add(grace)]. *)
Definition build_age (grace timeout : Z) : Z :=
  i64_saturating_add (if decide (timeout <= i64_max)%Z then timeout else i64_max) grace.

(** [SELECT DISTINCT pkg_id FROM builds WHERE status = ACTIVE] *)
Definition running_packages (l : list builds.Model) : list Z :=
  remove_dups (builds.pkg_id <$> filter (fun b => builds.status b = Active) l).

Fixpoint package_ages (env : string -> option string) (grace : Z) (ages : BuildAges) (running : list Z) : DB BuildAges :=
  match running with
  | [] => mret ages
  | pkg_id :: running =>
      timeout ← get_value env JOB_TIMEOUT (Some pkg_id);
      package_ages env grace
        (mkAges (age_default ages) (<[pkg_id := build_age grace (seconds timeout)]> (age_by_package ages))) running
  end.

Definition build_ages (env : string -> option string) (grace : Z) : DB BuildAges :=
  server ← get_value env JOB_TIMEOUT None;
  running ← query (fun d => running_packages (t_builds d));
  package_ages env grace (ages_all (build_age grace (seconds server))) running.

(** ** The pass *)

Definition worker_names (abandoned : list Abandoned) : DB (list string) :=
  let ids := omap ab_worker_id abandoned in
  if decide (ids = []) then mret []
  else query (fun d => workers.name <$> filter (fun w => workers.id w ∈ ids) (t_workers d)).

(** [now] is the pass's, [clock] what [abandon_build] reads, [answers] what appending
    to a build's log answers. *)
Definition reap_pass (env : string -> option string) (grace max_attempts clock now : Z)
    (answers : Z -> result string unit) : Sql world DbErr () :=
  ages ← attempt (on_db (build_ages env grace));
  match ages with
  | Err _ => mret tt
  | Ok ages =>
      abandoned ← attempt (on_db (reap_expired_builds clock now max_attempts ages));
      match abandoned with
      | Err _ => mret tt
      | Ok abandoned =>
          _ ← (if decide (abandoned = []) then mret tt
               else
                 let '(retried, failed) := named_abandoned abandoned in
                 names ← attempt (on_db (worker_names abandoned));
                 emit (WorkerReaped (match names with Ok names => names | Err _ => [] end) retried failed));
          for_each (fun a => report_abandoned (answers (ab_build_id a)) a) abandoned
      end
  end.

(** ** What the ages are *)

(** A package's job timeout, in seconds, as the server reads it. *)
Definition job_timeout (env : string -> option string) (d : database) (pkg_id : option Z) : Z :=
  seconds (entry_value (setting_value JOB_TIMEOUT env d pkg_id)).

Lemma run_package_ages env grace d running ages :
  run (package_ages env grace ages running) d =
  (Ok (mkAges (age_default ages)
         (foldl (fun m pkg_id => <[pkg_id := build_age grace (job_timeout env d (Some pkg_id))]> m) (age_by_package ages) running)), d).
Proof.
  revert ages. induction running as [|pkg_id running IH]; intros ages; cbn [package_ages foldl]; [by destruct ages|].
  unfold mbind, sql_mbind. rewrite run_bind by apply _. rewrite run_get_value. by rewrite IH.
Qed.

#[export] Instance package_ages_steady env grace ages running : Steady (package_ages env grace ages running).
Proof. revert ages. induction running; intros ages; cbn [package_ages]; sql_class. Qed.

Lemma foldl_insert_lookup {A} (f : Z -> A) (l : list Z) (m : gmap Z A) k :
  foldl (fun m k => <[k := f k]> m) m l !! k = if decide (k ∈ l) then Some (f k) else m !! k.
Proof.
  revert m. induction l as [|j l IH]; intros m; cbn [foldl]; [by rewrite decide_False by apply not_elem_of_nil|].
  rewrite IH, lookup_insert. repeat case_decide; set_solver.
Qed.

Definition ages_now (env : string -> option string) (grace : Z) (d : database) : BuildAges :=
  mkAges (build_age grace (job_timeout env d None))
    (foldl (fun m pkg_id => <[pkg_id := build_age grace (job_timeout env d (Some pkg_id))]> m) ∅ (running_packages (t_builds d))).

Lemma run_build_ages env grace d : run (build_ages env grace) d = (Ok (ages_now env grace d), d).
Proof.
  unfold build_ages, mbind, sql_mbind. rewrite run_bind by apply _. rewrite run_get_value.
  rewrite run_bind by apply _. rewrite run_query. by rewrite run_package_ages.
Qed.

(** A running build's age is its package's timeout, and the grace. *)
Lemma age_running env grace d b :
  b ∈ t_builds d -> builds.status b = Active ->
  age_of (ages_now env grace d) (builds.pkg_id b) = build_age grace (job_timeout env d (Some (builds.pkg_id b))).
Proof.
  intros Hb Ha. unfold age_of, ages_now. cbn [age_default age_by_package].
  rewrite (foldl_insert_lookup (fun pkg_id => build_age grace (job_timeout env d (Some pkg_id)))).
  rewrite decide_True; [done|]. apply elem_of_remove_dups, list_elem_of_fmap_2, list_elem_of_filter. done.
Qed.

#[local] Instance reap_steady clock now n ages : Steady (reap_expired_builds clock now n ages).
Proof.
  unfold reap_expired_builds. apply bind_steady; [apply _|]. intros l. apply for_collect_steady. intros b.
  unfold reap_one. destruct (reap_reason now ages b); [|apply _]. unfold abandon_one. apply bind_steady; [apply _|intros; apply _].
Qed.

#[local] Instance worker_names_steady out : Steady (worker_names out).
Proof. unfold worker_names. cbv zeta. case_decide; apply _. Qed.

Lemma run_reap_pass env grace n clock now answers s :
  Inv (w_db s) ->
  exists out d' tr, run (reap_pass env grace n clock now answers) s = (Ok tt, World d' tr) /\
    reaped clock now (ages_now env grace (w_db s)) (w_db s) out d'.
Proof.
  intros Hd. destruct s as [d tr]. cbn [w_db] in *.
  destruct (run_reap clock now n (ages_now env grace d) d Hd) as (out & d' & Hrun & Hr).
  unfold reap_pass, mbind, sql_mbind. rewrite run_bind by (unfold build_ages; sql_class).
  rewrite run_attempt, run_on_db. cbn [w_db w_trace]. rewrite run_build_ages. cbn [fst snd].
  rewrite run_bind by apply _.
  rewrite run_attempt, run_on_db. cbn [w_db w_trace]. rewrite Hrun. cbn [fst snd].
  assert (exists tr', run (if decide (out = []) then mret tt
      else let '(retried, failed) := named_abandoned out in
           sql_bind (fun names : result DbErr (list string) =>
             emit (WorkerReaped (match names with Ok names => names | Err _ => [] end) retried failed))
             (attempt (on_db (worker_names out)))) (World d' tr) = (Ok (E := DbErr) tt, World d' tr')) as [tr' Hem].
  { case_decide; [by exists tr|]. destruct (named_abandoned out) as [retried failed].
    rewrite run_bind by apply _. rewrite run_attempt, run_on_db. cbn [w_db w_trace].
    assert ((run (worker_names out) d').2 = d') as -> by (unfold worker_names; by case_decide).
    eexists. apply run_emit. }
  rewrite run_bind by (case_decide; [|destruct (named_abandoned out)]; apply _). rewrite Hem.
  destruct (run_report_each (E := DbErr) answers out (World d' tr')) as [tr'' ->]. by exists out, d', tr''.
Qed.

(** ** Properties *)

(** C21. A pass of the reaper ends the builds that are overdue, and no others, by the
    timeout of each build's own package. Over a connection that holds: of the active
    builds, one that started longer ago than its package's job timeout and the grace
    is failed as over the maximal duration; else one whose lease is past, or that has
    none, is failed as having lost it; every other row, active or not, is as it was,
    and the invariant holds. *)
Theorem reaper_ends_the_overdue env grace n clock now answers s :
  Inv (w_db s) ->
  exists d' tr, run (reap_pass env grace n clock now answers) s = (Ok tt, World d' tr) /\ Inv d' /\
    (forall b, b ∈ t_builds (w_db s) ->
      let deadline := (now - build_age grace (job_timeout env (w_db s) (Some (builds.pkg_id b))))%Z in
      let started_before := is_some_and (fun t => bool_decide (t < deadline)%Z) (builds.start_time b) in
      let lease_lost := is_none_or (fun expires => bool_decide (expires < now)%Z) (builds.lease_expires_at b) in
      if decide (builds.status b = Active) then
        if started_before then failed_row clock MaxDuration b ∈ t_builds d'
        else if lease_lost then failed_row clock LeaseExpired b ∈ t_builds d'
        else b ∈ t_builds d'
      else b ∈ t_builds d') /\
    (forall b, b ∈ t_builds d' -> builds.status b = Active -> b ∈ t_builds (w_db s)).
Proof.
  intros Hd. destruct (run_reap_pass env grace n clock now answers s Hd) as (out & d' & tr & Hrun & Hr).
  exists d', tr. split_and!; [done|apply Hr| |].
  - intros b Hb deadline started_before lease_lost.
    case_decide as Ha; [|apply (rp_spared _ _ _ _ _ _ Hr); [done|by left]].
    assert (reap_reason now (ages_now env grace (w_db s)) b =
      if started_before then Some MaxDuration else if lease_lost then Some LeaseExpired else None) as Hreason.
    { unfold reap_reason. by rewrite (age_running env grace (w_db s) b Hb Ha). }
    destruct started_before; [by apply (rp_failed _ _ _ _ _ _ Hr)|].
    destruct lease_lost; [by apply (rp_failed _ _ _ _ _ _ Hr)|].
    apply (rp_spared _ _ _ _ _ _ Hr); [done|by right].
  - intros b Hb Ha. by apply (rp_done _ _ _ _ _ _ Hr).
Qed.

(** C22. The worker stops a build before the reaper takes it, but not where the timeout
    is zero. With a job timeout above zero, the limit the worker runs the build under
    is at most the timeout the reaper goes by, so that at the moment the worker stops
    it the reaper, which allows the grace on top, does not hold it overdue. A timeout
    of zero, which no check keeps out of the environment's variable, is no limit to the
    worker, while the reaper takes the build once the grace is over. *)
Theorem worker_stops_before_the_reaper env grace d own b started now :
  (0 < grace)%Z -> (0 <= started)%Z -> b ∈ t_builds d -> builds.status b = Active -> builds.start_time b = Some started ->
  let timeout := job_timeout env d (Some (builds.pkg_id b)) in
  (0 < timeout <= i64_max - grace ->
   exists l, for_job own (Some timeout) = Some l /\ (limit l <= timeout)%Z /\
     ((now <= started + limit l)%Z -> reap_reason now (ages_now env grace d) b <> Some MaxDuration))%Z /\
  (timeout = 0 -> (grace <= i64_max)%Z ->
   for_job own (Some timeout) = (fun l => mkTimeout l OfWorker) <$> own /\
   ((started + grace < now)%Z -> reap_reason now (ages_now env grace d) b = Some MaxDuration))%Z.
Proof.
  intros Hgrace Hstarted Hb Ha Hst timeout.
  assert (reap_reason now (ages_now env grace d) b =
    if bool_decide (started < now - build_age grace timeout)%Z then Some MaxDuration
    else if is_none_or (fun expires => bool_decide (expires < now)%Z) (builds.lease_expires_at b) then Some LeaseExpired else None)
    as ->.
  { unfold reap_reason. by rewrite (age_running env grace d b Hb Ha), Hst. }
  unfold build_age, i64_saturating_add, i64_max, i64_min. split.
  - intros Hrange. rewrite decide_True by lia.
    assert (exists l, for_job own (Some timeout) = Some l /\ (limit l <= timeout)%Z) as (l & Hl & Hle).
    { unfold for_job, option_filter. cbn. rewrite bool_decide_eq_true_2 by lia.
      destruct own as [own|]; cbn; [case_decide as Hc; eexists; (split; [done|]); cbn in *; lia|eexists; split; [done|]; cbn; lia]. }
    exists l. split_and!; [done..|]. intros Hnow. rewrite bool_decide_eq_false_2 by lia. by case_match.
  - intros Hzero Hg. rewrite Hzero. split; [by destruct own|]. intros Hnow.
    rewrite decide_True by lia. rewrite bool_decide_eq_true_2; [done|]. lia.
Qed.

Lemma reaper_ends_the_overdue_witness :
  exists d' tr, run (reap_pass (fun _ => None) 300 3 1200 1200 (fun _ => Ok tt)) (World demo_db []) = (Ok tt, World d' tr) /\
    failed_row 1200 LeaseExpired demo_active ∈ t_builds d'.
Proof.
  destruct (reaper_ends_the_overdue (fun _ => None) 300 3 1200 1200 (fun _ => Ok tt) (World demo_db []) demo_inv)
    as (d' & tr & Hrun & _ & Hb & _).
  exists d', tr. split; [exact Hrun|]. specialize (Hb demo_active ltac:(right; left)). vm_compute in Hb. exact Hb.
Defined.

Lemma worker_stops_before_the_reaper_witness :
  for_job None (Some 0%Z) = None /\
  reap_reason 1251 (ages_now (fun var => if decide (var = "JOB_TIMEOUT") then Some "0" else None) 300 demo_db) demo_active = Some MaxDuration.
Proof.
  destruct (worker_stops_before_the_reaper (fun var => if decide (var = "JOB_TIMEOUT") then Some "0" else None) 300 demo_db None
    demo_active 950 1251 ltac:(lia) ltac:(lia) ltac:(right; left) eq_refl eq_refl) as [_ Hzero].
  destruct (Hzero ltac:(vm_compute; reflexivity) ltac:(unfold i64_max; lia)) as [_ Hr].
  split; [reflexivity|]. apply Hr. lia.
Defined.
