(* ===== verification/Gate.v ===== *)
(** * How many builds a worker runs at once

    [backend/aurcache-worker-core/src/gate.rs]: a limit that can be lowered and raised
    while builds run. The two integers under the mutex change one critical section at
    a time; [tokio]'s [Notify] wakes tasks outside it, so the steps between are what
    matters: a permit dropped and its wake-up not yet sent, a task that checked and
    does not wait yet. *)
From S2P Require Import Prelude.

(** What [gate.rs] relies on of [tokio::sync::Notify]: a [Notified] that was enabled
    is woken by every later [notify_waiters], and enabling one task's leaves the
    others'. *)
Class Notify := {
  note : Type;
  fresh_note : note;
  enable : nat -> note -> note;
  notify_waiters : note -> note;
  enabled : note -> nat -> bool;
  woken : note -> nat -> bool
}.

Class NotifyLaws `{Notify} : Prop := {
  enable_enabled t n : enabled (enable t n) t = true;
  enable_other t u n : t <> u -> enabled (enable t n) u = enabled n u /\ woken (enable t n) u = woken n u;
  notify_enabled n t : enabled (notify_waiters n) t = enabled n t;
  notify_woken n t : enabled n t = true -> woken (notify_waiters n) t = true
}.

(** [State] *)
Record State := mkState { target : nat; running : nat }.

Definition new (target : nat) : State := mkState (Nat.max target 1) 0.

(** The critical section of [acquire]. *)
Definition try_acquire (s : State) : option State :=
  if decide (running s < target s) then Some (mkState (target s) (S (running s))) else None.

(** The critical section of [set_target]: whether the limit was raised. *)
Definition set_target (t : nat) (s : State) : bool * State :=
  (bool_decide (target s < t), mkState (Nat.max t 1) (running s)).

(** The critical section of [GatePermit]'s [drop]. *)
Definition release (s : State) : State := mkState (target s) (running s - 1).

Section gate.
Context `{Notify}.

(** The gate and the tasks at it: those that enabled their [Notified] and have not
    checked, those that found no room and wait, those that hold a permit, and the
    [notify_waiters] that someone is about to call. *)
Record gate := mkGate {
  state : State;
  notes : note;
  asking : gset nat;
  waiting : gset nat;
  holders : gset nat;
  owed : nat
}.

Definition start (t : nat) : gate := mkGate (new t) fresh_note ∅ ∅ ∅ 0.

Inductive gate_step : gate -> gate -> Prop :=
| step_enable t g :
    t ∉ asking g ∪ waiting g ∪ holders g ->
    gate_step g (mkGate (state g) (enable t (notes g)) ({[t]} ∪ asking g) (waiting g) (holders g) (owed g))
| step_acquired t s g :
    t ∈ asking g -> try_acquire (state g) = Some s ->
    gate_step g (mkGate s (notes g) (asking g ∖ {[t]}) (waiting g) ({[t]} ∪ holders g) (owed g))
| step_no_room t g :
    t ∈ asking g -> try_acquire (state g) = None ->
    gate_step g (mkGate (state g) (notes g) (asking g ∖ {[t]}) ({[t]} ∪ waiting g) (holders g) (owed g))
| step_woken t g :
    (** [notified.await] returns; the loop starts again. *)
    t ∈ waiting g -> woken (notes g) t = true ->
    gate_step g (mkGate (state g) (notes g) (asking g) (waiting g ∖ {[t]}) (holders g) (owed g))
| step_drop t g :
    t ∈ holders g ->
    gate_step g (mkGate (release (state g)) (notes g) (asking g) (waiting g) (holders g ∖ {[t]}) (S (owed g)))
| step_set_target t g :
    let '(raised, s) := set_target t (state g) in
    gate_step g (mkGate s (notes g) (asking g) (waiting g) (holders g)
                   (if raised then S (owed g) else owed g))
| step_notify n g :
    owed g = S n ->
    gate_step g (mkGate (state g) (notify_waiters (notes g)) (asking g) (waiting g) (holders g) n).

Record gate_ok (g : gate) : Prop := {
  go_target : 0 < target (state g);
  go_running : running (state g) = size (holders g);
  go_asking : asking g ## waiting g /\ asking g ## holders g;
  go_enabled t : t ∈ asking g ∪ waiting g -> enabled (notes g) t = true;
  go_waiting t : t ∈ waiting g -> woken (notes g) t = false ->
    target (state g) <= running (state g) \/ 0 < owed g
}.

Lemma start_ok t : gate_ok (start t).
Proof.
  split; cbn; [lia|by rewrite size_empty|set_solver..].
Qed.

Context `{!NotifyLaws}.

Lemma gate_step_ok g g' : gate_ok g -> gate_step g g' -> gate_ok g'.
Proof.
  intros Hok Hstep. pose proof Hok as [Ht Hr [Ha1 Ha2] He Hw].
  destruct Hstep as [t g Hn|t s g Hin Hs|t g Hin Hs|t g Hin Hs|t g Hin|t g|n g Ho].
  - split; simpl; [done|done|set_solver| |].
    + intros u Hu. destruct (decide (t = u)) as [->|Hne]; [by apply enable_enabled|].
      rewrite (proj1 (enable_other t u (notes g) Hne)). apply He. set_solver.
    + intros u Hu. assert (t <> u) as Hne by set_solver.
      rewrite (proj2 (enable_other t u (notes g) Hne)). by apply Hw.
  - unfold try_acquire in Hs. case_decide as Hlt; [|done]. injection Hs as <-.
    split; simpl; [done| |set_solver|set_solver|].
    + rewrite size_union by set_solver. rewrite size_singleton. lia.
    + intros u Hu Hwk. right. destruct (Hw u Hu Hwk); [lia|done].
  - unfold try_acquire in Hs. case_decide as Hlt; [done|].
    split; simpl; [done|done|set_solver|set_solver|]. intros u _ _. left. lia.
  - split; simpl; [done|done|set_solver|set_solver|]. intros u Hu. apply Hw. set_solver.
  - split; simpl; [done| |set_solver|done|].
    + rewrite size_difference by set_solver. rewrite size_singleton. lia.
    + intros u Hu Hwk. right. lia.
  - split; simpl; [lia|done|done|done|]. intros u Hu Hwk. specialize (Hw u Hu Hwk).
    case_bool_decide; [right; lia|]. destruct Hw; [left; lia|by right].
  - split; simpl; [done|done|done| |].
    + intros u Hu. rewrite notify_enabled. by apply He.
    + intros u Hu. rewrite notify_woken; [done|]. apply He. set_solver.
Qed.

(** C40. The gate admits by its limit and loses no wake-up. However acquisitions, drops
    and changes of the limit interleave: the count is of the permits held; a permit is
    given only within the limit of the moment, and lowering the limit takes none away;
    and whenever there is room, every task that waits has been woken or a wake-up is on
    its way, so none waits for ever beside a free place. *)
Theorem gate_loses_no_wakeup t g g' :
  rtc gate_step (start t) g -> gate_step g g' ->
  running (state g) = size (holders g) /\
  (running (state g) < running (state g') -> running (state g') <= target (state g')) /\
  (forall u, u ∈ waiting g -> running (state g) < target (state g) ->
     woken (notes g) u = true \/ 0 < owed g) /\
  (forall u, u ∈ holders g -> u ∈ holders g' \/ running (state g') = running (state g) - 1).
Proof.
  intros Hsteps Hstep. assert (gate_ok g) as Hok.
  { clear Hstep g'. remember (start t) as g0 eqn:Hg0. assert (gate_ok g0) as Hok by (subst; apply start_ok).
    clear Hg0. induction Hsteps as [g|g0 g1 g2 H1 _ IH]; [done|]. apply IH. by eapply gate_step_ok. }
  split_and!.
  - apply Hok.
  - destruct Hstep as [u g _|u s g Hin Hs|u g _ _|u g _ _|u g _|u g|n g _]; simpl; try lia.
    unfold try_acquire in Hs. case_decide; [|done]. injection Hs as <-. simpl. lia.
  - intros u Hu Hlt. destruct (woken (notes g) u) eqn:Hwk; [by left|]. right.
    destruct (go_waiting g Hok u Hu Hwk); [lia|done].
  - intros u Hu. destruct Hstep; simpl; try (by left); set_solver.
Qed.
End gate.

(** ** A [Notify] to evaluate with *)

(** Which tasks are enabled, and whether each was woken since. *)
Definition flags : Notify := {|
  note := gmap nat bool;
  fresh_note := ∅;
  enable t n := <[t := false]> n;
  notify_waiters n := (fun _ => true) <$> n;
  enabled n t := bool_decide (is_Some (n !! t));
  woken n t := default false (n !! t)
|}.

Lemma flags_laws : NotifyLaws (H := flags).
Proof.
  split; simpl.
  - intros t n. apply bool_decide_eq_true. rewrite lookup_insert_eq. by eexists.
  - intros t u n Hne. by rewrite lookup_insert_ne.
  - intros n t. rewrite lookup_fmap. by destruct (n !! t).
  - intros n t [b Hb]%bool_decide_eq_true. by rewrite lookup_fmap, Hb.
Qed.

(** Of two tasks at a gate for one, the second waits; the first's permit is dropped. *)
Definition demo_gate : gate (H := flags) :=
  mkGate (H := flags) (mkState 1 0) {[1 := false; 2 := false]} ∅ {[2]} ∅ 1.

Lemma demo_gate_reached : rtc (gate_step (H := flags)) (start (H := flags) 1) demo_gate.
Proof.
  eapply rtc_l; [by apply (step_enable 1)|].
  eapply rtc_l; [apply (step_acquired 1 (mkState 1 1)); [set_solver|reflexivity]|].
  eapply rtc_l; [apply (step_enable 2); vm_compute; by intros ?|].
  eapply rtc_l; [apply (step_no_room 2); [set_solver|reflexivity]|].
  eapply rtc_l; [apply (step_drop 1); simpl; set_solver|].
  replace (mkGate _ _ _ _ _ _) with demo_gate; [done|].
  unfold demo_gate. vm_compute. done.
Qed.

Lemma gate_loses_no_wakeup_witness :
  rtc (gate_step (H := flags)) (start (H := flags) 1) demo_gate /\
  (woken (Notify := flags) (notes demo_gate) 2 = true \/ 0 < owed demo_gate).
Proof.
  split; [exact demo_gate_reached|].
  destruct (gate_loses_no_wakeup (H := flags) (H0 := flags_laws) 1 demo_gate
    _ demo_gate_reached (step_notify (H := flags) 0 demo_gate eq_refl)) as (_ & _ & H & _).
  apply H; [set_solver|vm_compute; lia].
Defined.
